(* ===== verification/_CoqProject ===== *)
-Q . S2P
Prelude.v
GoStrings.v
Sha256.v
Float64.v
GoDuration.v
Labels.v
ResourceSlice.v
Inventory.v
KubeAPI.v
DeviceClass.v
Reaper.v
Operator.v
OperatorSpec.v
OperatorRun.v
Driver.v
DriverSpec.v
Lifecycle.v
Published.v
Json.v
RegistryStub.v
GoTime.v
ClientStore.v
GuestStore.v
TokenIssuer.v
DaemonConfig.v
GoPath.v
OS.v
ClientConfig.v
CDIStore.v
Version.v
Shell.v
Host.v
NodeReader.v
Libthunder.v
CDIHook.v
Plugin.v
Node.v
Nvidia.v
NodeAttributes.v
Reconcile.v
ReconcileSpec.v
Logs.v
Daemon.v
DaemonMain.v
OperatorMain.v
