(* ===== verification/Prelude.v ===== *)
(** * Thunder device plugin: a verification library

    The repository runs GPUs that live on other machines as Kubernetes
    devices.  Two programs do it.  The operator (internal/operator,
    cmd/operator) asks the Thunder API which GPUs each zone has, publishes them
    as ResourceSlices and DeviceClasses, and reaps the ThunderClient records of
    claims that are gone.  The daemon (internal/daemon, cmd/daemon), one per
    node, enrolls the node with Thunder, keeps thunderd healthy on it, and
    serves the kubelet's DRA plugin, which prepares and unprepares resource
    claims; the same binary is the CDI hook the container runtime runs to set a
    container up.

    ** How code is modelled

    Pure functions are Rocq functions with the source's names.  A function that
    calls out is a [prog] (below): the tree of its calls, each followed by
    what it does with the reply, over a signature that lists the calls of the
    interfaces it uses.  Go's [if err != nil { return wrap(err) }] is [let?]
    after a call, [let!] after a pure step and the bind of [result] between
    pure steps.  A method's receiver is a record passed in and out.  Theorems
    about a [prog] speak either of all its executions, whatever the
    environment replies ([exec], [wp]), or of its run against a model server
    with a state ([run]).  A component is put on top of those it uses by
    [link]; two goroutines are the interleavings of their executions.  [int],
    [int64] and [time.Duration] are integers with their wrap-around at 2^63
    ([int64]); strings are byte strings; the order of Go's map iteration is a
    parameter, different for every loop.

    ** Files and what they model

    - Prelude: errors, machine integers, programs and their logic, linking and
      interleaving, lemmas on lists and maps.  GoStrings: what is used of
      strings, strconv and unicode.  Sha256: crypto/sha256.  Float64: float64
      arithmetic.  GoDuration: time.ParseDuration.  GoTime: the RFC 3339 form
      of times.  Json: the text of the JSON that is written.  GoPath:
      path/filepath (and nvidia.go's [resolveNodePath]).  OS: the calls on
      files, locks and the network, a file system that answers them, and the
      hook's [writeFileAtomic] and [copyFile].
    - The operator.  Labels (resourceslice.go, deviceclass.go): DNS labels,
      names of pools, slices, devices and classes.  ResourceSlice
      (resourceslice.go, operator.go): rendering a pool as sharded slices and
      reading it back.  Inventory (inventory.go): the pools Thunder's inventory
      calls for.  KubeAPI: the objects and calls of the Kubernetes API, and a
      server.  DeviceClass (deviceclass.go): one class per GPU type.  Reaper
      (clients.go): the clients of vanished claims.  Operator, OperatorSpec
      (operator.go): [Sync] and its properties.  OperatorRun (config.go,
      operator.go): the configuration, [New] and [Run].  OperatorMain
      (cmd/operator): the process.  RegistryStub
      (hack/thunder-registry-stub.go): the stand-in for the Thunder API it is
      tested against.
    - Claims.  Driver, DriverSpec (daemon/driver.go): preparing and unpreparing
      claims over the four stores; Lifecycle: the same against stores with a
      state; Published: the driver on what the operator publishes.
      ClientStore, GuestStore, CDIStore (store.go) and TokenIssuer
      (driver.go): those stores.  ClientConfig (clientconfig.go): the exchange
      of a token for a client's configuration.  Libthunder (libthunder.go):
      the cached library.  CDIHook (cdihook.go): what is done to a container.
      Plugin (runtime.go's [startDRAPlugin], start.go): the driver and its
      stores out of the configuration.  Node: driver, stores and hook together.
    - The node.  DaemonConfig (config.go): the configuration.  Version
      (version.go, runner.go): what the build is called, the commands that are
      run and the lines of their output.  Shell (store.go's [shellQuote] and
      the shell's reading of it).  Host (node.go, status.go, runner.go's
      interface): the calls of the reconcile loop.  NodeReader (node.go): the
      request for the node object.  Nvidia (nvidia.go): the checks before an
      enrollment.  NodeAttributes (runtime.go): a node's zone, address and
      Thunder zone.  Reconcile, ReconcileSpec (reconcile.go, status.go): the
      reconcile loop.  Logs (logs.go): following thunderd's logs.  Daemon
      (runtime.go's [run]): the loop over its real services, next to the log
      follower.  DaemonMain (cmd/daemon): the process, daemon or hook.

    The operator's [Sync] calls Inventory for the wanted pools, ResourceSlice
    to render them, DeviceClass and Reaper; its state is the cache of
    published pools and the orphans' first sightings.  The daemon's loop calls
    NodeAttributes, Nvidia and the services of Host; its state is the record
    [reconciler].  The driver's state is all in its stores: the records and
    Secrets in the API server, the specs and token files on the node, where
    the hook adds the configuration it got for the token.

    ** What the theorems show

    - Operator: against a server, one [Sync] leaves exactly the slices and
      classes the inventory calls for ([Sync_converges]), another changes
      nothing and a steady one writes nothing ([Sync_idempotent],
      [Sync_steady_quiet]), so that [Run] settles at its first synchronisation
      ([Run_settles]); a pool that fails does not stop the others
      ([pool_failures_isolated]); generations grow when a pool changes
      ([nextGeneration_bumps]); the pools are the exact product of GPUs and
      target rounded down, where float64 does not round it up to the next
      integer first ([buildDesiredPools_spec], [f64_mul_floor]); slices partition a pool into valid names and
      can be read back ([slices_partition_pool], [slices_names_valid],
      [definition_roundtrip]); classes converge
      ([syncDeviceClasses_converges]); the reaper never touches a client
      whose claim lives, revokes before it deletes and waits out the grace
      period ([reaper_safety], [reaper_pass]); without one to reap the operator
      only reads what the stub of the Thunder API serves
      ([stub_operator_only_reads]); the process ends only as it should
      ([operator_process], [ConfigFromEnv_spec]).
    - Driver: a prepare that fails releases what it acquired, one that
      succeeds holds exactly one of each ([prepareOne_all_or_nothing],
      [prepareOne_atomic]); it is idempotent; an unprepare forgets a claim only
      after everything held for it is revoked and removed
      ([unprepareOne_safe], [prepare_unprepare]); what is prepared is what was
      allocated ([decodeAllocation_sound]), and after a [Sync] a claim on a
      pool decodes to the zone and type of the inventory
      ([published_claim_decodes]).
    - Stores: the record store implements a plain map of records
      ([store_refines]), keeps others' finalizers and deletes only what it
      released ([store_writes]), and reads back what it wrote
      ([client_roundtrip]); a Secret and a CDI device come and go without a
      trace ([guest_lifecycle], [cdi_lifecycle]).
    - Hook: it reads back the arguments the CDI spec has ([hook_process],
      [hook_args_roundtrip]), works under the claim's lock ([hook_exclusive]),
      enrolls a claim once and reuses the configuration ([config_reused]) with
      a bounded number of attempts ([exchange_bounded]), and stages what a
      container needs ([hook_stages]); only verified builds of the library
      reach the cache ([ensure_verified]).
    - A claim on a node: prepare, any number of containers and unprepare leave
      the Thunder account, the cluster and the node as they were
      ([node_claim_lifecycle]).
    - Reconcile loop: a check of the node refines a small repair machine
      ([ensureEnrolled_refines]); no node stays broken without repairs for
      long ([broken_node_repaired]); nothing is done to a node that reads
      healthy and the installer only runs on a checked node with a fresh token
      ([reconcile_safety]); counters never wrap; the loop is passes and the
      waits between them, and ends only on cancellation
      ([loop_only_cancelled], [reconcileBackoff_spec], [logs_followed]); zones are created only
      when missing and all daemons pick the same one
      ([ensureThunderZone_sound], [smallest_zone_agrees]); the node is read
      with the account's token over a checked connection ([fetch_node_safe]).
    - The daemon: whatever happens in its life, it runs nothing on the node
      but its own commands, with the node's labels as single words
      ([daemon_commands]), and starts the kubelet plugin once, wired as
      configured and in a zone Thunder listed for the zone name the node has
      by then ([daemon_plugin_once], [startDRAPlugin_wiring], [plugin_started_once]);
      version order, path containment, shell quoting, configuration.

    ** Parameters, hypotheses, bounds

    [LibErrors] are the error predicates of apimachinery and of the SDK,
    [FileErrors] that of package os, [UnicodeTables] case mapping and quoting
    outside ASCII, [MapOrder] map iteration orders, [FloatConversion] the
    conversion of an out-of-range float64, [HostLibs] the SDK's installer
    command and encoding/json on the two documents the daemon reads,
    [HookJSON] the same on those of the hook, [ClientCommands] the SDK's
    command for guests, [Certificates] whether a text holds a certificate,
    [StubLibs] encoding/json on the stub's file and net/http's answer to
    requests that match no pattern.
    The model servers answer as documented: a get of a name that is absent is
    not found, a create of one that is present conflicts, revoking what is
    unknown is not found ([ServerErrors], [FileServerErrors],
    [AccountErrors]); the file system may refuse any call.

    Fuel is the number of passes of the daemon's loop, of streams of the log
    follower and of ticks of the operator's, and the theorems say that each
    makes that many unless it is cancelled; the parser of durations has as
    much as the text is long, which is enough ([parse_units_fuel]); every other
    recursion is structural.  [broken_node_repaired]'s bounds are those of the
    code's thresholds: 30 settling checks and 2 of grace before a repair (33rd
    at the latest), twice for the restarts it may try first (99th at the
    latest); counters are exact for fewer than 2^63 passes.

    A theorem about the model API server or the model file system says in its
    comment what the server holds and which calls are not refused.  What can
    go wrong where such a condition fails is shown by examples next to it:
    [unlabelled_pool_churns] for zones that are no DNS labels,
    [oversubscribed_rounds_up] for products just below an integer,
    [leftover_temporary] and [own_store_replaced] for refused calls.

    ** Not modelled

    Log lines other than the output of commands that is republished, [Driver]'s
    [HandleError], which only logs, and [Quantity], which nothing
    calls.  Starting a process, the pipe that
    carries its output, TLS, and the bodies of HTTP requests are calls.  Flag
    parsing, signals and the construction of API clients in the mains are
    calls or arguments.  The mutex inside one libthunder cache, which has one
    user. *)

From stdpp Require Export base gmap sets list strings pretty sorting.
From stdpp Require Export options.
From Stdlib Require Ascii.
Export (notations) Stdlib.Strings.Ascii.
Export Stdlib.Strings.Ascii (ascii(..)).

(* -------------------------------------------------------------------- *)
(** ** Errors and results *)

(** A Go [error] value.  [ErrText] is [errors.New] or [fmt.Errorf] without
    [%w]; [ErrWrap pre e post] is [fmt.Errorf] with one [%w] between the
    texts [pre] and [post]; [ErrRetryable] is the daemon's [retryableError]
    wrapper; [ErrAPI] is the SDK's [*thunder.APIError] with its status
    code; [ErrLib] is an error value a library made, known by its text
    only; [ErrJoin] is [errors.Join]. *)
Inductive error :=
  | ErrNotFound
  | ErrText (msg : string)
  | ErrWrap (pre : string) (e : error) (post : string)
  | ErrRetryable (e : error)
  | ErrAPI (status : Z) (msg : string)
  | ErrLib (msg : string)
  | ErrJoin (e1 e2 : error).

(** What a fallible Go function returns: a value, or a non-nil error. *)
Inductive result (A : Type) :=
  | Ok (a : A)
  | Err (e : error).
Arguments Ok {A} _.
Arguments Err {A} _.

(** Go's [if err != nil { return ..., err }] between pure steps. *)
#[global] Instance result_ret : MRet result := λ _ a, Ok a.
#[global] Instance result_bind : MBind result := λ _ _ f r,
  match r with Ok a => f a | Err e => Err e end.

(** [fmt.Errorf("ctx: %w", err)]. *)
Definition wrap (ctx : string) (e : error) : error := ErrWrap (ctx +:+ ": ") e "".

(** The [Error()] method. *)
Fixpoint error_text (e : error) : string :=
  match e with
  | ErrNotFound => "not found"
  | ErrText msg | ErrAPI _ msg | ErrLib msg => msg
  | ErrWrap pre e post => pre +:+ error_text e +:+ post
  | ErrRetryable e => error_text e
  | ErrJoin e1 e2 => error_text e1 +:+ String "010"%char "" +:+ error_text e2
  end.

(** [errors.Is(err, ErrNotFound)]: the sentinel anywhere in the chain. *)
Fixpoint is_not_found (e : error) : bool :=
  match e with
  | ErrNotFound => true
  | ErrWrap _ e _ | ErrRetryable e => is_not_found e
  | ErrJoin e1 e2 => is_not_found e1 || is_not_found e2
  | _ => false
  end.

Definition is_ok {A} (r : result A) : bool :=
  match r with Ok _ => true | Err _ => false end.

(** [errors.Join(errs...)]: nil when every element is. *)
Fixpoint errors_join (es : list error) : option error :=
  match es with
  | [] => None
  | e :: es =>
      match errors_join es with
      | None => Some e
      | Some e' => Some (ErrJoin e e')
      end
  end.

(** What the program asks of an error value a library made: the predicates
    of k8s.io/apimachinery/pkg/api/errors and of the Thunder SDK. *)
Class LibErrors := {
  kube_is_not_found : error → bool;
  kube_is_already_exists : error → bool;
  thunder_is_not_found : error → bool;
  thunder_is_conflict : error → bool
}.

(** Predicates for concrete runs: HTTP status codes. *)
Definition status_errors : LibErrors :=
  let has code e := match e with ErrAPI s _ => bool_decide (s = code) | _ => false end in
  {| kube_is_not_found := has 404%Z; kube_is_already_exists := has 409%Z;
     thunder_is_not_found := has 404%Z; thunder_is_conflict := has 409%Z |}.

(** Go leaves the order of [for k, v := range m] over a map unspecified: an
    arbitrary permutation, which may differ from one loop ([site]) to the
    next.  Every theorem holds for all of them. *)
Class MapOrder := {
  map_order {A} : string → list A → list A;
  map_order_perm {A} site (l : list A) : map_order site l ≡ₚ l
}.

(** An order for concrete runs. *)
Definition listed_order : MapOrder :=
  {| map_order _ _ l := l; map_order_perm _ _ _ := Permutation_refl _ |}.

(* -------------------------------------------------------------------- *)
(** ** Machine integers *)

Definition max_int64 : Z := 9223372036854775807.
Definition min_int64 : Z := -9223372036854775808.

(** The value an [int64] (or a 64-bit [int]) holds after arithmetic whose
    exact value is [z]. *)
Definition int64 (z : Z) : Z := (z + 2^63) `mod` 2^64 - 2^63.
#[global] Arguments int64 : simpl never.

Definition in_int64 (z : Z) : Prop := (min_int64 ≤ z ≤ max_int64)%Z.

(* -------------------------------------------------------------------- *)
(** ** Programs

    A Go function that calls out (to the Kubernetes API, the Thunder API,
    the file system, another component's interface) is a [prog]: the tree of
    its calls, each followed by a continuation on the reply.  A signature
    lists the calls an interface offers and the type of each reply. *)
Record sig := Sig { ev : Type; resp : ev → Type }.

Inductive prog (S : sig) (A : Type) : Type :=
  | Ret (a : A)
  | Call (e : ev S) (k : resp S e → prog S A).
Arguments Ret {S A} _.
Arguments Call {S A} _ _.

Definition call {S : sig} (e : ev S) : prog S (resp S e) := Call e Ret.

#[global] Instance prog_ret {S} : MRet (prog S) := λ _ a, Ret a.

Fixpoint prog_bind_def {S A B} (f : A → prog S B) (p : prog S A) : prog S B :=
  match p with
  | Ret a => f a
  | Call e k => Call e (λ r, prog_bind_def f (k r))
  end.
#[global] Instance prog_bind {S} : MBind (prog S) := λ _ _ f p, prog_bind_def f p.

(** Go's [if err != nil { return ..., wrap(err) }] after a call. *)
Definition orfail {S A B} (w : error → error) (f : A → prog S (result B))
    (p : prog S (result A)) : prog S (result B) :=
  p ≫= λ r, match r with Ok a => f a | Err e => Ret (Err (w e)) end.

(** The same on a pure fallible step. *)
Definition orfail_pure {S A B} (w : error → error) (f : A → prog S (result B))
    (r : result A) : prog S (result B) :=
  match r with Ok a => f a | Err e => Ret (Err (w e)) end.

Declare Scope go_scope.
Delimit Scope go_scope with go.
Notation "'let?' x := m 'or' w 'in' k" := (orfail w (λ x, k) m)
  (at level 10, x pattern, m at level 100, w at level 100, k at level 200) : go_scope.
Notation "'let!' x := m 'or' w 'in' k" := (orfail_pure w (λ x, k) m)
  (at level 10, x pattern, m at level 100, w at level 100, k at level 200) : go_scope.
#[global] Open Scope go_scope.

(** One call of a run with the reply it got. *)
Record event (S : sig) := Ev { evt_call : ev S; evt_reply : resp S evt_call }.
Arguments Ev {S} _ _.
Arguments evt_call {S} _.
Arguments evt_reply {S} _.

(** [exec p tr a]: [p] can run with exactly the calls and replies of [tr] and
    return [a].  Replies are unconstrained, so this covers every behaviour of
    the environment. *)
Fixpoint exec {S A} (p : prog S A) (tr : list (event S)) (a : A) : Prop :=
  match p with
  | Ret x => tr = [] ∧ a = x
  | Call e k => ∃ r tr', tr = Ev e r :: tr' ∧ exec (k r) tr' a
  end.

(** [Q] holds of every run of [p]. *)
Fixpoint all_runs {S A} (p : prog S A) (Q : list (event S) → A → Prop) : Prop :=
  match p with
  | Ret x => Q [] x
  | Call e k => ∀ r, all_runs (k r) (λ tr a, Q (Ev e r :: tr) a)
  end.

(** Every call [p] makes is allowed by [G], which sees the call and everything
    that happened before ([pre]), and [Q] holds of the history and the value
    at the end, whatever the replies. *)
Fixpoint wp {S A} (G : list (event S) → ev S → Prop) (pre : list (event S)) (p : prog S A)
    (Q : list (event S) → A → Prop) : Prop :=
  match p with
  | Ret x => Q pre x
  | Call e k => G pre e ∧ ∀ r, wp G (pre ++ [Ev e r]) (k r) Q
  end.

(** An environment with a state of type [W] that answers every call. *)
Definition handler (S : sig) (W : Type) := ∀ e : ev S, W → resp S e * W.

Fixpoint run {S W A} (h : handler S W) (p : prog S A) (w : W) : A * W :=
  match p with
  | Ret a => (a, w)
  | Call e k => let '(r, w') := h e w in run h (k r) w'
  end.

Fixpoint trace {S W A} (h : handler S W) (p : prog S A) (w : W) : list (event S) :=
  match p with
  | Ret _ => []
  | Call e k => let '(r, w') := h e w in Ev e r :: trace h (k r) w'
  end.

(** Linking a client of interface [S] with an implementation of [S] written
    over [T]. *)
Fixpoint link {S T A} (f : ∀ e : ev S, prog T (resp S e)) (p : prog S A) : prog T A :=
  match p with
  | Ret a => Ret a
  | Call e k => f e ≫= λ r, link f (k r)
  end.

(** A program that uses two interfaces calls the disjoint sum of their
    signatures; [lift_l] and [lift_r] embed a program that uses one. *)
Definition sig_sum (S T : sig) : sig :=
  Sig (ev S + ev T) (λ e, match e with inl e => resp S e | inr e => resp T e end).
Definition lift_l {S T A} (p : prog S A) : prog (sig_sum S T) A :=
  link (T:=sig_sum S T) (λ e, call (S:=sig_sum S T) (inl e)) p.
Definition lift_r {S T A} (p : prog T A) : prog (sig_sum S T) A :=
  link (T:=sig_sum S T) (λ e, call (S:=sig_sum S T) (inr e)) p.

(** Two environments side by side. *)
Definition handler_sum {S T W} (h1 : handler S W) (h2 : handler T W) : handler (sig_sum S T) W :=
  λ e, match e with inl e => h1 e | inr e => h2 e end.

(* -------------------------------------------------------------------- *)
(** ** Lemmas *)

Lemma int64_id z : in_int64 z → int64 z = z.
Proof. unfold in_int64, int64, min_int64, max_int64. intros. rewrite Z.mod_small; lia. Qed.

Lemma int64_range z : in_int64 (int64 z).
Proof.
  unfold in_int64, int64, min_int64, max_int64.
  pose proof (Z.mod_pos_bound (z + 2^63) (2^64)). lia.
Qed.

Lemma prog_bind_ret_l {S A B} (f : A → prog S B) (a : A) : (Ret a ≫= f) = f a.
Proof. done. Qed.

Lemma prog_bind_call {S A B} (f : A → prog S B) e (k : resp S e → prog S A) :
  (Call e k ≫= f) = Call e (λ r, k r ≫= f).
Proof. done. Qed.

Lemma all_runs_exec {S A} (p : prog S A) Q :
  all_runs p Q ↔ ∀ tr a, exec p tr a → Q tr a.
Proof.
  revert Q. induction p as [x|e k IH]; intros Q; simpl.
  - split; [by intros ? tr a [-> ->]|by intros H; apply H].
  - setoid_rewrite IH. split.
    + intros H tr a (r & tr' & -> & Hk). by apply (H r).
    + intros H r tr a Hk. apply H. eauto.
Qed.

Lemma exec_bind {S A B} (p : prog S A) (f : A → prog S B) tr b :
  exec (p ≫= f) tr b ↔ ∃ tr1 a tr2, tr = tr1 ++ tr2 ∧ exec p tr1 a ∧ exec (f a) tr2 b.
Proof.
  revert tr. induction p as [x|e k IH]; intros tr.
  - split; [intros Hx; by exists [], x, tr|]. by intros (? & ? & ? & -> & [-> ->] & Hx).
  - change (Call e k ≫= f) with (Call e (λ r, k r ≫= f)). cbn [exec]. setoid_rewrite IH. split.
    + intros (r & ? & -> & tr1 & a & tr2 & -> & Hp & Hf). exists (Ev e r :: tr1), a, tr2. eauto 8.
    + intros (? & a & tr2 & -> & (r & tr1 & -> & Hp) & Hf). exists r, (tr1 ++ tr2). eauto 8.
Qed.

Lemma all_runs_mono {S A} (p : prog S A) (Q1 Q2 : list (event S) → A → Prop) :
  (∀ tr a, Q1 tr a → Q2 tr a) → all_runs p Q1 → all_runs p Q2.
Proof. rewrite !all_runs_exec. intros HQ H tr a Hx. apply HQ, H, Hx. Qed.

Lemma all_runs_bind {S A B} (p : prog S A) (f : A → prog S B) Q :
  all_runs (p ≫= f) Q ↔
  all_runs p (λ tr a, all_runs (f a) (λ tr' b, Q (tr ++ tr') b)).
Proof.
  revert Q. induction p as [x|e k IH]; intros Q; [done|].
  change (Call e k ≫= f) with (Call e (λ r, k r ≫= f)). simpl.
  setoid_rewrite IH. done.
Qed.

Lemma wp_bind {S A B} G pre (p : prog S A) (f : A → prog S B) Q :
  wp G pre (p ≫= f) Q ↔ wp G pre p (λ pre' a, wp G pre' (f a) Q).
Proof.
  revert pre. induction p as [x|e k IH]; intros pre; [done|].
  change (Call e k ≫= f) with (Call e (λ r, k r ≫= f)). simpl. by setoid_rewrite IH.
Qed.

Lemma wp_call_bind {S B} G pre (e : ev S) (f : resp S e → prog S B) Q :
  G pre e → (∀ r, wp G (pre ++ [Ev e r]) (f r) Q) → wp G pre (call e ≫= f) Q.
Proof. by split. Qed.

Lemma elem_of_last {A} (l : list A) x : x ∈ l ++ [x].
Proof. apply elem_of_app. right. by left. Qed.

Lemma wp_ret {S A} G pre (a : A) Q : Q pre a → wp (S:=S) G pre (mret a) Q.
Proof. done. Qed.

(** The history only grows. *)
Lemma wp_strengthen {S A} G pre (p : prog S A) Q1 Q2 :
  wp G pre p Q1 → (∀ pre' a, pre ⊆ pre' → Q1 pre' a → Q2 pre' a) → wp G pre p Q2.
Proof.
  revert pre. induction p as [x|e k IH]; intros pre; simpl; [by intros ? HQ; apply HQ|].
  intros [HG Hk] HQ. split; [done|]. intros r. eapply IH; [apply Hk|].
  intros pre' a Hpre. apply HQ. set_solver.
Qed.

Lemma wp_sound {S A} G pre (p : prog S A) Q tr a : wp G pre p Q → exec p tr a →
  Q (pre ++ tr) a ∧
  ∀ tr1 e r tr2, tr = tr1 ++ Ev e r :: tr2 → G (pre ++ tr1) e.
Proof.
  revert pre tr. induction p as [x|e k IH]; intros pre tr; simpl.
  - intros HQ [-> ->]. rewrite app_nil_r. split; [done|]. by intros [|??] ? ? ?.
  - intros [HG Hk] (r & tr' & -> & Hx). destruct (IH _ _ _ (Hk r) Hx) as [HQ Hall].
    rewrite <-app_assoc in HQ. split; [done|].
    intros [|e1 tr1] e2 r2 tr2; simpl.
    + intros Heq. inversion Heq; subst. by rewrite app_nil_r.
    + intros [= <- Htr]. specialize (Hall _ _ _ _ Htr). by rewrite <-app_assoc in Hall.
Qed.

Lemma run_bind {S W A B} (h : handler S W) (p : prog S A) (f : A → prog S B) w :
  run h (p ≫= f) w = let '(a, w') := run h p w in run h (f a) w'.
Proof.
  revert w. induction p as [x|e k IH]; intros w; [done|].
  change (Call e k ≫= f) with (Call e (λ r, k r ≫= f)). simpl.
  destruct (h e w) as [r w']. apply IH.
Qed.

(** A handler run is one of the program's executions. *)
Lemma run_exec {S W A} (h : handler S W) (p : prog S A) w :
  exec p (trace h p w) (run h p w).1.
Proof.
  revert w. induction p as [x|e k IH]; intros w; simpl; [done|].
  destruct (h e w) as [r w']. eauto.
Qed.

Lemma all_runs_run {S W A} (h : handler S W) (p : prog S A) Q w :
  all_runs p Q → Q (trace h p w) (run h p w).1.
Proof. rewrite all_runs_exec. eauto using run_exec. Qed.

Lemma trace_bind {S W A B} (h : handler S W) (p : prog S A) (f : A → prog S B) w :
  trace h (p ≫= f) w = trace h p w ++ trace h (f (run h p w).1) (run h p w).2.
Proof.
  revert w. induction p as [x|e k IH]; intros w; [done|].
  change (Call e k ≫= f) with (Call e (λ r, k r ≫= f)). simpl.
  destruct (h e w) as [r w']. simpl. by rewrite IH.
Qed.

(** A relation the allowed calls respect holds between the states before and
    after a run. *)
Lemma wp_run_preserves {S W A} (G : list (event S) → ev S → Prop) (R : W → W → Prop)
    `{!PreOrder R} (h : handler S W) pre (p : prog S A) Q w :
  (∀ pre e w, G pre e → R w (h e w).2) → wp G pre p Q → R w (run h p w).2.
Proof.
  intros HG. revert pre w. induction p as [x|e k IH]; intros pre w; simpl; [done|].
  intros [Hc Hk]. specialize (HG pre e w Hc). destruct (h e w) as [r w'].
  etrans; [exact HG|]. eapply IH, Hk.
Qed.

Lemma wp_trace {S W A} (P : ev S → Prop) (h : handler S W) pre (p : prog S A) Q w :
  wp (λ _, P) pre p Q → Forall (λ x, P (evt_call x)) (trace h p w).
Proof.
  revert pre w. induction p as [x|e k IH]; intros pre w; simpl; [done|].
  intros [Hc Hk]. destruct (h e w) as [r w']. constructor; [done|]. eapply IH, Hk.
Qed.

(** What holds of a program on its own holds of it after others. *)
Lemma wp_shift {S A} (G1 G2 : list (event S) → ev S → Prop) pre pre1 (p : prog S A) Q :
  wp G1 pre1 p Q → (∀ pre1 e, G1 pre1 e → G2 (pre ++ pre1) e) →
  wp G2 (pre ++ pre1) p (λ _ _, True).
Proof.
  intros Hp HG. revert pre1 Hp. induction p as [x|e k IH]; intros pre1; [done|].
  intros [He Hk]. split; [by apply HG|]. intros r. rewrite <-app_assoc. apply IH, Hk.
Qed.

(** A program that makes no other calls than those of [P], whatever the
    replies. *)
Definition calls_only {S A} (P : ev S → Prop) (p : prog S A) : Prop := wp (λ _, P) [] p (λ _ _, True).

Lemma calls_only_any {S A} (P : ev S → Prop) pre (p : prog S A) :
  calls_only P p → wp (λ _, P) pre p (λ _ _, True).
Proof.
  unfold calls_only. generalize (@nil (event S)). intros pre'. revert pre pre'.
  induction p as [x|e k IH]; intros pre pre'; [done|]. intros [He Hk]. split; [done|].
  intros r. eapply IH, Hk.
Qed.
Lemma calls_only_bind {S A B} (P : ev S → Prop) (p : prog S A) (f : A → prog S B) :
  calls_only P p → (∀ a, calls_only P (f a)) → calls_only P (p ≫= f).
Proof.
  intros Hp Hf. unfold calls_only. rewrite wp_bind. eapply wp_strengthen; [exact Hp|].
  intros pre' a _ _. apply calls_only_any, Hf.
Qed.
Lemma calls_only_call {S} (P : ev S → Prop) e : P e → calls_only P (call e).
Proof. by split. Qed.
Lemma calls_only_lift_l {S T A} (P : ev (sig_sum S T) → Prop) (p : prog S A) :
  calls_only (λ e, P (inl e)) p → calls_only P (lift_l p).
Proof.
  unfold calls_only, lift_l. generalize (@nil (event S)) (@nil (event (sig_sum S T))).
  induction p as [x|e k IH]; intros pre pre'; [done|]. intros [He Hk]. split; [done|].
  intros r. cbn. eapply IH, Hk.
Qed.
Lemma wp_weaken {S A} (G1 G2 : list (event S) → ev S → Prop) pre (p : prog S A) Q :
  (∀ pre e, G1 pre e → G2 pre e) → wp G1 pre p Q → wp G2 pre p Q.
Proof. intros HG. revert pre. induction p as [x|e k IH]; intros pre; simpl; [done|]. naive_solver. Qed.

(** Running a linked program is running the client against the handler the
    implementation induces. *)
Lemma run_link {S T W A} (f : ∀ e : ev S, prog T (resp S e)) (h : handler T W)
    (p : prog S A) w :
  run h (link f p) w = run (λ e w, run h (f e) w) p w.
Proof.
  revert w. induction p as [x|e k IH]; intros w; [done|].
  simpl. rewrite run_bind. destruct (run h (f e) w) as [r w']. apply IH.
Qed.

Lemma run_lift_l {S T W A} (h1 : handler S W) (h2 : handler T W) (p : prog S A) w :
  run (handler_sum h1 h2) (lift_l p) w = run h1 p w.
Proof.
  unfold lift_l. rewrite run_link.
  revert w. induction p as [x|e k IH]; intros w; simpl; [done|].
  destruct (h1 e w). apply IH.
Qed.

(** A program that only acts on one part of the state: its run is one on that
    part.  [P] are the calls it makes. *)
Lemma run_link_part {S T W X A} (f : ∀ e : ev S, prog T (resp S e)) (h : handler T W) (hx : handler S X)
    (get : W → X) (put : X → W → W) (P : ev S → Prop) pre (p : prog S A) Q w :
  (∀ x w, get (put x w) = x) → (∀ x y w, put x (put y w) = put x w) → (∀ w, put (get w) w = w) →
  (∀ e w, P e → run h (f e) w = let '(r, x) := hx e (get w) in (r, put x w)) →
  wp (λ _, P) pre p Q →
  run h (link f p) w = let '(a, x) := run hx p (get w) in (a, put x w).
Proof.
  intros Hgp Hpp Hpg Hf. revert pre w. induction p as [a|e k IH]; intros pre w; cbn [link run].
  { by rewrite Hpg. }
  intros [He Hk]. rewrite run_bind, Hf by done. destruct (hx e (get w)) as [r x].
  rewrite (IH r _ _ (Hk r)), Hgp. destruct (run hx (k r) x) as [a y]. by rewrite Hpp.
Qed.
Lemma run_link_part_all {S T W X A} (f : ∀ e : ev S, prog T (resp S e)) (h : handler T W)
    (hx : handler S X) (get : W → X) (put : X → W → W) (p : prog S A) w :
  (∀ x w, get (put x w) = x) → (∀ x y w, put x (put y w) = put x w) → (∀ w, put (get w) w = w) →
  (∀ e w, run h (f e) w = let '(r, x) := hx e (get w) in (r, put x w)) →
  run h (link f p) w = let '(a, x) := run hx p (get w) in (a, put x w).
Proof.
  intros Hgp Hpp Hpg Hf. revert w. induction p as [a|e k IH]; intros w; cbn [link run].
  { by rewrite Hpg. }
  rewrite run_bind, Hf. destruct (hx e (get w)) as [r x]. rewrite IH, Hgp.
  destruct (run hx (k r) x) as [a y]. by rewrite Hpp.
Qed.

(** The executions of an embedded program are those of the program. *)
Definition event_l {S T} (x : event S) : event (sig_sum S T) :=
  match x with Ev e r => Ev (S:=sig_sum S T) (inl e) r end.

Lemma exec_lift_l {S T A} (p : prog S A) tr a :
  exec (lift_l (T:=T) p) tr a ↔ ∃ tr', tr = event_l <$> tr' ∧ exec p tr' a.
Proof.
  revert tr. induction p as [x|e k IH]; intros tr.
  - split; [intros [-> ->]; by exists []|]. by intros (? & -> & -> & ->).
  - unfold lift_l in *. cbn. split.
    + intros (r & tr1 & -> & Hx). apply IH in Hx as (tr' & -> & Hx). exists (Ev e r :: tr').
      split; [done|]. by exists r, tr'.
    + intros (? & -> & r & tr' & -> & Hx). exists r, (event_l <$> tr'). split; [done|].
      apply IH. by exists tr'.
Qed.

Definition event_r {S T} (x : event T) : event (sig_sum S T) :=
  match x with Ev e r => Ev (S:=sig_sum S T) (inr e) r end.

Lemma exec_lift_r {S T A} (p : prog T A) tr a :
  exec (lift_r (S:=S) p) tr a ↔ ∃ tr', tr = event_r <$> tr' ∧ exec p tr' a.
Proof.
  revert tr. induction p as [x|e k IH]; intros tr.
  - split; [intros [-> ->]; by exists []|]. by intros (? & -> & -> & ->).
  - unfold lift_r in *. cbn. split.
    + intros (r & tr1 & -> & Hx). apply IH in Hx as (tr' & -> & Hx). exists (Ev e r :: tr').
      split; [done|]. by exists r, tr'.
    + intros (? & -> & r & tr' & -> & Hx). exists r, (event_r <$> tr'). split; [done|].
      apply IH. by exists tr'.
Qed.

Lemma calls_lift_l {S T W A} (h1 : handler S W) (h2 : handler T W) (p : prog S A) w :
  evt_call <$> trace (handler_sum h1 h2) (lift_l p) w = inl ∘ evt_call <$> trace h1 p w.
Proof.
  revert w. induction p as [x|e k IH]; intros w; [done|]. cbn.
  destruct (h1 e w) as [r w']. cbn. f_equal. apply IH.
Qed.

(** The executions of a linked program: an execution of the client, each of
    its calls answered by an execution of what implements it. *)
Fixpoint linked {S T} (f : ∀ e : ev S, prog T (resp S e)) (hs : list (event S)) (tr : list (event T)) : Prop :=
  match hs with
  | [] => tr = []
  | x :: hs => ∃ tr1 tr2, tr = tr1 ++ tr2 ∧ exec (f (evt_call x)) tr1 (evt_reply x) ∧ linked f hs tr2
  end.

Lemma exec_link {S T A} (f : ∀ e : ev S, prog T (resp S e)) (p : prog S A) tr a :
  exec (link f p) tr a ↔ ∃ hs, exec p hs a ∧ linked f hs tr.
Proof.
  revert tr. induction p as [x|e k IH]; intros tr; cbn [link].
  - split; [intros [-> ->]; by exists []|]. by intros (hs & [-> ->] & ->).
  - rewrite exec_bind. split.
    + intros (tr1 & r & tr2 & -> & Hf & (hs & Hx & Hl)%IH). exists (Ev e r :: hs).
      split; [by exists r, hs|by exists tr1, tr2].
    + intros (? & (r & hs & -> & Hx) & tr1 & tr2 & -> & Hf & Hl).
      exists tr1, r, tr2. split_and!; [done..|]. apply IH. by exists hs.
Qed.

Lemma linked_app {S T} (f : ∀ e : ev S, prog T (resp S e)) hs1 hs2 tr :
  linked f (hs1 ++ hs2) tr ↔ ∃ tr1 tr2, tr = tr1 ++ tr2 ∧ linked f hs1 tr1 ∧ linked f hs2 tr2.
Proof.
  revert tr. induction hs1 as [|x hs1 IH]; intros tr; cbn [app linked].
  - split; [intros Hl; by exists [], tr|]. by intros (? & ? & -> & -> & ?).
  - setoid_rewrite IH. split.
    + intros (tr1 & ? & -> & Hf & tr2 & tr3 & -> & ? & ?). exists (tr1 ++ tr2), tr3.
      rewrite app_assoc. split_and!; [done| |done]. by exists tr1, tr2.
    + intros (? & tr3 & -> & (tr1 & tr2 & -> & ? & ?) & ?). exists tr1, (tr2 ++ tr3).
      rewrite app_assoc. split_and!; [done..|]. by exists tr2, tr3.
Qed.

(** What an implementation did was done for a call of the client. *)
Lemma linked_for {S T} (f : ∀ e : ev S, prog T (resp S e)) hs tr x :
  linked f hs tr → x ∈ tr → ∃ y tr1, y ∈ hs ∧ exec (f (evt_call y)) tr1 (evt_reply y) ∧ x ∈ tr1.
Proof.
  revert tr. induction hs as [|y hs IH]; intros tr; [by intros -> ?%not_elem_of_nil|].
  intros (tr1 & tr2 & -> & Hf & Hl) [Hx|Hx]%elem_of_app; [exists y, tr1; by split_and!; [left|..]|].
  destruct (IH _ Hl Hx) as (y' & tr' & ? & ? & ?). exists y', tr'. by split_and!; [right|..].
Qed.
(** And every call of the client was served. *)
Lemma linked_served {S T} (f : ∀ e : ev S, prog T (resp S e)) hs tr y :
  linked f hs tr → y ∈ hs → ∃ tr1, exec (f (evt_call y)) tr1 (evt_reply y) ∧ tr1 ⊆ tr.
Proof.
  intros Hl (hs1 & hs2 & ->)%list_elem_of_split.
  apply linked_app in Hl as (tr1 & ? & -> & _ & tr2 & tr3 & -> & Hf & _).
  exists tr2. split; [done|]. set_solver.
Qed.

(** And before it the calls before that one were served. *)
Lemma linked_split {S T} (f : ∀ e : ev S, prog T (resp S e)) hs before x after :
  linked f hs (before ++ x :: after) → ∃ hs1 y hs2 tr0 tr1 tr2,
    hs = hs1 ++ y :: hs2 ∧ before = tr0 ++ tr1 ∧ linked f hs1 tr0 ∧
    exec (f (evt_call y)) (tr1 ++ x :: tr2) (evt_reply y).
Proof.
  revert before. induction hs as [|y hs IH]; intros before; [by destruct before|].
  intros (tr1 & tr2 & Heq & Hf & Hl).
  assert (∀ before' : list (event T), before = tr1 ++ before' → linked f hs (before' ++ x :: after) →
    ∃ hs1 y' hs2 tr0 tr3 tr4, y :: hs = hs1 ++ y' :: hs2 ∧ before = tr0 ++ tr3 ∧ linked f hs1 tr0 ∧
      exec (f (evt_call y')) (tr3 ++ x :: tr4) (evt_reply y')) as Hlater.
  { intros before' -> (hs1 & y' & hs2 & tr0 & tr3 & tr4 & -> & -> & Hl' & Hf')%IH.
    exists (y :: hs1), y', hs2, (tr1 ++ tr0), tr3, tr4. rewrite app_assoc. split_and!; [done..| |done].
    by exists tr1, tr0. }
  apply app_eq_inv in Heq as [(k & -> & ->)|(k & -> & Hk)]; [by eapply Hlater|].
  destruct k as [|x' k]; cbn [app] in Hk.
  - subst tr2. rewrite app_nil_r in *. apply (Hlater []); [by rewrite app_nil_r|done].
  - injection Hk as -> ->. by exists [], y, hs, [], before, k.
Qed.

(** Two sequences of events that happen side by side. *)
Inductive interleaved {A} : list A → list A → list A → Prop :=
  | interleaved_nil : interleaved [] [] []
  | interleaved_l x l1 l2 l : interleaved l1 l2 l → interleaved (x :: l1) l2 (x :: l)
  | interleaved_r x l1 l2 l : interleaved l1 l2 l → interleaved l1 (x :: l2) (x :: l).

Lemma interleaved_perm {A} (l1 l2 l : list A) : interleaved l1 l2 l → l ≡ₚ l1 ++ l2.
Proof.
  induction 1 as [|x l1 l2 l _ IH|x l1 l2 l _ IH]; [done|cbn; by rewrite IH|].
  by rewrite IH, Permutation_middle.
Qed.
Lemma interleaved_split {A} (l1 l2 before after : list A) x : interleaved l1 l2 (before ++ x :: after) →
  x ∈ l2 ∨ ∃ before1 after1 before2, l1 = before1 ++ x :: after1 ∧ before2 ⊆ l2 ∧
    interleaved before1 before2 before.
Proof.
  remember (before ++ x :: after) as l eqn:Hl. intros Hi. revert before Hl.
  induction Hi as [|y l1 l2 l Hi IH|y l1 l2 l Hi IH]; intros before Hl; [by destruct before| |].
  - destruct before as [|z before]; injection Hl as -> ->.
    { right. exists [], l1, []. split_and!; [done|set_solver|constructor]. }
    destruct (IH before eq_refl) as [?|(b1 & a1 & b2 & -> & ? & ?)]; [by left|right].
    exists (z :: b1), a1, b2. split_and!; [done..|by constructor].
  - destruct before as [|z before]; injection Hl as -> ->; [left; by left|].
    destruct (IH before eq_refl) as [?|(b1 & a1 & b2 & -> & ? & ?)]; [left; by right|right].
    exists b1, a1, (z :: b2). split_and!; [done|set_solver|by constructor].
Qed.
(** Events that only one side has. *)
Lemma interleaved_omap {A B} (f : A → option B) (l1 l2 l : list A) : interleaved l1 l2 l →
  (∀ x, x ∈ l2 → f x = None) → omap f l = omap f l1.
Proof.
  induction 1 as [|x l1 l2 l _ IH|x l1 l2 l _ IH]; intros Hf; [done|..]; cbn [omap list_omap].
  - by rewrite IH.
  - rewrite Hf by by left. apply IH. intros y ?. apply Hf. by right.
Qed.
Lemma interleaved_app {A} (l1 l2 : list A) : interleaved l1 l2 (l1 ++ l2).
Proof.
  induction l1 as [|x l1 IH]; cbn; [|by constructor].
  induction l2 as [|x l2 IH]; by constructor.
Qed.

(** Lists. *)
Lemma fmap_list_bind {A B C} (f : B → C) (g : A → list B) (l : list A) :
  f <$> (l ≫= g) = l ≫= λ x, f <$> g x.
Proof. induction l as [|x l IH]; [done|]. by rewrite !bind_cons, fmap_app, IH. Qed.

Lemma fold_left_invariant {A B} (P : A → Prop) (f : A → B → A) l a :
  (∀ a b, P a → P (f a b)) → P a → P (fold_left f l a).
Proof. intros Hf. revert a. induction l; simpl; eauto. Qed.

Lemma NoDup_fmap_filter {A B} (f : A → B) (P : A → Prop) `{∀ x, Decision (P x)} l :
  NoDup (f <$> l) → NoDup (f <$> filter P l).
Proof.
  induction l as [|x l IH]; [done|]. rewrite fmap_cons, filter_cons.
  intros [Hx Hl]%NoDup_cons. case_decide; [|by apply IH].
  rewrite fmap_cons. constructor; [|by apply IH].
  intros (y & Hy & [_ Hin]%list_elem_of_filter)%list_elem_of_fmap. apply Hx.
  rewrite Hy. by apply list_elem_of_fmap_2.
Qed.

(** Indexing a list by a key whose values are distinct. *)
Lemma index_lookup {K A} `{Countable K} (f : A → K) (l : list A) (m : gmap K A) n c :
  NoDup (f <$> l) →
  lookup n (fold_left (λ m x, <[f x := x]> m) l m) = Some c ↔
  (c ∈ l ∧ f c = n) ∨ ((n ∉ (f <$> l)) ∧ m !! n = Some c).
Proof.
  revert m. induction l as [|x l IH]; intros m.
  { cbn. set_solver. }
  rewrite fmap_cons. intros [Hx Hl]%NoDup_cons. cbn [fold_left]. rewrite IH by done.
  destruct (decide (f x = n)) as [<-|Hne].
  - rewrite lookup_insert_eq, elem_of_cons. split.
    + intros [[? Hc]|[_ [= <-]]]; [|by left; auto].
      exfalso. apply Hx. rewrite <-Hc. by apply list_elem_of_fmap_2.
    + intros [[[->|?] Hc]|[[]%not_elem_of_cons _]]; [by right| |done].
      exfalso. apply Hx. rewrite <-Hc. by apply list_elem_of_fmap_2.
  - rewrite lookup_insert_ne by done. rewrite not_elem_of_cons, elem_of_cons. naive_solver.
Qed.

(** A pointwise change of a map, by what it does to the one value. *)
Lemma partial_alter_same {K A} `{Countable K} (f : option A → option A) n (m : gmap K A) :
  f (m !! n) = m !! n → partial_alter f n m = m.
Proof.
  intros Hf. apply map_eq. intros k. destruct (decide (n = k)) as [->|?].
  - by rewrite lookup_partial_alter_eq.
  - by rewrite lookup_partial_alter_ne.
Qed.
Lemma partial_alter_insert {K A} `{Countable K} (f : option A → option A) n (m : gmap K A) x :
  f (m !! n) = Some x → partial_alter f n m = <[n := x]> m.
Proof.
  intros Hf. apply map_eq. intros k. destruct (decide (n = k)) as [->|?].
  - by rewrite lookup_partial_alter_eq, lookup_insert_eq.
  - by rewrite lookup_partial_alter_ne, lookup_insert_ne.
Qed.
Lemma partial_alter_delete {K A} `{Countable K} (f : option A → option A) n (m : gmap K A) :
  f (m !! n) = None → partial_alter f n m = delete n m.
Proof.
  intros Hf. apply map_eq. intros k. destruct (decide (n = k)) as [->|?].
  - by rewrite lookup_partial_alter_eq, lookup_delete_eq.
  - by rewrite lookup_partial_alter_ne, lookup_delete_ne.
Qed.

Lemma elem_of_keys {K A} `{Countable K} (m : gmap K A) n :
  n ∈ (map_to_list m).*1 ↔ is_Some (m !! n).
Proof.
  rewrite list_elem_of_fmap. split.
  - intros ([k x] & -> & Hx%elem_of_map_to_list). by exists x.
  - intros [x Hx]. exists (n, x). by rewrite elem_of_map_to_list.
Qed.

Lemma existsb_ext_in {A} (f g : A → bool) l : (∀ x, x ∈ l → f x = g x) → existsb f l = existsb g l.
Proof.
  induction l as [|x l IH]; intros Hfg; [done|]. cbn. rewrite Hfg by by left.
  rewrite IH; [done|]. intros y Hy. apply Hfg. by right.
Qed.

Lemma NoDup_fmap_inj {A B} (f : A → B) l x y :
  NoDup (f <$> l) → x ∈ l → y ∈ l → f x = f y → x = y.
Proof.
  induction l as [|z l IH]; [by intros _ ?%not_elem_of_nil|].
  rewrite fmap_cons. intros [Hz Hl]%NoDup_cons [->|Hx]%elem_of_cons [->|Hy]%elem_of_cons Hf;
    [done|..|by apply IH].
  - exfalso. apply Hz. rewrite Hf. by apply list_elem_of_fmap_2.
  - exfalso. apply Hz. rewrite <-Hf. by apply list_elem_of_fmap_2.
Qed.
