(* ===== verification/GoStrings.v ===== *)
(** * Go's string functions

    Go strings are byte sequences; here they are [string], one [ascii] per
    byte.  This file models the functions of the packages [strings],
    [strconv] and [path/filepath] that the program calls, with the lemmas
    about them that the components share.  Everything computes.  Only the
    case mapping of strings with a byte outside ASCII is left to the Unicode
    tables of the Go runtime, as the class [UnicodeTables]. *)

From S2P Require Import Prelude.

(* -------------------------------------------------------------------- *)
(** ** Characters *)

Abbreviation chars := String.list_ascii_of_string.
Abbreviation of_chars := String.string_of_list_ascii.

Definition code (a : ascii) : N := Stdlib.Strings.Ascii.N_of_ascii a.
Definition chr (n : N) : ascii := Stdlib.Strings.Ascii.ascii_of_N n.

Definition is_upper (a : ascii) : bool := (65 <=? code a)%N && (code a <=? 90)%N.
Definition is_lower (a : ascii) : bool := (97 <=? code a)%N && (code a <=? 122)%N.
Definition is_digit (a : ascii) : bool := (48 <=? code a)%N && (code a <=? 57)%N.
Definition is_hex (a : ascii) : bool :=
  is_digit a || ((97 <=? code a)%N && (code a <=? 102)%N).
Definition is_ascii_byte (a : ascii) : bool := (code a <? 128)%N.

Definition lower_byte (a : ascii) : ascii := if is_upper a then chr (code a + 32) else a.
Definition upper_byte (a : ascii) : ascii := if is_lower a then chr (code a - 32) else a.

(** A double quote and a line feed, which string literals cannot show. *)
Definition dquote : string := String (chr 34) "".
Definition newline : string := String (chr 10) "".

(** [unicode.IsSpace] on the UTF-8 encodings of one, two and three bytes of
    the white space code points: U+0009-000D, U+0020; U+0085, U+00A0; U+1680,
    U+2000-200A, U+2028, U+2029, U+202F, U+205F, U+3000. *)
Definition space1 (a : ascii) : bool :=
  ((9 <=? code a)%N && (code a <=? 13)%N) || (code a =? 32)%N.
Definition space2 (a b : ascii) : bool :=
  (code a =? 194)%N && ((code b =? 133)%N || (code b =? 160)%N).
Definition space3 (a b c : ascii) : bool :=
  ((code a =? 225)%N && (code b =? 154)%N && (code c =? 128)%N) ||
  ((code a =? 226)%N && (code b =? 128)%N &&
     (((128 <=? code c)%N && (code c <=? 138)%N) ||
      (code c =? 168)%N || (code c =? 169)%N || (code c =? 175)%N)) ||
  ((code a =? 226)%N && (code b =? 129)%N && (code c =? 159)%N) ||
  ((code a =? 227)%N && (code b =? 128)%N && (code c =? 128)%N).

(** Drop every white space rune at the front of a list, for the given
    predicates on one, two and three bytes. *)
Fixpoint drop_spaces (s1 : ascii → bool) (s2 : ascii → ascii → bool)
    (s3 : ascii → ascii → ascii → bool) (l : list ascii) : list ascii :=
  match l with
  | [] => []
  | a :: l1 =>
      if s1 a then drop_spaces s1 s2 s3 l1 else
      match l1 with
      | [] => l
      | b :: l2 =>
          if s2 a b then drop_spaces s1 s2 s3 l2 else
          match l2 with
          | [] => l
          | c :: l3 => if s3 a b c then drop_spaces s1 s2 s3 l3 else l
          end
      end
  end.

Definition trim_left_l (l : list ascii) : list ascii :=
  drop_spaces space1 space2 space3 l.
Definition trim_right_l (l : list ascii) : list ascii :=
  reverse (drop_spaces space1 (λ b a, space2 a b) (λ c b a, space3 a b c) (reverse l)).

(** [strings.TrimSpace]. *)
Definition trim_space (s : string) : string :=
  of_chars (trim_right_l (trim_left_l (chars s))).

(** [strings.TrimSpace(s) == ""], the test the code makes everywhere. *)
Definition blank (s : string) : bool := bool_decide (trim_space s = "").

(* -------------------------------------------------------------------- *)
(** ** Case mapping *)

(** [strings.ToLower] and [strings.ToUpper] of a string that is not ASCII
    go through the Unicode tables of the Go runtime. *)
Class UnicodeTables := {
  unicode_to_lower : string → string;
  unicode_to_upper : string → string;
  unicode_quote : string → string
}.

(** Tables that leave text outside ASCII alone, for concrete runs. *)
Definition ascii_tables : UnicodeTables :=
  {| unicode_to_lower s := s; unicode_to_upper s := s; unicode_quote s := s |}.

Definition is_ascii (s : string) : bool := forallb is_ascii_byte (chars s).
Definition map_bytes (f : ascii → ascii) (s : string) : string := of_chars (f <$> chars s).

Definition to_lower `{UnicodeTables} (s : string) : string :=
  if is_ascii s then map_bytes lower_byte s else unicode_to_lower s.
Definition to_upper `{UnicodeTables} (s : string) : string :=
  if is_ascii s then map_bytes upper_byte s else unicode_to_upper s.

(** [fmt]'s [%q] verb ([strconv.Quote]): ASCII text is escaped here, other
    text needs the table of printable runes. *)
Definition hex_nibble (n : N) : ascii := if (n <? 10)%N then chr (48 + n) else chr (87 + n).
Definition quote_byte (a : ascii) : list ascii :=
  let esc c := [chr 92; c] in
  let n := code a in
  if (n =? 34)%N || (n =? 92)%N then esc a
  else if (n =? 7)%N then esc "a"%char
  else if (n =? 8)%N then esc "b"%char
  else if (n =? 12)%N then esc "f"%char
  else if (n =? 10)%N then esc "n"%char
  else if (n =? 13)%N then esc "r"%char
  else if (n =? 9)%N then esc "t"%char
  else if (n =? 11)%N then esc "v"%char
  else if (n <? 32)%N || (n =? 127)%N
  then esc "x"%char ++ [hex_nibble (n / 16); hex_nibble (n mod 16)]
  else [a].
Definition quote `{UnicodeTables} (s : string) : string :=
  if is_ascii s then dquote +:+ of_chars (chars s ≫= quote_byte) +:+ dquote
  else unicode_quote s.

(* -------------------------------------------------------------------- *)
(** ** Prefixes, suffixes, splitting *)

Fixpoint drop_prefix_l (p l : list ascii) : option (list ascii) :=
  match p, l with
  | [], _ => Some l
  | a :: p', b :: l' => if bool_decide (a = b) then drop_prefix_l p' l' else None
  | _ :: _, [] => None
  end.

(** [strings.HasPrefix], [strings.TrimPrefix], [strings.TrimSuffix]. *)
Definition has_prefix (s p : string) : bool :=
  bool_decide (is_Some (drop_prefix_l (chars p) (chars s))).
Definition trim_prefix (s p : string) : string :=
  match drop_prefix_l (chars p) (chars s) with Some l => of_chars l | None => s end.
Definition trim_suffix (s p : string) : string :=
  match drop_prefix_l (reverse (chars p)) (reverse (chars s)) with
  | Some l => of_chars (reverse l)
  | None => s
  end.

(** [strings.Split] with a one-byte separator. *)
Fixpoint split_l (c : ascii) (l : list ascii) : list (list ascii) :=
  match l with
  | [] => [[]]
  | a :: l' =>
      if bool_decide (a = c) then [] :: split_l c l'
      else match split_l c l' with
           | x :: xs => (a :: x) :: xs
           | [] => [[a]]
           end
  end.
Definition split (s : string) (c : ascii) : list string := of_chars <$> split_l c (chars s).

(** [strings.Cut]. *)
Fixpoint cut_l (sep l : list ascii) : option (list ascii * list ascii) :=
  match drop_prefix_l sep l with
  | Some rest => Some ([], rest)
  | None =>
      match l with
      | [] => None
      | a :: l' =>
          match cut_l sep l' with
          | Some (x, y) => Some (a :: x, y)
          | None => None
          end
      end
  end.
Definition cut (s sep : string) : option (string * string) :=
  match cut_l (chars sep) (chars s) with
  | Some (x, y) => Some (of_chars x, of_chars y)
  | None => None
  end.

(** [strings.Contains]. *)
Definition contains (s sub : string) : bool := bool_decide (is_Some (cut s sub)).

Fixpoint drop_while (P : ascii → bool) (l : list ascii) : list ascii :=
  match l with
  | [] => []
  | a :: l' => if P a then drop_while P l' else l
  end.

(** [strings.TrimRight(s, "c")] and [strings.Trim(s, "c")]. *)
Definition trim_right_byte (c : ascii) (s : string) : string :=
  of_chars (reverse (drop_while (λ a, bool_decide (a = c)) (reverse (chars s)))).
Definition trim_byte (c : ascii) (s : string) : string :=
  trim_right_byte c (of_chars (drop_while (λ a, bool_decide (a = c)) (chars s))).

(** [strings.ReplaceAll(s, "c", by)]. *)
Definition replace_byte (c : ascii) (by_ : string) (s : string) : string :=
  of_chars (chars s ≫= λ a, if bool_decide (a = c) then chars by_ else [a]).

(** [strings.Join]. *)
Definition join (l : list string) (sep : string) : string := String.concat sep l.

(** The slice [s[:n]] for [n <= len(s)]. *)
Definition take_bytes (n : nat) (s : string) : string := of_chars (take n (chars s)).

(** Go's [<] on strings: byte-wise lexicographic. *)
Definition str_lt (s1 s2 : string) : bool := String.ltb s1 s2.

(* -------------------------------------------------------------------- *)
(** ** Numbers in text *)

(** [strconv.Itoa], [strconv.FormatInt(_, 10)], [fmt.Sprint] of an integer. *)
Definition itoa (z : Z) : string := pretty z.

Fixpoint digits_value (acc : N) (l : list ascii) : option N :=
  match l with
  | [] => Some acc
  | a :: l' => if is_digit a then digits_value (acc * 10 + (code a - 48)) l' else None
  end.

(** [strconv.ParseInt(s, 10, 64)] and, [int] being 64 bits wide,
    [strconv.Atoi]: an optional sign, at least one decimal digit, nothing
    else, within range. *)
Definition parse_uint (l : list ascii) : option N :=
  match l with [] => None | _ => digits_value 0 l end.
Definition parse_signed (neg : bool) (l : list ascii) : option Z :=
  match parse_uint l with
  | None => None
  | Some n =>
      let z := if neg then (- Z.of_N n)%Z else Z.of_N n in
      if bool_decide (min_int64 ≤ z ≤ max_int64)%Z then Some z else None
  end.
Definition parse_int (s : string) : option Z :=
  match chars s with
  | [] => None
  | a :: l =>
      if bool_decide (a = "-"%char) then parse_signed true l
      else if bool_decide (a = "+"%char) then parse_signed false l
      else parse_signed false (a :: l)
  end.

(** [strconv.ParseBool]. *)
Definition parse_bool (s : string) : option bool :=
  if bool_decide (s ∈ ["1"; "t"; "T"; "TRUE"; "true"; "True"]) then Some true
  else if bool_decide (s ∈ ["0"; "f"; "F"; "FALSE"; "false"; "False"]) then Some false
  else None.

(** All byte values, to check a decidable fact about bytes by computation. *)
Definition all_bytes : list ascii := chr <$> (N.of_nat <$> seq 0 256).

(* -------------------------------------------------------------------- *)
(** ** Lemmas: bytes of a string *)

Lemma of_chars_chars s : of_chars (chars s) = s.
Proof. apply String.string_of_list_ascii_of_string. Qed.

Lemma chars_of_chars l : chars (of_chars l) = l.
Proof. apply String.list_ascii_of_string_of_list_ascii. Qed.

Lemma chars_inj s1 s2 : chars s1 = chars s2 → s1 = s2.
Proof. intros H. by rewrite <-(of_chars_chars s1), <-(of_chars_chars s2), H. Qed.

Lemma chars_app s1 s2 : chars (s1 +:+ s2) = chars s1 ++ chars s2.
Proof.
  induction s1 as [|a s1 IH]; [done|].
  change (chars (String a s1 +:+ s2)) with (a :: chars (s1 +:+ s2)).
  by rewrite IH.
Qed.

Lemma length_chars s : length (chars s) = String.length s.
Proof. induction s; simpl; congruence. Qed.

Lemma length_of_chars l : String.length (of_chars l) = length l.
Proof. by rewrite <-length_chars, chars_of_chars. Qed.

Lemma length_string_app s1 s2 :
  String.length (s1 +:+ s2) = (String.length s1 + String.length s2)%nat.
Proof. by rewrite <-!length_chars, chars_app, length_app. Qed.

Lemma string_app_inj_r s1 s2 s : s1 +:+ s = s2 +:+ s → s1 = s2.
Proof.
  intros H. apply chars_inj. apply (f_equal chars) in H.
  rewrite !chars_app in H. by simplify_list_eq.
Qed.

Lemma string_app_assoc s1 s2 s3 : s1 +:+ s2 +:+ s3 = (s1 +:+ s2) +:+ s3.
Proof. apply chars_inj. by rewrite !chars_app, (assoc_L (++)). Qed.

Lemma string_app_empty_r s : s +:+ "" = s.
Proof. apply chars_inj. rewrite chars_app. by rewrite app_nil_r. Qed.

Lemma of_chars_app l1 l2 : of_chars (l1 ++ l2) = of_chars l1 +:+ of_chars l2.
Proof. apply chars_inj. by rewrite chars_app, !chars_of_chars. Qed.

Lemma of_chars_nil_inv l : of_chars l = "" → l = [].
Proof. by destruct l. Qed.

Create Rewrite HintDb gostr.
#[export] Hint Rewrite of_chars_chars chars_of_chars chars_app length_chars
  length_of_chars length_string_app : gostr.

Lemma all_bytes_spec a : a ∈ all_bytes.
Proof.
  unfold all_bytes. rewrite <-list_fmap_compose. apply list_elem_of_fmap.
  exists (N.to_nat (code a)). split.
  - unfold compose, chr, code. rewrite N2Nat.id.
    by rewrite Stdlib.Strings.Ascii.ascii_N_embedding.
  - apply elem_of_seq. pose proof (Stdlib.Strings.Ascii.N_ascii_bounded a).
    unfold code. lia.
Qed.

Lemma byte_forall (P : ascii → bool) : forallb P all_bytes = true → ∀ a, P a = true.
Proof.
  rewrite forallb_forall. intros H a. apply H.
  apply list_elem_of_In, all_bytes_spec.
Qed.

(* -------------------------------------------------------------------- *)
(** ** Lemmas: trimming *)

Section drop_spaces.
Context (s1 : ascii → bool) (s2 : ascii → ascii → bool) (s3 : ascii → ascii → ascii → bool).
Local Abbreviation ds := (drop_spaces s1 s2 s3).

(** Case analysis of one round of trimming: nothing is dropped, or a rune
    of one to three bytes is. *)
Lemma drop_spaces_cases l :
  ds l = l ∨ ∃ pre l', l = pre ++ l' ∧ pre ≠ [] ∧ ds l = ds l' ∧ ∀ r, ds (l ++ r) = ds (l' ++ r).
Proof.
  destruct l as [|a [|b [|c l]]]; simpl; [by left|..].
  - destruct (s1 a) eqn:?; [|by left].
    right. exists [a], []. split_and!; [done|done|done|]. intros r; by simplify_option_eq.
  - destruct (s1 a) eqn:?.
    { right. exists [a], [b]. split_and!; [done|done|done|]. intros r. by simplify_option_eq. }
    destruct (s2 a b) eqn:?; [|by left].
    right. exists [a; b], []. split_and!; [done|done|done|]. intros r. by simplify_option_eq.
  - destruct (s1 a) eqn:?.
    { right. exists [a], (b :: c :: l). by split_and!. }
    destruct (s2 a b) eqn:?.
    { right. exists [a; b], (c :: l). by split_and!. }
    destruct (s3 a b c) eqn:?; [|by left].
    right. exists [a; b; c], l. by split_and!.
Qed.

Lemma drop_spaces_ind (P : list ascii → Prop) :
  (∀ l, ds l = l → P l) →
  (∀ pre l, pre ≠ [] → ds (pre ++ l) = ds l → (∀ r, ds ((pre ++ l) ++ r) = ds (l ++ r)) →
     P l → P (pre ++ l)) →
  ∀ l, P l.
Proof.
  intros Hstop Hstep l. remember (length l) as n eqn:Hn.
  revert l Hn. induction (lt_wf n) as [n _ IH]; intros l ->.
  destruct (drop_spaces_cases l) as [H|(pre & l' & -> & Hpre & Hds & Hr)]; [by apply Hstop|].
  apply Hstep; [done..|]. apply (IH (length l')); [|done].
  rewrite length_app. destruct pre; simpl; [done|lia].
Qed.

Lemma drop_spaces_suffix l : ∃ pre, l = pre ++ ds l.
Proof.
  induction l as [l H|pre l _ H _ [pre' IH]] using drop_spaces_ind.
  - by exists []; rewrite H.
  - exists (pre ++ pre'). by rewrite H, <-app_assoc, <-IH.
Qed.

Lemma drop_spaces_idem l : ds (ds l) = ds l.
Proof.
  induction l as [l H|pre l _ H _ IH] using drop_spaces_ind; [by rewrite H|by rewrite H].
Qed.

(** A prefix of a list that starts with no white space starts with none. *)
Lemma drop_spaces_prefix l r : ds (l ++ r) = l ++ r → ds l = l.
Proof.
  intros H. destruct (drop_spaces_cases l) as [?|(pre & l' & -> & Hpre & _ & Hr)]; [done|].
  rewrite Hr in H. destruct (drop_spaces_suffix (l' ++ r)) as [pre' Hs].
  rewrite H in Hs. apply (f_equal length) in Hs. rewrite !length_app in Hs.
  destruct pre; simpl in *; [done|lia].
Qed.
End drop_spaces.

Lemma trim_left_l_idem l : trim_left_l (trim_left_l l) = trim_left_l l.
Proof. apply drop_spaces_idem. Qed.

Lemma trim_right_l_idem l : trim_right_l (trim_right_l l) = trim_right_l l.
Proof. unfold trim_right_l. by rewrite reverse_involutive, drop_spaces_idem. Qed.

Lemma trim_right_l_prefix l : ∃ r, l = trim_right_l l ++ r.
Proof.
  unfold trim_right_l.
  destruct (drop_spaces_suffix space1 (λ b a, space2 a b) (λ c b a, space3 a b c) (reverse l))
    as [pre H].
  exists (reverse pre). rewrite <-reverse_app, <-H. by rewrite reverse_involutive.
Qed.

Lemma trim_space_idem s : trim_space (trim_space s) = trim_space s.
Proof.
  unfold trim_space. rewrite chars_of_chars. f_equal.
  set (t := trim_left_l (chars s)).
  assert (trim_left_l (trim_right_l t) = trim_right_l t) as ->.
  { destruct (trim_right_l_prefix t) as [r Hr].
    apply (drop_spaces_prefix _ _ _ _ r). rewrite <-Hr. apply trim_left_l_idem. }
  apply trim_right_l_idem.
Qed.

Lemma trim_space_blank s : blank s = true ↔ trim_space s = "".
Proof. unfold blank. apply bool_decide_eq_true. Qed.

Lemma blank_false s : blank s = false ↔ trim_space s ≠ "".
Proof. unfold blank. apply bool_decide_eq_false. Qed.

Lemma blank_trim s : blank (trim_space s) = blank s.
Proof. unfold blank. by rewrite trim_space_idem. Qed.

Lemma blank_empty : blank "" = true.
Proof. done. Qed.

Lemma not_blank_nonempty s : blank s = false → s ≠ "".
Proof. by intros H ->. Qed.

#[export] Hint Rewrite trim_space_idem blank_trim : gostr.

(* -------------------------------------------------------------------- *)
(** ** Lemmas: prefixes, cuts *)

Lemma drop_prefix_l_spec p l r : drop_prefix_l p l = Some r ↔ l = p ++ r.
Proof.
  revert l. induction p as [|a p IH]; intros l; simpl; [naive_solver|].
  destruct l as [|b l]; [done|].
  case_bool_decide; [subst; rewrite IH; split; [by intros ->|by intros [= ->]]|].
  split; [done|by intros [= ->]].
Qed.

Lemma cut_l_sound sep l x y : cut_l sep l = Some (x, y) → l = x ++ sep ++ y.
Proof.
  revert x y. induction l as [|a l IH]; intros x y; simpl.
  - destruct (drop_prefix_l sep []) eqn:H; [|done].
    intros; simplify_eq. by apply drop_prefix_l_spec in H.
  - destruct (drop_prefix_l sep (a :: l)) eqn:H.
    { intros; simplify_eq. by apply drop_prefix_l_spec in H. }
    destruct (cut_l sep l) as [[x' y']|]; [|done].
    intros; simplify_eq/=. f_equal. by apply IH.
Qed.

Lemma cut_sound s sep x y : cut s sep = Some (x, y) → s = x +:+ sep +:+ y.
Proof.
  unfold cut. destruct (cut_l _ _) as [[x' y']|] eqn:H; [|done].
  intros; simplify_eq. apply chars_inj. autorewrite with gostr. by apply cut_l_sound.
Qed.

(* -------------------------------------------------------------------- *)
(** ** Lemmas: decimal numerals *)

Lemma digits_value_app acc l1 l2 :
  digits_value acc (l1 ++ l2) = (digits_value acc l1 ≫= λ v, digits_value v l2).
Proof.
  revert acc. induction l1 as [|a l1 IH]; intros acc; simpl; [done|].
  destruct (is_digit a); [apply IH|done].
Qed.

Lemma pretty_N_char_digit x : (x < 10)%N →
  is_digit (pretty_N_char x) = true ∧ (code (pretty_N_char x) - 48 = x)%N.
Proof.
  intros Hx.
  assert (x ∈ N.of_nat <$> seq 0 10) as Hin.
  { apply list_elem_of_fmap. exists (N.to_nat x). rewrite N2Nat.id, elem_of_seq. lia. }
  revert Hin. clear Hx. revert x. apply Forall_forall. repeat constructor.
Qed.

Lemma digits_value_cons_char acc x l : (x < 10)%N →
  digits_value acc (pretty_N_char x :: l) = digits_value (acc * 10 + x) l.
Proof. intros Hx. simpl. by destruct (pretty_N_char_digit x Hx) as [-> ->]. Qed.

(** The digits [pretty] writes, read back, are the number again. *)
Lemma pretty_N_go_chars x s :
  ∃ ds, chars (pretty_N_go x s) = ds ++ chars s ∧ ((0 < x)%N → ds ≠ []) ∧
    ∀ acc, ∃ k, digits_value acc ds = Some (acc * k + x)%N.
Proof.
  revert s. induction (N.lt_wf_0 x) as [x _ IH]; intros s.
  assert (x = 0 ∨ 0 < x)%N as [->|Hx] by lia.
  { exists []. rewrite pretty_N_go_0. split_and!; [done|lia|].
    intros acc. exists 1%N. simpl. f_equal. lia. }
  rewrite pretty_N_go_step by done.
  destruct (IH (x `div` 10)%N (N.div_lt x 10 Hx eq_refl)
    (String (pretty_N_char (x `mod` 10)) s)) as (ds & Hds & _ & Hval).
  exists (ds ++ [pretty_N_char (x `mod` 10)]). split_and!.
  - by rewrite Hds, <-app_assoc.
  - intros _. by destruct ds.
  - intros acc. destruct (Hval acc) as [k Hk]. exists (k * 10)%N.
    rewrite digits_value_app, Hk. simpl option_bind.
    change (mbind ?f (Some ?v)) with (f v). cbv beta.
    rewrite digits_value_cons_char by (apply N.mod_lt; lia). simpl. f_equal.
    pose proof (N.div_mod x 10). lia.
Qed.

Lemma chars_itoa z :
  ∃ ds, digits_value 0 ds = Some (Z.abs_N z) ∧ ds ≠ [] ∧
    chars (itoa z) = (if (z <? 0)%Z then "-"%char :: ds else ds).
Proof.
  unfold itoa, pretty, pretty_Z. destruct z as [|p|p]; simpl.
  - by exists ["0"%char].
  - destruct (pretty_N_go_chars (N.pos p) "") as (ds & Hds & Hne & Hv).
    destruct (Hv 0%N) as [k Hk]. exists ds. rewrite Hk. split_and!; [done|by apply Hne|].
    unfold pretty, pretty_positive, pretty, pretty_N. case_decide; [done|]. by rewrite Hds, app_nil_r.
  - destruct (pretty_N_go_chars (N.pos p) "") as (ds & Hds & Hne & Hv).
    destruct (Hv 0%N) as [k Hk]. exists ds. rewrite Hk. split_and!; [done|by apply Hne|].
    rewrite chars_app. simpl. f_equal.
    unfold pretty, pretty_positive, pretty, pretty_N. case_decide; [done|]. by rewrite Hds, app_nil_r.
Qed.

(** [strconv.ParseInt] reads back what [fmt.Sprint] writes of an [int64]. *)
Lemma parse_int_itoa z : in_int64 z → parse_int (itoa z) = Some z.
Proof.
  intros Hz. destruct (chars_itoa z) as (ds & Hv & Hne & Hc).
  unfold in_int64 in Hz. unfold parse_int. rewrite Hc.
  destruct ds as [|a ds]; [done|].
  assert (is_digit a = true) as Ha by (simpl in Hv; by destruct (is_digit a)).
  assert (a ≠ "-"%char ∧ a ≠ "+"%char) as [Hm Hp] by (split; intros ->; done).
  destruct (Z.ltb_spec z 0).
  - rewrite bool_decide_true by done. unfold parse_signed, parse_uint. rewrite Hv.
    rewrite bool_decide_true by lia. f_equal. lia.
  - rewrite !bool_decide_false by done. unfold parse_signed, parse_uint. rewrite Hv.
    rewrite bool_decide_true by lia. f_equal. lia.
Qed.

Lemma pretty_N_go_length k x s : (x < 10 ^ N.of_nat k)%N →
  (length (chars (pretty_N_go x s)) ≤ k + length (chars s))%nat.
Proof.
  revert x s. induction k as [|k IH]; intros x s Hx.
  - assert (x = 0)%N as -> by (simpl in Hx; lia). by rewrite pretty_N_go_0.
  - assert (x = 0 ∨ 0 < x)%N as [->|Hpos] by lia; [rewrite pretty_N_go_0; lia|].
    rewrite pretty_N_go_step by done. etrans; [apply IH|simpl; lia].
    apply N.Div0.div_lt_upper_bound. rewrite Nat2N.inj_succ, N.pow_succ_r' in Hx. lia.
Qed.

(** The decimal text of a natural [int64]: digits only, at most 19. *)
Lemma itoa_digits z : (0 ≤ z ≤ max_int64)%Z →
  Forall (λ a, is_digit a = true) (chars (itoa z)) ∧
  (1 ≤ String.length (itoa z) ≤ 19)%nat.
Proof.
  intros Hz. destruct (chars_itoa z) as (ds & Hv & Hne & Hc).
  rewrite (proj2 (Z.ltb_ge z 0)) in Hc by lia. rewrite <-length_chars, Hc. split.
  - clear Hne Hc. revert Hv. generalize 0%N. induction ds as [|a ds IH]; intros n Hv; [done|].
    simpl in Hv. destruct (is_digit a) eqn:?; [|done]. by constructor; [|eapply IH].
  - split; [by destruct ds; simpl; [|lia]|]. rewrite <-Hc. unfold itoa, pretty, pretty_Z.
    destruct z as [|p|p]; [simpl; lia| |lia].
    unfold pretty, pretty_positive, pretty, pretty_N. case_decide; [done|].
    etrans; [apply (pretty_N_go_length 19)|simpl; lia].
    unfold max_int64 in Hz. change (10 ^ N.of_nat 19)%N with 10000000000000000000%N. lia.
Qed.

Lemma itoa_inj z1 z2 : itoa z1 = itoa z2 → z1 = z2.
Proof. apply (inj pretty). Qed.

(** Splitting. *)
Lemma split_l_none c l : c ∉ l → split_l c l = [l].
Proof.
  induction l as [|a l IH]; simpl; [done|]. intros Hc.
  apply not_elem_of_cons in Hc as [Hne Hc].
  rewrite bool_decide_false by done. by rewrite IH.
Qed.

Lemma split_l_app c l1 l2 : c ∉ l1 → split_l c (l1 ++ c :: l2) = l1 :: split_l c l2.
Proof.
  induction l1 as [|a l1 IH]; simpl; intros Hc.
  - by rewrite bool_decide_true by done.
  - apply not_elem_of_cons in Hc as [Hne Hc].
    rewrite bool_decide_false by done. by rewrite IH.
Qed.
