(* ===== verification/Sha256.v ===== *)
(** * SHA-256

    [crypto/sha256.Sum256] followed by [encoding/hex.EncodeToString], as the
    program uses them to shorten names and to check the downloaded library.
    Words are [N] below [2^32] with the wrap-around written out, bytes are
    [N] below 256, and the digest is the 64-character hexadecimal text. *)

From S2P Require Import Prelude GoStrings.
#[local] Open Scope N_scope.

Definition w32 (x : N) : N := x `mod` 4294967296.
Definition add32 (x y : N) : N := w32 (x + y).
Definition rotr (n x : N) : N := w32 (N.lor (N.shiftr x n) (N.shiftl x (32 - n))).
Definition not32 (x : N) : N := N.lxor x 4294967295.

Definition ch (x y z : N) : N := N.lxor (N.land x y) (N.land (not32 x) z).
Definition maj (x y z : N) : N :=
  N.lxor (N.lxor (N.land x y) (N.land x z)) (N.land y z).
Definition big_sigma0 (x : N) : N := N.lxor (N.lxor (rotr 2 x) (rotr 13 x)) (rotr 22 x).
Definition big_sigma1 (x : N) : N := N.lxor (N.lxor (rotr 6 x) (rotr 11 x)) (rotr 25 x).
Definition small_sigma0 (x : N) : N :=
  N.lxor (N.lxor (rotr 7 x) (rotr 18 x)) (N.shiftr x 3).
Definition small_sigma1 (x : N) : N :=
  N.lxor (N.lxor (rotr 17 x) (rotr 19 x)) (N.shiftr x 10).

(** The constants are the leading 32 bits of the fractional parts of roots of
    the first primes; they are computed rather than listed. *)
Definition is_prime (n : N) : bool :=
  (2 <=? n) && forallb (λ d, (n <? d * d) || negb (n `mod` d =? 0)) (N.of_nat <$> seq 2 16).
Definition primes : list N := filter (λ n, is_prime n = true) (N.of_nat <$> seq 0 312).

(** The largest [r < 2^bits] with [r^k <= n]. *)
Definition nth_root (k n : N) (bits : nat) : N :=
  fold_left (λ r b, let r' := r + 2 ^ N.of_nat b in if r' ^ k <=? n then r' else r)
    (reverse (seq 0 bits)) 0.
Definition root_fraction (k p : N) : N := w32 (nth_root k (p * 2 ^ (32 * k)) 40).

(** Cube roots of the first 64 primes. *)
Definition round_constants : list N := Eval vm_compute in root_fraction 3 <$> primes.

Record state := State { ha : N; hb : N; hc : N; hd : N; he : N; hf : N; hg : N; hh : N }.

(** Square roots of the first 8 primes. *)
Definition initial_state : state := Eval vm_compute in
  let h i := root_fraction 2 (nth i primes 0) in
  State (h 0%nat) (h 1%nat) (h 2%nat) (h 3%nat) (h 4%nat) (h 5%nat) (h 6%nat) (h 7%nat).

(** The message schedule, newest word first: 16 block words, then 48 more. *)
Fixpoint extend (n : nat) (ws : list N) : list N :=
  match n with
  | O => ws
  | S n =>
      let w i := nth i ws 0 in
      extend n (add32 (add32 (small_sigma1 (w 1%nat)) (w 6%nat))
                      (add32 (small_sigma0 (w 14%nat)) (w 15%nat)) :: ws)
  end.
Definition schedule (block : list N) : list N := reverse (extend 48 (reverse block)).

Definition round (s : state) (kw : N * N) : state :=
  let '(k, w) := kw in
  let t1 := add32 (add32 (hh s) (big_sigma1 (he s)))
                  (add32 (ch (he s) (hf s) (hg s)) (add32 k w)) in
  let t2 := add32 (big_sigma0 (ha s)) (maj (ha s) (hb s) (hc s)) in
  State (add32 t1 t2) (ha s) (hb s) (hc s) (add32 (hd s) t1) (he s) (hf s) (hg s).

Definition compress (s : state) (block : list N) : state :=
  let r := fold_left round (zip round_constants (schedule block)) s in
  State (add32 (ha s) (ha r)) (add32 (hb s) (hb r)) (add32 (hc s) (hc r))
        (add32 (hd s) (hd r)) (add32 (he s) (he r)) (add32 (hf s) (hf r))
        (add32 (hg s) (hg r)) (add32 (hh s) (hh r)).

Fixpoint words_of (l : list N) : list N :=
  match l with
  | a :: b :: c :: d :: l => ((a * 256 + b) * 256 + c) * 256 + d :: words_of l
  | _ => []
  end.

Definition big_endian64 (x : N) : list N :=
  (λ i, N.land (N.shiftr x (8 * i)) 255) <$> [7; 6; 5; 4; 3; 2; 1; 0].

(** The padded message: a 1 bit, zeros, and the bit length in 64 bits. *)
Definition pad (msg : list N) : list N :=
  let n := N.of_nat (length msg) in
  let zeros := (119 - n `mod` 64) `mod` 64 in
  msg ++ 128 :: replicate (N.to_nat zeros) 0 ++ big_endian64 (8 * n).

(** Fold the compression over the 16-word blocks; [fuel] bounds their
    number, and one more than the number of words always suffices. *)
Fixpoint digest_blocks (fuel : nat) (s : state) (ws : list N) : state :=
  match fuel, ws with
  | S fuel, _ :: _ => digest_blocks fuel (compress s (take 16 ws)) (drop 16 ws)
  | _, _ => s
  end.

Definition hex_digit (x : N) : ascii := if x <? 10 then chr (48 + x) else chr (87 + x).
Definition word_hex (w : N) : list ascii :=
  (λ i, hex_digit (N.land (N.shiftr w (4 * i)) 15)) <$> [7; 6; 5; 4; 3; 2; 1; 0].

Definition sha256_hex (s : string) : string :=
  let ws := words_of (pad (code <$> chars s)) in
  let d := digest_blocks (length ws) initial_state ws in
  of_chars ([ha d; hb d; hc d; hd d; he d; hf d; hg d; hh d] ≫= word_hex).

#[global] Arguments sha256_hex : simpl never.

(* -------------------------------------------------------------------- *)
(** ** Lemmas *)

Lemma sha256_hex_length s : String.length (sha256_hex s) = 64%nat.
Proof. unfold sha256_hex. by rewrite length_of_chars. Qed.

Lemma hex_digit_hex x : is_hex (hex_digit (N.land x 15)) = true.
Proof.
  change 15 with (N.ones 4). rewrite N.land_ones. change (2^4) with 16.
  pose proof (N.mod_lt x 16 ltac:(done)) as Hlt. revert Hlt.
  generalize (x `mod` 16). intros y Hlt.
  assert (y ∈ N.of_nat <$> seq 0 16) as Hin.
  { apply list_elem_of_fmap. exists (N.to_nat y). rewrite N2Nat.id, elem_of_seq. lia. }
  revert Hin. clear Hlt. revert y. apply Forall_forall. repeat constructor.
Qed.

Lemma word_hex_hex w : Forall (λ a, is_hex a = true) (word_hex w).
Proof. unfold word_hex. apply Forall_fmap, Forall_true. intros i. apply hex_digit_hex. Qed.

Lemma sha256_hex_chars s : Forall (λ a, is_hex a = true) (chars (sha256_hex s)).
Proof.
  unfold sha256_hex. rewrite chars_of_chars. apply Forall_bind, Forall_true. apply word_hex_hex.
Qed.

(** The test vectors of FIPS 180-4 for the empty message, one block and two
    blocks. *)
Example sha256_empty :
  sha256_hex "" = "e3b0c44298fc1c149afbf4c8996fb92427ae41e4649b934ca495991b7852b855".
Proof. by vm_compute. Qed.
Example sha256_abc :
  sha256_hex "abc" = "ba7816bf8f01cfea414140de5dae2223b00361a396177a9cb410ff61f20015ad".
Proof. by vm_compute. Qed.
Example sha256_two_blocks :
  sha256_hex "abcdbcdecdefdefgefghfghighijhijkijkljklmklmnlmnomnopnopq"
  = "248d6a61d20638b8e5c026930c3e6039a33ce45964ff2167f6ecedd419db06c1".
Proof. by vm_compute. Qed.

(** Only full evaluation looks inside; proofs use the two lemmas above. *)
#[global] Opaque sha256_hex.
