(* ===== verification/Float64.v ===== *)
(** * Binary floating point

    Go's [float64] is the [spec_float] of the Standard Library at precision
    53 and exponent bound 1024, with the operations the operator applies to an
    oversubscription target: conversion from [int64], multiplication,
    comparison with zero, [math.Floor] followed by the conversion to [int64],
    and [strconv.FormatFloat(_, 'f', 3, 64)].  All of them compute.  At the
    end, when the floor of a rounded product is that of the exact one. *)

From S2P Require Import Prelude GoStrings.
From Stdlib Require Export SpecFloat.

Abbreviation float64 := spec_float.

Definition f64_zero : float64 := S754_zero false.
Definition f64_of_int (z : Z) : float64 := binary_normalize 53 1024 z 0 false.
Definition f64_mul (x y : float64) : float64 := SFmul 53 1024 x y.
Definition f64_ltb (x y : float64) : bool := SFltb x y.
Definition f64_leb (x y : float64) : bool := SFleb x y.
Definition f64_one : float64 := f64_of_int 1.

(** The integer at or below a finite value. *)
Definition f64_floor (x : float64) : option Z :=
  match x with
  | S754_zero _ => Some 0%Z
  | S754_finite s m e =>
      let z := if s then Z.neg m else Z.pos m in
      Some (if (0 <=? e)%Z then z * 2 ^ e else z `div` 2 ^ (- e))%Z
  | _ => None
  end.

(** Go leaves the conversion of a float outside the range of [int64] to the
    implementation; it is some [int64]. *)
Class FloatConversion := {
  int64_of_unrepresentable : float64 → Z;
  int64_of_unrepresentable_range : ∀ x, in_int64 (int64_of_unrepresentable x)
}.

(** [int64(math.Floor(x))]. *)
Definition int64_of_floor `{FloatConversion} (x : float64) : Z :=
  match f64_floor x with
  | Some z => if bool_decide (min_int64 ≤ z ≤ max_int64)%Z then z
              else int64_of_unrepresentable x
  | None => int64_of_unrepresentable x
  end.

(** [x * 1000] to the nearest integer, ties to even, for [x = m * 2^e]. *)
Definition thousandths (m : positive) (e : Z) : Z :=
  if (0 <=? e)%Z then Z.pos m * 1000 * 2 ^ e
  else
    let n := (Z.pos m * 1000)%Z in
    let d := (2 ^ (- e))%Z in
    let q := (n `div` d)%Z in
    let r := (n `mod` d)%Z in
    match (2 * r ?= d)%Z with
    | Lt => q
    | Gt => q + 1
    | Eq => if Z.even q then q else q + 1
    end.

Definition three_digits (z : Z) : string :=
  String (chr (48 + Z.to_N ((z `div` 100) `mod` 10)))
    (String (chr (48 + Z.to_N ((z `div` 10) `mod` 10)))
      (String (chr (48 + Z.to_N (z `mod` 10))) "")).

(** [strconv.FormatFloat(x, 'f', 3, 64)]. *)
Definition format_fixed3 (x : float64) : string :=
  match x with
  | S754_nan => "NaN"
  | S754_infinity s => if s then "-Inf" else "+Inf"
  | S754_zero s => if s then "-0.000" else "0.000"
  | S754_finite s m e =>
      let q := thousandths m e in
      (if s then "-" else "") +:+ itoa (q `div` 1000) +:+ "." +:+ three_digits (q `mod` 1000)
  end.

(** The instance of the implementation-defined conversion on amd64: the
    "integer indefinite" value. *)
Program Definition amd64_conversion : FloatConversion :=
  {| int64_of_unrepresentable _ := min_int64 |}.
Next Obligation. unfold in_int64, min_int64, max_int64. lia. Qed.

(* -------------------------------------------------------------------- *)
(** ** Lemmas *)

Lemma int64_of_floor_range `{FloatConversion} x : in_int64 (int64_of_floor x).
Proof.
  unfold int64_of_floor. destruct (f64_floor x) as [z|]; [case_bool_decide; [done|]|];
    apply int64_of_unrepresentable_range.
Qed.

Example format_1_5 : format_fixed3 (f64_mul (f64_of_int 3) (S754_finite false 1 (-1))) = "1.500".
Proof. by vm_compute. Qed.
Example format_half_even : format_fixed3 (S754_finite false 1 (-4)) = "0.062".
Proof. by vm_compute. Qed.

(* -------------------------------------------------------------------- *)
(** ** Rounding

    A product is the exact one rounded to 53 bits, to the nearest, ties to
    even.  Its floor is the exact floor when the exact product is not within
    half a unit of its last place below an integer. *)

#[local] Open Scope Z_scope.

Lemma fexp_max e : fexp 53 1024 e = Z.max (e - 53) (-1074).
Proof. reflexivity. Qed.

Lemma digits_bounds m : 2 ^ (Z.pos (digits2_pos m) - 1) ≤ Z.pos m < 2 ^ Z.pos (digits2_pos m).
Proof.
  induction m as [m IH|m IH|]; cbn [digits2_pos]; [..|done].
  all: rewrite Pos2Z.inj_succ, <-Z.add_1_r, Z.add_simpl_r.
  all: assert (2 ^ Z.pos (digits2_pos m) = 2 * 2 ^ (Z.pos (digits2_pos m) - 1)) as Heq
    by (rewrite <-Z.pow_succ_r by lia; f_equal; lia).
  all: rewrite Z.pow_add_r, Z.pow_1_r by lia; lia.
Qed.

(** The digits of a number below a power of two. *)
Lemma digits_at_most m n : 0 ≤ n → Z.pos m < 2 ^ n → Z.pos (digits2_pos m) ≤ n.
Proof.
  intros Hn Hm. destruct (Z.le_gt_cases (Z.pos (digits2_pos m)) n) as [|Hgt]; [done|exfalso].
  pose proof (digits_bounds m) as [Hlo _].
  assert (2 ^ n ≤ 2 ^ (Z.pos (digits2_pos m) - 1)) by (apply Z.pow_le_mono_r; lia). lia.
Qed.

Lemma iter_pos_nat {A} (f : A → A) p x : iter_pos f p x = Nat.iter (Pos.to_nat p) f x.
Proof.
  revert x. induction p as [p IH|p IH|]; intros x; cbn [iter_pos]; [..|done]; rewrite !IH, <-Nat.iter_add.
  - rewrite <-Nat.iter_succ_r. f_equal. lia.
  - f_equal. lia.
Qed.

(** Shifting right keeps the quotient, and the first bit that fell off. *)
Definition shifted (m : Z) (n : nat) (rec : shr_record) : Prop :=
  shr_m rec = m / 2 ^ Z.of_nat n ∧
  (shr_r rec = true → 2 ^ Z.of_nat n ≤ 2 * (m mod 2 ^ Z.of_nat n)).

Lemma shr_1_div rec : 0 ≤ shr_m rec → shr_m (shr_1 rec) = shr_m rec / 2 ∧
  (shr_r (shr_1 rec) = true → shr_m rec mod 2 = 1).
Proof.
  destruct rec as [[|[p|p|]|p] r s]; cbn [shr_m shr_1 shr_r]; intros Hm; try done.
  - rewrite Pos2Z.inj_xI, Z.add_comm, Z.mul_comm, Z.div_add, Z.mod_add by lia. done.
  - rewrite Pos2Z.inj_xO, Z.mul_comm, Z.div_mul by lia. done.
Qed.

Lemma shr_iter m n : 0 ≤ m → shifted m n (Nat.iter n shr_1 (Build_shr_record m false false)).
Proof.
  intros Hm. induction n as [|n [IHm IHr]].
  { split; cbn [shr_m shr_r]; [by rewrite Z.div_1_r|done]. }
  assert (0 < 2 ^ Z.of_nat n) as Hpos by (apply Z.pow_pos_nonneg; lia).
  change (Nat.iter (S n) shr_1 (Build_shr_record m false false))
    with (shr_1 (Nat.iter n shr_1 (Build_shr_record m false false))).
  generalize dependent (Nat.iter n shr_1 (Build_shr_record m false false)). intros rec IHm IHr.
  destruct (shr_1_div rec) as [Hq Hr]; [rewrite IHm; by apply Z.div_pos|].
  unfold shifted. rewrite Nat2Z.inj_succ, Z.pow_succ_r, (Z.mul_comm 2) by lia. split.
  - rewrite Hq, IHm. by rewrite Z.div_div by lia.
  - intros Hbit%Hr. rewrite IHm in Hbit. rewrite Z.rem_mul_r by lia. rewrite Hbit.
    pose proof (Z.mod_pos_bound m (2 ^ Z.of_nat n)). lia.
Qed.

(** What a float of this mantissa and exponent is rounded down to. *)
Definition floor_at (q e : Z) : Z := if 0 <=? e then q * 2 ^ e else q / 2 ^ (- e).
Lemma floor_at_neg q e : e ≤ 0 → floor_at q e = q / 2 ^ (- e).
Proof.
  unfold floor_at. intros He. destruct (Z.leb_spec 0 e); [|done].
  replace e with 0 by lia. by rewrite Z.div_1_r, Z.mul_1_r.
Qed.

(** The second half of a rounding: the mantissa may have become a power of two
    that is one bit too long; the value stays. *)
Lemma renormalize q e : 0 ≤ q ≤ 2 ^ 53 → -1074 ≤ e ≤ 0 →
  ∃ m'' e'', shr_fexp 53 1024 q e loc_Exact = (m'', e'') ∧ 0 ≤ shr_m m'' ∧ e'' ≤ 1 ∧
    floor_at (shr_m m'') e'' = floor_at q e.
Proof.
  intros Hq He. unfold shr_fexp. rewrite fexp_max. cbn [shr_record_of_loc].
  destruct (Z.eq_dec q (2 ^ 53)) as [->|Hne].
  { assert (Z.max (Zdigits2 (2 ^ 53) + e - 53) (-1074) - e = 1) as ->
      by (change (Zdigits2 (2 ^ 53)) with 54; lia).
    exists (Build_shr_record (2 ^ 52) false false), (e + 1). split; [reflexivity|]. cbn [shr_m].
    split_and!; [lia|lia|].
    rewrite (floor_at_neg (2 ^ 53)) by lia. unfold floor_at. destruct (Z.leb_spec 0 (e + 1)).
    - destruct (Z.eq_dec e 0) as [->|]; [reflexivity|]. replace e with (-1) by lia. reflexivity.
    - replace (- e) with (- (e + 1) + 1) by lia. rewrite Z.pow_add_r by lia.
      change (2 ^ 53) with (2 ^ 52 * 2). by rewrite Z.pow_1_r, Z.div_mul_cancel_r by lia. }
  exists (Build_shr_record q false false), e.
  assert (Zdigits2 q ≤ 53) as Hd.
  { destruct q as [|p|p]; cbn [Zdigits2]; [lia| |lia]. apply digits_at_most; lia. }
  cbn [shr_m]. split_and!; [|lia|lia|done].
  unfold shr. destruct (Z.max _ _ - e) eqn:Hk; [done| |done]. lia.
Qed.

(** The first half: the quotient, or the next number when more than half was
    cut off. *)
Lemma round_shifted m n rec : shifted m n rec →
  let q := round_nearest_even (shr_m rec) (loc_of_shr_record rec) in
  q = m / 2 ^ Z.of_nat n ∨
  q = m / 2 ^ Z.of_nat n + 1 ∧ 2 ^ Z.of_nat n ≤ 2 * (m mod 2 ^ Z.of_nat n).
Proof.
  destruct rec as [k [] s]; intros [Hk Hr]; cbn [shr_m shr_r] in *; subst k.
  - specialize (Hr eq_refl). destruct s; cbn; [by right|]. case_match; [by left|by right].
  - left. by destruct s.
Qed.

(** The result of a rounding, given what its first half made of the mantissa. *)
Lemma floor_renormalized q e : 0 ≤ q ≤ 2 ^ 53 → -1074 ≤ e ≤ 0 →
  f64_floor (let '(mrs, e') := shr_fexp 53 1024 q e loc_Exact in
    match shr_m mrs with
    | Z0 => S754_zero false
    | Z.pos m => if e' <=? 1024 - 53 then S754_finite false m e' else S754_infinity false
    | Z.neg _ => S754_nan
    end) = Some (floor_at q e).
Proof.
  intros Hq He. destruct (renormalize q e Hq He) as (mrs & e' & -> & Hm & He' & <-).
  destruct (shr_m mrs) as [|m|m]; [|rewrite (proj2 (Z.leb_le _ _)) by lia; done|lia].
  cbn. unfold floor_at. by destruct (0 <=? e').
Qed.

(** [margin x b n]: [x / b] is rounded down to [n], and rounding it to 53 bits
    first makes no difference. *)
Definition margin (x b n : Z) : Prop :=
  n * b ≤ x < (n + 1) * b ∧ x < 2 ^ 53 * ((n + 1) * b - x) ∧ n < 2 ^ 53.

Lemma margin_scale x b n s : 0 < s → margin x b n → margin (s * x) (s * b) n.
Proof. unfold margin. intros Hs (? & ? & ?). split_and!; [nia|nia|nia|done]. Qed.

Lemma margin_floor x b n : 0 < b → margin x b n → x / b = n.
Proof. intros Hb ([? ?] & _). symmetry. apply (Z.div_unique x b n (x - n * b)); [left|]; lia. Qed.

(** Cutting off [k] bits of a mantissa of 53 more, and rounding up if half was
    cut off, does not reach the next integer. *)
Lemma round_within m k f n q : 0 ≤ k → 0 ≤ f → 2 ^ 52 ≤ m / 2 ^ k → margin m (2 ^ (k + f)) n →
  q = m / 2 ^ k ∨ q = m / 2 ^ k + 1 ∧ 2 ^ k ≤ 2 * (m mod 2 ^ k) →
  q / 2 ^ f = n.
Proof.
  intros Hk Hf Hq Hm. rewrite Z.pow_add_r in Hm by done.
  assert (0 < 2 ^ k ∧ 0 < 2 ^ f) as [Hpk Hpf] by (split; by apply Z.pow_pos_nonneg).
  revert Hq Hm Hpk Hpf. generalize (2 ^ k) (2 ^ f). intros K F Hq Hm HK HF.
  pose proof (margin_floor _ _ _ (Z.mul_pos_pos _ _ HK HF) Hm) as Hn. destruct Hm as ([Hlo Hhi] & Hmargin & _).
  rewrite <-Z.div_div in Hn by lia. pose proof (Z.div_mod m K ltac:(lia)) as Hdm.
  set (t := m / K) in *. set (r := m mod K) in *.
  intros [->|[-> Hr]]; [done|].
  pose proof (Z.div_mod t F ltac:(lia)) as Hdt. pose proof (Z.mod_pos_bound t F HF) as Hmt.
  rewrite Hn in Hdt. set (u := t mod F) in *.
  assert (t + 1 < (n + 1) * F) as Hlt.
  { apply Z.nle_gt. intros Hge. assert (u = F - 1) as Hu by lia.
    assert ((n + 1) * (K * F) - m = K - r) as Hd by nia.
    rewrite Hd in Hmargin. change (2 ^ 53) with (2 ^ 52 * 2) in Hmargin. nia. }
  symmetry. apply (Z.div_unique (t + 1) F n (t + 1 - n * F)); [left|]; lia.
Qed.

Lemma floor_at_frac q e : floor_at q e = (q * 2 ^ Z.max e 0) / 2 ^ Z.max (- e) 0.
Proof.
  unfold floor_at. destruct (Z.leb_spec 0 e).
  - rewrite Z.max_l, Z.max_r, Z.div_1_r by lia. done.
  - rewrite Z.max_r, Z.max_l, Z.mul_1_r by lia. done.
Qed.

(** A number of [d] bits at exponent [e] is below 2^53, so [d + e <= 53]. *)
Lemma margin_exponent m e n : margin (Z.pos m * 2 ^ Z.max e 0) (2 ^ Z.max (- e) 0) n →
  Z.pos (digits2_pos m) + e ≤ 53.
Proof.
  intros ([_ Hhi] & _ & Hn). destruct (Z.le_gt_cases (Z.pos (digits2_pos m) + e) 53) as [|Hgt]; [done|exfalso].
  destruct (digits_bounds m) as [Hlo _]. set (d := Z.pos (digits2_pos m)) in *.
  assert (0 < 2 ^ Z.max e 0 ∧ 0 < 2 ^ Z.max (- e) 0) as [H1 H2] by (split; apply Z.pow_pos_nonneg; lia).
  assert (2 ^ 53 * 2 ^ Z.max (- e) 0 ≤ 2 ^ (d - 1) * 2 ^ Z.max e 0) as Hle.
  { rewrite <-!Z.pow_add_r by lia. apply Z.pow_le_mono_r; lia. }
  nia.
Qed.

Lemma shr_fexp_id m e : Z.max (Zdigits2 m + e - 53) (-1074) - e ≤ 0 →
  shr_fexp 53 1024 m e loc_Exact = (Build_shr_record m false false, e).
Proof. unfold shr_fexp, shr. rewrite fexp_max. intros Hk. by destruct (_ - e). Qed.

(** The mantissa that is left of a longer one. *)
Lemma cut_mantissa m p : let d := Z.pos (digits2_pos m) in d - 53 ≤ Z.pos p →
  0 ≤ Z.pos m / 2 ^ Z.pos p < 2 ^ 53 ∧ (d - 53 = Z.pos p → 2 ^ 52 ≤ Z.pos m / 2 ^ Z.pos p).
Proof.
  cbv zeta. destruct (digits_bounds m) as [Hlo Hhi]. set (d := Z.pos (digits2_pos m)) in *. intros Hd.
  assert (0 < 2 ^ Z.pos p) as Hp by (apply Z.pow_pos_nonneg; lia). split; [split|].
  - apply Z.div_pos; lia.
  - apply Z.div_lt_upper_bound; [done|]. eapply Z.lt_le_trans; [exact Hhi|].
    rewrite <-Z.pow_add_r by lia. apply Z.pow_le_mono_r; lia.
  - intros Heq. apply Z.div_le_lower_bound; [done|]. etrans; [|exact Hlo].
    rewrite <-Z.pow_add_r by lia. apply Z.pow_le_mono_r; lia.
Qed.

Lemma shifted_floor m e p n q :
  Z.max (Z.pos (digits2_pos m) + e - 53) (-1074) - e = Z.pos p →
  margin (Z.pos m * 2 ^ Z.max e 0) (2 ^ Z.max (- e) 0) n →
  q = Z.pos m / 2 ^ Z.pos p ∨
    q = Z.pos m / 2 ^ Z.pos p + 1 ∧ 2 ^ Z.pos p ≤ 2 * (Z.pos m mod 2 ^ Z.pos p) →
  0 ≤ q ≤ 2 ^ 53 ∧ -1074 ≤ e + Z.pos p ≤ 0 ∧ floor_at q (e + Z.pos p) = n.
Proof.
  intros Hp Hm Hq. pose proof (margin_exponent _ _ _ Hm) as Hde.
  destruct (cut_mantissa m p ltac:(lia)) as [Hcut Hfull].
  destruct (digits_bounds m) as [_ Hhi]. set (d := Z.pos (digits2_pos m)) in *.
  rewrite Z.max_r, Z.max_l, Z.mul_1_r in Hm by lia.
  split_and!; [lia|lia|lia|lia|]. rewrite floor_at_neg by lia.
  replace (- e) with (Z.pos p + - (e + Z.pos p)) in Hm by lia.
  destruct (Z.le_gt_cases (-1074) (d + e - 53)) as [Hnormal|Hsub].
  { eapply round_within; [..|exact Hm|exact Hq]; [lia|lia|apply Hfull; lia]. }
  replace (e + Z.pos p) with (-1074) in * by lia. rewrite Z.div_small by (split; [lia|];
    eapply Z.le_lt_trans; [|apply (Z.pow_lt_mono_r 2 53 1074); lia]; lia).
  destruct Hm as ([Hlo Hup] & _ & _).
  assert (2 ^ d ≤ 2 ^ (Z.pos p + - (-1074))) as Hbound by (apply Z.pow_le_mono_r; lia).
  generalize dependent (2 ^ (Z.pos p + - (-1074))). intros b Hlo Hup Hbound. nia.
Qed.

(** A product that is rounded has the floor of the exact one. *)
Lemma binary_round_floor m e n : margin (Z.pos m * 2 ^ Z.max e 0) (2 ^ Z.max (- e) 0) n →
  f64_floor (binary_round_aux 53 1024 false (Z.pos m) e loc_Exact) = Some n.
Proof.
  intros Hm. pose proof (margin_exponent _ _ _ Hm) as Hde. destruct (digits_bounds m) as [Hlo Hhi].
  assert (0 < 2 ^ Z.max (- e) 0) as Hb by (apply Z.pow_pos_nonneg; lia).
  pose proof (margin_floor _ _ _ Hb Hm) as Hfl. rewrite <-floor_at_frac in Hfl.
  unfold binary_round_aux. destruct (Z.max (Z.pos (digits2_pos m) + e - 53) (-1074) - e) as [|p|p] eqn:Hk.
  1, 3: rewrite !shr_fexp_id by (cbn [Zdigits2]; lia); cbn [shr_m loc_of_shr_record round_nearest_even];
    rewrite !shr_fexp_id by (cbn [Zdigits2]; lia); cbn [shr_m];
    rewrite (proj2 (Z.leb_le _ _)) by lia; rewrite <-Hfl; cbn; unfold floor_at; by destruct (0 <=? e).
  unfold shr_fexp at 1. rewrite fexp_max. cbn [Zdigits2 shr_record_of_loc]. rewrite Hk. cbn [shr].
  rewrite iter_pos_nat.
  pose proof (round_shifted _ _ _ (shr_iter (Z.pos m) (Pos.to_nat p) ltac:(lia))) as Hq.
  cbv zeta in Hq. rewrite positive_nat_Z in Hq. revert Hq.
  generalize (round_nearest_even (shr_m (Nat.iter (Pos.to_nat p) shr_1 (Build_shr_record (Z.pos m) false false)))
    (loc_of_shr_record (Nat.iter (Pos.to_nat p) shr_1 (Build_shr_record (Z.pos m) false false)))).
  intros q Hq. destruct (shifted_floor _ _ _ _ _ Hk Hm Hq) as (Hq' & He & <-).
  by apply floor_renormalized.
Qed.

(** A count of less than 2^53 is a float64, exactly. *)
Lemma f64_of_int_exact h : 0 < h < 2 ^ 53 →
  ∃ m c, f64_of_int h = S754_finite false m (- c) ∧ 0 ≤ c ∧ Z.pos m = h * 2 ^ c.
Proof.
  destruct h as [|h|h]; intros Hh; [lia| |lia]. unfold f64_of_int, binary_normalize, binary_round.
  pose proof (digits_at_most h 53 ltac:(lia) ltac:(lia)) as Hd.
  rewrite fexp_max, Z.add_0_r, Z.max_l by lia. unfold shl_align. rewrite Z.sub_0_r.
  destruct (digits_bounds h) as [_ Hhi].
  set (c := 53 - Z.pos (digits2_pos h)) in *.
  replace (Z.pos (digits2_pos h) - 53) with (- c) by lia.
  assert (∃ mz : positive, (match - c with Z.neg k => (Pos.iter xO h k, - c) | _ => (h, 0) end) = (mz, - c) ∧
    Z.pos mz = Z.pos h * 2 ^ c) as (mz & -> & Hmz).
  { assert (0 ≤ c) as Hc by lia. clearbody c. destruct c as [|k|k]; [|..|lia].
    - exists h. by rewrite Z.mul_1_r.
    - eexists. split; [done|]. fold (Zpower.shift_pos k h). rewrite Zpower.shift_pos_correct. apply Z.mul_comm. }
  exists mz, c. split_and!; [|lia|done].
  assert (Z.pos (digits2_pos mz) ≤ 53) as Hdz.
  { apply digits_at_most; [lia|]. rewrite Hmz.
    replace 53 with (Z.pos (digits2_pos h) + c) by lia. rewrite Z.pow_add_r by lia.
    apply Z.mul_lt_mono_pos_r; [apply Z.pow_pos_nonneg; lia|done]. }
  unfold binary_round_aux. rewrite !shr_fexp_id by (cbn [Zdigits2]; lia).
  cbn [shr_m loc_of_shr_record round_nearest_even].
  rewrite !shr_fexp_id by (cbn [Zdigits2]; lia). cbn [shr_m].
  by rewrite (proj2 (Z.leb_le _ _)) by lia.
Qed.

(** A count times a finite positive number, rounded down: the floor of the
    exact product, if that is [margin] away from the next integer. *)
Lemma f64_mul_floor h m e n : 0 < h < 2 ^ 53 →
  margin (h * Z.pos m * 2 ^ Z.max e 0) (2 ^ Z.max (- e) 0) n →
  f64_floor (f64_mul (f64_of_int h) (S754_finite false m e)) = Some n.
Proof.
  intros Hh Hm. destruct (f64_of_int_exact h Hh) as (mh & c & -> & Hc & Hmh).
  unfold f64_mul, SFmul. cbn [xorb]. apply binary_round_floor.
  rewrite Pos2Z.inj_mul, Hmh.
  (* the same fraction with [2^c], or what is left of it, on both sides *)
  set (s := Z.max (- (- c + e)) 0 - Z.max (- e) 0).
  assert (0 ≤ s) as Hs by lia.
  assert (2 ^ Z.max (- (- c + e)) 0 = 2 ^ s * 2 ^ Z.max (- e) 0) as ->
    by (rewrite <-Z.pow_add_r by lia; f_equal; lia).
  assert (h * 2 ^ c * Z.pos m * 2 ^ Z.max (- c + e) 0 = 2 ^ s * (h * Z.pos m * 2 ^ Z.max e 0)) as ->.
  2:{ apply margin_scale; [by apply Z.pow_pos_nonneg|done]. }
  assert (2 ^ c * 2 ^ Z.max (- c + e) 0 = 2 ^ s * 2 ^ Z.max e 0) as Hpow
    by (rewrite <-!Z.pow_add_r by lia; f_equal; lia).
  transitivity (h * Z.pos m * (2 ^ c * 2 ^ Z.max (- c + e) 0)); [ring|]. rewrite Hpow. ring.
Qed.
