(* ===== verification/GoDuration.v ===== *)
(** * Go's durations as text

    time.ParseDuration and Duration.String, which operator/config.go uses: a
    duration is an int64 of nanoseconds.  Everything computes; the digits after
    a point go through float64 as in the library. *)

From S2P Require Import Prelude GoStrings Float64.
#[local] Open Scope Z_scope.

Definition Nanosecond : Z := 1.
Definition Microsecond : Z := 1000.
Definition Millisecond : Z := 1000000.
Definition Second : Z := 1000000000.
Definition Minute : Z := 60000000000.
Definition Hour : Z := 3600000000000.

(** The library's own [quote]. *)
Definition time_quote_byte (a : ascii) : list ascii :=
  let n := code a in
  if (n <? 32)%N || (128 <=? n)%N
  then chars "\x" ++ [hex_nibble (n / 16); hex_nibble (n mod 16)]
  else if (n =? 34)%N || (n =? 92)%N then [chr 92; a]
  else [a].
Definition time_quote (s : string) : string :=
  dquote +:+ of_chars (chars s ≫= time_quote_byte) +:+ dquote.

Definition digit_value (a : ascii) : Z := Z.of_N (code a) - 48.

(** [leadingInt]; nothing on overflow. *)
Fixpoint leadingInt (x : Z) (l : list ascii) : option (Z * list ascii) :=
  match l with
  | [] => Some (x, [])
  | a :: rest =>
      if is_digit a then
        if 2^63 / 10 <? x then None
        else
          let x := x * 10 + digit_value a in
          if 2^63 <? x then None else leadingInt x rest
      else Some (x, l)
  end.

(** [leadingFraction]: digits beyond the precision of a uint64 are dropped. *)
Fixpoint leadingFraction (x scale : Z) (overflow : bool) (l : list ascii) : Z * Z * list ascii :=
  match l with
  | [] => (x, scale, [])
  | a :: rest =>
      if is_digit a then
        if overflow || ((2^63 - 1) / 10 <? x) then leadingFraction x scale true rest
        else
          let y := x * 10 + digit_value a in
          if 2^63 <? y then leadingFraction x scale true rest
          else leadingFraction y (scale * 10) false rest
      else (x, scale, l)
  end.

(** The bytes before the next point or digit. *)
Fixpoint unit_name (l : list ascii) : list ascii * list ascii :=
  match l with
  | [] => ([], [])
  | a :: rest =>
      if bool_decide (a = "."%char) || is_digit a then ([], l)
      else let '(u, rest) := unit_name rest in (a :: u, rest)
  end.

(** [unitMap]; the micro sign is U+00B5 or U+03BC. *)
Definition unitMap (u : list ascii) : option Z :=
  let named name := bool_decide (u = name) in
  if named (chars "ns") then Some Nanosecond
  else if named (chars "us") || named [chr 194; chr 181; "s"%char] || named [chr 206; chr 188; "s"%char]
  then Some Microsecond
  else if named (chars "ms") then Some Millisecond
  else if named (chars "s") then Some Second
  else if named (chars "m") then Some Minute
  else if named (chars "h") then Some Hour
  else None.

(** [uint64(float64(f) * (float64(unit) / scale))]: below an hour. *)
Definition fraction_of (f scale unit : Z) : Z :=
  default 0 (f64_floor (f64_mul (f64_of_int f)
    (SFdiv 53 1024 (f64_of_int unit) (f64_of_int scale)))).

(** The digits after a point, if there is one, and whether there are any. *)
Definition point_fraction (l : list ascii) : Z * Z * list ascii * bool :=
  match l with
  | "."%char :: l1 =>
      let '(f, scale, l2) := leadingFraction 0 1 false l1 in
      (f, scale, l2, negb (length l2 =? length l1)%nat)
  | _ => (0, 1, l, false)
  end.

Section parse.
Context (orig : string).

Definition invalid_duration : error := ErrText ("time: invalid duration " +:+ time_quote orig).

(** One number with its unit: its nanoseconds and the rest. *)
Definition parse_unit (l : list ascii) : result (Z * list ascii) :=
  match l with
  | [] => Err invalid_duration
  | a :: _ =>
      if negb (bool_decide (a = "."%char) || is_digit a) then Err invalid_duration
      else
        match leadingInt 0 l with
        | None => Err invalid_duration
        | Some (v, l1) =>
            let pre := negb (length l1 =? length l)%nat in
            let '(f, scale, l2, post) := point_fraction l1 in
            if negb pre && negb post then Err invalid_duration
            else
              let '(u, l3) := unit_name l2 in
              match u with
              | [] => Err (ErrText ("time: missing unit in duration " +:+ time_quote orig))
              | _ =>
                  match unitMap u with
                  | None =>
                      Err (ErrText ("time: unknown unit " +:+ time_quote (of_chars u) +:+
                                    " in duration " +:+ time_quote orig))
                  | Some unit =>
                      if 2^63 / unit <? v then Err invalid_duration
                      else
                        let v := v * unit + (if 0 <? f then fraction_of f scale unit else 0) in
                        if 2^63 <? v then Err invalid_duration else Ok (v, l3)
                  end
              end
        end
  end.

(** Each pass of the loop takes at least a byte, so the text's length is
    enough fuel. *)
Fixpoint parse_units (fuel : nat) (d : Z) (l : list ascii) : result Z :=
  match l, fuel with
  | [], _ => Ok d
  | _, O => Err invalid_duration
  | _, S fuel =>
      '(v, rest) ← parse_unit l;
      let d := (d + v) mod 2^64 in
      if 2^63 <? d then Err invalid_duration else parse_units fuel d rest
  end.
End parse.

(** An optional sign. *)
Definition cut_sign (l : list ascii) : bool * list ascii :=
  match l with
  | "-"%char :: l => (true, l)
  | "+"%char :: l => (false, l)
  | _ => (false, l)
  end.

Definition ParseDuration (s : string) : result Z :=
  let '(neg, l) := cut_sign (chars s) in
  if bool_decide (l = chars "0") then Ok 0
  else match l with
  | [] => Err (invalid_duration s)
  | _ =>
      d ← parse_units s (length l) 0 l;
      if neg then Ok (int64 (- d))
      else if 2^63 - 1 <? d then Err (invalid_duration s) else Ok d
  end.

(** [fmtFrac] of the last [prec] digits, without the zeros at the end. *)
Definition fmt_fraction (u : Z) (prec : nat) : string :=
  let frac := u mod 10 ^ Z.of_nat prec in
  if frac =? 0 then ""
  else
    let digits := chars (itoa frac) in
    "." +:+ of_chars (reverse (drop_while (λ a, bool_decide (a = "0"%char))
              (reverse (replicate (prec - length digits) "0"%char ++ digits)))).

Definition Duration_String (d : Z) : string :=
  let u := Z.abs d in
  if u =? 0 then "0s"
  else
    (if d <? 0 then "-" else "") +:+
    (if u <? Microsecond then itoa u +:+ "ns"
     else if u <? Millisecond then
       itoa (u / Microsecond) +:+ fmt_fraction u 3 +:+ of_chars [chr 194; chr 181; "s"%char]
     else if u <? Second then itoa (u / Millisecond) +:+ fmt_fraction u 6 +:+ "ms"
     else
       let seconds := u / Second in
       let minutes := seconds / 60 in
       let hours := minutes / 60 in
       (if 0 <? hours then itoa hours +:+ "h" else "") +:+
       (if 0 <? minutes then itoa (minutes mod 60) +:+ "m" else "") +:+
       itoa (seconds mod 60) +:+ fmt_fraction u 9 +:+ "s").

(* -------------------------------------------------------------------- *)
(** ** Lemmas *)

Lemma leadingInt_shorter x l v rest : leadingInt x l = Some (v, rest) → (length rest ≤ length l)%nat.
Proof.
  revert x. induction l as [|a l IH]; intros x; cbn [leadingInt]; [by intros [= <- <-]|].
  destruct (is_digit a); [|by intros [= <- <-]].
  destruct (_ <? _); [done|]. destruct (_ <? _); [done|]. intros ?%IH. cbn. lia.
Qed.

Lemma leadingFraction_shorter x scale o l : (length (leadingFraction x scale o l).2 ≤ length l)%nat.
Proof.
  revert x scale o. induction l as [|a l IH]; intros x scale o; cbn [leadingFraction]; [done|].
  destruct (is_digit a); [|done].
  destruct (o || _); [pose proof (IH x scale true); cbn; lia|].
  destruct (_ <? _); [pose proof (IH x scale true); cbn; lia|].
  pose proof (IH (x * 10 + digit_value a) (scale * 10) false). cbn. lia.
Qed.

Lemma unit_name_app l u rest : unit_name l = (u, rest) → l = u ++ rest.
Proof.
  revert u rest. induction l as [|a l IH]; intros u rest; cbn; [by intros [= <- <-]|].
  destruct (_ || _); [by intros [= <- <-]|].
  destruct (unit_name l) as [u' rest'] eqn:Hu. intros [= <- <-]. cbn. f_equal. by apply IH.
Qed.

Lemma point_fraction_other l : (∀ rest, l ≠ "."%char :: rest) → point_fraction l = (0, 1, l, false).
Proof.
  destruct l as [|a l]; [done|]. intros Hl.
  destruct a as [[] [] [] [] [] [] [] []]; try done. by destruct (Hl l).
Qed.

Lemma point_fraction_shorter l : (length (point_fraction l).1.2 ≤ length l)%nat.
Proof.
  destruct l as [|a l]; [done|]. destruct (decide (a = "."%char)) as [->|Ha].
  - unfold point_fraction. pose proof (leadingFraction_shorter 0 1 false l) as Hl.
    destruct (leadingFraction 0 1 false l) as [[? ?] ?]. cbn in *. lia.
  - rewrite point_fraction_other; [done|]. by intros rest [= ->].
Qed.

Lemma parse_unit_shorter orig l v rest : parse_unit orig l = Ok (v, rest) → (length rest < length l)%nat.
Proof.
  unfold parse_unit. destruct l as [|a l]; [done|]. set (l0 := a :: l).
  destruct (negb _); [done|]. destruct (leadingInt 0 l0) as [[x l1]|] eqn:Hi; [|done].
  apply leadingInt_shorter in Hi.
  pose proof (point_fraction_shorter l1) as Hl2.
  destruct (point_fraction l1) as [[[f scale] l2] post]. cbn [fst snd] in Hl2.
  destruct (_ && _); [done|]. destruct (unit_name l2) as [u l3] eqn:Hu.
  apply unit_name_app in Hu. destruct u as [|c u]; [done|]. destruct (unitMap _); [|done].
  destruct (_ <? _); [done|]. destruct (2^63 <? _); [done|]. intros [= <- <-].
  subst l2. rewrite length_app in Hl2. cbn in Hl2. lia.
Qed.

(** More fuel than the text is long changes nothing. *)
Lemma parse_units_fuel orig fuel1 fuel2 d l : (length l ≤ fuel1)%nat → (length l ≤ fuel2)%nat →
  parse_units orig fuel1 d l = parse_units orig fuel2 d l.
Proof.
  revert fuel2 d l. induction fuel1 as [|fuel1 IH]; intros fuel2 d l H1 H2.
  { destruct l; [by destruct fuel2|]. cbn in H1. lia. }
  destruct l as [|a l]; [by destruct fuel2|]. destruct fuel2 as [|fuel2]; [cbn in H2; lia|].
  cbn [parse_units]. destruct (parse_unit orig (a :: l)) as [[v rest]|e] eqn:Hp; [|done].
  apply parse_unit_shorter in Hp. cbn. destruct (_ <? _); [done|]. cbn in *. apply IH; lia.
Qed.

(** A duration is always an int64, and not negative without a minus sign. *)
Lemma parse_units_range orig fuel d l v : 0 ≤ d ≤ 2^63 → parse_units orig fuel d l = Ok v → 0 ≤ v ≤ 2^63.
Proof.
  revert d l. induction fuel as [|fuel IH]; intros d l Hd; cbn [parse_units].
  { destruct l; [|done]. by intros [= <-]. }
  destruct l as [|a l]; [by intros [= <-]|].
  destruct (parse_unit orig (a :: l)) as [[x rest]|e]; [|done]. cbn.
  destruct (Z.ltb_spec (2^63) ((d + x) mod 2^64)); [done|]. apply IH.
  pose proof (Z.mod_pos_bound (d + x) (2^64) ltac:(lia)). lia.
Qed.

Lemma ParseDuration_range s d : ParseDuration s = Ok d → in_int64 d.
Proof.
  unfold ParseDuration. destruct (cut_sign (chars s)) as [neg l].
  case_bool_decide; [intros [= <-]; unfold in_int64, min_int64, max_int64; lia|].
  destruct l as [|a l]; [done|]. destruct (parse_units _ _ 0 _) as [v|] eqn:Hp; [|done].
  apply parse_units_range in Hp; [|lia]. cbn. destruct neg.
  - intros [= <-]. apply int64_range.
  - destruct (Z.ltb_spec (2^63 - 1) v); [done|]. intros [= <-].
    unfold in_int64, min_int64, max_int64. lia.
Qed.

Lemma digits_value_grows acc l n : digits_value acc l = Some n → (acc ≤ n)%N.
Proof.
  revert acc. induction l as [|a l IH]; intros acc; cbn [digits_value]; [intros [= <-]; done|].
  destruct (is_digit a); [|done]. intros ?%IH. lia.
Qed.

(** A whole number of a unit. *)
Lemma leadingInt_digits acc n l rest : digits_value acc l = Some n → Z.of_N n ≤ 2^63 →
  (∀ a, head rest = Some a → is_digit a = false) →
  leadingInt (Z.of_N acc) (l ++ rest) = Some (Z.of_N n, rest).
Proof.
  intros Hv Hn Hrest. revert acc Hv. induction l as [|a l IH]; intros acc; cbn [digits_value].
  - intros [= ->]. destruct rest as [|b rest]; [done|]. cbn [app leadingInt]. by rewrite Hrest.
  - destruct (is_digit a) eqn:Ha; [|done]. intros Hv. pose proof (digits_value_grows _ _ _ Hv) as Hle.
    cbn [app leadingInt]. rewrite Ha.
    assert (Z.of_N acc * 10 + digit_value a = Z.of_N (acc * 10 + (code a - 48))) as ->.
    { unfold digit_value, is_digit in *. apply andb_prop in Ha as [?%N.leb_le ?%N.leb_le]. lia. }
    assert (Z.of_N acc ≤ 2^63 / 10) by (apply Z.div_le_lower_bound; lia).
    destruct (Z.ltb_spec (2^63 / 10) (Z.of_N acc)); [lia|].
    destruct (Z.ltb_spec (2^63) (Z.of_N (acc * 10 + (code a - 48)))); [lia|]. by apply IH.
Qed.

Definition unit_bytes (u : list ascii) : Prop :=
  u ≠ [] ∧ Forall (λ a, a ≠ "."%char ∧ is_digit a = false) u.

Lemma unit_name_whole u : unit_bytes u → unit_name u = (u, []).
Proof.
  intros [_ Hu]. induction Hu as [|a u [Ha Hd] _ IH]; [done|]. cbn [unit_name].
  by rewrite bool_decide_false, Hd, IH.
Qed.

Lemma ParseDuration_whole n u unit : 0 ≤ n → 0 < unit → n * unit ≤ max_int64 →
  unit_bytes (chars u) → unitMap (chars u) = Some unit →
  ParseDuration (itoa n +:+ u) = Ok (n * unit).
Proof.
  intros Hn Hunit Hmax Hu Hmap. unfold max_int64 in Hmax.
  destruct (chars_itoa n) as (ds & Hv & Hne & Hc). rewrite (proj2 (Z.ltb_ge n 0)) in Hc by lia.
  unfold ParseDuration. rewrite chars_app, Hc.
  destruct ds as [|a ds]; [done|]. assert (is_digit a = true) as Ha by (cbn in Hv; by destruct (is_digit a)).
  assert (cut_sign ((a :: ds) ++ chars u) = (false, (a :: ds) ++ chars u)) as ->.
  { cbn [app cut_sign]. destruct a as [[] [] [] [] [] [] [] []]; try done; discriminate. }
  pose proof (unit_name_whole _ Hu) as Hname. destruct Hu as [Hune Hu].
  rewrite bool_decide_false.
  2:{ intros Heq. destruct ds; [|done]. destruct (chars u); done. }
  cbn [app length parse_units]. unfold parse_unit.
  assert (bool_decide (a = "."%char) || is_digit a = true) as -> by (rewrite Ha; apply orb_true_r).
  cbn [negb]. change (a :: ds ++ chars u) with ((a :: ds) ++ chars u).
  assert (n * unit ≤ 2^63 ∧ n ≤ 2^63) as [? ?] by nia.
  pose proof (leadingInt_digits 0 (Z.abs_N n) (a :: ds) (chars u) Hv ltac:(lia)) as Hint.
  change (Z.of_N 0) with 0 in Hint. rewrite Hint.
  2:{ intros b Hb. destruct (chars u) as [|c l]; [done|]. injection Hb as ->. by apply Forall_cons in Hu as [[_ ?] _]. }
  assert ((length (chars u) =? length ((a :: ds) ++ chars u))%nat = false) as ->
    by (apply Nat.eqb_neq; rewrite length_app; cbn; lia).
  rewrite point_fraction_other.
  2:{ intros rest Hr. rewrite Hr in Hu. by apply Forall_cons in Hu as [[? _] _]. }
  cbn [negb andb]. rewrite Hname, Hmap. destruct (chars u) as [|c l] eqn:Hcu; [done|].
  rewrite N2Z.inj_abs_N, Z.abs_eq by done.
  assert (n ≤ 2^63 / unit) by (apply Z.div_le_lower_bound; lia).
  destruct (Z.ltb_spec (2^63 / unit) n); [lia|]. cbn [Z.ltb Z.compare].
  rewrite Z.add_0_r. destruct (Z.ltb_spec (2^63) (n * unit)); [lia|].
  cbn [mbind result_bind]. rewrite Z.add_0_l, Z.mod_small by lia.
  destruct (Z.ltb_spec (2^63) (n * unit)); [lia|].
  assert (∀ fuel, parse_units (itoa n +:+ u) fuel (n * unit) [] = Ok (n * unit)) as -> by by intros [].
  cbn. destruct (Z.ltb_spec (2^63 - 1) (n * unit)); [lia|done].
Qed.

Example durations_parsed :
  (ParseDuration <$> ["60s"; "1h15m30.918s"; "-1.5h"; "0"; "+5m"; ".5us"; "9223372036854775807ns"])
  = [Ok 60000000000; Ok 4530918000000; Ok (-5400000000000); Ok 0; Ok 300000000000; Ok 500;
     Ok 9223372036854775807] ∧
  (is_ok ∘ ParseDuration <$> [""; "3"; "-"; ".s"; "1d"; "9223372036854775808ns"; "3000000h"])
  = [false; false; false; false; false; false; false].
Proof. vm_compute. split; reflexivity. Qed.

Example durations_written :
  Duration_String <$> [0; 1500; -1; 4530918000000; 60000000000; 1200000] =
  ["0s"; "1.5" +:+ of_chars [chr 194; chr 181; "s"%char]; "-1ns"; "1h15m30.918s"; "1m0s"; "1.2ms"].
Proof. vm_compute. reflexivity. Qed.
