(* ===== verification/Labels.v ===== *)
(** * Operator: names and labels

    The naming functions of internal/operator/resourceslice.go and
    deviceclass.go, which turn zone names and GPU types (arbitrary text from
    Thunder) into names Kubernetes accepts, with the theorems that they always
    do, that they are stable, and that the devices of a pool get distinct
    names. *)

From S2P Require Import Prelude GoStrings Sha256.

Definition thunderDomain : string := "thundercompute.com".
Definition devicesPerSlice : Z := 128.
Definition maxDNSLabel : nat := 63.

(** The bytes the pattern [[^a-z0-9-]+] of [invalidDNSLabelRun] leaves alone. *)
Definition dns_char (a : ascii) : bool := is_lower a || is_digit a || bool_decide (a = "-"%char).

(** [invalidDNSLabelRun.ReplaceAllString(s, "-")]: each maximal run of other
    bytes becomes one dash.  [in_run] says whether the byte before was in a
    run already replaced. *)
Fixpoint replace_runs (in_run : bool) (l : list ascii) : list ascii :=
  match l with
  | [] => []
  | a :: l =>
      if dns_char a then a :: replace_runs false l
      else if in_run then replace_runs true l
      else "-"%char :: replace_runs true l
  end.
Definition invalidDNSLabelRun (s : string) : string := of_chars (replace_runs false (chars s)).

(** [sum[:10]] of the hexadecimal SHA-256 digest. *)
Definition short_hash (s : string) : string := take_bytes 10 (sha256_hex s).

Definition truncateLabel (label : string) (max : nat) : string :=
  if bool_decide (String.length label ≤ max)%nat then label
  else
    let hash := short_hash label in
    trim_suffix (take_bytes (max - String.length hash - 1) label) "-" +:+ "-" +:+ hash.

(** A truncated body followed by a numeric suffix, the shape of slice and
    device names. *)
Definition numbered (body : string) (index : Z) : string :=
  let suffix := "-" +:+ itoa index in
  truncateLabel body (maxDNSLabel - String.length suffix) +:+ suffix.

Section names.
Context `{UnicodeTables}.

Definition dnsLabel (value : string) : string :=
  let label := to_lower (trim_space value) in
  let label := invalidDNSLabelRun label in
  let label := trim_byte "-"%char label in
  if bool_decide (label = "") then "unknown" else truncateLabel label maxDNSLabel.

Definition poolName (zone gpuType : string) : string :=
  dnsLabel zone +:+ "/" +:+ dnsLabel gpuType.

Definition resourceSliceName (prefix zone gpuType : string) (shard : Z) : string :=
  let suffix := "-" +:+ itoa shard in
  truncateLabel (dnsLabel (prefix +:+ "-" +:+ zone +:+ "-" +:+ gpuType))
    (maxDNSLabel - String.length suffix) +:+ suffix.

Definition deviceName (gpuType : string) (index : Z) : string :=
  let suffix := "-" +:+ itoa index in
  truncateLabel (dnsLabel gpuType) (maxDNSLabel - String.length suffix) +:+ suffix.

Definition deviceClassName (prefix gpuType : string) : string := dnsLabel (prefix +:+ gpuType).
Definition extendedResourceName (prefix gpuType : string) : string := prefix +:+ dnsLabel gpuType.
End names.

#[global] Arguments truncateLabel : simpl never.
#[global] Arguments dnsLabel {_} _ : simpl never.

(** The list-level reading of [strings.Trim(s, "-")]. *)
Definition trim_dashes (l : list ascii) : list ascii :=
  let dash a := bool_decide (a = "-"%char) in
  reverse (drop_while dash (reverse (drop_while dash l))).

(** A byte that is ASCII and not white space. *)
Definition plain_byte (a : ascii) : Prop := (code a <? 128)%N = true ∧ space1 a = false.

(** A DNS label: 1 to 63 bytes of [a-z0-9-], not starting or ending with a
    dash (RFC 1123, what Kubernetes requires of these names). *)
Definition dns_label_ok (l : list ascii) : Prop :=
  l ≠ [] ∧ (length l ≤ maxDNSLabel)%nat ∧ Forall (λ a, dns_char a = true) l ∧
  head l ≠ Some "-"%char ∧ last l ≠ Some "-"%char.
Definition is_dns_label (s : string) : Prop := dns_label_ok (chars s).

(** The parts of a label that [truncateLabel] keeps intact. *)
Definition label_body (l : list ascii) : Prop :=
  l ≠ [] ∧ Forall (λ a, dns_char a = true) l ∧ head l ≠ Some "-"%char ∧ last l ≠ Some "-"%char.

(* -------------------------------------------------------------------- *)
(** ** Lemmas *)

Lemma replace_runs_chars b l : Forall (λ a, dns_char a = true) (replace_runs b l).
Proof.
  revert b. induction l as [|a l IH]; intros b; simpl; [constructor|].
  destruct (dns_char a) eqn:?; [by constructor|]. destruct b; [done|by constructor].
Qed.

Lemma replace_runs_id b l : Forall (λ a, dns_char a = true) l → replace_runs b l = l.
Proof. intros Hl. revert b. induction Hl as [|a l Ha _ IH]; intros b; simpl; [done|by rewrite Ha, IH]. Qed.

Lemma drop_while_suffix P l : ∃ pre, l = pre ++ drop_while P l.
Proof.
  induction l as [|a l [pre IH]]; simpl; [by exists []|].
  destruct (P a); [exists (a :: pre)|exists []]; simpl; congruence.
Qed.

Lemma drop_while_head P l a : head (drop_while P l) = Some a → P a = false.
Proof. induction l as [|b l IH]; simpl; [done|]. destruct (P b) eqn:?; [done|by intros [= <-]]. Qed.

Lemma drop_while_id P l : (∀ a, head l = Some a → P a = false) → drop_while P l = l.
Proof. destruct l as [|a l]; simpl; [done|]. intros H. by rewrite H. Qed.

Lemma chars_trim_byte s : chars (trim_byte "-"%char s) = trim_dashes (chars s).
Proof. unfold trim_byte, trim_right_byte, trim_dashes. by rewrite !chars_of_chars. Qed.

Lemma Forall_suffix {A} (P : A → Prop) pre l : Forall P (pre ++ l) → Forall P l.
Proof. by intros [_ ?]%Forall_app. Qed.

Lemma head_app_ne {A} (l1 l2 : list A) : l1 ≠ [] → head (l1 ++ l2) = head l1.
Proof. by destruct l1. Qed.

Lemma trim_dashes_spec l :
  (∃ pre post, l = pre ++ trim_dashes l ++ post) ∧
  head (trim_dashes l) ≠ Some "-"%char ∧ last (trim_dashes l) ≠ Some "-"%char.
Proof.
  unfold trim_dashes. set (dash a := bool_decide (a = "-"%char)).
  set (m := drop_while dash l). set (n := drop_while dash (reverse m)).
  destruct (drop_while_suffix dash l) as [pre Hpre].
  destruct (drop_while_suffix dash (reverse m)) as [post Hpost].
  assert (m = reverse n ++ reverse post) as Hm.
  { rewrite <-reverse_app. unfold n. rewrite <-Hpost. by rewrite reverse_involutive. }
  split_and!.
  - exists pre, (reverse post). by rewrite <-Hm.
  - intros Hh. assert (head m = Some "-"%char) as Hhm.
    { rewrite Hm, head_app_ne; [done|]. intros Hn. by rewrite Hn in Hh. }
    by apply drop_while_head in Hhm; vm_compute in Hhm.
  - intros Hl. rewrite last_reverse in Hl. apply drop_while_head in Hl.
    by vm_compute in Hl.
Qed.

Lemma trim_dashes_id l :
  head l ≠ Some "-"%char → last l ≠ Some "-"%char → trim_dashes l = l.
Proof.
  intros Hh Hl. unfold trim_dashes.
  rewrite (drop_while_id _ l) by (intros a Ha; apply bool_decide_eq_false; congruence).
  rewrite drop_while_id; [apply reverse_involutive|].
  intros a Ha. apply bool_decide_eq_false. intros ->. by rewrite head_reverse in Ha.
Qed.

Lemma trim_suffix_cases s p :
  chars s = chars (trim_suffix s p) ++ chars p ∨ trim_suffix s p = s.
Proof.
  unfold trim_suffix. destruct (drop_prefix_l _ _) as [l|] eqn:H; [left|by right].
  apply drop_prefix_l_spec in H. apply (f_equal reverse) in H.
  rewrite reverse_involutive, reverse_app, reverse_involutive in H.
  by rewrite chars_of_chars.
Qed.

Lemma chars_take_bytes n s : chars (take_bytes n s) = take n (chars s).
Proof. apply chars_of_chars. Qed.

Lemma short_hash_length s : String.length (short_hash s) = 10%nat.
Proof.
  unfold short_hash, take_bytes. rewrite length_of_chars, length_take, length_chars.
  by rewrite sha256_hex_length.
Qed.

Lemma hex_dns_char a : is_hex a = true → dns_char a = true ∧ a ≠ "-"%char.
Proof.
  intros Ha. pose proof (byte_forall
    (λ a, implb (is_hex a) (dns_char a && bool_decide (a ≠ "-"%char))) eq_refl a) as H.
  cbv beta in H. rewrite Ha in H. simpl in H. apply andb_prop in H as [H1 H2].
  split; [done|]. by apply bool_decide_eq_true in H2.
Qed.

Lemma short_hash_chars s : Forall (λ a, is_hex a = true) (chars (short_hash s)).
Proof.
  unfold short_hash. rewrite chars_take_bytes. apply Forall_take, sha256_hex_chars.
Qed.

Lemma short_hash_nonempty s : chars (short_hash s) ≠ [].
Proof. intros H. pose proof (short_hash_length s) as Hl. by rewrite <-length_chars, H in Hl. Qed.

Lemma truncateLabel_body label max :
  (12 ≤ max)%nat → label_body (chars label) →
  label_body (chars (truncateLabel label max)) ∧
  (String.length (truncateLabel label max) ≤ max)%nat.
Proof.
  intros Hmax (Hne & Hf & Hh & Hl). unfold truncateLabel.
  case_bool_decide as Hlen; [done|]. rewrite short_hash_length.
  set (n := (max - 10 - 1)%nat). set (hash := short_hash label).
  assert (∃ pre post, chars (trim_suffix (take_bytes n label) "-") = pre ∧ pre ≠ [] ∧
    chars label = pre ++ post ∧ (length pre ≤ n)%nat) as (pre & post & Hpre & Hpne & Happ & Hplen).
  { assert (take n (chars label) ≠ []) as Htake.
    { destruct n eqn:?; [lia|]. by destruct (chars label). }
    destruct (trim_suffix_cases (take_bytes n label) "-") as [Hc|Hc].
    - rewrite chars_take_bytes in Hc. eexists _, _. split; [done|]. split_and!.
      + intros Hnil. rewrite Hnil in Hc. apply Hh.
        rewrite <-(take_drop n (chars label)), Hc. done.
      + rewrite <-(take_drop n (chars label)) at 1. rewrite Hc, <-app_assoc. done.
      + apply (f_equal length) in Hc. rewrite length_app, length_take in Hc. lia.
    - rewrite Hc, chars_take_bytes. eexists _, (drop n (chars label)). split; [done|].
      split_and!; [done|by rewrite take_drop|rewrite length_take; lia]. }
  rewrite !chars_app, Hpre. split.
  - rewrite Happ in Hf, Hh. apply Forall_app in Hf as [Hf _]. split_and!.
    + by destruct pre.
    + apply Forall_app. split; [done|]. apply Forall_cons. split; [done|].
      eapply Forall_impl; [apply short_hash_chars|]. intros a Ha. by apply hex_dns_char.
    + by rewrite head_app_ne in Hh |- *.
    + rewrite app_assoc. destruct (exists_last (short_hash_nonempty label)) as (h & a & Hha).
      fold hash in Hha. rewrite Hha, app_assoc, last_snoc. intros [= ->].
      pose proof (short_hash_chars label) as Hx. fold hash in Hx. rewrite Hha in Hx.
      apply Forall_app in Hx as [_ Hx]. apply Forall_cons_1 in Hx as [Hx _].
      by apply hex_dns_char in Hx as [_ []].
  - rewrite !length_string_app, <-length_chars, Hpre. unfold hash.
    rewrite short_hash_length. simpl. unfold n in *. lia.
Qed.

Lemma dns_char_plain a : dns_char a = true →
  is_ascii_byte a = true ∧ lower_byte a = a ∧ space1 a = false ∧
  (code a <? 128)%N = true ∧ a ≠ "/"%char.
Proof.
  intros Ha. pose proof (byte_forall (λ a, implb (dns_char a)
    (is_ascii_byte a && bool_decide (lower_byte a = a) && negb (space1 a) &&
     (code a <? 128)%N && bool_decide (a ≠ "/"%char))) ltac:(by vm_compute) a) as H.
  cbv beta in H. rewrite Ha in H. simpl in H.
  repeat (apply andb_prop in H as [H ?]). split_and!; try done.
  - by eapply bool_decide_eq_true_1.
  - by apply negb_true_iff.
  - by eapply bool_decide_eq_true_1.
Qed.

(** ASCII text with no white space byte is its own [TrimSpace]. *)
Lemma drop_spaces_plain s1 s2 s3 a l :
  s1 a = false → (∀ b, s2 a b = false) → (∀ b c, s3 a b c = false) →
  drop_spaces s1 s2 s3 (a :: l) = a :: l.
Proof.
  intros H1 H2 H3. simpl. rewrite H1.
  destruct l as [|b l]; [done|]. rewrite H2. destruct l as [|c l]; [done|]. by rewrite H3.
Qed.

Lemma space_high a b c : (code a <? 128)%N = true →
  space2 a b = false ∧ space2 b a = false ∧ space3 a b c = false ∧ space3 c b a = false.
Proof.
  unfold space2, space3. rewrite N.ltb_lt. intros Ha.
  split_and!; repeat (rewrite ?andb_false_iff, ?orb_false_iff, ?N.eqb_neq, ?N.leb_gt); lia.
Qed.

Lemma trim_space_plain s : Forall plain_byte (chars s) → trim_space s = s.
Proof.
  intros Hs. unfold trim_space, trim_left_l, trim_right_l.
  assert (∀ s1 s2 s3 l, Forall (λ a, s1 a = false ∧ (∀ b, s2 a b = false) ∧
    ∀ b c, s3 a b c = false) l → drop_spaces s1 s2 s3 l = l) as Hds.
  { intros s1 s2 s3 l Hl. destruct Hl as [|a l (?&?&?) _]; [done|]. by apply drop_spaces_plain. }
  rewrite !Hds, reverse_involutive, of_chars_chars; [done|..].
  - eapply Forall_impl; [done|]. intros a [Ha Hsp]. split_and!; [done|..];
      intros; by apply (space_high a).
  - rewrite Hds.
    + apply Forall_reverse. eapply Forall_impl; [done|]. intros a [Ha Hsp]. split_and!; [done|..].
      * intros b. by destruct (space_high a b b Ha) as (_&?&_).
      * intros b c. by destruct (space_high a b c Ha) as (_&_&_&?).
    + eapply Forall_impl; [done|]. intros a [Ha Hsp]. split_and!; [done|..].
      * intros b. by destruct (space_high a b b Ha).
      * intros b c. by destruct (space_high a b c Ha) as (_&_&?&_).
Qed.

(** A word with a number after it. *)
Lemma prefixed_itoa_not_blank pre n : Forall plain_byte (chars pre) → pre ≠ "" →
  (0 ≤ n ≤ max_int64)%Z → blank (pre +:+ itoa n) = false.
Proof.
  intros Hpre Hne Hn. apply blank_false. rewrite trim_space_plain; [by destruct pre|].
  rewrite chars_app. apply Forall_app. split; [done|].
  destruct (itoa_digits n Hn) as [Hd _]. eapply Forall_impl; [exact Hd|].
  intros a Ha. pose proof (byte_forall (λ a, implb (is_digit a)
    ((code a <? 128)%N && negb (space1 a))) eq_refl a) as Hb. cbv beta in Hb. rewrite Ha in Hb.
  apply andb_prop in Hb as [H1' H2']. split; [done|]. by apply negb_true_iff.
Qed.

(** Text that ends in a plain byte is not blank. *)
Lemma drop_spaces_keeps s1 s2 s3 l a :
  s1 a = false → (∀ b, s2 b a = false) → (∀ b c, s3 b c a = false) →
  drop_spaces s1 s2 s3 (l ++ [a]) ≠ [].
Proof.
  intros H1 H2 H3. remember (length l) as n eqn:Hn. revert l Hn.
  induction (lt_wf n) as [n _ IH]; intros l ->.
  destruct l as [|x [|y [|z l]]]; simpl; rewrite ?H1, ?H2, ?H3.
  - done.
  - destruct (s1 x); by rewrite ?H1, ?H2.
  - destruct (s1 x); [by destruct (s1 y)|].
    destruct (s2 x y); by rewrite ?H1, ?H2, ?H3.
  - destruct (s1 x); [exact (IH (S (S (length l))) ltac:(simpl; lia) (y :: z :: l) eq_refl)|].
    destruct (s2 x y); [exact (IH (S (length l)) ltac:(simpl; lia) (z :: l) eq_refl)|].
    destruct (s3 x y z); [exact (IH (length l) ltac:(simpl; lia) l eq_refl)|done].
Qed.

Lemma ends_plain_not_blank s l a : chars s = l ++ [a] → plain_byte a → blank s = false.
Proof.
  intros Hs [Ha Hsp]. apply blank_false. unfold trim_space, trim_left_l, trim_right_l. rewrite Hs.
  pose proof (drop_spaces_keeps space1 space2 space3 l a Hsp
    (λ b, proj1 (proj2 (space_high a b b Ha))) (λ b c, proj2 (proj2 (proj2 (space_high a c b Ha))))) as Hne.
  destruct (drop_spaces_suffix space1 space2 space3 (l ++ [a])) as [pre Hpre].
  destruct (exists_last Hne) as (t & x & Ht). rewrite Ht in Hpre |- *.
  rewrite app_assoc in Hpre. apply app_inj_tail in Hpre as [_ <-].
  rewrite reverse_app. cbn [reverse rev_append]. change (reverse [a]) with [a]. cbn [app].
  rewrite drop_spaces_plain.
  - intros He%of_chars_nil_inv. rewrite reverse_cons in He. by apply app_eq_nil in He as [_ ?].
  - done.
  - intros b. by destruct (space_high a b b Ha) as (_&?&_).
  - intros b c. by destruct (space_high a b c Ha) as (_&_&_&?).
Qed.

Section names_lemmas.
Context `{UnicodeTables}.

Lemma to_lower_dns s : Forall (λ a, dns_char a = true) (chars s) → to_lower s = s.
Proof.
  intros Hs. unfold to_lower, is_ascii, map_bytes.
  assert (forallb is_ascii_byte (chars s) = true) as ->.
  { apply forallb_forall. intros a Ha%list_elem_of_In.
    rewrite Forall_forall in Hs. by apply dns_char_plain, Hs. }
  assert (lower_byte <$> chars s = chars s) as ->; [|apply of_chars_chars].
  rewrite <-(list_fmap_id (chars s)) at 2. apply Forall_fmap_ext.
  eapply Forall_impl; [done|]. intros a Ha. by apply dns_char_plain in Ha as (_&?&_).
Qed.

Lemma label_body_unknown : label_body (chars "unknown").
Proof. by split_and!; repeat constructor. Qed.

Lemma dnsLabel_body v :
  label_body (chars (dnsLabel v)) ∧ (String.length (dnsLabel v) ≤ maxDNSLabel)%nat.
Proof.
  unfold dnsLabel. set (l := trim_byte _ _).
  case_bool_decide as Hl; [split; [apply label_body_unknown|simpl; unfold maxDNSLabel; lia]|].
  apply truncateLabel_body; [unfold maxDNSLabel; lia|].
  subst l. rewrite chars_trim_byte in *. set (m := chars (invalidDNSLabelRun _)) in *.
  destruct (trim_dashes_spec m) as ((pre & post & Hm) & Hh & Hla).
  assert (Forall (λ a, dns_char a = true) m) as Hf.
  { unfold m, invalidDNSLabelRun. rewrite chars_of_chars. apply replace_runs_chars. }
  split_and!; [..|done|done].
  - intros Hn. apply Hl. apply chars_inj. by rewrite chars_trim_byte.
  - rewrite Hm in Hf. apply Forall_app in Hf as [_ Hf]. by apply Forall_app in Hf as [Hf _].
Qed.

Lemma dnsLabel_ok v : is_dns_label (dnsLabel v).
Proof.
  destruct (dnsLabel_body v) as ((?&?&?&?)&Hl). rewrite <-length_chars in Hl. by split_and!.
Qed.

(** A DNS label is left alone. *)
Lemma dnsLabel_id s : is_dns_label s → dnsLabel s = s.
Proof.
  intros (Hne & Hlen & Hf & Hh & Hl). unfold dnsLabel.
  rewrite trim_space_plain, to_lower_dns; [|done|].
  - assert (trim_byte "-"%char (invalidDNSLabelRun s) = s) as ->.
    { apply chars_inj. rewrite chars_trim_byte. unfold invalidDNSLabelRun.
      by rewrite chars_of_chars, replace_runs_id, trim_dashes_id. }
    rewrite bool_decide_false by (by intros ->). unfold truncateLabel.
    by rewrite bool_decide_true by (by rewrite <-length_chars).
  - eapply Forall_impl; [done|]. intros a Ha. by apply dns_char_plain in Ha as (_&_&?&?&_).
Qed.

Lemma dnsLabel_idem v : dnsLabel (dnsLabel v) = dnsLabel v.
Proof. apply dnsLabel_id, dnsLabel_ok. Qed.

Lemma dns_label_no_slash s : is_dns_label s → "/"%char ∉ chars s.
Proof.
  intros (_&_&Hf&_) Hin. rewrite Forall_forall in Hf. apply Hf in Hin.
  by apply dns_char_plain in Hin as (_&_&_&_&?).
Qed.
End names_lemmas.

(** Splitting at the last occurrence of a separator. *)
Lemma last_separator {A} (c : A) l1 r1 l2 r2 :
  l1 ++ c :: r1 = l2 ++ c :: r2 → c ∉ r1 → c ∉ r2 → l1 = l2 ∧ r1 = r2.
Proof.
  intros Heq Hr1 Hr2. revert l2 Heq.
  induction l1 as [|a l1 IH]; intros [|b l2]; simpl; intros Heq;
    injection Heq; clear Heq; intros; subst.
  - done.
  - destruct Hr1. apply elem_of_app. right. by left.
  - destruct Hr2. apply elem_of_app. right. by left.
  - by edestruct IH as [-> ->].
Qed.

Lemma digits_dns l : Forall (λ a, is_digit a = true) l →
  Forall (λ a, dns_char a = true) l ∧ "-"%char ∉ l.
Proof.
  intros Hl. split.
  - eapply Forall_impl; [done|]. intros a Ha. unfold dns_char. by rewrite Ha, orb_true_r.
  - intros Hin. rewrite Forall_forall in Hl. by apply Hl in Hin.
Qed.

Lemma numbered_inj body1 body2 i j :
  (0 ≤ i ≤ max_int64)%Z → (0 ≤ j ≤ max_int64)%Z →
  numbered body1 i = numbered body2 j → i = j.
Proof.
  intros Hi Hj Heq. apply itoa_inj, chars_inj.
  apply (f_equal chars) in Heq. unfold numbered in Heq. rewrite !chars_app in Heq.
  eapply last_separator in Heq as [_ Heq]; [done|..]; by apply digits_dns, itoa_digits.
Qed.

Lemma numbered_ok body i : (0 ≤ i ≤ max_int64)%Z → label_body (chars body) →
  is_dns_label (numbered body i).
Proof.
  intros Hi Hb. unfold numbered. destruct (itoa_digits i Hi) as [Hd Hlen].
  set (suffix := "-" +:+ itoa i).
  assert (String.length suffix = S (String.length (itoa i))) as Hs.
  { unfold suffix. by rewrite length_string_app. }
  destruct (truncateLabel_body body (maxDNSLabel - String.length suffix))
    as ((Hne & Hf & Hh & _) & Hl); [unfold maxDNSLabel; lia|done|].
  unfold is_dns_label, dns_label_ok. rewrite !chars_app. split_and!.
  - by destruct (chars (truncateLabel _ _)).
  - rewrite length_app, !length_chars. unfold maxDNSLabel in *. lia.
  - apply Forall_app. split; [done|]. unfold suffix. rewrite chars_app.
    apply Forall_app. split; [by repeat constructor|by apply digits_dns].
  - by rewrite head_app_ne.
  - unfold suffix. rewrite chars_app, app_assoc.
    destruct (exists_last (l:=chars (itoa i))) as (h & a & Ha).
    { intros Hn. rewrite <-length_chars, Hn in Hlen. simpl in Hlen. lia. }
    rewrite Ha, app_assoc, last_snoc. intros [= ->].
    apply digits_dns in Hd as [_ Hd]. apply Hd. rewrite Ha. apply elem_of_app. right. by left.
Qed.

Section names_theorems.
Context `{UnicodeTables}.

Lemma deviceName_numbered g i : deviceName g i = numbered (dnsLabel g) i.
Proof. done. Qed.

Lemma resourceSliceName_numbered p z g i :
  resourceSliceName p z g i = numbered (dnsLabel (p +:+ "-" +:+ z +:+ "-" +:+ g)) i.
Proof. done. Qed.

Lemma deviceName_ok g i : (0 ≤ i ≤ max_int64)%Z → is_dns_label (deviceName g i).
Proof. intros. rewrite deviceName_numbered. by apply numbered_ok, dnsLabel_body. Qed.

Lemma resourceSliceName_ok p z g i :
  (0 ≤ i ≤ max_int64)%Z → is_dns_label (resourceSliceName p z g i).
Proof. intros. rewrite resourceSliceName_numbered. by apply numbered_ok, dnsLabel_body. Qed.

Lemma split_two (s1 s2 : string) : "/"%char ∉ chars s1 → "/"%char ∉ chars s2 →
  split (s1 +:+ "/" +:+ s2) "/"%char = [s1; s2].
Proof.
  intros H1 H2. unfold split. rewrite !chars_app.
  change (chars "/") with ["/"%char]. cbn [app].
  rewrite split_l_app, split_l_none by done. cbn. by rewrite !of_chars_chars.
Qed.

Lemma poolName_split z g :
  split (poolName z g) "/"%char = [dnsLabel z; dnsLabel g].
Proof. apply split_two; apply dns_label_no_slash, dnsLabel_ok. Qed.

Lemma dnsLabel_nonempty v : dnsLabel v ≠ "".
Proof. intros Hv. destruct (dnsLabel_ok v) as [Hne _]. by rewrite Hv in Hne. Qed.
End names_theorems.
