(* ===== verification/ResourceSlice.v ===== *)
(** * Operator: rendering a pool as ResourceSlices

    internal/operator/resourceslice.go: the ResourceSlice objects that publish
    one pool (a zone and a GPU type), sharded at 128 devices per slice, and
    definitionFromResourceSlices of operator.go, which reads a pool back.

    Of the Kubernetes types only the fields the program sets or reads are
    explicit; everything else of a device, a slice spec or an object's
    metadata is one opaque string, empty where the program leaves the zero
    value, so that equality tests mean what [reflect.DeepEqual] does. *)

From S2P Require Import Prelude GoStrings Float64 Sha256 Labels.

Record requirement := Requirement {
  req_key : string;
  req_operator : string;
  req_values : list string
}.
#[global] Instance requirement_eq_dec : EqDecision requirement.
Proof. solve_decision. Defined.

(** [resourcev1.Device]: an attribute may carry a string value or not. *)
Record device := Device {
  dev_name : string;
  dev_attributes : gmap string (option string);
  dev_rest : string
}.
#[global] Instance device_eq_dec : EqDecision device.
Proof. solve_decision. Defined.

Record slice_spec := SliceSpec {
  spec_driver : string;
  spec_pool_name : string;
  spec_pool_generation : Z;
  spec_pool_slice_count : Z;
  spec_node_selector : option (list (list requirement));
  spec_devices : list device;
  spec_rest : string
}.
#[global] Instance slice_spec_eq_dec : EqDecision slice_spec.
Proof. solve_decision. Defined.

Record resource_slice := Slice {
  rs_name : string;
  rs_labels : gmap string string;
  rs_spec : slice_spec;
  rs_meta : string
}.
#[global] Instance resource_slice_eq_dec : EqDecision resource_slice.
Proof. solve_decision. Defined.

(** internal/operator/config.go: durations are nanoseconds. *)
Record Config := {
  DriverName : string;
  NamePrefix : string;
  ZoneLabelKey : string;
  ReconcileInterval : Z;
  DeviceClassPrefix : string;
  ExtendedResourcePrefix : string;
  OrphanGracePeriod : Z
}.

Record poolKey := PoolKey { key_Zone : string; key_GPUType : string }.
#[global] Instance poolKey_eq_dec : EqDecision poolKey.
Proof. solve_decision. Defined.
#[global] Program Instance poolKey_countable : Countable poolKey :=
  inj_countable' (λ k, (key_Zone k, key_GPUType k)) (λ p, PoolKey p.1 p.2) _.
Next Obligation. by intros []. Qed.

Record poolDefinition := PoolDefinition {
  Zone : string;
  GPUType : string;
  HostCapacity : Z;
  ClientCapacity : Z;
  Oversubscription : float64;
  Capacity : Z
}.

(** The zero [poolDefinition{}]. *)
Definition zero_definition : poolDefinition := PoolDefinition "" "" 0 0 f64_zero 0.

Definition driverAppName : string := "thunder-dra-driver".
Definition resourceInventoryComponent : string := "resource-inventory".
Definition managedBy : string := "thunder-device-plugin-operator".
Definition zoneAttributeName : string := thunderDomain +:+ "/zone".
Definition gpuTypeAttributeName : string := thunderDomain +:+ "/gpu_type".
Definition zoneLabelName : string := thunderDomain +:+ "/zone".
Definition gpuTypeLabelName : string := thunderDomain +:+ "/gpu_type".
Definition hostCapacityLabelName : string := thunderDomain +:+ "/host-capacity".
Definition clientCapacityLabelName : string := thunderDomain +:+ "/client-capacity".
Definition oversubscriptionLabelName : string := thunderDomain +:+ "/oversubscription".
Definition shardLabelName : string := thunderDomain +:+ "/shard".

(** A Go map literal with distinct keys. *)
Definition labels_of (l : list (string * string)) : gmap string string := list_to_map l.

Definition formatOversubscription (target : float64) : string :=
  let target := if f64_leb target f64_zero then f64_one else target in
  trim_suffix (trim_right_byte "0"%char (format_fixed3 target)) ".".

Section slices.
Context `{UnicodeTables}.

Definition buildDevice (cfg : Config) (definition : poolDefinition) (index : Z) : device :=
  {| dev_name := deviceName (GPUType definition) index;
     dev_attributes := list_to_map
       [(gpuTypeAttributeName, Some (to_upper (GPUType definition)));
        (zoneAttributeName, Some (Zone definition))];
     dev_rest := "" |}.

Definition buildSlice (cfg : Config) (definition : poolDefinition) (generation : Z)
    (shard shards : Z) (devices : list device) : resource_slice :=
  {| rs_name := resourceSliceName (NamePrefix cfg) (Zone definition) (GPUType definition) shard;
     rs_labels := labels_of
       [("app.kubernetes.io/name", driverAppName);
        ("app.kubernetes.io/component", resourceInventoryComponent);
        ("app.kubernetes.io/managed-by", managedBy);
        (zoneLabelName, dnsLabel (Zone definition));
        (gpuTypeLabelName, dnsLabel (GPUType definition));
        (hostCapacityLabelName, itoa (HostCapacity definition));
        (clientCapacityLabelName, itoa (ClientCapacity definition));
        (oversubscriptionLabelName, formatOversubscription (Oversubscription definition));
        (shardLabelName, itoa shard)];
     rs_spec :=
       {| spec_driver := DriverName cfg;
          spec_pool_name := poolName (Zone definition) (GPUType definition);
          spec_pool_generation := generation;
          spec_pool_slice_count := shards;
          spec_node_selector :=
            Some [[Requirement (ZoneLabelKey cfg) "In" [Zone definition]]];
          spec_devices := devices;
          spec_rest := "" |};
     rs_meta := "" |}.

(** The number of shards, with the arithmetic of [int64]. *)
Definition shard_count (total : Z) : Z := int64 (total + (devicesPerSlice - 1)) `quot` devicesPerSlice.

(** The device indices of one shard: [first <= index < last]. *)
Definition shard_range (total shard : Z) : list Z :=
  let first := int64 (shard * devicesPerSlice) in
  let last := int64 (first + devicesPerSlice) in
  let last := if (total <? last)%Z then total else last in
  seqZ first (last - first).

Definition buildResourceSlices (cfg : Config) (definition : poolDefinition) (generation : Z)
    : list resource_slice :=
  let total := Capacity definition in
  if (total <=? 0)%Z then []
  else
    let shards := shard_count total in
    (λ shard, buildSlice cfg definition generation shard shards
                (buildDevice cfg definition <$> shard_range total shard)) <$> seqZ 0 shards.
End slices.

(** operator.go: the pool a slice belongs to, from its pool name. *)
Definition resourceSliceKey (slice : resource_slice) : option poolKey :=
  match split (spec_pool_name (rs_spec slice)) "/"%char with
  | [zone; gpuType] =>
      if bool_decide (zone = "") || bool_decide (gpuType = "") then None
      else Some (PoolKey zone gpuType)
  | _ => None
  end.

(** The label value, the empty string where the map has none. *)
Definition label_value (labels : gmap string string) (key : string) : string :=
  default "" (labels !! key).

Definition parseIntLabel (value : string) : Z := default 0%Z (parse_int value).

Definition definitionFromResourceSlices (slices : list resource_slice) : poolDefinition :=
  match slices with
  | [] => zero_definition
  | s0 :: _ =>
      match resourceSliceKey s0 with
      | None => zero_definition
      | Some key =>
          {| Zone := key_Zone key;
             GPUType := key_GPUType key;
             HostCapacity := parseIntLabel (label_value (rs_labels s0) hostCapacityLabelName);
             ClientCapacity := parseIntLabel (label_value (rs_labels s0) clientCapacityLabelName);
             Oversubscription := f64_zero;
             Capacity := fold_left (λ capacity s,
               int64 (capacity + Z.of_nat (length (spec_devices (rs_spec s))))) slices 0%Z |}
      end
  end.

(** The capacities the int64 arithmetic of the sharding handles exactly. *)
Definition publishable (total : Z) : Prop :=
  (0 < total ≤ max_int64 - devicesPerSlice)%Z.

(** Inputs of the concrete runs. *)
Definition sample_config : Config :=
  Build_Config "thundercompute.com" "thunder" "topology.kubernetes.io/zone" 60000000000
    "thunder-gpu-" "thundercompute.com/gpu-" 300000000000.
Definition sample_definition : poolDefinition :=
  PoolDefinition "us-east-1" "a6000" 100 20 (f64_mul (f64_of_int 3) (S754_finite false 1 (-1))) 150.

Definition unlabelled_definition : poolDefinition := PoolDefinition "US-East" "a6000" 1 0 f64_one 1.

(* -------------------------------------------------------------------- *)
(** ** Lemmas *)

Lemma shard_count_spec total : publishable total →
  (0 < shard_count total)%Z ∧
  (devicesPerSlice * (shard_count total - 1) < total ≤ devicesPerSlice * shard_count total)%Z.
Proof.
  unfold publishable, shard_count, devicesPerSlice. intros Ht.
  rewrite int64_id by (unfold in_int64, min_int64, max_int64 in *; lia).
  rewrite Z.quot_div_nonneg by lia.
  pose proof (Z.div_mod (total + (128 - 1)) 128).
  pose proof (Z.mod_pos_bound (total + (128 - 1)) 128). lia.
Qed.

Lemma shard_range_spec total shard :
  publishable total → (0 ≤ shard < shard_count total)%Z →
  shard_range total shard =
    seqZ (devicesPerSlice * shard)
      (devicesPerSlice `min` (total - devicesPerSlice * shard)).
Proof.
  intros Ht Hs. pose proof (shard_count_spec total Ht) as [Hpos Hb].
  unfold shard_range, publishable, devicesPerSlice, max_int64 in *.
  rewrite (int64_id (shard * 128)) by (unfold in_int64, min_int64, max_int64; lia).
  rewrite int64_id by (unfold in_int64, min_int64, max_int64; lia).
  destruct (Z.ltb_spec total (shard * 128 + 128)); f_equal; lia.
Qed.

Lemma shard_ranges_concat total n :
  publishable total → (0 ≤ n ≤ shard_count total)%Z →
  (seqZ 0 n ≫= shard_range total) = seqZ 0 (total `min` (devicesPerSlice * n)).
Proof.
  intros Ht [Hn Hle]. revert Hle. pattern n. apply natlike_ind; [|clear n Hn|done].
  { intros _. by rewrite (seqZ_nil 0 0), seqZ_nil by (unfold publishable in Ht; lia). }
  intros n Hn IH Hle. pose proof (shard_count_spec total Ht) as [Hpos Hb].
  rewrite <-Z.add_1_r, seqZ_app by lia. rewrite bind_app, IH by lia.
  rewrite (seqZ_cons (0 + n) 1), (seqZ_nil _ (Z.pred 1)) by lia. simpl.
  rewrite app_nil_r, Z.add_0_l, shard_range_spec by (done || lia).
  unfold devicesPerSlice in *. rewrite Z.min_r by lia.
  replace (total `min` (128 * (n + 1)))%Z
    with (128 * n + 128 `min` (total - 128 * n))%Z by lia.
  by rewrite seqZ_app by lia.
Qed.

Lemma label_host_capacity (v1 v2 v3 v4 v5 v6 v7 v8 v9 : string) :
  label_value (labels_of
    [("app.kubernetes.io/name", v1); ("app.kubernetes.io/component", v2);
     ("app.kubernetes.io/managed-by", v3); (zoneLabelName, v4); (gpuTypeLabelName, v5);
     (hostCapacityLabelName, v6); (clientCapacityLabelName, v7);
     (oversubscriptionLabelName, v8); (shardLabelName, v9)]) hostCapacityLabelName = v6.
Proof. reflexivity. Qed.

Lemma label_client_capacity (v1 v2 v3 v4 v5 v6 v7 v8 v9 : string) :
  label_value (labels_of
    [("app.kubernetes.io/name", v1); ("app.kubernetes.io/component", v2);
     ("app.kubernetes.io/managed-by", v3); (zoneLabelName, v4); (gpuTypeLabelName, v5);
     (hostCapacityLabelName, v6); (clientCapacityLabelName, v7);
     (oversubscriptionLabelName, v8); (shardLabelName, v9)]) clientCapacityLabelName = v7.
Proof. reflexivity. Qed.

Section slices_lemmas.
Context `{UnicodeTables}.

Lemma buildResourceSlices_cons cfg d gen : publishable (Capacity d) →
  buildResourceSlices cfg d gen =
    (λ shard, buildSlice cfg d gen shard (shard_count (Capacity d))
       (buildDevice cfg d <$> shard_range (Capacity d) shard))
    <$> seqZ 0 (shard_count (Capacity d)).
Proof.
  intros Hc. unfold buildResourceSlices.
  rewrite (proj2 (Z.leb_gt _ _)) by (unfold publishable in Hc; lia). done.
Qed.

Lemma buildResourceSlices_length cfg d gen : publishable (Capacity d) →
  length (buildResourceSlices cfg d gen) = Z.to_nat (shard_count (Capacity d)).
Proof. intros Hc. by rewrite buildResourceSlices_cons, length_fmap, length_seqZ. Qed.

Lemma buildResourceSlices_elem cfg d gen s : publishable (Capacity d) →
  s ∈ buildResourceSlices cfg d gen →
  ∃ shard, (0 ≤ shard < shard_count (Capacity d))%Z ∧
    s = buildSlice cfg d gen shard (shard_count (Capacity d))
          (buildDevice cfg d <$> shard_range (Capacity d) shard).
Proof.
  intros Hc. rewrite buildResourceSlices_cons by done.
  intros (shard & -> & Hs)%list_elem_of_fmap. apply elem_of_seqZ in Hs.
  exists shard. split; [lia|done].
Qed.

Lemma buildResourceSlices_devices cfg d gen : publishable (Capacity d) →
  (buildResourceSlices cfg d gen ≫= λ s, spec_devices (rs_spec s)) =
    buildDevice cfg d <$> seqZ 0 (Capacity d).
Proof.
  intros Hc. rewrite buildResourceSlices_cons by done.
  pose proof (shard_count_spec _ Hc) as [Hpos Hb].
  rewrite list_fmap_bind. unfold compose. simpl.
  rewrite <-fmap_list_bind, shard_ranges_concat by (done || lia). by rewrite Z.min_l by lia.
Qed.
End slices_lemmas.

Section slices_theorems.
Context `{UnicodeTables}.

Lemma buildResourceSlices_names cfg d gen : publishable (Capacity d) →
  NoDup (rs_name <$> buildResourceSlices cfg d gen).
Proof.
  intros Hc. rewrite buildResourceSlices_cons, <-list_fmap_compose by done. unfold compose. simpl.
  pose proof (shard_count_spec _ Hc) as [_ Hsc]. unfold publishable, devicesPerSlice in *.
  apply NoDup_fmap_2_strong; [|apply NoDup_seqZ].
  intros i j Hi%elem_of_seqZ Hj%elem_of_seqZ. rewrite !resourceSliceName_numbered.
  apply numbered_inj; lia.
Qed.

Lemma shard_range_length total shard : publishable total →
  (0 ≤ shard < shard_count total)%Z →
  (1 ≤ length (shard_range total shard) ≤ Z.to_nat devicesPerSlice)%nat.
Proof.
  intros Ht Hs. rewrite shard_range_spec, length_seqZ by done.
  pose proof (shard_count_spec _ Ht). unfold devicesPerSlice in *. lia.
Qed.

(** C12: the slices of a pool hold exactly its devices, numbered from 0 to its
    capacity, in order and without overlap; every slice has between 1 and 128
    of them and names the pool, the generation and the number of slices. *)
Theorem slices_partition_pool cfg d gen : publishable (Capacity d) →
  let slices := buildResourceSlices cfg d gen in
  (slices ≫= λ s, spec_devices (rs_spec s)) = buildDevice cfg d <$> seqZ 0 (Capacity d) ∧
  ∀ s, s ∈ slices →
    (1 ≤ length (spec_devices (rs_spec s)) ≤ 128)%nat ∧
    spec_pool_name (rs_spec s) = poolName (Zone d) (GPUType d) ∧
    spec_pool_generation (rs_spec s) = gen ∧
    spec_pool_slice_count (rs_spec s) = Z.of_nat (length slices).
Proof.
  intros Hc slices. split; [by apply buildResourceSlices_devices|].
  intros s (shard & Hs & ->)%buildResourceSlices_elem; [|done].
  pose proof (shard_count_spec _ Hc).
  subst slices. rewrite buildResourceSlices_length, Z2Nat.id by (done || lia).
  split_and!; simpl; [..|done|done|done]; rewrite length_fmap;
    by apply (shard_range_length _ shard Hc).
Qed.

(** C32: the slices of a pool have distinct names, its devices too, and all of
    them are names Kubernetes accepts, whatever text the zone and the GPU type
    are. *)
Theorem slices_names_valid cfg d gen : publishable (Capacity d) →
  let slices := buildResourceSlices cfg d gen in
  let devices := slices ≫= λ s, spec_devices (rs_spec s) in
  NoDup (rs_name <$> slices) ∧ NoDup (dev_name <$> devices) ∧
  Forall is_dns_label (rs_name <$> slices) ∧ Forall is_dns_label (dev_name <$> devices).
Proof.
  intros Hc slices devices. split; [by apply buildResourceSlices_names|]. subst slices devices.
  rewrite buildResourceSlices_devices, buildResourceSlices_cons by done.
  rewrite <-!list_fmap_compose. unfold compose. simpl.
  pose proof (shard_count_spec _ Hc) as [_ Hsc]. unfold publishable, devicesPerSlice in *.
  split_and!.
  - apply NoDup_fmap_2_strong; [|apply NoDup_seqZ].
    intros i j Hi%elem_of_seqZ Hj%elem_of_seqZ. rewrite !deviceName_numbered.
    apply numbered_inj; lia.
  - apply Forall_fmap, Forall_seqZ. intros i Hi. apply resourceSliceName_ok. lia.
  - apply Forall_fmap, Forall_seqZ. intros i Hi. apply deviceName_ok. lia.
Qed.

Lemma capacity_fold (l : list resource_slice) acc :
  (0 ≤ acc)%Z →
  (acc + Z.of_nat (length (l ≫= λ s, spec_devices (rs_spec s))) ≤ max_int64)%Z →
  fold_left (λ capacity s, int64 (capacity + Z.of_nat (length (spec_devices (rs_spec s))))) l acc
  = (acc + Z.of_nat (length (l ≫= λ s, spec_devices (rs_spec s))))%Z.
Proof.
  revert acc. induction l as [|s l IH]; intros acc Ha Hb; [simpl; lia|].
  rewrite bind_cons, length_app in *. cbn [fold_left].
  rewrite int64_id by (unfold in_int64, min_int64; lia). rewrite IH; lia.
Qed.

(** C31: what reading a published pool back recovers: the counts exactly, the
    names in their DNS form, the oversubscription target not at all. *)
Theorem definition_roundtrip cfg d gen :
  publishable (Capacity d) → in_int64 (HostCapacity d) → in_int64 (ClientCapacity d) →
  definitionFromResourceSlices (buildResourceSlices cfg d gen) =
    {| Zone := dnsLabel (Zone d); GPUType := dnsLabel (GPUType d);
       HostCapacity := HostCapacity d; ClientCapacity := ClientCapacity d;
       Oversubscription := f64_zero; Capacity := Capacity d |}.
Proof.
  intros Hc Hh Hcl. pose proof (buildResourceSlices_devices cfg d gen Hc) as Hd.
  pose proof (shard_count_spec _ Hc) as [Hpos _].
  pose proof (buildResourceSlices_length cfg d gen Hc) as Hlen.
  destruct (buildResourceSlices cfg d gen) as [|s0 slices] eqn:Hb.
  { cbn in Hlen. lia. }
  assert (s0 ∈ buildResourceSlices cfg d gen) as Hin by (rewrite Hb; constructor).
  destruct (buildResourceSlices_elem _ _ _ _ Hc Hin) as (shard & Hs & Hs0).
  unfold definitionFromResourceSlices.
  rewrite capacity_fold by (rewrite ?Hd, ?length_fmap, ?length_seqZ;
    unfold publishable, devicesPerSlice in *; lia).
  rewrite Hd, length_fmap, length_seqZ.
  assert (resourceSliceKey s0 = Some (PoolKey (dnsLabel (Zone d)) (dnsLabel (GPUType d)))) as ->.
  { rewrite Hs0. unfold resourceSliceKey. cbn [rs_spec buildSlice spec_pool_name].
    rewrite poolName_split. rewrite !bool_decide_false by apply dnsLabel_nonempty. done. }
  rewrite Hs0. cbn [rs_labels buildSlice key_Zone key_GPUType].
  rewrite label_host_capacity, label_client_capacity. unfold parseIntLabel.
  rewrite !parse_int_itoa by done. cbn [default from_option].
  unfold publishable in Hc. by rewrite Z2Nat.id by lia.
Qed.

(** A pool whose zone name or GPU type is not its own DNS label is never
    recognised in a listing: no slice published for it is filed under its
    key, so the next synchronisation takes its slices for a stale pool. *)
Theorem unlabelled_pool_unrecognised cfg d g x : publishable (Capacity d) →
  dnsLabel (Zone d) ≠ Zone d ∨ dnsLabel (GPUType d) ≠ GPUType d →
  x ∈ buildResourceSlices cfg d g →
  resourceSliceKey x ≠ Some (PoolKey (Zone d) (GPUType d)) ∧
  resourceSliceKey x = Some (PoolKey (dnsLabel (Zone d)) (dnsLabel (GPUType d))).
Proof.
  intros Hc Hne (shard & _ & ->)%buildResourceSlices_elem; [|done].
  unfold resourceSliceKey. cbn [rs_spec buildSlice spec_pool_name].
  rewrite poolName_split, !bool_decide_false by apply dnsLabel_nonempty.
  cbn [orb]. split; [|done]. intros [= Hz Ht]. naive_solver.
Qed.
End slices_theorems.

Section witnesses.
#[local] Existing Instance ascii_tables.

Lemma slices_partition_pool_witness :
  length (buildResourceSlices sample_config sample_definition 7) = 2%nat ∧
  (buildResourceSlices sample_config sample_definition 7 ≫= λ s, spec_devices (rs_spec s)) =
    buildDevice sample_config sample_definition <$> seqZ 0 150.
Proof.
  split; [vm_compute; reflexivity|].
  refine (proj1 (slices_partition_pool sample_config sample_definition 7 _)).
  split; vm_compute; congruence.
Defined.

Lemma slices_names_valid_witness :
  NoDup (rs_name <$> buildResourceSlices sample_config sample_definition 7).
Proof.
  refine (proj1 (slices_names_valid sample_config sample_definition 7 _)).
  split; vm_compute; congruence.
Defined.

Lemma definition_roundtrip_witness :
  Capacity (definitionFromResourceSlices (buildResourceSlices sample_config sample_definition 7))
  = 150%Z.
Proof.
  refine (f_equal Capacity (definition_roundtrip sample_config sample_definition 7 _ _ _));
    split; vm_compute; congruence.
Defined.

Lemma unlabelled_pool_unrecognised_witness :
  ∃ x, x ∈ buildResourceSlices sample_config unlabelled_definition 1 ∧
    resourceSliceKey x ≠ Some (PoolKey "US-East" "a6000").
Proof.
  eexists. split.
  - rewrite buildResourceSlices_cons by (split; vm_compute; congruence). by left.
  - refine (proj1 (unlabelled_pool_unrecognised sample_config unlabelled_definition 1 _ _ _ _)).
    + split; vm_compute; congruence.
    + left. vm_compute. discriminate.
    + rewrite buildResourceSlices_cons by (split; vm_compute; congruence). by left.
Defined.
End witnesses.
