(* ===== verification/Inventory.v ===== *)
(** * Operator: desired pools

    internal/operator/inventory.go: from the zones, servers, clients and
    oversubscription targets Thunder reports to the pools the operator wants
    published.  The Thunder API is a signature of calls; its answers are
    arbitrary.  The specification of the pools is in exact arithmetic. *)

From S2P Require Import Prelude GoStrings Float64 Labels ResourceSlice.

(** The fields of the SDK's answers the operator reads. *)
Record thunder_zone := ThunderZone { zone_ZoneID : string; zone_DisplayName : string }.
Record thunder_server := ThunderServer {
  server_GPUType : string; server_GPUCount : Z; server_Status : string
}.
Record registered_client := RegisteredClient {
  client_GPUType : string; client_GPUCount : Z; client_DecommissionedAt : option Z
}.
Record oversubscription_target := OversubscriptionTarget {
  target_GPUType : string; target_value : float64
}.
Record targets_response := TargetsResponse {
  OversubscriptionTargets : list oversubscription_target;
  DefaultOversubscriptionTarget : float64
}.

(** [ThunderAPI], the operator's interface to Thunder. *)
Inductive thunder_ev :=
  | ListZones
  | ListServers (zoneID : string)
  | ListClients (zoneID : string)
  | ListZoneOversubscriptionTargets (zoneID : string)
  | UnenrollClient (enrollmentTokenID : string).
Definition thunder_resp (e : thunder_ev) : Type :=
  match e with
  | ListZones => result (list thunder_zone)
  | ListServers _ => result (list thunder_server)
  | ListClients _ => result (list registered_client)
  | ListZoneOversubscriptionTargets _ => result targets_response
  | UnenrollClient _ => result unit
  end.
Definition thunder_sig : sig := Sig thunder_ev thunder_resp.

Record oversubscriptionTargets := Targets {
  byGPUType : gmap string float64;
  fallback : float64
}.

(** [oversubscribed]: [math.Floor(float64(hostCapacity) * target)]. *)
Definition oversubscribed `{FloatConversion} (hostCapacity : Z) (target : float64) : Z :=
  if (hostCapacity <=? 0)%Z || f64_leb target f64_zero then 0
  else int64_of_floor (f64_mul (f64_of_int hostCapacity) target).

(** [isGone], on the error of an [UnenrollClient]. *)
Fixpoint api_status (e : error) : option Z :=
  match e with
  | ErrAPI status _ => Some status
  | ErrWrap _ e _ | ErrRetryable e => api_status e
  | ErrJoin e1 e2 => match api_status e1 with Some s => Some s | None => api_status e2 end
  | _ => None
  end.
Definition isGone `{LibErrors} (e : error) : bool :=
  thunder_is_not_found e || bool_decide (api_status e = Some 410%Z).

Section inventory.
Context `{UnicodeTables} `{FloatConversion} `{MapOrder}.

Definition normalizeGPUType (gpuType : string) : string := to_lower (trim_space gpuType).

Definition nodeHealthy (status : string) : bool :=
  let status := trim_space (to_lower status) in
  bool_decide (status ∈ [""; "active"; "online"; "ready"; "healthy"]).

Definition addGPUCount (counts : gmap string Z) (gpuType : string) (count : Z) : gmap string Z :=
  let normalized := normalizeGPUType gpuType in
  if bool_decide (normalized = "") || (count <=? 0)%Z then counts
  else <[normalized := int64 (default 0%Z (counts !! normalized) + count)]> counts.

(** [oversubscriptionTargets.For]. *)
Definition For_ (t : oversubscriptionTargets) (gpuType : string) : float64 :=
  let zone_default := if f64_ltb f64_zero (fallback t) then fallback t else f64_one in
  match byGPUType t !! normalizeGPUType gpuType with
  | Some target => if f64_ltb f64_zero target then target else zone_default
  | None => zone_default
  end.

Definition targets_of (response : targets_response) : oversubscriptionTargets :=
  {| byGPUType := fold_left (λ m target,
       let gpuType := normalizeGPUType (target_GPUType target) in
       if bool_decide (gpuType = "") then m else <[gpuType := target_value target]> m)
       (OversubscriptionTargets response) ∅;
     fallback := DefaultOversubscriptionTarget response |}.

Definition zoneOversubscription (zoneID : string) : prog thunder_sig oversubscriptionTargets :=
  r ← call (S:=thunder_sig) (ListZoneOversubscriptionTargets zoneID);
  match r with
  | Err _ => mret (Targets ∅ f64_one)
  | Ok response => mret (targets_of response)
  end.

(** The identifier and the name a zone is handled under; [None] when it has
    neither and is skipped. *)
Definition zone_identity (zone : thunder_zone) : option (string * string) :=
  let zoneID := trim_space (zone_ZoneID zone) in
  let zoneName := trim_space (zone_DisplayName zone) in
  let zoneName := if bool_decide (zoneName = "") then zoneID else zoneName in
  let zoneID := if bool_decide (zoneID = "") then zoneName else zoneID in
  if bool_decide (zoneName = "") || bool_decide (zoneID = "") then None
  else Some (zoneID, zoneName).

Definition host_counts (servers : list thunder_server) : gmap string Z :=
  fold_left (λ counts server,
    if negb (nodeHealthy (server_Status server)) then counts
    else addGPUCount counts (server_GPUType server) (int64 (server_GPUCount server))) servers ∅.

Definition client_counts (clients : list registered_client) : gmap string Z :=
  fold_left (λ counts client,
    match client_DecommissionedAt client with
    | Some _ => counts
    | None => addGPUCount counts (client_GPUType client) (int64 (client_GPUCount client))
    end) clients ∅.

(** The body of the loop over the GPU types of a zone. *)
Definition add_pool (zoneName : string) (hostCounts clientCounts : gmap string Z)
    (targets : oversubscriptionTargets) (desired : gmap poolKey poolDefinition)
    (gpuType : string) : gmap poolKey poolDefinition :=
  let hostCapacity := default 0%Z (hostCounts !! gpuType) in
  let clientCapacity := default 0%Z (clientCounts !! gpuType) in
  let oversubscription := For_ targets gpuType in
  let capacity := oversubscribed hostCapacity oversubscription in
  let capacity := if (capacity <? clientCapacity)%Z then clientCapacity else capacity in
  if (capacity <=? 0)%Z then desired
  else
    let key := PoolKey zoneName gpuType in
    let definition := default zero_definition (desired !! key) in
    <[key :=
       {| Zone := zoneName;
          GPUType := gpuType;
          HostCapacity := int64 (HostCapacity definition + hostCapacity);
          ClientCapacity := int64 (ClientCapacity definition + clientCapacity);
          Oversubscription := oversubscription;
          Capacity := int64 (Capacity definition + capacity) |}]> desired.

Definition zone_gpu_types (hostCounts clientCounts : gmap string Z) : gset string :=
  dom hostCounts ∪ dom clientCounts.

Definition add_zone (zoneID zoneName : string) (servers : list thunder_server)
    (clients : list registered_client) (targets : oversubscriptionTargets)
    (desired : gmap poolKey poolDefinition) : gmap poolKey poolDefinition :=
  let hostCounts := host_counts servers in
  let clientCounts := client_counts clients in
  fold_left (add_pool zoneName hostCounts clientCounts targets)
    (map_order ("buildDesiredPools " +:+ zoneID)
       (elements (zone_gpu_types hostCounts clientCounts))) desired.

Fixpoint build_zones (zones : list thunder_zone) (desired : gmap poolKey poolDefinition)
    : prog thunder_sig (result (gmap poolKey poolDefinition)) :=
  match zones with
  | [] => mret (Ok desired)
  | zone :: zones =>
      match zone_identity zone with
      | None => build_zones zones desired
      | Some (zoneID, zoneName) =>
          let? servers := call (S:=thunder_sig) (ListServers zoneID)
            or wrap ("list thunder servers in zone " +:+ quote zoneID) in
          let? clients := call (S:=thunder_sig) (ListClients zoneID)
            or wrap ("list thunder clients in zone " +:+ quote zoneID) in
          targets ← zoneOversubscription zoneID;
          build_zones zones (add_zone zoneID zoneName servers clients targets desired)
      end
  end.

Definition buildDesiredPools : prog thunder_sig (result (gmap poolKey poolDefinition)) :=
  let? zones := call (S:=thunder_sig) ListZones or wrap "list thunder zones" in
  build_zones zones ∅.

(** [sortedPoolKeys]. *)
Definition key_le (k1 k2 : poolKey) : Prop :=
  if bool_decide (key_Zone k1 = key_Zone k2)
  then String.le (key_GPUType k1) (key_GPUType k2)
  else String.le (key_Zone k1) (key_Zone k2).
#[global] Instance key_le_dec k1 k2 : Decision (key_le k1 k2).
Proof. unfold key_le. case_bool_decide; apply _. Defined.
Definition sortedPoolKeys {A} (pools : gmap poolKey A) : list poolKey :=
  merge_sort key_le (map_order "sortedPoolKeys" (map_to_list pools).*1).
End inventory.

(* -------------------------------------------------------------------- *)
(** ** Specification

    One consistent picture of Thunder's inventory, the environment that
    answers from it, and the pools it calls for, in closed form. *)

Record snapshot := Snapshot {
  snap_zones : list thunder_zone;
  snap_servers : string → list thunder_server;
  snap_clients : string → list registered_client;
  snap_targets : string → result targets_response
}.

Definition snapshot_handler (s : snapshot) : handler thunder_sig unit :=
  λ e _, match e return thunder_resp e * unit with
  | ListZones => (Ok (snap_zones s), tt)
  | ListServers z => (Ok (snap_servers s z), tt)
  | ListClients z => (Ok (snap_clients s z), tt)
  | ListZoneOversubscriptionTargets z => (snap_targets s z, tt)
  | UnenrollClient _ => (Ok tt, tt)
  end.

Section spec.
Context `{UnicodeTables} `{FloatConversion} `{MapOrder}.

(** The GPUs of type [g] in a list of counts, as [int64] arithmetic sums
    them; non-positive counts are ignored. *)
Definition total_of (g : string) (l : list (string * Z)) : Z :=
  fold_left (λ acc p,
    if bool_decide (normalizeGPUType p.1 = g) && (0 <? p.2)%Z then int64 (acc + p.2) else acc) l 0%Z.

(** The GPUs that count: those of healthy servers, and those held by clients
    that are not decommissioned. *)
Definition healthy_gpus (servers : list thunder_server) : list (string * Z) :=
  (λ s, (server_GPUType s, int64 (server_GPUCount s))) <$>
    filter (λ s, nodeHealthy (server_Status s) = true) servers.
Definition live_gpus (clients : list registered_client) : list (string * Z) :=
  (λ c, (client_GPUType c, int64 (client_GPUCount c))) <$>
    filter (λ c, client_DecommissionedAt c = None) clients.

Definition targets_or_default (r : result targets_response) : oversubscriptionTargets :=
  match r with Ok response => targets_of response | Err _ => Targets ∅ f64_one end.

Definition pool_capacity (host client : Z) (target : float64) : Z :=
  oversubscribed host target `max` client.

(** The pool a zone named [zn] contributes for GPU type [g]. *)
Definition zone_pool (zn : string) (servers : list thunder_server)
    (clients : list registered_client) (targets : oversubscriptionTargets) (g : string)
    : option poolDefinition :=
  let host := total_of g (healthy_gpus servers) in
  let client := total_of g (live_gpus clients) in
  let capacity := pool_capacity host client (For_ targets g) in
  if bool_decide (g = "") || (capacity <=? 0)%Z then None
  else Some {| Zone := zn; GPUType := g; HostCapacity := host; ClientCapacity := client;
               Oversubscription := For_ targets g; Capacity := capacity |}.

Definition snapshot_pool (s : snapshot) (key : poolKey) : option poolDefinition :=
  match list_find (λ z, snd <$> zone_identity z = Some (key_Zone key)) (snap_zones s) with
  | None => None
  | Some (_, z) =>
      match zone_identity z with
      | None => None
      | Some (zoneID, zoneName) =>
          zone_pool zoneName (snap_servers s zoneID) (snap_clients s zoneID)
            (targets_or_default (snap_targets s zoneID)) (key_GPUType key)
      end
  end.

(** The counting loops over the GPUs that count. *)
Definition add_counts (m : gmap string Z) (l : list (string * Z)) : gmap string Z :=
  fold_left (λ m p, addGPUCount m p.1 p.2) l m.

(** Zones whose names differ; the program adds up zones that share one. *)
Definition distinct_zone_names (zones : list thunder_zone) : Prop :=
  NoDup (omap (λ z, snd <$> zone_identity z) zones).

(** ** What the pools should be *)

(** The model a GPU type names: text without case and surrounding space. *)
Definition model_of (gpuType : string) : string := to_lower (trim_space gpuType).

(** A server in service: one with no status, or one of these. *)
Definition in_service (server : thunder_server) : bool :=
  existsb (λ word, bool_decide (trim_space (to_lower (server_Status server)) = word))
    ["active"; "healthy"; "online"; "ready"; ""].

(** The GPUs of a model on servers in service, and those that clients hold
    which are not decommissioned; a negative count is none. *)
Definition host_gpus (g : string) (servers : list thunder_server) : Z :=
  foldr Z.add 0%Z ((λ x, Z.max 0 (server_GPUCount x)) <$>
    filter (λ x, in_service x = true ∧ model_of (server_GPUType x) = g) servers).
Definition client_gpus (g : string) (clients : list registered_client) : Z :=
  foldr Z.add 0%Z ((λ x, Z.max 0 (client_GPUCount x)) <$>
    filter (λ x, client_DecommissionedAt x = None ∧ model_of (client_GPUType x) = g) clients).

Definition positive_target (t : float64) : bool :=
  match t with S754_finite false _ _ | S754_infinity false => true | _ => false end.

(** The target of a model: the last one Thunder names for it, or else the
    zone's, or else 1; and 1 if Thunder could not be asked. *)
Definition target_of (r : result targets_response) (g : string) : float64 :=
  match r with
  | Err _ => f64_one
  | Ok response =>
      match last (filter (λ x, model_of (target_GPUType x) ≠ "" ∧ model_of (target_GPUType x) = model_of g)
        (OversubscriptionTargets response)) with
      | Some x => if positive_target (target_value x) then target_value x else f64_one
      | None => if positive_target (DefaultOversubscriptionTarget response)
                then DefaultOversubscriptionTarget response else f64_one
      end
  end.

(** The greatest integer that is not above a count times a target. *)
Definition floor_product (h : Z) (t : float64) : Z :=
  match t with
  | S754_finite false m e => (h * Z.pos m * 2 ^ Z.max e 0) / 2 ^ Z.max (- e) 0
  | _ => 0
  end%Z.

(** The product is not so close below an integer that rounding it to a float64
    reaches that integer. *)
Definition clear_product (h : Z) (t : float64) : Prop :=
  match t with
  | S754_finite false m e =>
      (h < 2 ^ 53)%Z ∧ margin (h * Z.pos m * 2 ^ Z.max e 0)%Z (2 ^ Z.max (- e) 0)%Z (floor_product h t)
  | _ => False
  end.

(** What the operator reads about a zone: machine integers that can be added
    up, clear products, and no target that is not positive where the zone has
    one to fall back to. *)
Definition plain_zone (servers : list thunder_server) (clients : list registered_client)
    (r : result targets_response) : Prop :=
  Forall (λ x, in_int64 (server_GPUCount x) ∧
    let g := model_of (server_GPUType x) in
    (0 < host_gpus g servers)%Z → clear_product (host_gpus g servers) (target_of r g)) servers ∧
  Forall (λ x, in_int64 (client_GPUCount x) ∧
    (client_gpus (model_of (client_GPUType x)) clients ≤ max_int64)%Z) clients ∧
  match r with
  | Ok response =>
      Forall (λ x, positive_target (target_value x) = true) (OversubscriptionTargets response) ∨
      positive_target (DefaultOversubscriptionTarget response) = false
  | Err _ => True
  end.

#[global] Instance clear_product_dec h t : Decision (clear_product h t).
Proof. unfold clear_product, margin. destruct t as [| | |[]]; apply _. Defined.
#[global] Instance plain_zone_dec servers clients r : Decision (plain_zone servers clients r).
Proof. unfold plain_zone, in_int64. cbv zeta. destruct r; apply _. Defined.

(** The pool of a model in a zone. *)
Definition wanted_pool (zn : string) (servers : list thunder_server)
    (clients : list registered_client) (r : result targets_response) (g : string)
    : option poolDefinition :=
  let host := host_gpus g servers in
  let client := client_gpus g clients in
  let capacity := Z.max (floor_product host (target_of r g)) client in
  if bool_decide (g = "") || (capacity <=? 0)%Z then None
  else Some {| Zone := zn; GPUType := g; HostCapacity := host; ClientCapacity := client;
               Oversubscription := target_of r g; Capacity := capacity |}.

(** The identifier and the name of a zone: each stands in for the other where
    that is missing. *)
Definition known_as (zone : thunder_zone) (zoneID zoneName : string) : Prop :=
  let id := trim_space (zone_ZoneID zone) in
  let name := trim_space (zone_DisplayName zone) in
  (id ≠ "" ∨ name ≠ "") ∧
  (id = "" ∧ zoneID = name ∨ id ≠ "" ∧ zoneID = id) ∧
  (name = "" ∧ zoneName = id ∨ name ≠ "" ∧ zoneName = name).

(** What a pool offers beyond what clients hold is within its target. *)
Definition within_target (d : poolDefinition) : Prop :=
  (ClientCapacity d < Capacity d)%Z → ∃ m e, Oversubscription d = S754_finite false m e ∧
    (Capacity d * 2 ^ Z.max (- e) 0 ≤ HostCapacity d * Z.pos m * 2 ^ Z.max e 0)%Z.

(** The names of the zones still to be handled have no pools yet. *)
Definition unvisited (zones : list thunder_zone) (desired : gmap poolKey poolDefinition) : Prop :=
  ∀ key, key_Zone key ∈ omap (λ z, snd <$> zone_identity z) zones → desired !! key = None.
End spec.

(** Inputs of the concrete runs. *)
Definition sample_snapshot : snapshot :=
  Snapshot [ThunderZone "z1" "us-east"; ThunderZone "" "eu-west"]
    (λ z, if bool_decide (z = "z1")
          then [ThunderServer "A6000" 4 "Active"; ThunderServer "h100" 8 "down";
                ThunderServer " a6000 " 2 ""]
          else [])
    (λ z, [RegisteredClient "H100" 2 None; RegisteredClient "H100" 5 (Some 17%Z)])
    (λ z, Ok (TargetsResponse [OversubscriptionTarget "a6000" (f64_mul (f64_of_int 3) (S754_finite false 1 (-1)))]
                f64_one)).

(* -------------------------------------------------------------------- *)
(** ** Lemmas *)

Section lemmas.
Context `{UnicodeTables} `{FloatConversion} `{MapOrder}.

Lemma host_counts_alt servers : host_counts servers = add_counts ∅ (healthy_gpus servers).
Proof.
  unfold host_counts, add_counts, healthy_gpus. generalize (∅ : gmap string Z).
  induction servers as [|s servers IH]; intros m; [done|].
  rewrite filter_cons. cbn [fold_left]. rewrite IH.
  destruct (nodeHealthy (server_Status s)); by case_decide.
Qed.

Lemma client_counts_alt clients : client_counts clients = add_counts ∅ (live_gpus clients).
Proof.
  unfold client_counts, add_counts, live_gpus. generalize (∅ : gmap string Z).
  induction clients as [|c clients IH]; intros m; [done|].
  rewrite filter_cons. cbn [fold_left]. rewrite IH.
  destruct (client_DecommissionedAt c); by case_decide.
Qed.

Lemma add_counts_lookup g l m : g ≠ "" →
  default 0%Z (add_counts m l !! g) =
  fold_left (λ acc p, if bool_decide (normalizeGPUType p.1 = g) && (0 <? p.2)%Z
    then int64 (acc + p.2) else acc) l (default 0%Z (m !! g)).
Proof.
  intros Hg. revert m. induction l as [|[t c] l IH]; intros m; [done|].
  unfold add_counts in *. cbn [fold_left fst snd]. rewrite IH. f_equal. unfold addGPUCount.
  destruct (Z.leb_spec c 0), (Z.ltb_spec 0 c); try lia.
  - by rewrite orb_true_r, andb_false_r.
  - rewrite orb_false_r, andb_true_r.
    case_bool_decide as Ht; [rewrite bool_decide_false by congruence; done|].
    case_bool_decide as Hn; [subst; by rewrite lookup_insert_eq|by rewrite lookup_insert_ne].
Qed.

Lemma add_counts_empty l m : m !! "" = None → add_counts m l !! "" = None.
Proof.
  revert m. induction l as [|[t c] l IH]; intros m Hm; [done|].
  unfold add_counts in *. cbn [fold_left fst snd]. apply IH. unfold addGPUCount.
  case_bool_decide as Ht; [done|]. cbn [orb].
  destruct (c <=? 0)%Z; [done|]. by rewrite lookup_insert_ne.
Qed.

Lemma host_counts_total servers g : g ≠ "" →
  default 0%Z (host_counts servers !! g) = total_of g (healthy_gpus servers).
Proof. intros Hg. by rewrite host_counts_alt, add_counts_lookup. Qed.

Lemma client_counts_total clients g : g ≠ "" →
  default 0%Z (client_counts clients !! g) = total_of g (live_gpus clients).
Proof. intros Hg. by rewrite client_counts_alt, add_counts_lookup. Qed.

Lemma total_of_range g l : in_int64 (total_of g l).
Proof.
  unfold total_of. apply (fold_left_invariant in_int64).
  - intros acc p Hacc. destruct (_ && _); [apply int64_range|done].
  - unfold in_int64, min_int64, max_int64. lia.
Qed.

Lemma oversubscribed_range h t : in_int64 (oversubscribed h t).
Proof.
  unfold oversubscribed. destruct (_ || _); [|apply int64_of_floor_range].
  unfold in_int64, min_int64, max_int64. lia.
Qed.

Lemma oversubscribed_zero t : oversubscribed 0 t = 0%Z.
Proof. done. Qed.

Lemma pool_capacity_range h c t : in_int64 c → in_int64 (pool_capacity h c t).
Proof. pose proof (oversubscribed_range h t). unfold pool_capacity, in_int64 in *. lia. Qed.

(** What one GPU type of a zone puts under its key. *)
Lemma add_pool_lookup zn hc cc targets d g key :
  add_pool zn hc cc targets d g !! key =
    if decide (key = PoolKey zn g)
    then add_pool zn hc cc targets d g !! PoolKey zn g else d !! key.
Proof.
  case_decide as Hk; [by subst|]. unfold add_pool.
  destruct (_ <=? 0)%Z; [done|]. by rewrite lookup_insert_ne.
Qed.

(** The value under a key depends on what was under it only. *)
Lemma add_pool_local zn hc cc targets d1 d2 g :
  d1 !! PoolKey zn g = d2 !! PoolKey zn g →
  add_pool zn hc cc targets d1 g !! PoolKey zn g =
  add_pool zn hc cc targets d2 g !! PoolKey zn g.
Proof.
  intros Hd. unfold add_pool. rewrite Hd. destruct (_ <=? 0)%Z; [done|].
  by rewrite !lookup_insert_eq.
Qed.

Lemma fold_add_pool_lookup zn hc cc targets l d key : NoDup l →
  fold_left (add_pool zn hc cc targets) l d !! key =
    if decide (key_Zone key = zn ∧ key_GPUType key ∈ l)
    then add_pool zn hc cc targets d (key_GPUType key) !! key else d !! key.
Proof.
  intros Hl. revert d. induction Hl as [|g l Hg _ IH]; intros d.
  { rewrite decide_False; [done|]. intros [_ ?%not_elem_of_nil]. done. }
  cbn [fold_left]. rewrite IH. destruct key as [zn' g']. cbn [key_Zone key_GPUType].
  destruct (decide (zn' = zn ∧ g' ∈ l)) as [[-> Hin]|Hni].
  - rewrite (decide_True (P:=zn = zn ∧ g' ∈ g :: l)) by (split; [done|by right]).
    apply add_pool_local. rewrite add_pool_lookup, decide_False; [done|].
    intros [= ->]. done.
  - rewrite (add_pool_lookup _ _ _ _ _ g).
    destruct (decide (PoolKey zn' g' = PoolKey zn g)) as [[= -> ->]|Hne].
    + by rewrite decide_True by (split; [done|by left]).
    + rewrite decide_False; [done|]. intros [-> [->|?]%elem_of_cons]; [done|]. by apply Hni.
Qed.

Lemma add_zone_lookup zoneID zn servers clients targets d g :
  add_zone zoneID zn servers clients targets d !! PoolKey zn g =
  add_pool zn (host_counts servers) (client_counts clients) targets d g !! PoolKey zn g.
Proof.
  unfold add_zone. rewrite fold_add_pool_lookup by (rewrite map_order_perm; apply NoDup_elements).
  cbn [key_Zone key_GPUType]. case_decide as Hin; [done|].
  assert (g ∉ zone_gpu_types (host_counts servers) (client_counts clients)) as Hni.
  { intros Hg. apply Hin. split; [done|]. rewrite map_order_perm. by apply elem_of_elements. }
  unfold zone_gpu_types in Hni. apply not_elem_of_union in Hni as [Hh Hc].
  apply not_elem_of_dom in Hh, Hc. unfold add_pool. by rewrite Hh, Hc.
Qed.

Lemma add_zone_other zoneID zn servers clients targets d key : key_Zone key ≠ zn →
  add_zone zoneID zn servers clients targets d !! key = d !! key.
Proof.
  intros Hk. unfold add_zone.
  rewrite fold_add_pool_lookup by (rewrite map_order_perm; apply NoDup_elements).
  rewrite decide_False; [done|]. by intros [? _].
Qed.

Lemma add_zone_fresh zoneID zn servers clients targets d g :
  d !! PoolKey zn g = None →
  add_zone zoneID zn servers clients targets d !! PoolKey zn g =
  zone_pool zn servers clients targets g.
Proof.
  intros Hd. rewrite add_zone_lookup. unfold add_pool, zone_pool, pool_capacity.
  case_bool_decide as Hg.
  - subst g. rewrite host_counts_alt, client_counts_alt, !add_counts_empty by done. done.
  - rewrite host_counts_total, client_counts_total by done. cbn [orb].
    set (h := total_of g (healthy_gpus servers)). set (c := total_of g (live_gpus clients)).
    set (o := oversubscribed h (For_ targets g)).
    replace (if (o <? c)%Z then c else o) with (o `max` c)%Z
      by (destruct (Z.ltb_spec o c); lia).
    destruct (Z.leb_spec (o `max` c) 0); [done|].
    rewrite lookup_insert_eq, Hd. cbn [default from_option].
    cbn [HostCapacity ClientCapacity Capacity zero_definition].
    rewrite !Z.add_0_l, !int64_id; [done|..].
    + apply pool_capacity_range, total_of_range.
    + apply total_of_range.
    + apply total_of_range.
Qed.
End lemmas.

Section theorems.
Context `{UnicodeTables} `{FloatConversion} `{MapOrder}.

Lemma zoneOversubscription_run s zoneID :
  run (snapshot_handler s) (zoneOversubscription zoneID) tt
  = (targets_or_default (snap_targets s zoneID), tt).
Proof. cbn. by destruct (snap_targets s zoneID). Qed.

Lemma build_zones_step s zone zones zoneID zoneName desired :
  zone_identity zone = Some (zoneID, zoneName) →
  run (snapshot_handler s) (build_zones (zone :: zones) desired) tt =
  run (snapshot_handler s) (build_zones zones
    (add_zone zoneID zoneName (snap_servers s zoneID) (snap_clients s zoneID)
       (targets_or_default (snap_targets s zoneID)) desired)) tt.
Proof.
  intros Hz. cbn [build_zones]. rewrite Hz. unfold orfail.
  rewrite run_bind. cbn [run call snapshot_handler].
  rewrite run_bind. cbn [run call snapshot_handler].
  by rewrite run_bind, zoneOversubscription_run.
Qed.

Lemma build_zones_spec s zones desired :
  distinct_zone_names zones → unvisited zones desired →
  ∃ d, run (snapshot_handler s) (build_zones zones desired) tt = (Ok d, tt) ∧
  ∀ key, d !! key =
    match list_find (λ z, snd <$> zone_identity z = Some (key_Zone key)) zones with
    | None => desired !! key
    | Some _ => snapshot_pool (Snapshot zones (snap_servers s) (snap_clients s) (snap_targets s)) key
    end.
Proof.
  unfold distinct_zone_names. revert desired.
  induction zones as [|z zones IH]; intros desired Hnd Hun; [by exists desired|].
  destruct (zone_identity z) as [[zoneID zoneName]|] eqn:Hz.
  - rewrite (build_zones_step _ _ _ _ _ _ Hz).
    cbn [omap list_omap] in Hnd. rewrite Hz in Hnd. cbn in Hnd.
    apply NoDup_cons in Hnd as [Hni Hnd].
    edestruct (IH (add_zone zoneID zoneName (snap_servers s zoneID) (snap_clients s zoneID)
       (targets_or_default (snap_targets s zoneID)) desired)) as (d & Hrun & Hd); [done|..].
    { intros key Hin. rewrite add_zone_other by (intros Hk; by rewrite Hk in Hin).
      apply Hun. cbn. rewrite Hz. cbn. by right. }
    exists d. split; [done|]. intros key. rewrite Hd. unfold snapshot_pool.
    cbn [list_find snap_zones]. rewrite Hz. cbn [fmap option_fmap option_map snd].
    destruct (decide (Some zoneName = Some (key_Zone key))) as [[= Hk]|Hne].
    + destruct (list_find _ zones) as [[i z']|] eqn:Hf.
      { exfalso. apply list_find_Some in Hf as (Hi & Hz' & _). apply Hni.
        apply list_elem_of_omap. exists z'. split; [by eapply list_elem_of_lookup_2|].
        congruence. }
      rewrite Hz. destruct key as [zn g]. cbn in Hk |- *. subst zn.
      apply add_zone_fresh. apply Hun. cbn. rewrite Hz. cbn. by left.
    + destruct (list_find _ zones) as [[i z']|] eqn:Hf; [done|].
      apply add_zone_other. congruence.
  - cbn [build_zones]. rewrite Hz. cbn [omap list_omap] in Hnd. rewrite Hz in Hnd. cbn in Hnd.
    destruct (IH desired) as (d & Hrun & Hd); [done|..].
    { intros key Hin. apply Hun. cbn. by rewrite Hz. }
    exists d. split; [done|]. intros key. rewrite Hd. unfold snapshot_pool.
    cbn [list_find snap_zones]. rewrite Hz. rewrite decide_False by done.
    by destruct (list_find _ zones) as [[]|].
Qed.

(** The code's way to the pools gives what they should be. *)
Lemma known_as_identity zone zoneID zoneName :
  known_as zone zoneID zoneName ↔ zone_identity zone = Some (zoneID, zoneName).
Proof.
  unfold known_as, zone_identity. cbn zeta.
  repeat case_bool_decide; cbn [orb]; naive_solver congruence.
Qed.

Lemma in_service_healthy x : in_service x = nodeHealthy (server_Status x).
Proof.
  apply eq_true_iff_eq. unfold in_service, nodeHealthy. rewrite bool_decide_eq_true, existsb_exists.
  split.
  - intros (w & Hin & ->%bool_decide_eq_true). apply list_elem_of_In in Hin. set_solver.
  - intros Hin. eexists. split; [|apply bool_decide_eq_true; reflexivity].
    apply list_elem_of_In. set_solver.
Qed.

(** A sum that fits is what [int64] arithmetic makes of it. *)
Definition sum_of (g : string) (l : list (string * Z)) : Z :=
  foldr Z.add 0%Z ((λ p, Z.max 0 p.2) <$> filter (λ p, model_of p.1 = g) l).
Lemma sum_of_nonneg g l : (0 ≤ sum_of g l)%Z.
Proof.
  unfold sum_of. induction l as [|[t c] l IH]; [done|]. rewrite filter_cons. case_decide; [|done].
  cbn [fmap list_fmap foldr snd]. lia.
Qed.
Lemma total_from g l acc : (0 ≤ acc)%Z → (acc + sum_of g l ≤ max_int64)%Z →
  fold_left (λ acc p, if bool_decide (normalizeGPUType p.1 = g) && (0 <? p.2)%Z
    then int64 (acc + p.2) else acc) l acc = (acc + sum_of g l)%Z.
Proof.
  revert acc. induction l as [|[t c] l IH]; intros acc Hacc Hmax; [by rewrite Z.add_0_r|].
  pose proof (sum_of_nonneg g l) as Hl.
  assert (sum_of g ((t, c) :: l) = (if decide (normalizeGPUType t = g) then Z.max 0 c else 0) + sum_of g l)%Z as Hs.
  { unfold sum_of. rewrite filter_cons. change (normalizeGPUType t) with (model_of t). by repeat case_decide. }
  rewrite Hs in Hmax |- *. cbn [fold_left fst snd].
  destruct (decide (normalizeGPUType t = g)) as [Hg|Hg].
  - rewrite (bool_decide_true _ Hg). destruct (Z.ltb_spec 0 c); cbn [andb].
    + rewrite int64_id by (unfold in_int64, min_int64, max_int64 in *; lia). rewrite IH; lia.
    + rewrite IH; lia.
  - rewrite (bool_decide_false _ Hg). cbn [andb]. rewrite IH; lia.
Qed.
Lemma total_of_sum g l : (sum_of g l ≤ max_int64)%Z → total_of g l = sum_of g l.
Proof. intros Hl. unfold total_of. rewrite total_from; lia. Qed.

Lemma host_gpus_sum g servers : Forall (λ x, in_int64 (server_GPUCount x)) servers →
  host_gpus g servers = sum_of g (healthy_gpus servers).
Proof.
  unfold host_gpus, sum_of, healthy_gpus. induction 1 as [|x servers Hx _ IH]; [done|].
  rewrite !filter_cons, <-in_service_healthy. destruct (in_service x).
  - rewrite (decide_True (P:=true = true)) by done. cbn [fmap list_fmap fst]. rewrite filter_cons. cbn [fst].
    case_decide as Hg; case_decide as Hg'; [|naive_solver..|done].
    cbn [fmap list_fmap foldr snd]. by rewrite IH, int64_id.
  - rewrite (decide_False (P:=false = true)) by done. rewrite decide_False; [done|]. by intros [? _].
Qed.
Lemma client_gpus_sum g clients : Forall (λ x, in_int64 (client_GPUCount x)) clients →
  client_gpus g clients = sum_of g (live_gpus clients).
Proof.
  unfold client_gpus, sum_of, live_gpus. induction 1 as [|x clients Hx _ IH]; [done|].
  rewrite !filter_cons. destruct (client_DecommissionedAt x).
  - rewrite (decide_False (P:=Some _ = None)) by done. rewrite decide_False; [done|]. by intros [? _].
  - rewrite (decide_True (P:=None = None)) by done. cbn [fmap list_fmap fst]. rewrite filter_cons. cbn [fst].
    case_decide as Hg; case_decide as Hg'; [|naive_solver..|done].
    cbn [fmap list_fmap foldr snd]. by rewrite IH, int64_id.
Qed.

(** A model that is counted is named. *)
Lemma host_gpus_named g servers : (0 < host_gpus g servers)%Z →
  ∃ x, x ∈ servers ∧ model_of (server_GPUType x) = g.
Proof.
  unfold host_gpus. destruct (filter _ servers) as [|x l] eqn:Hf; [done|]. intros _.
  assert (x ∈ x :: l) as Hx by by left. rewrite <-Hf in Hx.
  apply list_elem_of_filter in Hx as [[_ ?] ?]. by exists x.
Qed.
Lemma client_gpus_named g clients : (0 < client_gpus g clients)%Z →
  ∃ x, x ∈ clients ∧ model_of (client_GPUType x) = g.
Proof.
  unfold client_gpus. destruct (filter _ clients) as [|x l] eqn:Hf; [done|]. intros _.
  assert (x ∈ x :: l) as Hx by by left. rewrite <-Hf in Hx.
  apply list_elem_of_filter in Hx as [[_ ?] ?]. by exists x.
Qed.

(** The targets: the last one of a model is the one the map keeps. *)
Lemma positive_target_ltb t : f64_ltb f64_zero t = positive_target t.
Proof. by destruct t as [[]|[]| |[]]. Qed.
Lemma positive_target_leb t : f64_leb t f64_zero = true → positive_target t = false.
Proof. by destruct t as [[]|[]| |[]]. Qed.

Lemma targets_lookup l (m : gmap string float64) k :
  fold_left (λ m target, let gpuType := normalizeGPUType (target_GPUType target) in
    if bool_decide (gpuType = "") then m else <[gpuType := target_value target]> m) l m !! k =
  match last (filter (λ x, model_of (target_GPUType x) ≠ "" ∧ model_of (target_GPUType x) = k) l) with
  | Some x => Some (target_value x) | None => m !! k end.
Proof.
  revert m. induction l as [|x l IH]; intros m; [done|]. cbn [fold_left]. rewrite IH.
  rewrite filter_cons. change (normalizeGPUType (target_GPUType x)) with (model_of (target_GPUType x)).
  case_decide as Hx.
  - rewrite last_cons. destruct (last _); [done|]. cbn zeta. destruct Hx as [Hne Hx].
    rewrite bool_decide_false by done. by rewrite Hx, lookup_insert_eq.
  - destruct (last _); [done|]. cbn zeta. case_bool_decide; [done|].
    rewrite lookup_insert_ne; [done|]. intros Hk. by apply Hx.
Qed.

Lemma target_of_For r g servers clients : plain_zone servers clients r →
  For_ (targets_or_default r) g = target_of r g.
Proof.
  intros (_ & _ & Hr). unfold For_, target_of. rewrite !positive_target_ltb. destruct r as [response|e]; cbn [targets_or_default].
  2:{ by cbn. }
  unfold targets_of. cbn [byGPUType fallback]. change (normalizeGPUType g) with (model_of g).
  rewrite targets_lookup. destruct (last _) as [x|] eqn:Hl; [|by rewrite lookup_empty].
  rewrite positive_target_ltb. destruct (positive_target (target_value x)) eqn:Hx; [done|].
  destruct Hr as [Hall| ->]; [|done].
  apply last_Some_elem_of, list_elem_of_filter in Hl as [_ Hin].
  rewrite list.Forall_forall in Hall. by rewrite (Hall x Hin) in Hx.
Qed.

(** The code's product, rounded and rounded down, is the exact one rounded
    down. *)
Lemma oversubscribed_floor h t : (0 ≤ h)%Z → ((0 < h)%Z → clear_product h t) →
  oversubscribed h t = floor_product h t.
Proof.
  intros Hh Hclear. unfold oversubscribed. destruct (Z.leb_spec h 0) as [Hle|Hlt].
  { replace h with 0%Z by lia. by destruct t as [| | |[] m e]. }
  specialize (Hclear Hlt). destruct t as [| | |[] m e]; try done. destruct Hclear as [Hmax Hm].
  cbn [orb f64_leb SFleb SFcompare]. unfold int64_of_floor.
  rewrite (f64_mul_floor _ _ _ _ (conj Hlt Hmax) Hm).
  assert (0 ≤ floor_product h (S754_finite false m e))%Z as Hpos.
  { cbn [floor_product]. apply Z.div_pos; [|apply Z.pow_pos_nonneg; lia].
    pose proof (Z.pow_pos_nonneg 2 (Z.max e 0)). nia. }
  rewrite bool_decide_true; [done|]. destruct Hm as (_ & _ & Hlim). unfold min_int64, max_int64. lia.
Qed.

Lemma plain_counts servers clients r : plain_zone servers clients r →
  Forall (λ x, in_int64 (server_GPUCount x)) servers ∧ Forall (λ x, in_int64 (client_GPUCount x)) clients.
Proof. intros (Hs & Hc & _). split; (eapply Forall_impl; [done|]); by intros x [? _]. Qed.

Lemma clear_below h t : clear_product h t → (h < 2 ^ 53)%Z.
Proof. destruct t as [| | |[]]; try done. by intros [? _]. Qed.

Lemma zone_pool_wanted zn servers clients r g : plain_zone servers clients r →
  zone_pool zn servers clients (targets_or_default r) g = wanted_pool zn servers clients r g.
Proof.
  intros Hp. destruct (plain_counts _ _ _ Hp) as [Hns Hnc]. unfold zone_pool, wanted_pool, pool_capacity.
  rewrite (target_of_For _ _ _ _ Hp).
  assert ((0 < host_gpus g servers)%Z → clear_product (host_gpus g servers) (target_of r g)) as Hclear.
  { intros Hpos. destruct (host_gpus_named g servers Hpos) as (x & Hin & <-).
    destruct Hp as (Hs & _ & _). rewrite list.Forall_forall in Hs. by apply (Hs x Hin). }
  assert (client_gpus g clients ≤ max_int64)%Z as Hclients.
  { destruct (Z.ltb_spec 0 (client_gpus g clients)) as [Hpos|]; [|unfold max_int64; lia].
    destruct (client_gpus_named g clients Hpos) as (x & Hin & <-).
    destruct Hp as (_ & Hc & _). rewrite list.Forall_forall in Hc. by apply (Hc x Hin). }
  assert (host_gpus g servers ≤ max_int64)%Z as Hhosts.
  { destruct (Z.ltb_spec 0 (host_gpus g servers)) as [Hpos|]; [|unfold max_int64; lia].
    pose proof (clear_below _ _ (Hclear Hpos)). unfold max_int64. lia. }
  rewrite !total_of_sum by (by rewrite <-?host_gpus_sum, <-?client_gpus_sum).
  rewrite <-host_gpus_sum, <-client_gpus_sum by done.
  rewrite oversubscribed_floor; [done| |done]. rewrite host_gpus_sum by done. apply sum_of_nonneg.
Qed.

Lemma floor_product_below h m e :
  (floor_product h (S754_finite false m e) * 2 ^ Z.max (- e) 0 ≤ h * Z.pos m * 2 ^ Z.max e 0)%Z.
Proof. cbn [floor_product]. rewrite Z.mul_comm. apply Z.mul_div_le, Z.pow_pos_nonneg; lia. Qed.

Lemma wanted_within zn servers clients r g d : wanted_pool zn servers clients r g = Some d → within_target d.
Proof.
  unfold wanted_pool, within_target.
  assert (0 ≤ client_gpus g clients)%Z as Hc.
  { unfold client_gpus. induction (filter _ clients); cbn [fmap list_fmap foldr]; lia. }
  destruct (_ || _); [done|]. intros [= <-]. cbn [ClientCapacity Capacity HostCapacity Oversubscription].
  intros Hlt. rewrite Z.max_l by lia.
  destruct (target_of r g) as [| | |[] m e]; cbn [floor_product] in Hlt; try lia.
  exists m, e. split; [done|]. apply floor_product_below.
Qed.

Lemma distinct_names_inj zones z z' name : distinct_zone_names zones → z ∈ zones → z' ∈ zones →
  snd <$> zone_identity z = Some name → snd <$> zone_identity z' = Some name → z = z'.
Proof.
  unfold distinct_zone_names. induction zones as [|x zones IH]; [by intros _ ?%not_elem_of_nil|].
  assert (∀ y, y ∈ zones → snd <$> zone_identity y = Some name →
    name ∈ omap (λ z, snd <$> zone_identity z) zones) as Hin by (intros y ? ?; apply list_elem_of_omap; by exists y).
  cbn [omap list_omap]. intros Hd Hz Hz' Hn Hn'.
  apply elem_of_cons in Hz as [->|Hz]; apply elem_of_cons in Hz' as [->|Hz']; [done| | |].
  - rewrite Hn in Hd. apply NoDup_cons in Hd as [Hd _]. by destruct Hd; apply (Hin z').
  - rewrite Hn' in Hd. apply NoDup_cons in Hd as [Hd _]. by destruct Hd; apply (Hin z).
  - apply IH; try done. destruct (snd <$> zone_identity x); [by apply NoDup_cons in Hd as [_ ?]|done].
Qed.

(** C10: against a fixed picture of Thunder's inventory with distinct zone
    names, the operator asks for exactly the pools it should, in whatever
    order the loops over Go maps run: for each zone and GPU model, as many
    devices as the GPUs of the servers in service times the model's target,
    exactly, rounded down - the last target named for the model, or else the
    zone's, or else 1, and 1 where the targets could not be read -, and never
    fewer than live clients hold; so the target is exceeded only for those.
    It needs counts of clients that add up to an int64, counts of servers and
    products below 2^53, no target that is not positive in a zone that has a
    default, and products that are not within half a unit of the last place of
    a float64 below an integer: there the code's product is rounded up to that
    integer. *)
Theorem buildDesiredPools_spec s : distinct_zone_names (snap_zones s) →
  (∀ z zoneID zoneName, z ∈ snap_zones s → known_as z zoneID zoneName →
     plain_zone (snap_servers s zoneID) (snap_clients s zoneID) (snap_targets s zoneID)) →
  ∃ desired, run (snapshot_handler s) buildDesiredPools tt = (Ok desired, tt) ∧
    (∀ z zoneID zoneName g, z ∈ snap_zones s → known_as z zoneID zoneName →
       desired !! PoolKey zoneName g =
       wanted_pool zoneName (snap_servers s zoneID) (snap_clients s zoneID) (snap_targets s zoneID) g) ∧
    ∀ key d, desired !! key = Some d → within_target d ∧
      ∃ z zoneID, z ∈ snap_zones s ∧ known_as z zoneID (key_Zone key).
Proof.
  intros Hd Hplain. destruct (build_zones_spec s (snap_zones s) ∅) as (d & Hrun & Hk); [done|by intros ?|].
  assert (∀ z zoneID zoneName g, z ∈ snap_zones s → known_as z zoneID zoneName →
    d !! PoolKey zoneName g =
    wanted_pool zoneName (snap_servers s zoneID) (snap_clients s zoneID) (snap_targets s zoneID) g) as Hpools.
  { intros z zoneID zoneName g Hz Hknown. pose proof (Hplain _ _ _ Hz Hknown) as Hp.
    apply known_as_identity in Hknown as Hid.
    rewrite Hk, <-(zone_pool_wanted _ _ _ _ _ Hp). unfold snapshot_pool. cbn [snap_zones key_Zone key_GPUType].
    destruct (list_find _ (snap_zones s)) as [[i z']|] eqn:Hf.
    - apply list_find_Some in Hf as (Hi & Hz' & _). apply list_elem_of_lookup_2 in Hi.
      assert (z' = z) as ->; [|by rewrite Hid].
      by apply (distinct_names_inj (snap_zones s) z' z zoneName); [..|rewrite Hid].
    - exfalso. apply list_find_None in Hf. rewrite list.Forall_forall in Hf.
      apply (Hf z Hz). by rewrite Hid. }
  exists d. unfold buildDesiredPools, orfail. rewrite run_bind. cbn [run call snapshot_handler].
  split_and!; [done|done|]. intros [zn g] def Hdef. pose proof Hdef as Hfound. rewrite Hk in Hfound.
  destruct (list_find _ (snap_zones s)) as [[i z]|] eqn:Hf; [|by rewrite lookup_empty in Hfound].
  apply list_find_Some in Hf as (Hi & Hz & _). apply list_elem_of_lookup_2 in Hi. cbn [key_Zone] in *.
  destruct (zone_identity z) as [[zoneID zoneName]|] eqn:Hid; [|done]. injection Hz as ->.
  apply known_as_identity in Hid. split; [|by exists z, zoneID].
  rewrite (Hpools _ _ _ _ Hi Hid) in Hdef. by eapply wanted_within.
Qed.
End theorems.

(** The product is rounded before it is rounded down: three GPUs at the
    largest float64 below one third give one GPU, although three times that
    target is below one. *)
Example oversubscribed_rounds_up `{FloatConversion} :
  oversubscribed 3 (S754_finite false 6004799503160661 (-54)) = 1%Z ∧
  (3 * 6004799503160661 < 2 ^ 54)%Z.
Proof. split; [vm_compute; reflexivity|lia]. Qed.

Section witnesses.
#[local] Existing Instances ascii_tables listed_order amd64_conversion.

Lemma buildDesiredPools_spec_witness :
  ∃ desired, run (snapshot_handler sample_snapshot) buildDesiredPools tt = (Ok desired, tt) ∧
    (Capacity <$> desired !! PoolKey "us-east" "a6000") = Some 9%Z ∧
    (Capacity <$> desired !! PoolKey "us-east" "h100") = Some 2%Z ∧
    (Capacity <$> desired !! PoolKey "eu-west" "h100") = Some 2%Z.
Proof.
  assert (∀ z zoneID zoneName, z ∈ snap_zones sample_snapshot → known_as z zoneID zoneName →
    (zoneID = "z1" ∨ zoneID = "eu-west")) as Hids.
  { intros z zoneID zoneName Hz Hk%known_as_identity. cbn [snap_zones sample_snapshot] in Hz.
    apply elem_of_cons in Hz as [->|Hz]; [|apply list_elem_of_singleton in Hz as ->];
      vm_compute in Hk; injection Hk as <- _; auto. }
  destruct (buildDesiredPools_spec sample_snapshot) as (d & Hrun & Hd & _).
  { vm_compute. repeat constructor; set_solver. }
  { intros z zoneID zoneName Hz Hk.
    destruct (Hids z zoneID zoneName Hz Hk) as [->| ->];
      apply (bool_decide_eq_true_1 (plain_zone _ _ _)); vm_compute; reflexivity. }
  assert (known_as (ThunderZone "z1" "us-east") "z1" "us-east") as H1
    by (apply known_as_identity; vm_compute; reflexivity).
  assert (known_as (ThunderZone "" "eu-west") "eu-west" "eu-west") as H2
    by (apply known_as_identity; vm_compute; reflexivity).
  assert (ThunderZone "z1" "us-east" ∈ snap_zones sample_snapshot) as Hin1 by by left.
  assert (ThunderZone "" "eu-west" ∈ snap_zones sample_snapshot) as Hin2 by (right; by left).
  exists d. split; [exact Hrun|]. split; [|split].
  - rewrite (Hd _ _ _ "a6000" Hin1 H1). vm_compute. reflexivity.
  - rewrite (Hd _ _ _ "h100" Hin1 H1). vm_compute. reflexivity.
  - rewrite (Hd _ _ _ "h100" Hin2 H2). vm_compute. reflexivity.
Defined.
End witnesses.
