(* ===== verification/KubeAPI.v ===== *)
(** * Operator: the API the operator calls

    The objects the operator reads and writes through the Kubernetes API
    besides ResourceSlices, the calls it makes, and an API server that keeps
    the objects, the environment of the convergence theorems.  Every theorem
    about failures quantifies over arbitrary replies instead. *)

From S2P Require Import Prelude GoStrings Float64 ResourceSlice Inventory.

(** [resourcev1.DeviceClass]: a selector may or may not be a CEL expression. *)
Record device_class := DeviceClass {
  dc_name : string;
  dc_labels : gmap string string;
  dc_extendedResourceName : option string;
  dc_selectors : list (option string);
  dc_spec_rest : string;
  dc_meta : string
}.
#[global] Instance device_class_eq_dec : EqDecision device_class.
Proof. solve_decision. Defined.

(** A ThunderClient resource, with the nested strings the operator reads (the
    empty string where the object has none). *)
Record thunder_client := ThunderClient {
  tc_namespace : string;
  tc_name : string;
  tc_finalizers : list string;
  tc_claimNamespace : string;
  tc_claimName : string;
  tc_claimUID : string;
  tc_enrollmentTokenID : string;
  tc_rest : string
}.
#[global] Instance thunder_client_eq_dec : EqDecision thunder_client.
Proof. solve_decision. Defined.

(** The Kubernetes calls; the objects that writes return are not used. *)
Inductive kube_ev :=
  | ListResourceSlices (labelSelector : list (string * string)) (driver : string)
  | CreateResourceSlice (slice : resource_slice)
  | UpdateResourceSlice (slice : resource_slice)
  | DeleteResourceSlice (name : string)
  | ListDeviceClasses (labelSelector : list (string * string))
  | CreateDeviceClass (class : device_class)
  | UpdateDeviceClass (class : device_class)
  | DeleteDeviceClass (name : string)
  | ListThunderClients
  | UpdateThunderClient (client : thunder_client)
  | DeleteThunderClient (namespace name : string)
  | GetResourceClaim (namespace name : string)
  | Now.
Definition kube_resp (e : kube_ev) : Type :=
  match e with
  | ListResourceSlices _ _ => result (list resource_slice)
  | ListDeviceClasses _ => result (list device_class)
  | ListThunderClients => result (list thunder_client)
  | GetResourceClaim _ _ => result string
  | Now => Z
  | _ => result unit
  end.
Definition kube_sig : sig := Sig kube_ev kube_resp.

(** The operator calls Thunder and Kubernetes. *)
Definition op_sig : sig := sig_sum thunder_sig kube_sig.
Definition kcall (e : kube_ev) : prog op_sig (kube_resp e) := call (S:=op_sig) (inr e).
Definition tcall (e : thunder_ev) : prog op_sig (thunder_resp e) := call (S:=op_sig) (inl e).

(** The calls that change something outside the operator. *)
Definition is_write (e : ev op_sig) : bool :=
  match e with
  | inl (UnenrollClient _) => true
  | inl _ => false
  | inr (ListResourceSlices _ _ | ListDeviceClasses _ | ListThunderClients
        | GetResourceClaim _ _ | Now) => false
  | inr _ => true
  end.

(** A label selector that asks for equality on each key. *)
Definition selects (selector : list (string * string)) (labels : gmap string string) : bool :=
  forallb (λ p, bool_decide (labels !! p.1 = Some p.2)) selector.

(* -------------------------------------------------------------------- *)
(** ** An API server *)

Record server := Server {
  srv_slices : gmap string resource_slice;
  srv_classes : gmap string device_class;
  srv_clients : gmap (string * string) thunder_client;
  srv_claims : gmap (string * string) string;
  srv_time : Z;
  srv_inventory : snapshot
}.

Definition set_slices (f : gmap string resource_slice → gmap string resource_slice) (s : server) :=
  Server (f (srv_slices s)) (srv_classes s) (srv_clients s) (srv_claims s) (srv_time s)
    (srv_inventory s).
Definition set_classes (f : gmap string device_class → gmap string device_class) (s : server) :=
  Server (srv_slices s) (f (srv_classes s)) (srv_clients s) (srv_claims s) (srv_time s)
    (srv_inventory s).
Definition set_clients (f : gmap (string * string) thunder_client → gmap (string * string) thunder_client)
    (s : server) :=
  Server (srv_slices s) (srv_classes s) (f (srv_clients s)) (srv_claims s) (srv_time s)
    (srv_inventory s).

(** The errors the server answers with, as the client library reads them. *)
Class ServerErrors `{LibErrors} := {
  not_found_error : error;
  already_exists_error : error;
  not_found_error_is : kube_is_not_found not_found_error = true;
  already_exists_error_is : kube_is_already_exists already_exists_error = true
}.

Section server.
Context `{ServerErrors}.

(** Create an absent object, change or remove a present one. *)
Definition create_in {A} (name : string) (a : A) (m : gmap string A)
    : result unit * gmap string A :=
  match m !! name with Some _ => (Err already_exists_error, m) | None => (Ok tt, <[name := a]> m) end.
Definition update_in {K A} `{Countable K} (name : K) (a : A) (m : gmap K A)
    : result unit * gmap K A :=
  match m !! name with None => (Err not_found_error, m) | Some _ => (Ok tt, <[name := a]> m) end.
Definition delete_in {K A} `{Countable K} (name : K) (m : gmap K A) : result unit * gmap K A :=
  match m !! name with None => (Err not_found_error, m) | Some _ => (Ok tt, delete name m) end.

Definition listed_slices (selector : list (string * string)) (driver : string) (s : server)
    : list resource_slice :=
  filter (λ x, selects selector (rs_labels x) = true ∧ spec_driver (rs_spec x) = driver)
    (map_to_list (srv_slices s)).*2.
Definition listed_classes (selector : list (string * string)) (s : server) : list device_class :=
  filter (λ x, selects selector (dc_labels x) = true) (map_to_list (srv_classes s)).*2.

Definition on_slices {A} (p : A * gmap string resource_slice) (s : server) : A * server :=
  (p.1, set_slices (λ _, p.2) s).
Definition on_classes {A} (p : A * gmap string device_class) (s : server) : A * server :=
  (p.1, set_classes (λ _, p.2) s).
Definition on_clients {A} (p : A * gmap (string * string) thunder_client) (s : server)
    : A * server := (p.1, set_clients (λ _, p.2) s).

Definition kube_handler : handler kube_sig server :=
  λ e s, match e return kube_resp e * server with
  | ListResourceSlices sel driver => (Ok (listed_slices sel driver s), s)
  | CreateResourceSlice x => on_slices (create_in (rs_name x) x (srv_slices s)) s
  | UpdateResourceSlice x => on_slices (update_in (rs_name x) x (srv_slices s)) s
  | DeleteResourceSlice n => on_slices (delete_in n (srv_slices s)) s
  | ListDeviceClasses sel => (Ok (listed_classes sel s), s)
  | CreateDeviceClass x => on_classes (create_in (dc_name x) x (srv_classes s)) s
  | UpdateDeviceClass x => on_classes (update_in (dc_name x) x (srv_classes s)) s
  | DeleteDeviceClass n => on_classes (delete_in n (srv_classes s)) s
  | ListThunderClients => (Ok (map_to_list (srv_clients s)).*2, s)
  | UpdateThunderClient c =>
      on_clients (update_in (tc_namespace c, tc_name c) c (srv_clients s)) s
  | DeleteThunderClient ns n => on_clients (delete_in (ns, n) (srv_clients s)) s
  | GetResourceClaim ns n =>
      (match srv_claims s !! (ns, n) with Some uid => Ok uid | None => Err not_found_error end, s)
  | Now => (srv_time s, s)
  end.

Definition inventory_handler : handler thunder_sig server :=
  λ e s, ((snapshot_handler (srv_inventory s) e tt).1, s).

Definition server_handler : handler op_sig server := handler_sum inventory_handler kube_handler.
End server.

(** A server whose objects are stored under their own names. *)
Definition well_named (s : server) : Prop :=
  map_Forall (λ n x, rs_name x = n) (srv_slices s) ∧
  map_Forall (λ n x, dc_name x = n) (srv_classes s).
Definition clients_named (s : server) : Prop :=
  map_Forall (λ k x, (tc_namespace x, tc_name x) = k) (srv_clients s).

(** The errors of concrete runs. *)
#[refine] Definition status_server_errors : @ServerErrors status_errors :=
  {| not_found_error := ErrAPI 404 "not found"; already_exists_error := ErrAPI 409 "already exists" |}.
Proof. all: vm_compute; reflexivity. Defined.

(* -------------------------------------------------------------------- *)
(** ** Lemmas *)

Section lemmas.
Context `{ServerErrors}.

Lemma run_kcall e s : run server_handler (kcall e) s = kube_handler e s.
Proof. cbn. by destruct (kube_handler e s). Qed.

Lemma run_kcall_bind {B} e (f : kube_resp e → prog op_sig B) s :
  run server_handler (kcall e ≫= f) s =
    let '(r, s') := kube_handler e s in run server_handler (f r) s'.
Proof. by rewrite run_bind, run_kcall. Qed.

(** Reading Thunder leaves the server as it is. *)
Lemma run_thunder {A} (p : prog thunder_sig A) s :
  run server_handler (lift_l p) s = ((run (snapshot_handler (srv_inventory s)) p tt).1, s).
Proof.
  etrans; [apply (run_lift_l inventory_handler kube_handler)|]. induction p as [a|e k IH]; [done|].
  cbn [run]. unfold inventory_handler at 1. rewrite IH.
  by destruct (snapshot_handler (srv_inventory s) e tt) as [r []].
Qed.

Lemma listed_slices_elem sel driver s x :
  x ∈ listed_slices sel driver s ↔
  selects sel (rs_labels x) = true ∧ spec_driver (rs_spec x) = driver ∧
  ∃ n, srv_slices s !! n = Some x.
Proof.
  unfold listed_slices. rewrite list_elem_of_filter, list_elem_of_fmap. split.
  - intros [[? ?] ([n y] & -> & Hy%elem_of_map_to_list)]. eauto.
  - intros (? & ? & n & Hn). split; [done|]. exists (n, x). by rewrite elem_of_map_to_list.
Qed.

Lemma listed_classes_elem sel s x :
  x ∈ listed_classes sel s ↔ selects sel (dc_labels x) = true ∧ ∃ n, srv_classes s !! n = Some x.
Proof.
  unfold listed_classes. rewrite list_elem_of_filter, list_elem_of_fmap. split.
  - intros [? ([n y] & -> & Hy%elem_of_map_to_list)]. eauto.
  - intros (? & n & Hn). split; [done|]. exists (n, x). by rewrite elem_of_map_to_list.
Qed.

(** Objects stored under their names have distinct names. *)
Lemma NoDup_stored_names {A} (name : A → string) (m : gmap string A) :
  map_Forall (λ n x, name x = n) m → NoDup (name <$> (map_to_list m).*2).
Proof.
  intros Hn. rewrite <-list_fmap_compose.
  rewrite (list_fmap_ext _ fst); [apply NoDup_fst_map_to_list|].
  intros i [n x] Hi. cbn. apply list_elem_of_lookup_2, elem_of_map_to_list in Hi. by apply Hn.
Qed.

Lemma NoDup_listed_slices sel driver s : well_named s →
  NoDup (rs_name <$> listed_slices sel driver s).
Proof. intros [Hn _]. by apply NoDup_fmap_filter, NoDup_stored_names. Qed.

Lemma NoDup_listed_classes sel s : well_named s → NoDup (dc_name <$> listed_classes sel s).
Proof. intros [_ Hn]. by apply NoDup_fmap_filter, NoDup_stored_names. Qed.
End lemmas.

Lemma wp_kcall_bind {B} (G : list (event op_sig) → ev op_sig → Prop) pre e (f : kube_resp e → prog op_sig B) Q :
  G pre (inr e) → (∀ r, wp G (pre ++ [Ev (S:=op_sig) (inr e) r]) (f r) Q) →
  wp G pre (kcall e ≫= f) Q.
Proof. by split. Qed.

Lemma wp_tcall_bind {B} (G : list (event op_sig) → ev op_sig → Prop) pre e (f : thunder_resp e → prog op_sig B) Q :
  G pre (inl e) → (∀ r, wp G (pre ++ [Ev (S:=op_sig) (inl e) r]) (f r) Q) →
  wp G pre (tcall e ≫= f) Q.
Proof. by split. Qed.

(** Reason past the call a program starts with. *)
Ltac wp_call := unfold orfail at 1 || idtac;
  match goal with
  | |- wp _ _ (kcall ?e ≫= _) _ => apply (wp_kcall_bind _ _ e)
  | |- wp _ _ (tcall ?e ≫= _) _ => apply (wp_tcall_bind _ _ e)
  end.

(** Run the Kubernetes call a program starts with. *)
Ltac run_kcall := unfold orfail at 1 || idtac;
  match goal with
  | |- context [kcall ?e] => rewrite (run_kcall_bind e); cbn [kube_handler]
  end.
