(* ===== verification/DeviceClass.v ===== *)
(** * Operator: device classes

    internal/operator/deviceclass.go: one DeviceClass per GPU type in the
    inventory, so a workload can ask for a model by an extended resource
    name.  [syncDeviceClasses] creates the missing ones, updates those that
    differ and deletes those of GPU types that went away. *)

From S2P Require Import Prelude GoStrings Float64 Labels ResourceSlice Inventory KubeAPI.

Definition deviceClassComponent : string := "device-class".

Section device_class.
Context `{UnicodeTables} `{LibErrors} `{MapOrder}.

Definition buildDeviceClass (cfg : Config) (gpuType : string) : device_class :=
  let attributeValue := to_upper gpuType in
  let extendedResource := extendedResourceName (ExtendedResourcePrefix cfg) gpuType in
  {| dc_name := deviceClassName (DeviceClassPrefix cfg) gpuType;
     dc_labels := labels_of
       [("app.kubernetes.io/name", driverAppName);
        ("app.kubernetes.io/component", deviceClassComponent);
        ("app.kubernetes.io/managed-by", managedBy);
        (gpuTypeLabelName, dnsLabel gpuType)];
     dc_extendedResourceName := Some extendedResource;
     dc_selectors :=
       [Some ("device.driver == " +:+ quote (DriverName cfg) +:+
              " && device.attributes[" +:+ quote thunderDomain +:+ "][" +:+ quote "gpu_type" +:+
              "] == " +:+ quote attributeValue)];
     dc_spec_rest := "";
     dc_meta := "" |}.

Definition derefString (value : option string) : string := default "" value.

(** Selector by selector: both are CEL expressions, and the same. *)
Definition same_selector (a b : option string) : bool :=
  match a, b with Some a, Some b => bool_decide (a = b) | _, _ => false end.

Definition sameDeviceClass (current wanted : device_class) : bool :=
  if bool_decide (derefString (dc_extendedResourceName current) ≠
                  derefString (dc_extendedResourceName wanted)) then false
  else if bool_decide (length (dc_selectors current) ≠ length (dc_selectors wanted)) then false
  else if negb (forallb (λ p, same_selector p.1 p.2)
                  (zip (dc_selectors current) (dc_selectors wanted))) then false
  else forallb (λ p, bool_decide (label_value (dc_labels current) p.1 = p.2))
         (map_order "sameDeviceClass" (map_to_list (dc_labels wanted))).

Definition managed_selector : list (string * string) :=
  [("app.kubernetes.io/name", driverAppName);
   ("app.kubernetes.io/component", deviceClassComponent);
   ("app.kubernetes.io/managed-by", managedBy)].

(** A later item of the list replaces an earlier one of the same name. *)
Definition classes_by_name (items : list device_class) : gmap string device_class :=
  fold_left (λ m c, <[dc_name c := c]> m) items ∅.

Definition listManagedDeviceClasses : prog op_sig (result (gmap string device_class)) :=
  let? items := kcall (ListDeviceClasses managed_selector) or wrap "list DeviceClasses" in
  mret (Ok (classes_by_name items)).

Definition wanted_classes (cfg : Config) (desired : gmap poolKey poolDefinition)
    : gmap string device_class :=
  if bool_decide (ExtendedResourcePrefix cfg ≠ "") then
    fold_left (λ wanted key,
      let class := buildDeviceClass cfg (key_GPUType key) in <[dc_name class := class]> wanted)
      (map_order "wanted classes" (map_to_list desired).*1) ∅
  else ∅.

(** [current.DeepCopy()] with the labels and the spec of [class]. *)
Definition update_class (current class : device_class) : device_class :=
  {| dc_name := dc_name current;
     dc_labels := dc_labels class;
     dc_extendedResourceName := dc_extendedResourceName class;
     dc_selectors := dc_selectors class;
     dc_spec_rest := dc_spec_rest class;
     dc_meta := dc_meta current |}.

(** The loop over the wanted classes; it returns what is left of [existing]. *)
Fixpoint sync_wanted (wanted : list (string * device_class)) (existing : gmap string device_class)
    : prog op_sig (result (gmap string device_class)) :=
  match wanted with
  | [] => mret (Ok existing)
  | (name, class) :: wanted =>
      let rest := delete name existing in
      match existing !! name with
      | None =>
          r ← kcall (CreateDeviceClass class);
          match r with
          | Err e =>
              if kube_is_already_exists e then sync_wanted wanted rest
              else mret (Err (wrap ("create DeviceClass " +:+ name) e))
          | Ok _ => sync_wanted wanted rest
          end
      | Some current =>
          if sameDeviceClass current class then sync_wanted wanted rest
          else
            let? _ := kcall (UpdateDeviceClass (update_class current class))
              or wrap ("update DeviceClass " +:+ name) in
            sync_wanted wanted rest
      end
  end.

(** The loop over the classes nothing wants any more. *)
Fixpoint delete_stale (names : list string) : prog op_sig (result unit) :=
  match names with
  | [] => mret (Ok tt)
  | name :: names =>
      r ← kcall (DeleteDeviceClass name);
      match r with
      | Err e =>
          if kube_is_not_found e then delete_stale names
          else mret (Err (wrap ("delete stale DeviceClass " +:+ name) e))
      | Ok _ => delete_stale names
      end
  end.

Definition syncDeviceClasses (cfg : Config) (desired : gmap poolKey poolDefinition)
    : prog op_sig (result unit) :=
  let? existing := listManagedDeviceClasses or id in
  let? existing := sync_wanted
      (map_order "sync wanted classes" (map_to_list (wanted_classes cfg desired))) existing or id in
  delete_stale (map_order "stale classes" (map_to_list existing).*1).
End device_class.

(* -------------------------------------------------------------------- *)
(** ** Specification *)

Section spec.
Context `{UnicodeTables} `{LibErrors} `{MapOrder}.

Definition managed (c : device_class) : bool := selects managed_selector (dc_labels c).

(** What a synchronisation leaves under a name, given the class wanted under
    it and the one there: classes of somebody else are left alone. *)
Definition class_after (wanted current : option device_class) : option device_class :=
  match current with
  | None => wanted
  | Some x =>
      if managed x then
        match wanted with
        | None => None
        | Some c => Some (if sameDeviceClass x c then x else update_class x c)
        end
      else Some x
  end.

(** What the listing shows of it. *)
Definition managed_only (current : option device_class) : option device_class :=
  match current with Some x => if managed x then Some x else None | None => None end.

(** A class that needs no work: the wanted one is there, managed and the same;
    a managed one is wanted. *)
Definition class_settled (wanted current : option device_class) : Prop :=
  match wanted with
  | Some c => ∃ x, current = Some x ∧ managed x = true ∧ sameDeviceClass x c = true
  | None => ∀ x, current = Some x → managed x = false
  end.
End spec.

(** Inputs of the concrete runs. *)
Definition class_inventory : gmap poolKey poolDefinition :=
  list_to_map [(PoolKey "us-east" "h100", zero_definition); (PoolKey "eu-west" "h100", zero_definition);
               (PoolKey "us-east" "rtx 4090", zero_definition)].
Definition class_server : server :=
  Server ∅ (list_to_map
    [("thunder-gpu-h100",
       DeviceClass "thunder-gpu-h100" (list_to_map managed_selector) None [] "" "uid-1");
     ("thunder-gpu-a100",
       DeviceClass "thunder-gpu-a100" (list_to_map managed_selector) None [] "" "uid-2");
     ("thunder-gpu-rtx-4090", DeviceClass "thunder-gpu-rtx-4090" ∅ None [] "" "uid-3")])
    ∅ ∅ 0 (Snapshot [] (λ _, []) (λ _, []) (λ _, Err (ErrText ""))).

(* -------------------------------------------------------------------- *)
(** ** Lemmas *)

Section lemmas.
Context `{UnicodeTables} `{ServerErrors} `{MapOrder}.

Lemma classes_by_name_listed s n : well_named s →
  classes_by_name (listed_classes managed_selector s) !! n =
    managed_only (srv_classes s !! n).
Proof.
  intros Hw. apply option_eq. intros c. unfold classes_by_name.
  rewrite index_lookup by by apply NoDup_listed_classes.
  rewrite listed_classes_elem. destruct Hw as [_ Hn]. rewrite lookup_empty.
  split.
  - intros [[[Hm (n' & Hc)] <-]|[_ [=]]]. pose proof (Hn _ _ Hc) as Hd. cbn in Hd. subst n'.
    rewrite Hc. cbn [managed_only class_after]. unfold managed. by rewrite Hm.
  - destruct (srv_classes s !! n) as [c'|] eqn:Hc; [|done]. cbn [managed_only class_after].
    destruct (managed c') eqn:Hm; [|done]. intros [= <-]. left.
    split; [|by apply (Hn n)]. split; [done|]. by exists n.
Qed.

(** One wanted class, with what the listing found under its name. *)
Lemma sync_wanted_cons name class wanted existing s : well_named s → dc_name class = name →
  existing !! name = managed_only (srv_classes s !! name) →
  run server_handler (sync_wanted ((name, class) :: wanted) existing) s =
  run server_handler (sync_wanted wanted (delete name existing))
    (set_classes (partial_alter (class_after (Some class)) name) s).
Proof.
  intros Hw Hname Hex. cbn [sync_wanted]. rewrite Hex.
  assert (∀ f, f (srv_classes s) = srv_classes s → set_classes f s = s) as Hid.
  { intros f Hf. unfold set_classes. rewrite Hf. by destruct s. }
  destruct (srv_classes s !! name) as [x|] eqn:Hx; cbn [managed_only class_after].
  - destruct (managed x) eqn:Hm.
    + destruct (sameDeviceClass x class) eqn:Hsame.
      * rewrite Hid; [done|]. apply partial_alter_same. rewrite Hx. cbn [class_after]. by rewrite Hm, Hsame.
      * run_kcall. cbn [update_class dc_name].
        assert (dc_name x = name) as Hxn by by apply Hw in Hx.
        unfold update_in. rewrite Hxn, Hx. unfold on_classes. cbn [fst snd].
        unfold set_classes. rewrite (partial_alter_insert _ _ _ (update_class x class)); [done|].
        rewrite Hx. cbn [class_after]. by rewrite Hm, Hsame.
    + run_kcall. unfold create_in. rewrite Hname, Hx.
      unfold on_classes. cbn [fst snd]. rewrite already_exists_error_is.
      rewrite !Hid; [done| |done]. apply partial_alter_same. rewrite Hx.
      cbn [class_after]. by rewrite Hm.
  - run_kcall. unfold create_in. rewrite Hname, Hx.
    unfold on_classes, set_classes. cbn [fst snd].
    by rewrite (partial_alter_insert _ _ _ class) by by rewrite Hx.
Qed.

Lemma class_after_name n wanted current :
  (∀ c, wanted = Some c → dc_name c = n) →
  (∀ c, current = Some c → dc_name c = n) →
  ∀ c, class_after wanted current = Some c → dc_name c = n.
Proof.
  intros Hw Hc c. unfold class_after. destruct current as [x|]; [|by apply Hw].
  destruct (managed x); [|intros [= <-]; by apply Hc].
  destruct wanted as [c'|]; [|done].
  destruct (sameDeviceClass x c'); intros [= <-]; by apply (Hc x).
Qed.

Lemma set_classes_well_named s m : well_named s →
  map_Forall (λ n x, dc_name x = n) m → well_named (set_classes (λ _, m) s).
Proof. intros [? _] Hm. by split. Qed.

Lemma sync_wanted_run wanted existing s : well_named s →
  NoDup wanted.*1 → Forall (λ p, dc_name p.2 = p.1) wanted →
  (∀ n, n ∈ wanted.*1 →
    existing !! n = managed_only (srv_classes s !! n)) →
  ∃ m, run server_handler (sync_wanted wanted existing) s =
         (Ok (filter (λ p, p.1 ∉ wanted.*1) existing), set_classes (λ _, m) s) ∧
    ∀ n, m !! n = match (list_to_map wanted : gmap _ _) !! n with
                  | Some c => class_after (Some c) (srv_classes s !! n)
                  | None => srv_classes s !! n
                  end.
Proof.
  revert existing s. induction wanted as [|[name class] wanted IH];
    intros existing s Hw Hnd Hn Hex.
  { exists (srv_classes s). split; [|done]. cbn. rewrite map_filter_id by set_solver.
    by destruct s. }
  cbn in Hnd. apply NoDup_cons in Hnd as [Hni Hnd]. apply Forall_cons in Hn as [Hname Hn].
  cbn in Hname. rewrite sync_wanted_cons by (done || apply Hex; by left).
  edestruct (IH (delete name existing)
    (set_classes (partial_alter (class_after (Some class)) name) s)) as (m & Hrun & Hm); [|done|done|..].
  { apply (set_classes_well_named s); [done|]. intros n c.
    destruct (decide (n = name)) as [->|?].
    - rewrite lookup_partial_alter_eq. apply class_after_name; [by intros ? [= <-]|].
      intros c'. by apply Hw.
    - rewrite lookup_partial_alter_ne by done. by apply Hw. }
  { intros n Hin. cbn. assert (n ≠ name) by by intros ->.
    rewrite lookup_delete_ne, lookup_partial_alter_ne by done. apply Hex. by right. }
  exists m. rewrite Hrun. split.
  - f_equal. f_equal. apply map_eq. intros n. apply option_eq. intros c.
    rewrite !map_lookup_filter_Some, lookup_delete_Some. cbn. rewrite not_elem_of_cons. naive_solver.
  - intros n. rewrite Hm. cbn [list_to_map foldr srv_classes set_classes fst snd].
    destruct (decide (name = n)) as [<-|?].
    + rewrite lookup_insert_eq, lookup_partial_alter_eq.
      by rewrite (not_elem_of_list_to_map_1 wanted) by done.
    + by rewrite lookup_insert_ne, lookup_partial_alter_ne.
Qed.

Lemma delete_stale_run names s : well_named s →
  run server_handler (delete_stale names) s =
    (Ok tt, set_classes (filter (λ p, p.1 ∉ names)) s).
Proof.
  revert s. induction names as [|n names IH]; intros s Hw.
  { cbn. unfold set_classes. rewrite map_filter_id by set_solver. by destruct s. }
  cbn [delete_stale]. run_kcall. unfold delete_in, on_classes.
  assert (∀ m : gmap string device_class, m = delete n (srv_classes s) →
    run server_handler (delete_stale names) (set_classes (λ _, m) s) =
    (Ok tt, set_classes (filter (λ p, p.1 ∉ n :: names)) s)) as Hgo.
  { intros m ->. rewrite IH.
    - unfold set_classes. cbn. f_equal. f_equal. apply map_eq. intros k. apply option_eq. intros c.
      rewrite !map_lookup_filter_Some, lookup_delete_Some. cbn. rewrite not_elem_of_cons. naive_solver.
    - apply set_classes_well_named; [done|]. by apply map_Forall_delete, Hw. }
  destruct (srv_classes s !! n) as [c|] eqn:Hc; cbn [fst snd].
  - by rewrite Hgo.
  - rewrite not_found_error_is. apply Hgo. by rewrite delete_id.
Qed.

Lemma wanted_classes_names cfg desired :
  map_Forall (λ n c, dc_name c = n) (wanted_classes cfg desired).
Proof.
  unfold wanted_classes. case_bool_decide; [|apply map_Forall_empty].
  apply fold_left_invariant; [|apply map_Forall_empty].
  intros m k Hm. by apply map_Forall_insert_2.
Qed.

Lemma syncDeviceClasses_run cfg desired s : well_named s →
  ∃ m, run server_handler (syncDeviceClasses cfg desired) s = (Ok tt, set_classes (λ _, m) s) ∧
    ∀ n, m !! n = class_after (wanted_classes cfg desired !! n) (srv_classes s !! n).
Proof.
  intros Hw. unfold syncDeviceClasses, listManagedDeviceClasses, orfail.
  rewrite run_bind. run_kcall. cbn [run mret prog_ret]. rewrite run_bind.
  set (l := map_order _ _). assert (l ≡ₚ map_to_list (wanted_classes cfg desired)) as Hl
    by apply map_order_perm.
  assert (list_to_map l = wanted_classes cfg desired) as Hlm.
  { rewrite <-(list_to_map_to_list (wanted_classes cfg desired)).
    apply list_to_map_proper; [|done]. rewrite Hl. apply NoDup_fst_map_to_list. }
  assert (NoDup l.*1) as Hnd by (rewrite Hl; apply NoDup_fst_map_to_list).
  destruct (sync_wanted_run l (classes_by_name (listed_classes managed_selector s)) s)
    as (m & Hrun & Hm); [done|done|..].
  { apply Forall_forall. intros [n c]. rewrite Hl, elem_of_map_to_list. apply wanted_classes_names. }
  { intros n _. by apply classes_by_name_listed. }
  rewrite Hrun, delete_stale_run.
  - eexists. split; [reflexivity|]. intros n. cbn [srv_classes set_classes].
    apply option_eq. intros c.
    rewrite map_lookup_filter_Some, map_order_perm, Hm, Hlm, elem_of_keys. cbn [fst].
    rewrite map_lookup_filter, classes_by_name_listed by done.
    destruct (wanted_classes cfg desired !! n) as [w|] eqn:Hwn.
    + split; [by intros []|]. intros Hc. split; [done|]. intros Hs.
      destruct (managed_only _); [|by destruct Hs]. cbn in Hs.
      rewrite option_guard_False in Hs; [by destruct Hs|]. intros Hni. apply Hni.
      rewrite Hl, elem_of_keys. by exists w.
    + destruct (srv_classes s !! n) as [x|]; [|naive_solver].
      cbn [managed_only class_after]. destruct (managed x); [|naive_solver].
      split; [|done]. intros [_ Hni]. exfalso. apply Hni. cbn.
      rewrite option_guard_True; [done|]. rewrite Hl, elem_of_keys, Hwn. by intros [].
  - apply set_classes_well_named; [done|]. intros n c. rewrite Hm, Hlm.
    destruct (_ !! n) eqn:Hn; [|by apply Hw].
    apply class_after_name; [|by intros ?; apply Hw].
    intros ? [= <-]. by apply (wanted_classes_names cfg desired).
Qed.

Lemma wanted_classes_built cfg desired :
  map_Forall (λ _ c, ∃ g, c = buildDeviceClass cfg g) (wanted_classes cfg desired).
Proof.
  unfold wanted_classes. case_bool_decide; [|apply map_Forall_empty].
  apply fold_left_invariant; [|apply map_Forall_empty].
  intros m k Hm. apply map_Forall_insert_2; [by eexists|done].
Qed.

Lemma buildDeviceClass_managed cfg g : managed (buildDeviceClass cfg g) = true.
Proof. reflexivity. Qed.

Lemma sameDeviceClass_built cfg g x :
  dc_labels x = dc_labels (buildDeviceClass cfg g) →
  dc_extendedResourceName x = dc_extendedResourceName (buildDeviceClass cfg g) →
  dc_selectors x = dc_selectors (buildDeviceClass cfg g) →
  sameDeviceClass x (buildDeviceClass cfg g) = true.
Proof.
  intros Hl He Hs. unfold sameDeviceClass. rewrite He, Hs.
  rewrite !bool_decide_false by (intros Hne; by apply Hne).
  assert (forallb (λ p, same_selector p.1 p.2) (zip (dc_selectors (buildDeviceClass cfg g))
    (dc_selectors (buildDeviceClass cfg g))) = true) as ->.
  { cbn. by rewrite bool_decide_true. }
  cbn [negb]. rewrite Hl. apply forallb_forall. intros [k v] Hin%list_elem_of_In.
  rewrite map_order_perm, elem_of_map_to_list in Hin. cbn [fst snd].
  unfold label_value. rewrite Hin. by apply bool_decide_eq_true.
Qed.

(** One synchronisation settles every name nobody else's class is in the way of. *)
Lemma class_after_settled cfg desired n current :
  (∀ x, current = Some x → is_Some (wanted_classes cfg desired !! n) → managed x = true) →
  class_settled (wanted_classes cfg desired !! n)
    (class_after (wanted_classes cfg desired !! n) current).
Proof.
  intros Hm. destruct (wanted_classes cfg desired !! n) as [c|] eqn:Hc; cbn [class_settled].
  - destruct (wanted_classes_built cfg desired n c Hc) as [g ->].
    destruct current as [x|]; cbn [class_after].
    + rewrite (Hm x) by done. destruct (sameDeviceClass x _) eqn:Hs.
      * exists x. eauto.
      * eexists. split; [done|]. split; [reflexivity|]. by apply sameDeviceClass_built.
    + eexists. split; [done|]. split; [reflexivity|]. by apply sameDeviceClass_built.
  - intros x. destruct current as [y|]; [|done]. cbn [class_after].
    destruct (managed y) eqn:Hy; [done|]. by intros [= <-].
Qed.

Lemma sync_wanted_settled wanted existing : NoDup wanted.*1 →
  (∀ n c, (n, c) ∈ wanted → ∃ x, existing !! n = Some x ∧ sameDeviceClass x c = true) →
  sync_wanted wanted existing = mret (Ok (filter (λ p, p.1 ∉ wanted.*1) existing)).
Proof.
  revert existing. induction wanted as [|[n c] wanted IH]; intros existing Hnd Hw.
  { cbn. do 3 f_equal. symmetry. apply map_filter_id. set_solver. }
  cbn in Hnd. apply NoDup_cons in Hnd as [Hni Hnd]. cbn [sync_wanted].
  destruct (Hw n c) as (x & -> & ->); [by left|]. rewrite IH; [|done|].
  - do 2 f_equal. apply map_eq. intros k. apply option_eq. intros y.
    rewrite !map_lookup_filter_Some, lookup_delete_Some. cbn. rewrite not_elem_of_cons. naive_solver.
  - intros k d Hk. destruct (Hw k d) as (y & Hy & Hs); [by right|]. exists y.
    rewrite lookup_delete_ne; [done|]. intros ->. apply Hni.
    by apply (list_elem_of_fmap_2 fst) in Hk.
Qed.

Lemma syncDeviceClasses_settled cfg desired s : well_named s →
  (∀ n, class_settled (wanted_classes cfg desired !! n) (srv_classes s !! n)) →
  run server_handler (syncDeviceClasses cfg desired) s = (Ok tt, s) ∧
  Forall (λ x, is_write (evt_call x) = false) (trace server_handler (syncDeviceClasses cfg desired) s).
Proof.
  intros Hw Hset. unfold syncDeviceClasses, listManagedDeviceClasses, orfail.
  rewrite run_bind, trace_bind. run_kcall. rewrite trace_bind. cbn [run mret prog_ret kcall call].
  cbn [server_handler handler_sum kube_handler trace fst snd app].
  set (l := map_order _ (map_to_list (wanted_classes _ _))).
  assert (l ≡ₚ map_to_list (wanted_classes cfg desired)) as Hl by apply map_order_perm.
  assert (NoDup l.*1) as Hnd by (rewrite Hl; apply NoDup_fst_map_to_list).
  rewrite sync_wanted_settled; [|done|].
  - cbn [mret prog_ret mbind prog_bind prog_bind_def run trace fst snd app].
    assert (filter (λ p, p.1 ∉ l.*1) (classes_by_name (listed_classes managed_selector s)) = ∅) as ->.
    { apply map_empty. intros n. apply map_lookup_filter_None. right. intros c Hc Hni. apply Hni. cbn.
      rewrite Hl, elem_of_keys. rewrite classes_by_name_listed in Hc by done. specialize (Hset n).
      destruct (wanted_classes cfg desired !! n); [by eexists|]. cbn [class_settled] in Hset.
      destruct (srv_classes s !! n) as [x|]; [|done]. cbn [managed_only] in Hc.
      by rewrite (Hset x) in Hc by done. }
    rewrite map_to_list_empty.
    assert (map_order "stale classes" ([] : list (string * device_class)).*1 = []) as ->.
    { apply Permutation_nil. symmetry. apply map_order_perm. }
    cbn. split; [done|]. by repeat constructor.
  - intros n c Hin. rewrite Hl, elem_of_map_to_list in Hin. specialize (Hset n).
    rewrite Hin in Hset. destruct Hset as (x & Hx & Hm & Hs). exists x.
    rewrite classes_by_name_listed, Hx by done. cbn [managed_only]. by rewrite Hm.
Qed.
End lemmas.

Section theorems.
Context `{UnicodeTables} `{ServerErrors} `{MapOrder}.

(** Against an API server, synchronising the device classes succeeds and
    leaves under every name exactly the class wanted there: missing ones are
    created, differing ones updated in place, managed classes nothing wants
    deleted, and classes somebody else owns are left untouched. *)
Theorem syncDeviceClasses_converges cfg desired s : well_named s →
  ∃ m, run server_handler (syncDeviceClasses cfg desired) s = (Ok tt, set_classes (λ _, m) s) ∧
    ∀ n, m !! n = class_after (wanted_classes cfg desired !! n) (srv_classes s !! n).
Proof. apply syncDeviceClasses_run. Qed.
End theorems.

Section witnesses.
#[local] Existing Instances ascii_tables listed_order status_errors status_server_errors.

Lemma syncDeviceClasses_converges_witness :
  ∃ m, run server_handler (syncDeviceClasses sample_config class_inventory) class_server =
         (Ok tt, set_classes (λ _, m) class_server) ∧
    (dc_meta <$> m !! "thunder-gpu-h100") = Some "uid-1" ∧
    m !! "thunder-gpu-a100" = None ∧
    (dc_extendedResourceName <$> m !! "thunder-gpu-rtx-4090") = Some None.
Proof.
  destruct (syncDeviceClasses_converges sample_config class_inventory class_server)
    as (m & Hrun & Hm).
  - repeat split; try apply map_Forall_empty.
    repeat (apply map_Forall_insert_2; [reflexivity|]). apply map_Forall_empty.
  - exists m. rewrite !Hm. split; [exact Hrun|]. split_and!; vm_compute; reflexivity.
Defined.
End witnesses.
