(* ===== verification/Reaper.v ===== *)
(** * Operator: reaping orphaned clients

    internal/operator/clients.go: a ThunderClient whose ResourceClaim is gone
    is revoked and removed after a grace period, so that a node that died
    does not leak its enrollments. *)

From S2P Require Import Prelude GoStrings Float64 Labels ResourceSlice Inventory KubeAPI.

(** internal/thunderclient: the finalizer. *)
Definition Finalizer : string := "thundercompute.com/client-cleanup".

(** [t.Sub(u)] on clock readings in nanoseconds: it saturates. *)
Definition time_sub (t u : Z) : Z := min_int64 `max` (max_int64 `min` (t - u)).

Section reaper.
Context `{UnicodeTables} `{LibErrors} `{MapOrder}.

Definition withoutFinalizer (finalizers : list string) : list string :=
  filter (λ f, f ≠ Finalizer) finalizers.

Definition with_finalizers (c : thunder_client) (finalizers : list string) : thunder_client :=
  {| tc_namespace := tc_namespace c; tc_name := tc_name c; tc_finalizers := finalizers;
     tc_claimNamespace := tc_claimNamespace c; tc_claimName := tc_claimName c;
     tc_claimUID := tc_claimUID c; tc_enrollmentTokenID := tc_enrollmentTokenID c;
     tc_rest := tc_rest c |}.

Definition client_key (c : thunder_client) : string := tc_namespace c +:+ "/" +:+ tc_name c.

Definition claimIsAlive (item : thunder_client) : prog op_sig (result bool) :=
  let namespace := tc_claimNamespace item in
  let name := tc_claimName item in
  let uid := tc_claimUID item in
  if bool_decide (namespace = "") || bool_decide (name = "") then mret (Ok true)
  else
    r ← kcall (GetResourceClaim namespace name);
    match r with
    | Err e =>
        if kube_is_not_found e then mret (Ok false)
        else mret (Err (wrap ("get ResourceClaim " +:+ namespace +:+ "/" +:+ name) e))
    | Ok claim_uid =>
        if bool_decide (uid ≠ "") && bool_decide (claim_uid ≠ uid) then mret (Ok false)
        else mret (Ok true)
    end.

(** The steps of [reap], last one first. *)
Definition reap_delete (item : thunder_client) : prog op_sig (result unit) :=
  r ← kcall (DeleteThunderClient (tc_namespace item) (tc_name item));
  match r with
  | Err e =>
      if kube_is_not_found e then mret (Ok tt)
      else mret (Err (wrap ("delete " +:+ client_key item) e))
  | Ok _ => mret (Ok tt)
  end.

Definition reap_release (item : thunder_client) : prog op_sig (result unit) :=
  let kept := withoutFinalizer (tc_finalizers item) in
  if bool_decide (length kept ≠ length (tc_finalizers item)) then
    r ← kcall (UpdateThunderClient (with_finalizers item kept));
    match r with
    | Err e =>
        if kube_is_not_found e then reap_delete item
        else mret (Err (wrap ("release finalizer on " +:+ client_key item) e))
    | Ok _ => reap_delete item
    end
  else reap_delete item.

Definition reap (item : thunder_client) : prog op_sig (result unit) :=
  let tokenID := tc_enrollmentTokenID item in
  if bool_decide (tokenID ≠ "") then
    r ← tcall (UnenrollClient tokenID);
    match r with
    | Err e =>
        if isGone e then reap_release item
        else mret (Err (wrap ("revoke enrollment " +:+ tokenID +:+ " for " +:+ client_key item) e))
    | Ok _ => reap_release item
    end
  else reap_release item.

(** The loop over the listed clients. *)
Fixpoint reap_items (grace : Z) (items : list thunder_client) (orphans : gmap string Z)
    : prog op_sig (result unit * gmap string Z) :=
  match items with
  | [] => mret (Ok tt, orphans)
  | item :: items =>
      let key := client_key item in
      alive ← claimIsAlive item;
      match alive with
      | Err e => mret (Err e, orphans)
      | Ok true => reap_items grace items (delete key orphans)
      | Ok false =>
          match orphans !! key with
          | None => t ← kcall Now; reap_items grace items (<[key := t]> orphans)
          | Some firstSeen =>
              t ← kcall Now;
              if (time_sub t firstSeen <? grace)%Z then reap_items grace items orphans
              else
                r ← reap item;
                match r with
                | Err e => mret (Err e, orphans)
                | Ok _ => reap_items grace items (delete key orphans)
                end
          end
      end
  end.

(** [clients] says whether the operator was given a client interface. *)
Definition reapOrphanedClients (clients : bool) (grace : Z) (orphans : gmap string Z)
    : prog op_sig (result unit * gmap string Z) :=
  if negb clients then mret (Ok tt, orphans)
  else
    r ← kcall ListThunderClients;
    match r with
    | Err e =>
        if kube_is_not_found e then mret (Ok tt, orphans)
        else mret (Err (wrap "list ThunderClients" e), orphans)
    | Ok items =>
        '(r, orphans) ← reap_items grace items orphans;
        match r with
        | Err e => mret (Err e, orphans)
        | Ok _ =>
            mret (Ok tt, filter (λ p, p.1 ∈ (client_key <$> items)) orphans)
        end
    end.
End reaper.

(* -------------------------------------------------------------------- *)
(** ** Specification *)

Section spec.
Context `{LibErrors}.

(** What the history must show before a client may be touched. *)
Definition claim_gone (pre : list (event op_sig)) (item : thunder_client) : Prop :=
  tc_claimNamespace item ≠ "" ∧ tc_claimName item ≠ "" ∧
  ∃ r, Ev (S:=op_sig) (inr (GetResourceClaim (tc_claimNamespace item) (tc_claimName item))) r ∈ pre ∧
    match r with
    | Err e => kube_is_not_found e = true
    | Ok uid => tc_claimUID item ≠ "" ∧ uid ≠ tc_claimUID item
    end.

Definition listed_in (pre : list (event op_sig)) (item : thunder_client) : Prop :=
  ∃ items, Ev (S:=op_sig) (inr ListThunderClients) (Ok items) ∈ pre ∧ item ∈ items.

(** First seen without its claim at [t0]: in an earlier pass, or in this one. *)
Definition first_seen (orphans : gmap string Z) (pre : list (event op_sig)) (key : string) (t0 : Z)
    : Prop :=
  orphans !! key = Some t0 ∨ Ev (S:=op_sig) (inr Now) t0 ∈ pre.

Definition waited (grace : Z) (orphans : gmap string Z) (pre : list (event op_sig))
    (item : thunder_client) : Prop :=
  ∃ t0 t, first_seen orphans pre (client_key item) t0 ∧
    Ev (S:=op_sig) (inr Now) t ∈ pre ∧ (grace ≤ time_sub t t0)%Z.

Definition orphaned (grace : Z) (orphans : gmap string Z) (pre : list (event op_sig))
    (item : thunder_client) : Prop :=
  listed_in pre item ∧ claim_gone pre item ∧ waited grace orphans pre item.

Definition revoked (pre : list (event op_sig)) (item : thunder_client) : Prop :=
  tc_enrollmentTokenID item = "" ∨
  ∃ r, Ev (S:=op_sig) (inl (UnenrollClient (tc_enrollmentTokenID item))) r ∈ pre ∧
    match r with Ok _ => True | Err e => isGone e = true end.

(** Which writes the reaper may make, and after what. *)
Definition reaper_may (grace : Z) (orphans : gmap string Z) (pre : list (event op_sig))
    (e : ev op_sig) : Prop :=
  match e with
  | inl (UnenrollClient tokenID) =>
      tokenID ≠ "" ∧ ∃ item, orphaned grace orphans pre item ∧ tokenID = tc_enrollmentTokenID item
  | inr (UpdateThunderClient c) =>
      ∃ item, orphaned grace orphans pre item ∧ revoked pre item ∧
        c = with_finalizers item (withoutFinalizer (tc_finalizers item))
  | inr (DeleteThunderClient ns n) =>
      ∃ item, orphaned grace orphans pre item ∧ revoked pre item ∧
        ns = tc_namespace item ∧ n = tc_name item
  | e => is_write e = false
  end.
End spec.

(** What a pass does to each client of a server: whether its claim is alive,
    whether it is due, and since when it is remembered as an orphan. *)
Definition alive_on (s : server) (c : thunder_client) : bool :=
  bool_decide (tc_claimNamespace c = "") || bool_decide (tc_claimName c = "") ||
  match srv_claims s !! (tc_claimNamespace c, tc_claimName c) with
  | None => false
  | Some uid => negb (bool_decide (tc_claimUID c ≠ "") && bool_decide (uid ≠ tc_claimUID c))
  end.
Definition orphan_since (s : server) (grace : Z) (orphans : gmap string Z) (c : thunder_client)
    : option Z :=
  if alive_on s c then None
  else match orphans !! client_key c with
       | None => Some (srv_time s)
       | Some t0 => if (time_sub (srv_time s) t0 <? grace)%Z then Some t0 else None
       end.
Definition due (s : server) (grace : Z) (orphans : gmap string Z) (c : thunder_client) : bool :=
  negb (alive_on s c) && bool_decide (is_Some (orphans !! client_key c)) &&
  negb (bool_decide (is_Some (orphan_since s grace orphans c))).

(** The keys a pass over [items] removes. *)
Definition reaped_from (s : server) (grace : Z) (orphans : gmap string Z)
    (items : list thunder_client) (k : string * string) : bool :=
  existsb (λ c, bool_decide ((tc_namespace c, tc_name c) = k) && due s grace orphans c) items.

(** Inputs of the concrete runs. *)
Definition stale_client : thunder_client :=
  ThunderClient "default" "gone" [Finalizer; "other"] "default" "claim-1" "uid-1" "tok-1" "".
Definition live_client : thunder_client :=
  ThunderClient "default" "kept" [Finalizer] "default" "claim-2" "uid-2" "tok-2" "".
Definition reaper_server : server :=
  Server ∅ ∅ (list_to_map [(("default", "gone"), stale_client); (("default", "kept"), live_client)])
    (list_to_map [(("default", "claim-1"), "uid-9"); (("default", "claim-2"), "uid-2")]) 1000
    (Snapshot [] (λ _, []) (λ _, []) (λ _, Err (ErrText ""))).

(* -------------------------------------------------------------------- *)
(** ** Lemmas *)

Section lemmas.
Context `{UnicodeTables} `{LibErrors} `{MapOrder}.
Implicit Types (pre : list (event op_sig)) (item : thunder_client).

Lemma claim_gone_mono pre pre' item : pre ⊆ pre' → claim_gone pre item → claim_gone pre' item.
Proof. intros Hp (?&?&r&?&?). split_and!; [done..|]. exists r. auto. Qed.
Lemma listed_in_mono pre pre' item : pre ⊆ pre' → listed_in pre item → listed_in pre' item.
Proof. intros Hp (l&?&?). exists l. auto. Qed.
Lemma first_seen_mono orphans pre pre' key t0 : pre ⊆ pre' →
  first_seen orphans pre key t0 → first_seen orphans pre' key t0.
Proof. intros Hp [?|?]; [by left|right; auto]. Qed.
Lemma waited_mono grace orphans pre pre' item : pre ⊆ pre' →
  waited grace orphans pre item → waited grace orphans pre' item.
Proof. intros Hp (t0&t&?&?&?). exists t0, t. split_and!; eauto using first_seen_mono. Qed.
Lemma orphaned_mono grace orphans pre pre' item : pre ⊆ pre' →
  orphaned grace orphans pre item → orphaned grace orphans pre' item.
Proof.
  intros Hp (?&?&?). split_and!; eauto using listed_in_mono, claim_gone_mono, waited_mono.
Qed.
Lemma revoked_mono pre pre' item : pre ⊆ pre' → revoked pre item → revoked pre' item.
Proof. intros Hp [?|(r&?&?)]; [by left|right; exists r; auto]. Qed.

Lemma claimIsAlive_wp grace orphans pre item :
  wp (reaper_may grace orphans) pre (claimIsAlive item)
    (λ pre' r, r = Ok false → claim_gone pre' item).
Proof.
  unfold claimIsAlive. case_bool_decide; [done|]. case_bool_decide; [done|].
  cbn [orb]. wp_call; [done|]. intros r. unfold claim_gone. destruct r as [uid|e].
  - destruct (bool_decide _ && bool_decide _) eqn:Hb; [|done].
    apply andb_prop in Hb as [?%bool_decide_eq_true ?%bool_decide_eq_true].
    intros _. split_and!; [done..|]. eexists. split; [apply elem_of_last|done].
  - destruct (kube_is_not_found e) eqn:?; [|done]. intros _. split_and!; [done..|].
    eexists. split; [apply elem_of_last|done].
Qed.

Lemma reap_delete_wp grace orphans pre item :
  orphaned grace orphans pre item → revoked pre item →
  wp (reaper_may grace orphans) pre (reap_delete item) (λ _ _, True).
Proof.
  intros Ho Hr. unfold reap_delete. wp_call; [by exists item|].
  intros [?|e]; [done|]. by destruct (kube_is_not_found e).
Qed.

Lemma reap_release_wp grace orphans pre item :
  orphaned grace orphans pre item → revoked pre item →
  wp (reaper_may grace orphans) pre (reap_release item) (λ _ _, True).
Proof.
  intros Ho Hr. unfold reap_release. case_bool_decide; [|by apply reap_delete_wp].
  wp_call; [by exists item|]. intros r.
  assert (∀ x, pre ⊆ pre ++ x) as Hp by set_solver.
  destruct r as [?|e]; [|destruct (kube_is_not_found e); [|done]];
    apply reap_delete_wp; eauto using orphaned_mono, revoked_mono.
Qed.

Lemma reap_wp grace orphans pre item : orphaned grace orphans pre item →
  wp (reaper_may grace orphans) pre (reap item) (λ _ _, True).
Proof.
  intros Ho. unfold reap.
  destruct (decide (tc_enrollmentTokenID item = "")) as [Ht|Ht].
  { rewrite bool_decide_false by (intros ?; done). apply reap_release_wp; [done|by left]. }
  rewrite bool_decide_true by done.
  wp_call; [split; [done|by exists item]|]. intros r.
  assert (∀ x, pre ⊆ pre ++ x) as Hp by set_solver.
  assert (match r with Ok _ => True | Err e => isGone e = true end → revoked
    (pre ++ [Ev (S:=op_sig) (inl (UnenrollClient (tc_enrollmentTokenID item))) r]) item) as Hr.
  { intros ?. right. exists r. split; [apply elem_of_last|done]. }
  destruct r as [?|e]; [|destruct (isGone e) eqn:?; [|done]];
    apply reap_release_wp; eauto using orphaned_mono.
Qed.

(** The orphans the loop carries were first seen when it says. *)
Lemma reap_items_wp grace orphans items cur pre :
  (∀ item, item ∈ items → listed_in pre item) →
  (∀ key t0, cur !! key = Some t0 → first_seen orphans pre key t0) →
  wp (reaper_may grace orphans) pre (reap_items grace items cur) (λ _ _, True).
Proof.
  revert cur pre. induction items as [|item items IH]; intros cur pre Hl Hc; [done|].
  cbn [reap_items]. rewrite wp_bind.
  eapply wp_strengthen; [apply claimIsAlive_wp|]. intros pre1 alive Hp1 Hgone.
  assert (∀ x pre', pre1 ⊆ pre' → x ∈ items → listed_in pre' x) as Hl'.
  { intros x pre' Hp Hx. eapply listed_in_mono; [|apply Hl; by right]. set_solver. }
  assert (∀ key t0 pre', pre1 ⊆ pre' → cur !! key = Some t0 → first_seen orphans pre' key t0) as Hc'.
  { intros key t0 pre' Hp Hk. eapply first_seen_mono; [|by apply Hc]. set_solver. }
  destruct alive as [[]|]; [..|done].
  { apply IH; [by intros x; apply Hl'|]. intros key t0 [_ Hk]%lookup_delete_Some. by apply Hc'. }
  assert (∀ x, pre1 ⊆ pre1 ++ x) as Happ by set_solver.
  destruct (cur !! client_key item) as [t0|] eqn:Ht0.
  - wp_call; [done|]. intros t.
    destruct (Z.ltb_spec (time_sub t t0) grace); [apply IH; eauto|].
    rewrite wp_bind. eapply wp_strengthen; [apply reap_wp|].
    + split_and!.
      * eapply listed_in_mono, Hl; [set_solver|by left].
      * eapply claim_gone_mono; [|by apply Hgone]. set_solver.
      * exists t0, t. split_and!; [by apply Hc'|apply elem_of_last|done].
    + intros pre2 [u|e] Hp2 _; [|done]. apply IH.
      * intros x. apply Hl'. set_solver.
      * intros key t1 [_ Hk]%lookup_delete_Some. apply Hc'; [set_solver|done].
  - wp_call; [done|]. intros t. apply IH; [eauto|].
    intros key t1 [[<- <-]|[_ Hk]]%lookup_insert_Some; [right; apply elem_of_last|eauto].
Qed.

Lemma reapOrphanedClients_wp clients grace orphans :
  wp (reaper_may grace orphans) [] (reapOrphanedClients clients grace orphans) (λ _ _, True).
Proof.
  unfold reapOrphanedClients. destruct clients; [|done]. cbn [negb].
  wp_call; [done|]. intros [items|e]; [|by destruct (kube_is_not_found e)].
  rewrite wp_bind. eapply wp_strengthen; [apply reap_items_wp|].
  - intros item Hin. exists items. split; [by left|done].
  - intros key t0 Hk. by left.
  - intros pre' [[|] ?] _ _; done.
Qed.
End lemmas.

Section server_lemmas.
Context `{UnicodeTables} `{ServerErrors} `{MapOrder}.
Implicit Types (s : server) (item : thunder_client).

Lemma set_clients_id s f : f (srv_clients s) = srv_clients s → set_clients f s = s.
Proof. intros Hf. unfold set_clients. rewrite Hf. by destruct s. Qed.

Lemma claimIsAlive_run s item :
  run server_handler (claimIsAlive item) s = (Ok (alive_on s item), s).
Proof.
  unfold claimIsAlive, alive_on. case_bool_decide; [done|]. case_bool_decide; [done|]. cbn [orb].
  run_kcall. destruct (srv_claims s !! _) as [uid|].
  - by destruct (_ && _).
  - by rewrite not_found_error_is.
Qed.

Lemma reap_delete_run s item :
  run server_handler (reap_delete item) s =
    (Ok tt, set_clients (delete (tc_namespace item, tc_name item)) s).
Proof.
  unfold reap_delete. run_kcall. unfold delete_in, on_clients, set_clients.
  destruct (srv_clients s !! _) eqn:Hc; cbn [fst snd]; [done|].
  rewrite not_found_error_is. cbn. by rewrite delete_id.
Qed.

Lemma reap_run s item :
  run server_handler (reap item) s =
    (Ok tt, set_clients (delete (tc_namespace item, tc_name item)) s).
Proof.
  assert (run server_handler (reap_release item) s =
    (Ok tt, set_clients (delete (tc_namespace item, tc_name item)) s)) as Hrel.
  { unfold reap_release. case_bool_decide; [|apply reap_delete_run].
    run_kcall. unfold update_in, on_clients. cbn [tc_namespace tc_name with_finalizers].
    destruct (srv_clients s !! _) eqn:Hc; cbn [fst snd].
    - rewrite reap_delete_run. unfold set_clients. cbn. by rewrite delete_insert_eq.
    - rewrite not_found_error_is, set_clients_id by done. apply reap_delete_run. }
  unfold reap. case_bool_decide; [|done]. rewrite run_bind. cbn. by destruct s.
Qed.

Lemma reap_items_cons s grace item items orphans :
  run server_handler (reap_items grace (item :: items) orphans) s =
  run server_handler (reap_items grace items
      (partial_alter (λ _, orphan_since s grace orphans item) (client_key item) orphans))
    (set_clients (if due s grace orphans item then delete (tc_namespace item, tc_name item) else id) s).
Proof.
  cbn [reap_items]. rewrite run_bind, claimIsAlive_run. unfold due, orphan_since.
  destruct (alive_on s item).
  { rewrite (set_clients_id s) by done. by rewrite (partial_alter_delete _ _ orphans). }
  destruct (orphans !! client_key item) as [t0|] eqn:Ho; run_kcall.
  - rewrite (bool_decide_true (is_Some (Some t0))) by done.
    destruct (time_sub (srv_time s) t0 <? grace)%Z.
    + rewrite (set_clients_id s) by done. by rewrite partial_alter_same.
    + rewrite run_bind, reap_run. cbn [negb andb]. rewrite bool_decide_false by by intros [].
      by rewrite (partial_alter_delete _ _ orphans).
  - rewrite (set_clients_id s) by (rewrite bool_decide_false by (by intros []); done).
    by rewrite (partial_alter_insert _ _ orphans (srv_time s)).
Qed.

(** Removing one client changes nothing for the others. *)
Lemma orphan_since_other s f grace orphans item item' v :
  client_key item' ≠ client_key item →
  orphan_since (set_clients f s) grace (partial_alter v (client_key item) orphans) item' =
    orphan_since s grace orphans item' ∧
  due (set_clients f s) grace (partial_alter v (client_key item) orphans) item' =
    due s grace orphans item'.
Proof.
  intros Hk. unfold due, orphan_since, alive_on. cbn [srv_claims srv_time set_clients].
  by rewrite lookup_partial_alter_ne.
Qed.

Lemma reap_items_run s grace item_list orphans :
  NoDup (client_key <$> item_list) →
  ∃ m orphans', run server_handler (reap_items grace item_list orphans) s =
      ((Ok tt, orphans'), set_clients (λ _, m) s) ∧
    (∀ k, m !! k = if reaped_from s grace orphans item_list k then None else srv_clients s !! k) ∧
    (∀ key, key ∉ client_key <$> item_list → orphans' !! key = orphans !! key) ∧
    (∀ c, c ∈ item_list → orphans' !! client_key c = orphan_since s grace orphans c).
Proof.
  revert s orphans. induction item_list as [|item items IH]; intros s orphans Hnd.
  { exists (srv_clients s), orphans. split; [by rewrite set_clients_id|]. split_and!; [done..|set_solver]. }
  rewrite fmap_cons in Hnd. apply NoDup_cons in Hnd as [Hni Hnd].
  rewrite reap_items_cons. set (f := if due _ _ _ _ then _ else _).
  set (o := partial_alter _ _ _).
  destruct (IH (set_clients f s) o Hnd) as (m & o' & Hrun & Hm & Ho1 & Ho2).
  assert (∀ c, c ∈ items → orphan_since (set_clients f s) grace o c = orphan_since s grace orphans c ∧
    due (set_clients f s) grace o c = due s grace orphans c) as Heq.
  { intros c Hc. apply orphan_since_other. intros Hk. apply Hni. rewrite <-Hk.
    by apply list_elem_of_fmap_2. }
  exists m, o'. split; [by rewrite Hrun|]. split_and!.
  - intros k. rewrite Hm. cbn [reaped_from existsb].
    assert (reaped_from (set_clients f s) grace o items k = reaped_from s grace orphans items k) as ->.
    { unfold reaped_from. apply existsb_ext_in. intros c Hc.
      by rewrite (proj2 (Heq c Hc)). }
    unfold reaped_from. cbn [existsb]. destruct (existsb _ items); [by rewrite orb_true_r|].
    rewrite orb_false_r. subst f. cbn [srv_clients set_clients].
    destruct (due s grace orphans item); [|by rewrite andb_false_r].
    rewrite andb_true_r. case_bool_decide as Hk; [subst k; apply lookup_delete_eq|].
    by apply lookup_delete_ne.
  - intros key Hkey. rewrite fmap_cons, not_elem_of_cons in Hkey. destruct Hkey as [Hk Hkey].
    rewrite Ho1 by done. by apply lookup_partial_alter_ne.
  - intros c [->|Hc]%elem_of_cons; [|by rewrite Ho2, (proj1 (Heq c Hc))].
    rewrite Ho1 by done. subst o. by rewrite lookup_partial_alter_eq.
Qed.
End server_lemmas.

Section theorems.
Context `{UnicodeTables} `{LibErrors} `{MapOrder}.

(** C11: whatever Kubernetes and Thunder answer, every enrollment the reaper
    revokes and every client it releases or deletes is that of a listed
    client whose claim was looked up and found gone (or replaced) in this
    same pass, and at least the grace period after it was first seen without
    its claim; and a client is released and deleted only after its
    enrollment was revoked. *)
Theorem reaper_safety clients grace orphans tr r :
  exec (reapOrphanedClients clients grace orphans) tr r →
  ∀ tr1 e reply tr2, tr = tr1 ++ Ev e reply :: tr2 → reaper_may grace orphans tr1 e.
Proof.
  intros Hx. eapply (wp_sound _ [] _ (λ _ _, True)); [|exact Hx]. apply reapOrphanedClients_wp.
Qed.
End theorems.

Section server_theorems.
Context `{UnicodeTables} `{ServerErrors} `{MapOrder}.

(** Against an API server a pass succeeds, removes exactly the clients
    that are due, remembers since when each remaining one has been without
    its claim, and forgets those whose claim is back and those that no
    longer exist. *)
Theorem reaper_pass grace orphans s : clients_named s →
  NoDup (client_key <$> (map_to_list (srv_clients s)).*2) →
  ∃ m orphans',
    run server_handler (reapOrphanedClients true grace orphans) s =
      ((Ok tt, orphans'), set_clients (λ _, m) s) ∧
    (∀ k c, m !! k = Some c ↔ srv_clients s !! k = Some c ∧ due s grace orphans c = false) ∧
    (∀ k c, srv_clients s !! k = Some c →
      orphans' !! client_key c = orphan_since s grace orphans c) ∧
    (∀ key, (∀ k c, srv_clients s !! k = Some c → client_key c ≠ key) → orphans' !! key = None).
Proof.
  intros Hn Hnd. unfold reapOrphanedClients. cbn [negb]. run_kcall. rewrite run_bind.
  set (items := (map_to_list (srv_clients s)).*2) in *.
  assert (∀ c, c ∈ items ↔ srv_clients s !! (tc_namespace c, tc_name c) = Some c) as Hin.
  { intros c. subst items. rewrite list_elem_of_fmap. split.
    - intros ([k x] & -> & Hx%elem_of_map_to_list). cbn. by rewrite (Hn _ _ Hx).
    - intros Hc. exists ((tc_namespace c, tc_name c), c). by rewrite elem_of_map_to_list. }
  assert (∀ k c, srv_clients s !! k = Some c → k = (tc_namespace c, tc_name c)) as Hkey
    by (intros k c Hc; symmetry; by apply (Hn k)).
  destruct (reap_items_run s grace items orphans Hnd) as (m & o' & Hrun & Hm & _ & Ho).
  rewrite Hrun. eexists m, _. split; [reflexivity|]. split_and!.
  - intros k c. rewrite Hm. destruct (reaped_from s grace orphans items k) eqn:Hr.
    + apply existsb_exists in Hr as (c' & Hc'%list_elem_of_In & [Hk Hd]%andb_prop).
      apply bool_decide_eq_true in Hk. apply Hin in Hc'. rewrite Hk in Hc'.
      split; [done|]. intros [Hc Hd']. congruence.
    + split; [|by intros []]. intros Hc. split; [done|].
      destruct (due s grace orphans c) eqn:Hd; [|done].
      rewrite <-Hr. symmetry. apply existsb_exists. exists c.
      pose proof (Hkey _ _ Hc) as Hk. rewrite <-list_elem_of_In, Hin, <-Hk. split; [done|].
      by rewrite Hd, andb_true_r, bool_decide_true.
  - intros k c Hc. assert (c ∈ items) as Hci by (rewrite Hin; by rewrite <-(Hkey _ _ Hc)).
    rewrite <-Ho by done. apply option_eq. intros t. rewrite map_lookup_filter_Some. cbn.
    split; [by intros []|]. intros ?. split; [done|]. by apply list_elem_of_fmap_2.
  - intros key Hnone. apply map_lookup_filter_None. right. intros t _ Hk. cbn in Hk.
    apply list_elem_of_fmap in Hk as (c & -> & Hc%Hin). by eapply Hnone.
Qed.
End server_theorems.

Section witnesses.
#[local] Existing Instances ascii_tables listed_order status_errors status_server_errors.

Lemma reaper_safety_witness :
  ∃ tr r, exec (reapOrphanedClients true 500 {["default/gone" := 400%Z]}) tr r ∧
    (∃ tr1 reply tr2, tr = tr1 ++ Ev (S:=op_sig) (inl (UnenrollClient "tok-1")) reply :: tr2 ∧
       reaper_may 500 {["default/gone" := 400%Z]} tr1 (inl (UnenrollClient "tok-1"))).
Proof.
  set (p := reapOrphanedClients true 500 {["default/gone" := 400%Z]}).
  exists (trace server_handler p reaper_server), (run server_handler p reaper_server).1.
  split; [apply run_exec|]. do 3 eexists.
  assert (trace server_handler p reaper_server =
    take 3 (trace server_handler p reaper_server) ++
    Ev (S:=op_sig) (inl (UnenrollClient "tok-1")) (Ok tt) ::
    drop 4 (trace server_handler p reaper_server)) as Htr by (vm_compute; reflexivity).
  split; [exact Htr|].
  eapply (reaper_safety true 500 _ _ _ (run_exec server_handler p reaper_server) _ _ _ _ Htr).
Defined.

Lemma reaper_pass_witness :
  ∃ m orphans',
    run server_handler (reapOrphanedClients true 500 {["default/gone" := 400%Z]}) reaper_server =
      ((Ok tt, orphans'), set_clients (λ _, m) reaper_server) ∧
    m !! ("default", "gone") = None ∧ m !! ("default", "kept") = Some live_client.
Proof.
  destruct (reaper_pass 500 {["default/gone" := 400%Z]} reaper_server) as (m & o & Hrun & Hm & _).
  - unfold clients_named. cbn.
    repeat (apply map_Forall_insert_2; [reflexivity|]). apply map_Forall_empty.
  - vm_compute. repeat constructor; set_solver.
  - exists m, o. split; [exact Hrun|]. split.
    + apply eq_None_not_Some. intros [c Hc]. apply Hm in Hc as [Hc Hd].
      vm_compute in Hc. injection Hc as <-. vm_compute in Hd. discriminate.
    + apply Hm. split; vm_compute; reflexivity.
Defined.
End witnesses.
