(* ===== verification/Operator.v ===== *)
(** * Operator: synchronisation

    internal/operator/operator.go: one reconcile of the published
    ResourceSlices with Thunder's inventory, then of the device classes, then
    the reaping of orphaned clients.  The operator's own state is the cache of
    what it published and the orphans it waits on. *)

From S2P Require Import Prelude GoStrings Float64 Labels ResourceSlice Inventory KubeAPI.
From S2P Require Import DeviceClass Reaper.

Definition DefaultNamePrefix : string := "thunder".

Record publishedPool := PublishedPool { pub_Definition : poolDefinition; pub_Generation : Z }.

(** What an [Operator] keeps between reconciles. *)
Record operator_state := OperatorState {
  op_cache : gmap poolKey publishedPool;
  op_orphans : gmap string Z
}.

(** [reflect.DeepEqual] on pool definitions: the floats compare with [==]. *)
Definition definition_eqb (a b : poolDefinition) : bool :=
  bool_decide (Zone a = Zone b) && bool_decide (GPUType a = GPUType b) &&
  bool_decide (HostCapacity a = HostCapacity b) &&
  bool_decide (ClientCapacity a = ClientCapacity b) &&
  SFeqb (Oversubscription a) (Oversubscription b) &&
  bool_decide (Capacity a = Capacity b).

Definition samePublishedResourceSlice (current wanted : resource_slice) : bool :=
  bool_decide (rs_labels current = rs_labels wanted) &&
  bool_decide (rs_spec current = rs_spec wanted).

(** [existing.DeepCopy()] with the labels and the spec of [slice]. *)
Definition update_slice (existing slice : resource_slice) : resource_slice :=
  Slice (rs_name existing) (rs_labels slice) (rs_spec slice) (rs_meta existing).

Definition slice_selector : list (string * string) :=
  [("app.kubernetes.io/name", driverAppName);
   ("app.kubernetes.io/component", resourceInventoryComponent)].

Definition slice_name_le (x y : resource_slice) : Prop := String.le (rs_name x) (rs_name y).
#[global] Instance slice_name_le_dec x y : Decision (slice_name_le x y).
Proof. unfold slice_name_le. apply _. Defined.

Section operator.
Context `{UnicodeTables} `{FloatConversion} `{LibErrors} `{MapOrder}.

(** The generation of the first slice, which the callers know to exist. *)
Definition head_generation (current : list resource_slice) : Z :=
  match current with [] => 0%Z | s :: _ => spec_pool_generation (rs_spec s) end.

Definition currentDefinitionMatches (cfg : Config) (current : list resource_slice)
    (definition : poolDefinition) : bool :=
  match current with
  | [] => false
  | c0 :: _ =>
      let wanted := buildResourceSlices
        {| DriverName := spec_driver (rs_spec c0);
           NamePrefix := DefaultNamePrefix;
           ZoneLabelKey := ZoneLabelKey cfg;
           ReconcileInterval := 60000000000;
           DeviceClassPrefix := "";
           ExtendedResourcePrefix := "";
           OrphanGracePeriod := 0 |} definition (spec_pool_generation (rs_spec c0)) in
      bool_decide (length wanted = length current) &&
      forallb (λ p, bool_decide (rs_spec p.1 = rs_spec p.2)) (zip current wanted)
  end.

Definition nextGeneration (cfg : Config) (cache : gmap poolKey publishedPool) (key : poolKey)
    (definition : poolDefinition) (current : list resource_slice) : Z :=
  if negb (bool_decide (current = [])) && currentDefinitionMatches cfg current definition then
    let generation := head_generation current in
    if (0 <? generation)%Z then generation else 1
  else
    match cache !! key with
    | Some cached =>
        if definition_eqb (pub_Definition cached) definition then pub_Generation cached
        else int64 (pub_Generation cached + 1)
    | None =>
        if bool_decide (current = []) || (head_generation current <=? 0)%Z then 1
        else int64 (head_generation current + 1)
    end.

(** The listed slices by pool, each pool's sorted by name ([sort.Slice] is
    not stable; names are unique in a listing). *)
Definition group_slices (items : list resource_slice) : gmap poolKey (list resource_slice) :=
  fold_left (λ existing item,
    match resourceSliceKey item with
    | None => existing
    | Some key => <[key := default [] (existing !! key) ++ [item]]> existing
    end) items ∅.

Definition existing_of (items : list resource_slice) : gmap poolKey (list resource_slice) :=
  merge_sort slice_name_le <$> group_slices items.

(** The cache entries rebuilt from the published slices after a restart. *)
Definition seed_cache (existing : gmap poolKey (list resource_slice))
    (cache : gmap poolKey publishedPool) : gmap poolKey publishedPool :=
  fold_left (λ cache p,
    let '(key, slices) := p in
    match cache !! key with
    | Some _ => cache
    | None =>
        let definition := definitionFromResourceSlices slices in
        if (0 <? Capacity definition)%Z
        then <[key := PublishedPool definition (head_generation slices)]> cache
        else cache
    end) (map_order "seed cache" (map_to_list existing)) cache.

Definition listExistingResourceSlices (cfg : Config) (cache : gmap poolKey publishedPool)
    : prog op_sig (result (gmap poolKey (list resource_slice)) * gmap poolKey publishedPool) :=
  r ← kcall (ListResourceSlices slice_selector (DriverName cfg));
  match r with
  | Err e => mret (Err (wrap "list ResourceSlices" e), cache)
  | Ok items =>
      let existing := existing_of items in
      mret (Ok existing, seed_cache existing cache)
  end.

Definition deleteSlice (slice : resource_slice) : prog op_sig (result unit) :=
  r ← kcall (DeleteResourceSlice (rs_name slice));
  match r with
  | Err e =>
      if kube_is_not_found e then mret (Ok tt)
      else mret (Err (wrap ("delete ResourceSlice " +:+ rs_name slice) e))
  | Ok _ => mret (Ok tt)
  end.

(** Delete slices until one deletion fails. *)
Fixpoint delete_slices (slices : list resource_slice) : prog op_sig (result unit) :=
  match slices with
  | [] => mret (Ok tt)
  | slice :: slices => let? _ := deleteSlice slice or id in delete_slices slices
  end.

Definition by_name (current : list resource_slice) : gmap string resource_slice :=
  fold_left (λ m slice, <[rs_name slice := slice]> m) current ∅.

(** The loop over the wanted slices; it returns what is left of [byName]. *)
Fixpoint apply_wanted (wanted : list resource_slice) (byName : gmap string resource_slice)
    : prog op_sig (result (gmap string resource_slice)) :=
  match wanted with
  | [] => mret (Ok byName)
  | slice :: wanted =>
      let rest := delete (rs_name slice) byName in
      match byName !! rs_name slice with
      | None =>
          let? _ := kcall (CreateResourceSlice slice)
            or wrap ("create ResourceSlice " +:+ rs_name slice) in
          apply_wanted wanted rest
      | Some existing =>
          if samePublishedResourceSlice existing slice then apply_wanted wanted rest
          else
            let? _ := kcall (UpdateResourceSlice (update_slice existing slice))
              or wrap ("update ResourceSlice " +:+ rs_name slice) in
            apply_wanted wanted rest
      end
  end.

Definition applyPool (current wanted : list resource_slice) : prog op_sig (result unit) :=
  let? surplus := apply_wanted wanted (by_name current) or id in
  delete_slices (map_order "surplus slices" (map_to_list surplus)).*2.

Definition pool_text (key : poolKey) : string := key_Zone key +:+ "/" +:+ key_GPUType key.

(** The loop that deletes the pools nothing wants any more. *)
Fixpoint sync_stale (existing : list (poolKey * list resource_slice))
    (desired : gmap poolKey poolDefinition) (cache : gmap poolKey publishedPool)
    (errs : list error) : prog op_sig (gmap poolKey publishedPool * list error) :=
  match existing with
  | [] => mret (cache, errs)
  | (key, slices) :: existing =>
      if bool_decide (is_Some (desired !! key)) then sync_stale existing desired cache errs
      else
        r ← delete_slices slices;
        match r with
        | Err e =>
            sync_stale existing desired cache
              (errs ++ [wrap ("delete stale pool " +:+ pool_text key) e])
        | Ok _ => sync_stale existing desired (delete key cache) errs
        end
  end.

(** The loop that publishes the desired pools. *)
Fixpoint sync_pools (cfg : Config) (keys : list poolKey)
    (existing : gmap poolKey (list resource_slice)) (desired : gmap poolKey poolDefinition)
    (cache : gmap poolKey publishedPool) (errs : list error)
    : prog op_sig (gmap poolKey publishedPool * list error) :=
  match keys with
  | [] => mret (cache, errs)
  | key :: keys =>
      let definition := default zero_definition (desired !! key) in
      let current := default [] (existing !! key) in
      let generation := nextGeneration cfg cache key definition current in
      let wanted := buildResourceSlices cfg definition generation in
      r ← applyPool current wanted;
      match r with
      | Err e =>
          sync_pools cfg keys existing desired cache
            (errs ++ [wrap ("apply pool " +:+ pool_text key) e])
      | Ok _ =>
          sync_pools cfg keys existing desired
            (<[key := PublishedPool definition generation]> cache) errs
      end
  end.

Definition error_list {A} (r : result A) : list error :=
  match r with Ok _ => [] | Err e => [e] end.

Definition Sync (cfg : Config) (clients : bool) (o : operator_state)
    : prog op_sig (option error * operator_state) :=
  '(existing, cache) ← listExistingResourceSlices cfg (op_cache o);
  match existing with
  | Err e => mret (Some e, OperatorState cache (op_orphans o))
  | Ok existing =>
      desired ← lift_l buildDesiredPools;
      match desired with
      | Err e => mret (Some e, OperatorState cache (op_orphans o))
      | Ok desired =>
          '(cache, errs) ← sync_stale (map_order "stale pools" (map_to_list existing))
                             desired cache [];
          '(cache, errs) ← sync_pools cfg (sortedPoolKeys desired) existing desired cache errs;
          let cache := filter (λ p, is_Some (desired !! p.1)) cache in
          classes ← syncDeviceClasses cfg desired;
          '(reaped, orphans) ← reapOrphanedClients clients (OrphanGracePeriod cfg) (op_orphans o);
          mret (errors_join (errs ++ error_list classes ++ error_list reaped),
                OperatorState cache orphans)
      end
  end.
End operator.
