(* ===== verification/OperatorSpec.v ===== *)
(** * Operator: what a synchronisation achieves

    The specification of [Sync]: the steady state in which everything the
    inventory calls for is published and nothing else, that one
    synchronisation against an API server reaches it, that in it nothing is
    written, and that a failing pool does not keep the others from being
    published. *)

From S2P Require Import Prelude GoStrings Float64 Sha256 Labels ResourceSlice Inventory KubeAPI.
From S2P Require Import DeviceClass Reaper Operator.

Section spec.
Context `{UnicodeTables} `{FloatConversion} `{LibErrors} `{MapOrder}.

(** A slice the listing selects. *)
Definition ours (cfg : Config) (x : resource_slice) : Prop :=
  selects slice_selector (rs_labels x) = true ∧ spec_driver (rs_spec x) = DriverName cfg.

Definition names_of (l : list resource_slice) : list string := rs_name <$> l.

(** The names of the slices of a pool; they do not depend on the generation. *)
Definition wanted_names (cfg : Config) (d : poolDefinition) : list string :=
  names_of (buildResourceSlices cfg d 1).

(** A definition that is published under its own key and read back under it:
    the zone and the GPU type are DNS labels, the capacity fits the int64
    arithmetic, the target is a number. *)
Definition good_definition (key : poolKey) (d : poolDefinition) : Prop :=
  Zone d = key_Zone key ∧ GPUType d = key_GPUType key ∧
  is_dns_label (key_Zone key) ∧ is_dns_label (key_GPUType key) ∧
  publishable (Capacity d) ∧ SFeqb (Oversubscription d) (Oversubscription d) = true.

(** Different pools use different slice names, and nobody else's slice has
    one of them. *)
Definition names_apart (cfg : Config) (desired : gmap poolKey poolDefinition) : Prop :=
  ∀ k1 k2 d1 d2 n, desired !! k1 = Some d1 → desired !! k2 = Some d2 →
    n ∈ wanted_names cfg d1 → n ∈ wanted_names cfg d2 → k1 = k2.
Definition no_squatter (cfg : Config) (desired : gmap poolKey poolDefinition) (s : server) : Prop :=
  ∀ key d n x, desired !! key = Some d → n ∈ wanted_names cfg d → srv_slices s !! n = Some x →
    ours cfg x ∧ resourceSliceKey x = Some key.

Definition no_class_squatter (cfg : Config) (desired : gmap poolKey poolDefinition) (s : server)
    : Prop :=
  ∀ n x, srv_classes s !! n = Some x → is_Some (wanted_classes cfg desired !! n) → managed x = true.

(** The hypotheses of convergence. *)
Definition publishable_inventory (cfg : Config) (desired : gmap poolKey poolDefinition) (s : server)
    : Prop :=
  (∀ key d, desired !! key = Some d → good_definition key d) ∧
  names_apart cfg desired ∧ no_squatter cfg desired s ∧ no_class_squatter cfg desired s.

(** The calls that change a slice or a class. *)
Definition is_publish_write (e : ev op_sig) : bool :=
  match e with
  | inr (CreateResourceSlice _ | UpdateResourceSlice _ | DeleteResourceSlice _
        | CreateDeviceClass _ | UpdateDeviceClass _ | DeleteDeviceClass _) => true
  | _ => false
  end.

(** The reaper leaves slices, classes and inventory alone. *)
Definition same_published (s s' : server) : Prop :=
  srv_slices s' = srv_slices s ∧ srv_classes s' = srv_classes s ∧
  srv_inventory s' = srv_inventory s.

(** Generations count up from 1 and do not run out. *)
Definition good_generation (g : Z) : Prop := (0 < g < max_int64)%Z.
Definition good_generations (cfg : Config) (cache : gmap poolKey publishedPool) (s : server) : Prop :=
  (∀ key p, cache !! key = Some p → good_generation (pub_Generation p)) ∧
  (∀ n x, srv_slices s !! n = Some x → ours cfg x →
    good_generation (spec_pool_generation (rs_spec x))).

(** Everything wanted is published, with a positive generation the cache
    knows, and nothing else is. *)
Definition published (cfg : Config) (d : poolDefinition) (g : Z) (s : server) : Prop :=
  ∀ w, w ∈ buildResourceSlices cfg d g →
    ∃ x, srv_slices s !! rs_name w = Some x ∧ samePublishedResourceSlice x w = true.

Definition steady (cfg : Config) (desired : gmap poolKey poolDefinition)
    (cache : gmap poolKey publishedPool) (s : server) : Prop :=
  (∀ key d, desired !! key = Some d → ∃ g, (0 < g)%Z ∧
    cache !! key = Some (PublishedPool d g) ∧ published cfg d g s) ∧
  (∀ n x key, srv_slices s !! n = Some x → ours cfg x → resourceSliceKey x = Some key →
    ∃ d, desired !! key = Some d ∧ n ∈ wanted_names cfg d) ∧
  (∀ key, is_Some (cache !! key) → is_Some (desired !! key)) ∧
  (∀ n, class_settled (wanted_classes cfg desired !! n) (srv_classes s !! n)).

(** What applying a pool leaves under a name. *)
Definition slice_after (current : option resource_slice) (w : resource_slice) : resource_slice :=
  match current with
  | None => w
  | Some x => if samePublishedResourceSlice x w then x else update_slice x w
  end.
Definition find_name (n : string) (l : list resource_slice) : option resource_slice :=
  snd <$> list_find (λ x, rs_name x = n) l.
Definition pool_after (current wanted : list resource_slice) (n : string)
    (there : option resource_slice) : option resource_slice :=
  match find_name n wanted with
  | Some w => Some (slice_after there w)
  | None => if bool_decide (n ∈ names_of current) then None else there
  end.

(** The pool loop's view of one key. *)
Definition pool_current (existing : gmap poolKey (list resource_slice)) (key : poolKey)
    : list resource_slice := default [] (existing !! key).
Definition pool_definition (desired : gmap poolKey poolDefinition) (key : poolKey)
    : poolDefinition := default zero_definition (desired !! key).
Definition pool_generation (cfg : Config) (existing : gmap poolKey (list resource_slice))
    (desired : gmap poolKey poolDefinition) (cache : gmap poolKey publishedPool) (key : poolKey)
    : Z :=
  nextGeneration cfg cache key (pool_definition desired key) (pool_current existing key).
Definition pool_wanted (cfg : Config) (existing : gmap poolKey (list resource_slice))
    (desired : gmap poolKey poolDefinition) (cache : gmap poolKey publishedPool) (key : poolKey)
    : list resource_slice :=
  buildResourceSlices cfg (pool_definition desired key)
    (pool_generation cfg existing desired cache key).
Definition owned (cfg : Config) (existing : gmap poolKey (list resource_slice))
    (desired : gmap poolKey poolDefinition) (key : poolKey) (n : string) : Prop :=
  n ∈ names_of (pool_current existing key) ∨ n ∈ wanted_names cfg (pool_definition desired key).

(** The names of the slices of unwanted pools. *)
Definition stale_names (desired : gmap poolKey poolDefinition)
    (l : list (poolKey * list resource_slice)) : list string :=
  l ≫= λ p, if bool_decide (is_Some (desired !! p.1)) then [] else names_of p.2.

(** What the loop needs of a key, and of a server. *)
Definition pool_ready (cfg : Config) (existing : gmap poolKey (list resource_slice))
    (desired : gmap poolKey poolDefinition) (key : poolKey) (m : gmap string resource_slice) : Prop :=
  publishable (Capacity (pool_definition desired key)) ∧
  NoDup (names_of (pool_current existing key)) ∧
  (∀ x, x ∈ pool_current existing key → m !! rs_name x = Some x) ∧
  (∀ n, n ∈ wanted_names cfg (pool_definition desired key) →
    n ∉ names_of (pool_current existing key) → m !! n = None).
End spec.

(** Inputs of the concrete runs. *)
Definition sample_inventory : snapshot :=
  Snapshot [ThunderZone "z1" "us-east-1"] (λ _, [ThunderServer "A6000" 130 "active"]) (λ _, [])
    (λ _, Err (ErrText "no targets")).
Definition sample_server : server := Server ∅ ∅ ∅ ∅ 0 sample_inventory.
Definition two_keys : list poolKey := [PoolKey "us-east" "a6000"; PoolKey "us-west" "h100"].
Definition two_pools : gmap poolKey poolDefinition :=
  list_to_map [(PoolKey "us-east" "a6000", PoolDefinition "us-east" "a6000" 1 0 f64_one 1);
               (PoolKey "us-west" "h100", PoolDefinition "us-west" "h100" 2 0 f64_one 2)].
Definition first_create_fails : handler op_sig bool :=
  λ e first, match e return resp op_sig e * bool with
  | inl ListZones | inl (ListServers _) | inl (ListClients _) => (Ok [], first)
  | inl (ListZoneOversubscriptionTargets _) => (Err (ErrText ""), first)
  | inr (CreateResourceSlice _) => (if first then Err (ErrText "refused") else Ok tt, false)
  | inr (ListResourceSlices _ _) | inr (ListDeviceClasses _) | inr ListThunderClients => (Ok [], first)
  | inr (GetResourceClaim _ _) => (Ok "", first)
  | inr Now => (0%Z, first)
  | _ => (Ok tt, first)
  end.
Definition wider_definition : poolDefinition := PoolDefinition "us-east-1" "a6000" 151 20 f64_one 151.
Definition large_definition : poolDefinition := PoolDefinition "us-east-1" "a6000" 1290 0 f64_one 1290.
Definition unlabelled_server : server :=
  Server ∅ ∅ ∅ ∅ 0 (Snapshot [ThunderZone "z1" "US-East"] (λ _, [ThunderServer "A6000" 2 ""]) (λ _, [])
    (λ _, Err (ErrText "no targets"))).
Definition sample_operator : operator_state := OperatorState ∅ ∅.
Definition sample_desired : gmap poolKey poolDefinition :=
  {[PoolKey "us-east-1" "a6000" := PoolDefinition "us-east-1" "a6000" 130 0 f64_one 130]}.

(* -------------------------------------------------------------------- *)
(** ** Lemmas *)

Section lemmas.
Context `{UnicodeTables} `{FloatConversion} `{ServerErrors} `{MapOrder}.

Lemma set_slices_id s f : f (srv_slices s) = srv_slices s → set_slices f s = s.
Proof. intros Hf. unfold set_slices. rewrite Hf. by destruct s. Qed.

Lemma set_slices_well_named s m : well_named s →
  map_Forall (λ n x, rs_name x = n) m → well_named (set_slices (λ _, m) s).
Proof. intros [_ ?] Hm. by split. Qed.

Lemma find_name_elem n l x : find_name n l = Some x → x ∈ l ∧ rs_name x = n.
Proof.
  unfold find_name. destruct (list_find _ l) as [[i y]|] eqn:Hf; [|done]. intros [= ->].
  apply list_find_Some in Hf as (Hy & Hn & _). split; [by eapply list_elem_of_lookup_2|done].
Qed.

Lemma find_name_Some n l x : NoDup (names_of l) → find_name n l = Some x ↔ x ∈ l ∧ rs_name x = n.
Proof.
  intros Hl. split; [apply find_name_elem|]. intros [Hx <-].
  destruct (find_name (rs_name x) l) as [y|] eqn:Hf.
  - apply find_name_elem in Hf as [Hy Hn]. f_equal. by eapply NoDup_fmap_inj.
  - exfalso. unfold find_name in Hf. destruct (list_find _ l) as [[]|] eqn:Hf'; [done|].
    apply list_find_None in Hf'. rewrite Forall_forall in Hf'. by apply Hf' in Hx.
Qed.

Lemma find_name_None n l : find_name n l = None ↔ n ∉ names_of l.
Proof.
  unfold find_name. destruct (list_find _ l) as [[i y]|] eqn:Hf.
  - apply list_find_Some in Hf as (Hy & <- & _). split; [done|]. intros []. apply list_elem_of_fmap_2.
    by eapply list_elem_of_lookup_2.
  - apply list_find_None in Hf. rewrite Forall_forall in Hf. split; [|done]. intros _.
    intros (x & -> & Hx)%list_elem_of_fmap. by apply Hf in Hx.
Qed.

Lemma deleteSlice_run s x :
  run server_handler (deleteSlice x) s = (Ok tt, set_slices (delete (rs_name x)) s).
Proof.
  unfold deleteSlice. run_kcall. unfold delete_in, on_slices.
  destruct (srv_slices s !! rs_name x) eqn:Hx; cbn [fst snd]; [done|].
  rewrite not_found_error_is. cbn. unfold set_slices. by rewrite delete_id.
Qed.

Lemma delete_slices_run l s :
  run server_handler (delete_slices l) s =
    (Ok tt, set_slices (filter (λ p, p.1 ∉ names_of l)) s).
Proof.
  revert s. induction l as [|x l IH]; intros s.
  { cbn. rewrite set_slices_id; [done|]. apply map_filter_id. intros i x _. apply not_elem_of_nil. }
  cbn [delete_slices]. unfold orfail. rewrite run_bind, deleteSlice_run, IH.
  f_equal. unfold set_slices. cbn. f_equal. apply map_eq. intros n. apply option_eq. intros y.
  rewrite !map_lookup_filter_Some, lookup_delete_Some. cbn. rewrite not_elem_of_cons. naive_solver.
Qed.

Lemma by_name_lookup l n : NoDup (names_of l) → by_name l !! n = find_name n l.
Proof.
  intros Hl. apply option_eq. intros x. unfold by_name.
  rewrite index_lookup, find_name_Some, lookup_empty by done. naive_solver.
Qed.

(** One wanted slice. *)
Lemma apply_wanted_cons w wanted byName s : well_named s →
  byName !! rs_name w = srv_slices s !! rs_name w →
  run server_handler (apply_wanted (w :: wanted) byName) s =
  run server_handler (apply_wanted wanted (delete (rs_name w) byName))
    (set_slices (λ m, <[rs_name w := slice_after (m !! rs_name w) w]> m) s).
Proof.
  intros Hw Hby. cbn [apply_wanted]. rewrite Hby.
  destruct (srv_slices s !! rs_name w) as [x|] eqn:Hx.
  - assert (rs_name x = rs_name w) as Hn by by apply Hw in Hx.
    destruct (samePublishedResourceSlice x w) eqn:Hsame.
    + rewrite set_slices_id; [done|]. rewrite Hx. cbn. rewrite Hsame. by apply insert_id.
    + run_kcall. unfold update_in, on_slices. cbn [rs_name update_slice]. rewrite Hn, Hx.
      cbn [fst snd]. unfold set_slices at 2. rewrite Hx. cbn [slice_after]. by rewrite Hsame.
  - run_kcall. unfold create_in, on_slices. rewrite Hx. cbn [fst snd].
    unfold set_slices at 2. rewrite Hx. done.
Qed.

Lemma slice_after_name x w n :
  rs_name w = n → (∀ y, x = Some y → rs_name y = n) → rs_name (slice_after x w) = n.
Proof.
  intros Hw Hx. destruct x as [y|]; [|done]. cbn.
  destruct (samePublishedResourceSlice y w); by apply (Hx y).
Qed.

Lemma apply_wanted_run wanted byName s : well_named s → NoDup (names_of wanted) →
  (∀ n, n ∈ names_of wanted → byName !! n = srv_slices s !! n) →
  ∃ m, run server_handler (apply_wanted wanted byName) s =
      (Ok (filter (λ p, p.1 ∉ names_of wanted) byName), set_slices (λ _, m) s) ∧
    map_Forall (λ n x, rs_name x = n) m ∧
    ∀ n, m !! n = match find_name n wanted with
                  | Some w => Some (slice_after (srv_slices s !! n) w)
                  | None => srv_slices s !! n
                  end.
Proof.
  revert byName s. induction wanted as [|w wanted IH]; intros byName s Hw Hnd Hby.
  { exists (srv_slices s). split_and!; [|apply Hw|done]. cbn.
    rewrite map_filter_id by set_solver. by rewrite set_slices_id. }
  unfold names_of in Hnd. rewrite fmap_cons in Hnd. apply NoDup_cons in Hnd as [Hni Hnd].
  rewrite apply_wanted_cons by (done || apply Hby; by left).
  edestruct (IH (delete (rs_name w) byName)
    (set_slices (λ m, <[rs_name w := slice_after (m !! rs_name w) w]> m) s))
    as (m & Hrun & Hm1 & Hm); [|done|..].
  { apply (set_slices_well_named s); [done|]. apply map_Forall_insert_2; [|apply Hw].
    apply slice_after_name; [done|]. intros y. by apply Hw. }
  { intros n Hn. assert (n ≠ rs_name w) by by intros ->. cbn.
    rewrite lookup_delete_ne, lookup_insert_ne by done. apply Hby. by right. }
  exists m. rewrite Hrun. split_and!; [|done|].
  - f_equal. f_equal. apply map_eq. intros n. apply option_eq. intros x.
    rewrite !map_lookup_filter_Some, lookup_delete_Some. cbn. rewrite not_elem_of_cons. naive_solver.
  - intros n. rewrite Hm. unfold find_name. cbn [list_find srv_slices set_slices].
    destruct (decide (rs_name w = n)) as [<-|Hne].
    + change (find_name (rs_name w) wanted) with (find_name (rs_name w) wanted).
      rewrite lookup_insert_eq. cbn [fmap option_fmap option_map snd].
      pose proof (proj2 (find_name_None (rs_name w) wanted) Hni) as Hf. unfold find_name in Hf.
      by rewrite Hf.
    + rewrite lookup_insert_ne by done. by destruct (list_find _ wanted) as [[]|].
Qed.

(** Applying a pool: its wanted slices are there, its other slices are gone,
    and nothing else changes. *)
Lemma applyPool_run current wanted s : well_named s →
  NoDup (names_of current) → NoDup (names_of wanted) →
  (∀ x, x ∈ current → srv_slices s !! rs_name x = Some x) →
  (∀ n, n ∈ names_of wanted → n ∉ names_of current → srv_slices s !! n = None) →
  ∃ m, run server_handler (applyPool current wanted) s = (Ok tt, set_slices (λ _, m) s) ∧
    map_Forall (λ n x, rs_name x = n) m ∧
    ∀ n, m !! n = pool_after current wanted n (srv_slices s !! n).
Proof.
  intros Hw Hndc Hndw Hcur Hfree. unfold applyPool, orfail. rewrite run_bind.
  destruct (apply_wanted_run wanted (by_name current) s) as (m & Hrun & Hm1 & Hm); [done..| |].
  { intros n Hn. rewrite by_name_lookup by done. destruct (find_name n current) as [x|] eqn:Hf.
    - apply find_name_elem in Hf as [Hx <-]. symmetry. by apply Hcur.
    - symmetry. apply Hfree; [done|]. by apply find_name_None. }
  rewrite Hrun, delete_slices_run. eexists. split; [reflexivity|].
  set (surplus := names_of _). assert (∀ n, n ∈ surplus ↔ n ∈ names_of current ∧ n ∉ names_of wanted) as Hs.
  { intros n. subst surplus. unfold names_of at 1. rewrite map_order_perm.
    split.
    - intros (x & -> & ([k y] & -> & Hy%elem_of_map_to_list)%list_elem_of_fmap)%list_elem_of_fmap. cbn.
      apply map_lookup_filter_Some in Hy as [Hy Hn]. cbn in Hn.
      rewrite by_name_lookup in Hy by done. apply find_name_elem in Hy as [Hy <-].
      split; [by apply list_elem_of_fmap_2|done].
    - intros [(x & -> & Hx)%list_elem_of_fmap Hn]. apply list_elem_of_fmap. exists x. split; [done|].
      apply list_elem_of_fmap. exists (rs_name x, x). split; [done|]. apply elem_of_map_to_list.
      apply map_lookup_filter_Some. split; [|done]. rewrite by_name_lookup by done.
      by apply find_name_Some. }
  split.
  - intros n x [Hx _]%map_lookup_filter_Some. by apply Hm1.
  - intros n. cbn [srv_slices set_slices]. apply option_eq. intros x.
    rewrite map_lookup_filter_Some, Hm, Hs. cbn [fst]. unfold pool_after.
    destruct (find_name n wanted) as [w|] eqn:Hf.
    + apply find_name_elem in Hf as [Hin <-]. pose proof (list_elem_of_fmap_2 rs_name _ _ Hin).
      unfold names_of. naive_solver.
    + apply find_name_None in Hf. case_bool_decide; naive_solver.
Qed.

Lemma names_of_wanted cfg d g : names_of (buildResourceSlices cfg d g) = wanted_names cfg d.
Proof.
  unfold wanted_names, names_of, buildResourceSlices. destruct (_ <=? 0)%Z; [done|].
  by rewrite <-!list_fmap_compose.
Qed.

Lemma NoDup_wanted_names cfg d : publishable (Capacity d) → NoDup (wanted_names cfg d).
Proof. apply buildResourceSlices_names. Qed.

Lemma nextGeneration_local cfg c1 c2 key d current : c1 !! key = c2 !! key →
  nextGeneration cfg c1 key d current = nextGeneration cfg c2 key d current.
Proof. intros Hc. unfold nextGeneration. by rewrite Hc. Qed.

Lemma pool_ready_other cfg existing desired key m m' :
  (∀ n, owned cfg existing desired key n → m' !! n = m !! n) →
  pool_ready cfg existing desired key m → pool_ready cfg existing desired key m'.
Proof.
  intros Hm (Hp & Hn & Hc & Hf). split_and!; [done..| |].
  - intros x Hx. rewrite Hm; [by apply Hc|]. left. by apply list_elem_of_fmap_2.
  - intros n Hw Hni. rewrite Hm; [by apply Hf|]. by right.
Qed.

Lemma sync_pools_run cfg existing desired keys cache errs s : well_named s → NoDup keys →
  (∀ key, key ∈ keys → pool_ready cfg existing desired key (srv_slices s)) →
  (∀ k1 k2 n, k1 ∈ keys → k2 ∈ keys →
    owned cfg existing desired k1 n → owned cfg existing desired k2 n → k1 = k2) →
  ∃ m cache', run server_handler (sync_pools cfg keys existing desired cache errs) s =
      ((cache', errs), set_slices (λ _, m) s) ∧
    map_Forall (λ n x, rs_name x = n) m ∧
    (∀ key n, key ∈ keys → owned cfg existing desired key n →
      m !! n = pool_after (pool_current existing key)
                 (pool_wanted cfg existing desired cache key) n (srv_slices s !! n)) ∧
    (∀ n, (∀ key, key ∈ keys → ¬ owned cfg existing desired key n) → m !! n = srv_slices s !! n) ∧
    (∀ key, key ∈ keys → cache' !! key =
      Some (PublishedPool (pool_definition desired key)
              (pool_generation cfg existing desired cache key))) ∧
    (∀ key, key ∉ keys → cache' !! key = cache !! key).
Proof.
  revert cache s. induction keys as [|key keys IH]; intros cache s Hw Hnd Hready Hapart.
  { exists (srv_slices s), cache. cbn. rewrite set_slices_id by done.
    split_and!; [done|apply Hw|set_solver..|done]. }
  apply NoDup_cons in Hnd as [Hni Hnd]. cbn [sync_pools].
  destruct (Hready key) as (Hpub & Hndc & Hcur & Hfree); [by left|].
  destruct (applyPool_run (pool_current existing key) (pool_wanted cfg existing desired cache key) s)
    as (m1 & Hrun1 & Hn1 & Hm1); [done|done|..].
  { unfold pool_wanted. rewrite names_of_wanted. by apply NoDup_wanted_names. }
  { done. }
  { unfold pool_wanted. by rewrite names_of_wanted. }
  assert (∀ n, ¬ owned cfg existing desired key n → m1 !! n = srv_slices s !! n) as Hout.
  { intros n Hno. rewrite Hm1. unfold pool_after. unfold owned in Hno.
    rewrite (proj2 (find_name_None _ _)), bool_decide_false; [done|naive_solver|].
    unfold pool_wanted. rewrite names_of_wanted. naive_solver. }
  rewrite run_bind. fold (pool_definition desired key) (pool_current existing key).
  fold (pool_generation cfg existing desired cache key). fold (pool_wanted cfg existing desired cache key).
  rewrite Hrun1.
  set (cache1 := <[key := _]> cache).
  destruct (IH cache1 (set_slices (λ _, m1) s)) as (m & cache' & Hrun & Hn & Hin & Ho & Hc1 & Hc2).
  { by apply set_slices_well_named. }
  { done. }
  { intros k Hk. eapply pool_ready_other; [|apply Hready; by right].
    intros n Hown. apply Hout. intros Hown'. assert (k = key) as -> by (apply (Hapart k key n); set_solver).
    done. }
  { intros k1 k2 n ??. apply Hapart; by right. }
  exists m, cache'. split; [done|]. split; [done|].
  assert (∀ k, k ∈ keys → cache1 !! k = cache !! k) as Hcache.
  { intros k Hk. subst cache1. apply lookup_insert_ne. by intros ->. }
  assert (∀ k, k ∈ keys → pool_generation cfg existing desired cache1 k =
    pool_generation cfg existing desired cache k) as Hgen.
  { intros k Hk. apply nextGeneration_local. by apply Hcache. }
  split_and!.
  - intros k n [->|Hk]%elem_of_cons Hown.
    + rewrite Ho; [apply Hm1|]. intros k' Hk' Hown'.
      assert (k' = key) as -> by (apply (Hapart k' key n); set_solver). done.
    + rewrite (Hin k n) by done. unfold pool_wanted. rewrite Hgen by done. f_equal. cbn.
      apply Hout. intros Hown'. assert (k = key) as -> by (apply (Hapart k key n); set_solver). done.
  - intros n Hno. rewrite Ho; [apply Hout, Hno; by left|]. intros k Hk. apply Hno. by right.
  - intros k [->|Hk]%elem_of_cons; [|by rewrite Hc1, Hgen].
    rewrite Hc2 by done. subst cache1. apply lookup_insert_eq.
  - intros k [Hne Hk]%not_elem_of_cons. rewrite Hc2 by done. by apply lookup_insert_ne.
Qed.

(** The listing, grouped. *)
Lemma group_slices_lookup items key :
  group_slices items !! key =
    let l := filter (λ x, resourceSliceKey x = Some key) items in
    if bool_decide (l = []) then None else Some l.
Proof.
  unfold group_slices. assert (∀ items (m : gmap poolKey (list resource_slice)),
    (fold_left (λ existing item,
      match resourceSliceKey item with
      | None => existing
      | Some key => <[key := default [] (existing !! key) ++ [item]]> existing
      end) items m) !! key =
    let l := filter (λ x, resourceSliceKey x = Some key) items in
    if bool_decide (l = []) then m !! key else Some (default [] (m !! key) ++ l)) as Hgo.
  { clear items. induction items as [|x items IH]; intros m; [done|]. cbn [fold_left].
    rewrite IH, filter_cons. destruct (resourceSliceKey x) as [k|] eqn:Hk.
    - destruct (decide (Some k = Some key)) as [[= ->]|Hne].
      + rewrite lookup_insert_eq. cbn [from_option default]. rewrite (bool_decide_false (_ :: _ = [])) by done.
        case_bool_decide as Hf; [by rewrite Hf|]. f_equal. unfold id. by rewrite <-app_assoc.
      + rewrite lookup_insert_ne by congruence. done.
    - by rewrite decide_False by done. }
  rewrite Hgo, lookup_empty. done.
Qed.

Lemma pool_current_existing items key :
  pool_current (existing_of items) key ≡ₚ filter (λ x, resourceSliceKey x = Some key) items.
Proof.
  unfold pool_current, existing_of. rewrite lookup_fmap, group_slices_lookup. cbv zeta.
  case_bool_decide as Hl; cbn [fmap option_fmap option_map default from_option]; [by rewrite Hl|].
  apply merge_sort_Permutation.
Qed.

Lemma existing_keys items key slices : existing_of items !! key = Some slices →
  slices = pool_current (existing_of items) key ∧ slices ≠ [].
Proof.
  intros Hk. unfold pool_current. rewrite Hk. split; [done|]. intros ->.
  unfold existing_of in Hk. rewrite lookup_fmap, group_slices_lookup in Hk. cbv zeta in Hk.
  case_bool_decide as Hl; [done|]. cbn in Hk. injection Hk as Hk. apply Hl.
  apply Permutation_nil. rewrite <-Hk. apply merge_sort_Permutation.
Qed.

Lemma pool_current_listed cfg s key x :
  x ∈ pool_current (existing_of (listed_slices slice_selector (DriverName cfg) s)) key ↔
  (∃ n, srv_slices s !! n = Some x) ∧ ours cfg x ∧ resourceSliceKey x = Some key.
Proof. rewrite pool_current_existing, list_elem_of_filter, listed_slices_elem. unfold ours. naive_solver. Qed.

Lemma NoDup_pool_current cfg s key : well_named s →
  NoDup (names_of (pool_current (existing_of (listed_slices slice_selector (DriverName cfg) s)) key)).
Proof.
  intros Hw. unfold names_of. rewrite pool_current_existing. by apply NoDup_fmap_filter, NoDup_listed_slices.
Qed.

Lemma stale_names_cons desired key slices l :
  stale_names desired ((key, slices) :: l) =
    (if bool_decide (is_Some (desired !! key)) then [] else names_of slices) ++ stale_names desired l.
Proof. unfold stale_names. by rewrite bind_cons. Qed.

(** The pools nothing wants any more. *)
Lemma sync_stale_run l desired cache errs s :
  ∃ cache', run server_handler (sync_stale l desired cache errs) s =
    ((cache', errs), set_slices (filter (λ p, p.1 ∉ stale_names desired l)) s) ∧
    ∀ key, is_Some (desired !! key) → cache' !! key = cache !! key.
Proof.
  revert cache s. induction l as [|[key slices] l IH]; intros cache s.
  { exists cache. cbn. rewrite set_slices_id; [done|]. apply map_filter_id. set_solver. }
  cbn [sync_stale]. case_bool_decide as Hd.
  - destruct (IH cache s) as (c' & Hrun & Hc). exists c'. split; [|done]. rewrite Hrun.
    by rewrite stale_names_cons, bool_decide_true.
  - rewrite run_bind, delete_slices_run.
    destruct (IH (delete key cache) (set_slices (filter (λ p, p.1 ∉ names_of slices)) s))
      as (c' & Hrun & Hc). exists c'. rewrite Hrun. split.
    + rewrite stale_names_cons, bool_decide_false by done. f_equal. unfold set_slices.
      cbn [srv_slices srv_classes srv_clients srv_claims srv_time srv_inventory]. f_equal.
      apply map_eq. intros n. apply option_eq. intros x.
      rewrite !map_lookup_filter_Some. cbn. rewrite not_elem_of_app. naive_solver.
    + intros k Hk. rewrite Hc by done. apply lookup_delete_ne. by intros ->.
Qed.

(** Generations. *)
Lemma seed_cache_spec existing cache key p :
  seed_cache existing cache !! key = Some p →
  cache !! key = Some p ∨
  ∃ slices, existing !! key = Some slices ∧ pub_Generation p = head_generation slices.
Proof.
  unfold seed_cache. set (l := map_order _ _).
  assert (∀ k v, (k, v) ∈ l → existing !! k = Some v) as Hl.
  { intros k v. subst l. by rewrite map_order_perm, elem_of_map_to_list. }
  revert cache Hl. induction l as [|[k v] l IH]; intros cache Hl; [by left|]. cbn [fold_left].
  intros Hp. apply IH in Hp; [|intros ?? Hin; apply Hl; by right].
  destruct Hp as [Hp|?]; [|by right].
  destruct (cache !! k) eqn:Hk; [by left|]. destruct (0 <? _)%Z; [|by left].
  apply lookup_insert_Some in Hp as [[<- <-]|[? Hp]]; [|by left].
  right. exists v. split; [apply Hl; by left|done].
Qed.

Lemma seed_cache_keeps existing cache key p :
  cache !! key = Some p → seed_cache existing cache !! key = Some p.
Proof.
  unfold seed_cache. generalize (map_order "seed cache" (map_to_list existing)).
  intros l. revert cache. induction l as [|[k v] l IH]; intros cache Hp; [done|]. cbn [fold_left].
  apply IH. destruct (cache !! k) eqn:Hk; [done|]. destruct (0 <? _)%Z; [|done].
  rewrite lookup_insert_ne; [done|]. by intros ->; congruence.
Qed.

Lemma nextGeneration_positive cfg cache key d current :
  (∀ p, cache !! key = Some p → good_generation (pub_Generation p)) →
  (∀ x, x ∈ current → good_generation (spec_pool_generation (rs_spec x))) →
  (0 < nextGeneration cfg cache key d current)%Z.
Proof.
  unfold good_generation. intros Hc Hx. unfold nextGeneration.
  destruct (_ && _); [destruct (Z.ltb_spec 0 (head_generation current)); lia|].
  destruct (cache !! key) as [p|].
  - specialize (Hc p eq_refl). destruct (definition_eqb _ _); [lia|].
    rewrite int64_id; [lia|]. unfold in_int64, min_int64. lia.
  - destruct current as [|x current]; [done|]. specialize (Hx x ltac:(by left)).
    rewrite bool_decide_false by done. cbn [orb head_generation].
    destruct (Z.leb_spec (spec_pool_generation (rs_spec x)) 0); [lia|].
    rewrite int64_id; [lia|]. unfold in_int64, min_int64. lia.
Qed.

Lemma slice_after_same current w : samePublishedResourceSlice (slice_after current w) w = true.
Proof.
  destruct current as [x|]; cbn [slice_after].
  - destruct (samePublishedResourceSlice x w) eqn:Hs; [done|]. unfold samePublishedResourceSlice.
    by rewrite !bool_decide_true.
  - unfold samePublishedResourceSlice. by rewrite !bool_decide_true.
Qed.

Lemma same_published_spec x w : samePublishedResourceSlice x w = true →
  rs_labels x = rs_labels w ∧ rs_spec x = rs_spec w.
Proof.
  unfold samePublishedResourceSlice. by intros [?%bool_decide_eq_true ?%bool_decide_eq_true]%andb_prop.
Qed.

(** A wanted slice is ours, and its key is that of its pool. *)
Lemma wanted_ours cfg key d g w x : good_definition key d → w ∈ buildResourceSlices cfg d g →
  samePublishedResourceSlice x w = true →
  ours cfg x ∧ resourceSliceKey x = Some key ∧ spec_pool_generation (rs_spec x) = g.
Proof.
  intros (Hz & Hg & Hdz & Hdg & Hc & _) Hw [Hl Hs]%same_published_spec.
  apply buildResourceSlices_elem in Hw as (shard & Hsh & ->); [|done].
  unfold ours, resourceSliceKey. rewrite Hl, Hs.
  cbn [rs_labels rs_spec buildSlice spec_driver spec_pool_name spec_pool_generation].
  rewrite poolName_split, Hz, Hg, !dnsLabel_id by done.
  rewrite !bool_decide_false.
  - split_and!; [|done|by destruct key|done]. split; reflexivity.
  - intros Hn. rewrite Hn in Hdg. by destruct Hdg as [Hne _].
  - intros Hn. rewrite Hn in Hdz. by destruct Hdz as [Hne _].
Qed.

(** The loop sees its pools as it needs them. *)
Lemma listed_pool cfg s key x : well_named s →
  x ∈ pool_current (existing_of (listed_slices slice_selector (DriverName cfg) s)) key →
  srv_slices s !! rs_name x = Some x ∧ ours cfg x ∧ resourceSliceKey x = Some key.
Proof.
  intros Hw ((n & Hn) & Ho & Hk)%pool_current_listed. split; [|done].
  destruct Hw as [Hn' _]. by rewrite (Hn' _ _ Hn).
Qed.

Lemma stale_names_elem cfg s desired site n : well_named s →
  n ∈ stale_names desired (map_order site
    (map_to_list (existing_of (listed_slices slice_selector (DriverName cfg) s)))) ↔
  ∃ x key, srv_slices s !! n = Some x ∧ ours cfg x ∧ resourceSliceKey x = Some key ∧
    desired !! key = None.
Proof.
  intros Hw. unfold stale_names. rewrite list_elem_of_bind.
  setoid_rewrite map_order_perm. split.
  - intros ([key l] & Hn & Hin%elem_of_map_to_list). cbn in Hn.
    case_bool_decide as Hd; [by apply not_elem_of_nil in Hn|].
    apply existing_keys in Hin as [-> _].
    apply list_elem_of_fmap in Hn as (x & -> & Hx). apply listed_pool in Hx as (? & ? & ?); [|done].
    exists x, key. split_and!; [done..|]. by apply eq_None_not_Some.
  - intros (x & key & Hx & Ho & Hk & Hd).
    set (existing := existing_of _).
    assert (x ∈ pool_current existing key) as Hin by (apply pool_current_listed; eauto).
    destruct (existing !! key) as [l|] eqn:Hl.
    + exists (key, l). rewrite elem_of_map_to_list. split; [|done]. cbn.
      rewrite Hd, bool_decide_false by by intros []. unfold pool_current in Hin. rewrite Hl in Hin.
      cbn in Hin. destruct Hw as [Hn _]. rewrite <-(Hn _ _ Hx). by apply list_elem_of_fmap_2.
    + unfold pool_current in Hin. rewrite Hl in Hin. by apply not_elem_of_nil in Hin.
Qed.

Lemma owned_apart cfg desired s k1 k2 n : well_named s →
  publishable_inventory cfg desired s → is_Some (desired !! k1) → is_Some (desired !! k2) →
  let existing := existing_of (listed_slices slice_selector (DriverName cfg) s) in
  owned cfg existing desired k1 n → owned cfg existing desired k2 n → k1 = k2.
Proof.
  intros Hw (_ & Hap & Hsq & _) [d1 Hd1] [d2 Hd2] existing. unfold owned, pool_definition.
  rewrite Hd1, Hd2. cbn [default from_option id].
  assert (∀ k, n ∈ names_of (pool_current existing k) →
    ∃ x, srv_slices s !! n = Some x ∧ resourceSliceKey x = Some k) as Hcur.
  { intros k (x & -> & Hx)%list_elem_of_fmap. apply listed_pool in Hx as (? & ? & ?); eauto. }
  intros [(x1 & Hx1 & Hk1)%Hcur|Hn1] [(x2 & Hx2 & Hk2)%Hcur|Hn2].
  - congruence.
  - destruct (Hsq _ _ _ _ Hd2 Hn2 Hx1). congruence.
  - destruct (Hsq _ _ _ _ Hd1 Hn1 Hx2). congruence.
  - by eapply Hap.
Qed.

Lemma pools_ready cfg desired s key : well_named s → publishable_inventory cfg desired s →
  is_Some (desired !! key) →
  let existing := existing_of (listed_slices slice_selector (DriverName cfg) s) in
  pool_ready cfg existing desired key
    (filter (λ p, p.1 ∉ stale_names desired (map_order "stale pools" (map_to_list existing)))
       (srv_slices s)).
Proof.
  intros Hw (Hg & _ & Hsq & _) [d Hd] existing. unfold pool_ready, pool_definition. rewrite Hd.
  cbn [default from_option id]. split_and!.
  - apply (Hg key d Hd).
  - by apply NoDup_pool_current.
  - intros x (Hx & Ho & Hk)%listed_pool; [|done]. apply map_lookup_filter_Some. split; [done|].
    cbn [fst]. subst existing. rewrite stale_names_elem by done. intros (y & k & Hy & _ & Hky & Hdk). congruence.
  - intros n Hn Hni. apply map_lookup_filter_None. left. apply eq_None_not_Some. intros [x Hx].
    destruct (Hsq _ _ _ _ Hd Hn Hx) as [Ho Hk]. apply Hni.
    destruct Hw as [Hname _]. rewrite <-(Hname _ _ Hx).
    apply list_elem_of_fmap_2, pool_current_listed. eauto.
Qed.

Lemma elem_of_sortedPoolKeys {A} (desired : gmap poolKey A) key :
  key ∈ sortedPoolKeys desired ↔ is_Some (desired !! key).
Proof. unfold sortedPoolKeys. by rewrite merge_sort_Permutation, map_order_perm, elem_of_keys. Qed.

Lemma NoDup_sortedPoolKeys {A} (desired : gmap poolKey A) : NoDup (sortedPoolKeys desired).
Proof. unfold sortedPoolKeys. rewrite merge_sort_Permutation, map_order_perm. apply NoDup_fst_map_to_list. Qed.

#[global] Instance same_published_preorder : PreOrder same_published.
Proof. split; [intros s; by repeat split|]. intros s1 s2 s3 (?&?&?) (?&?&?). split_and!; congruence. Qed.

Lemma reaper_same_published clients grace orphans s :
  same_published s (run server_handler (reapOrphanedClients clients grace orphans) s).2.
Proof.
  eapply (wp_run_preserves _ same_published); [|apply reapOrphanedClients_wp].
  intros pre e w He. destruct e as [e|e]; [done|]. by destruct e.
Qed.

Lemma listExisting_run cfg cache s :
  let items := listed_slices slice_selector (DriverName cfg) s in
  run server_handler (listExistingResourceSlices cfg cache) s =
    ((Ok (existing_of items), seed_cache (existing_of items) cache), s) ∧
  trace server_handler (listExistingResourceSlices cfg cache) s =
    [Ev (S:=op_sig) (inr (ListResourceSlices slice_selector (DriverName cfg))) (Ok items)].
Proof. done. Qed.

(** One synchronisation, part by part. *)
Lemma Sync_run cfg clients o s desired : well_named s → publishable_inventory cfg desired s →
  run (snapshot_handler (srv_inventory s)) buildDesiredPools tt = (Ok desired, tt) →
  let existing := existing_of (listed_slices slice_selector (DriverName cfg) s) in
  let keep := filter (λ p, p.1 ∉ stale_names desired (map_order "stale pools" (map_to_list existing)))
                (srv_slices s) in
  ∃ cache1 cache' m cm,
    (∀ key, is_Some (desired !! key) →
      cache1 !! key = seed_cache existing (op_cache o) !! key ∧
      cache' !! key = Some (PublishedPool (pool_definition desired key)
        (pool_generation cfg existing desired cache1 key)) ∧
      ∀ n, owned cfg existing desired key n →
        m !! n = pool_after (pool_current existing key)
                   (pool_wanted cfg existing desired cache1 key) n (keep !! n)) ∧
    (∀ n, (∀ key, is_Some (desired !! key) → ¬ owned cfg existing desired key n) →
      m !! n = keep !! n) ∧
    map_Forall (λ n x, rs_name x = n) m ∧
    (∀ n, cm !! n = class_after (wanted_classes cfg desired !! n) (srv_classes s !! n)) ∧
    let '((err, o'), s') := run server_handler (Sync cfg clients o) s in
    op_cache o' = filter (λ p, is_Some (desired !! p.1)) cache' ∧
    same_published (set_classes (λ _, cm) (set_slices (λ _, m) s)) s' ∧
    (clients = false → err = None ∧ s' = set_classes (λ _, cm) (set_slices (λ _, m) s)).
Proof.
  intros Hw Hinv Hdes existing keep.
  destruct (sync_stale_run (map_order "stale pools" (map_to_list existing)) desired
    (seed_cache existing (op_cache o)) [] s) as (cache1 & Hstale & Hc1).
  fold keep in Hstale. set (s1 := set_slices _ s) in Hstale.
  assert (well_named s1) as Hw1.
  { apply (set_slices_well_named s keep Hw). intros n x [Hx _]%map_lookup_filter_Some. by apply Hw. }
  destruct (sync_pools_run cfg existing desired (sortedPoolKeys desired) cache1 [] s1)
    as (m & cache' & Hpools & Hm & Hin & Hout & Hc2 & _); [done|apply NoDup_sortedPoolKeys|..].
  { intros key Hk%elem_of_sortedPoolKeys. by apply pools_ready. }
  { intros k1 k2 n ?%elem_of_sortedPoolKeys ?%elem_of_sortedPoolKeys. by apply (owned_apart _ _ s). }
  set (s2 := set_slices (λ _, m) s1) in Hpools.
  destruct (syncDeviceClasses_run cfg desired s2) as (cm & Hclasses & Hcm).
  { by apply (set_slices_well_named s1). }
  exists cache1, cache', m, cm. split_and!.
  - intros key Hk. split_and!; [by apply Hc1|by apply Hc2, elem_of_sortedPoolKeys|].
    intros n Hn. by apply Hin; [apply elem_of_sortedPoolKeys|].
  - intros n Hn. apply Hout. intros key Hk%elem_of_sortedPoolKeys. by apply Hn.
  - done.
  - apply Hcm.
  - unfold Sync. rewrite run_bind, (proj1 (listExisting_run cfg (op_cache o) s)).
    fold existing. rewrite run_bind, run_thunder, Hdes. cbn [fst]. rewrite run_bind, Hstale, run_bind, Hpools, run_bind, Hclasses, run_bind.
    set (s3 := set_classes _ s2). pose proof (reaper_same_published clients
      (OrphanGracePeriod cfg) (op_orphans o) s3) as Hreap.
    destruct (run server_handler (reapOrphanedClients _ _ _) s3) as [[r orphans] s'] eqn:Hr.
    cbn [run mret prog_ret op_cache]. split; [done|]. split; [exact Hreap|].
    intros ->. cbn in Hr. injection Hr as <- <- <-. done.
Qed.
End lemmas.

Section theorems.
Context `{UnicodeTables} `{FloatConversion} `{ServerErrors} `{MapOrder}.

Lemma good_seed cfg s cache key p : well_named s → good_generations cfg cache s →
  seed_cache (existing_of (listed_slices slice_selector (DriverName cfg) s)) cache !! key = Some p →
  good_generation (pub_Generation p).
Proof.
  intros Hw [Hc Hs] [Hp|(l & Hl & ->)]%seed_cache_spec; [by eapply Hc|].
  apply existing_keys in Hl as [-> Hne].
  destruct (pool_current _ key) as [|x l] eqn:Hx; [done|]. cbn [head_generation].
  assert (x ∈ pool_current (existing_of (listed_slices slice_selector (DriverName cfg) s)) key) as Hin
    by (rewrite Hx; by left).
  apply listed_pool in Hin as (Hin & Ho & _); [|done]. by eapply Hs.
Qed.

#[export] Instance owned_dec cfg existing desired key n :
  Decision (owned cfg existing desired key n).
Proof. unfold owned. apply _. Defined.

(** The slices a synchronisation leaves are those of wanted pools. *)
Lemma remaining_wanted cfg desired cache s (m : gmap string resource_slice) :
  well_named s → publishable_inventory cfg desired s →
  let existing := existing_of (listed_slices slice_selector (DriverName cfg) s) in
  let keep := filter (λ p, p.1 ∉ stale_names desired (map_order "stale pools" (map_to_list existing)))
                (srv_slices s) in
  (∀ key n, is_Some (desired !! key) → owned cfg existing desired key n →
    m !! n = pool_after (pool_current existing key)
               (pool_wanted cfg existing desired cache key) n (keep !! n)) →
  (∀ n, (∀ key, is_Some (desired !! key) → ¬ owned cfg existing desired key n) →
    m !! n = keep !! n) →
  ∀ n x key, m !! n = Some x → ours cfg x → resourceSliceKey x = Some key →
    ∃ d, desired !! key = Some d ∧ n ∈ wanted_names cfg d.
Proof.
  intros Hw Hinv existing keep Hin Hout n x key Hx Ho Hk.
  destruct (decide (Exists (λ k, owned cfg existing desired k n) (sortedPoolKeys desired))) as [Hex|Hno].
  - apply Exists_exists in Hex as (k & [d Hd]%elem_of_sortedPoolKeys & Hown).
    rewrite (Hin k n) in Hx by done. unfold pool_after, pool_wanted in Hx.
    assert (pool_definition desired k = d) as Hdef by (unfold pool_definition; by rewrite Hd).
    rewrite Hdef in Hx. destruct (find_name n _) as [w|] eqn:Hf.
    + apply find_name_elem in Hf as [Hf <-]. injection Hx as <-.
      destruct (wanted_ours cfg k d _ w (slice_after (keep !! rs_name w) w) (proj1 Hinv k d Hd) Hf)
        as (_ & Hk' & _); [apply slice_after_same|].
      assert (k = key) as <- by congruence. exists d. split; [done|].
      rewrite <-(names_of_wanted _ _ (pool_generation cfg existing desired cache k)).
      by apply list_elem_of_fmap_2.
    + exfalso. apply find_name_None in Hf. rewrite names_of_wanted in Hf.
      destruct Hown as [Hown|Hown]; [by rewrite bool_decide_true in Hx|]. by rewrite Hdef in Hown.
  - assert (∀ k, is_Some (desired !! k) → ¬ owned cfg existing desired k n) as Hall.
    { intros k Hk' Hown. apply Hno, Exists_exists. exists k. by rewrite elem_of_sortedPoolKeys. }
    rewrite Hout in Hx by done. apply map_lookup_filter_Some in Hx as [Hx Hst]. cbn [fst] in Hst.
    subst existing. rewrite stale_names_elem in Hst by done.
    destruct (desired !! key) as [d|] eqn:Hd; [|exfalso; apply Hst; eauto 6].
    exfalso. apply (Hall key); [by rewrite Hd|]. left.
    destruct Hw as [Hn _]. rewrite <-(Hn _ _ Hx). apply list_elem_of_fmap_2, pool_current_listed. eauto.
Qed.

Lemma Sync_reaches_steady cfg clients o s desired :
  well_named s → publishable_inventory cfg desired s → good_generations cfg (op_cache o) s →
  run (snapshot_handler (srv_inventory s)) buildDesiredPools tt = (Ok desired, tt) →
  let '((err, o'), s') := run server_handler (Sync cfg clients o) s in
  well_named s' ∧ steady cfg desired (op_cache o') s' ∧ srv_inventory s' = srv_inventory s ∧
  (clients = false → err = None).
Proof.
  intros Hw Hinv Hgen Hdes.
  destruct (Sync_run cfg clients o s desired Hw Hinv Hdes)
    as (cache1 & cache' & m & cm & Hin & Hout & Hm & Hcm & Hrun).
  destruct (run server_handler (Sync cfg clients o) s) as [[err o'] s'].
  destruct Hrun as (-> & (Hsl & Hcl & Hiv) & Herr). cbn in Hsl, Hcl, Hiv.
  split_and!; [| |done|intros Hc; by apply Herr].
  { split; [by rewrite Hsl|]. rewrite Hcl. intros n c. rewrite Hcm.
    apply class_after_name; [|by intros ?; apply Hw]. intros x. apply wanted_classes_names. }
  set (existing := existing_of _) in *.
  split_and!.
  - intros key d Hd. destruct (Hin key) as (Hc1 & Hc' & Hown); [by eexists|].
    assert (pool_definition desired key = d) as Hdef by (unfold pool_definition; by rewrite Hd).
    rewrite Hdef in Hc'. exists (pool_generation cfg existing desired cache1 key). split_and!.
    + apply nextGeneration_positive.
      * intros p. rewrite Hc1. by apply good_seed.
      * intros x (Hx & Ho & _)%listed_pool; [|done]. by eapply Hgen.
    + by apply map_lookup_filter_Some.
    + intros w Hw'. rewrite Hsl. pose proof (list_elem_of_fmap_2 rs_name _ _ Hw') as Hn.
      change (rs_name <$> ?l) with (names_of l) in Hn. rewrite names_of_wanted in Hn.
      rewrite Hown by (right; by rewrite Hdef). unfold pool_after, pool_wanted. rewrite Hdef.
      assert (find_name (rs_name w) (buildResourceSlices cfg d
        (pool_generation cfg existing desired cache1 key)) = Some w) as ->.
      { apply find_name_Some; [|done]. rewrite names_of_wanted. apply NoDup_wanted_names.
        by apply (proj1 Hinv key). }
      eexists. split; [done|]. apply slice_after_same.
  - rewrite Hsl. eapply remaining_wanted; [done|done| |done]. intros key n Hk. by apply Hin.
  - intros key [p Hp]. by apply map_lookup_filter_Some in Hp as [_ ?].
  - intros n. rewrite Hcl, Hcm. apply class_after_settled. intros x Hx. by apply Hinv.
Qed.

(** C1: one synchronisation against an API server that refuses nothing reaches
    the steady state: every pool the inventory calls for is published by
    exactly its slices, with a positive generation that the cache records, no
    other slice of the operator remains, and the device classes are settled;
    where the reaper is off it reports no error.  This is for an inventory that
    can be published (the zones and GPU types of its pools are DNS labels,
    their capacities fit the int64 arithmetic, their targets are numbers, and
    no two pools share a slice name), on a server that holds no other owner's
    slice or class, nor a slice of another pool, under a wanted name, whose
    objects are stored under their own names, and with generations - of the
    operator's slices and in the cache - that are positive and not the last
    one. *)
Theorem Sync_converges cfg clients o s desired :
  well_named s → publishable_inventory cfg desired s → good_generations cfg (op_cache o) s →
  run (snapshot_handler (srv_inventory s)) buildDesiredPools tt = (Ok desired, tt) →
  let '((err, o'), s') := run server_handler (Sync cfg clients o) s in
  steady cfg desired (op_cache o') s' ∧ srv_inventory s' = srv_inventory s ∧
  (clients = false → err = None).
Proof.
  intros Hw Hinv Hgen Hdes.
  pose proof (Sync_reaches_steady cfg clients o s desired Hw Hinv Hgen Hdes) as Hs.
  destruct (run server_handler (Sync cfg clients o) s) as [[err o'] s']. naive_solver.
Qed.

(** Where everything is as wanted, the loops make no calls. *)
Lemma apply_wanted_settled wanted byName : NoDup (names_of wanted) →
  (∀ w, w ∈ wanted → ∃ x, byName !! rs_name w = Some x ∧ samePublishedResourceSlice x w = true) →
  apply_wanted wanted byName = mret (Ok (filter (λ p, p.1 ∉ names_of wanted) byName)).
Proof.
  revert byName. induction wanted as [|w wanted IH]; intros byName Hnd Hall.
  { cbn. do 3 f_equal. symmetry. apply map_filter_id. set_solver. }
  unfold names_of in Hnd. rewrite fmap_cons in Hnd. apply NoDup_cons in Hnd as [Hni Hnd].
  cbn [apply_wanted]. destruct (Hall w) as (x & -> & ->); [by left|]. rewrite IH; [|done|].
  - do 2 f_equal. apply map_eq. intros k. apply option_eq. intros y.
    rewrite !map_lookup_filter_Some, lookup_delete_Some. cbn. rewrite not_elem_of_cons. naive_solver.
  - intros v Hv. destruct (Hall v) as (y & Hy & Hs); [by right|]. exists y.
    rewrite lookup_delete_ne; [done|]. intros Heq. apply Hni. rewrite Heq.
    by apply list_elem_of_fmap_2.
Qed.

Lemma applyPool_settled current wanted : NoDup (names_of current) → NoDup (names_of wanted) →
  (∀ w, w ∈ wanted → ∃ x, x ∈ current ∧ rs_name x = rs_name w ∧
    samePublishedResourceSlice x w = true) →
  (∀ x, x ∈ current → rs_name x ∈ names_of wanted) →
  applyPool current wanted = mret (Ok tt).
Proof.
  intros Hc Hw Hall Hsub. unfold applyPool. rewrite apply_wanted_settled; [|done|].
  - cbn [orfail mbind prog_bind prog_bind_def mret prog_ret].
    assert (filter (λ p, p.1 ∉ names_of wanted) (by_name current) = ∅) as ->.
    { apply map_empty. intros n. apply map_lookup_filter_None. right. intros x Hx Hni. apply Hni. cbn.
      rewrite by_name_lookup in Hx by done. apply find_name_elem in Hx as [Hx <-]. by apply Hsub. }
    rewrite map_to_list_empty.
    assert (map_order "surplus slices" ([] : list (string * resource_slice)) = []) as ->.
    { apply Permutation_nil. symmetry. apply map_order_perm. }
    done.
  - intros w Hin. destruct (Hall w Hin) as (x & Hx & Hn & Hs). exists x. split; [|done].
    rewrite by_name_lookup by done. by apply find_name_Some.
Qed.

Lemma sync_stale_settled l desired cache errs :
  (∀ key, key ∈ l.*1 → is_Some (desired !! key)) →
  sync_stale l desired cache errs = mret (cache, errs).
Proof.
  induction l as [|[key slices] l IH]; intros Hl; [done|]. cbn [sync_stale].
  rewrite bool_decide_true by (apply Hl; by left). apply IH. intros k Hk. apply Hl. by right.
Qed.

Lemma seed_cache_settled existing cache :
  (∀ key, is_Some (existing !! key) → is_Some (cache !! key)) → seed_cache existing cache = cache.
Proof.
  intros Hall. unfold seed_cache. set (l := map_order _ _).
  assert (∀ key, key ∈ l.*1 → is_Some (cache !! key)) as Hl.
  { intros key Hk. apply Hall. subst l. rewrite map_order_perm in Hk. by apply elem_of_keys. }
  clear Hall. clearbody l. induction l as [|[k v] l IH]; [done|]. cbn [fold_left].
  destruct (Hl k) as [p ->]; [by left|]. apply IH. intros key Hk. apply Hl. by right.
Qed.

Section steady.
#[local] Set Default Proof Using "All".
Context (cfg : Config) (desired : gmap poolKey poolDefinition)
  (cache : gmap poolKey publishedPool) (s : server).
Context (Hw : well_named s) (Hinv : publishable_inventory cfg desired s)
  (Hst : steady cfg desired cache s).
Let existing := existing_of (listed_slices slice_selector (DriverName cfg) s).

(** Every slice of a pool is one of the wanted ones, published. *)
Lemma steady_current key d g x :
  desired !! key = Some d → published cfg d g s → x ∈ pool_current existing key →
  ∃ w, w ∈ buildResourceSlices cfg d g ∧ rs_name x = rs_name w ∧
    samePublishedResourceSlice x w = true.
Proof.
  intros Hd Hp Hx. apply listed_pool in Hx as (Hx & Ho & Hk); [|done].
  destruct Hst as (_ & H2' & _). destruct (H2' _ _ _ Hx Ho Hk) as (d' & Hd' & Hn).
  assert (d' = d) as -> by congruence. rewrite <-(names_of_wanted _ _ g) in Hn.
  apply list_elem_of_fmap in Hn as (w & Hn & Hin). exists w. split; [done|]. split; [done|].
  destruct (Hp w Hin) as (y & Hy & Hs). rewrite <-Hn, Hx in Hy. by injection Hy as ->.
Qed.

Lemma steady_generation key d g :
  desired !! key = Some d → (0 < g)%Z → cache !! key = Some (PublishedPool d g) →
  published cfg d g s →
  nextGeneration cfg cache key d (pool_current existing key) = g.
Proof.
  intros Hd Hg Hc Hp. unfold nextGeneration. rewrite Hc. cbn [pub_Definition pub_Generation].
  destruct (proj1 Hinv key d Hd) as (Hz & Ht & Hdz & Hdg & Hpub & Hnan).
  assert (definition_eqb d d = true) as ->.
  { unfold definition_eqb. rewrite Hnan. by rewrite !bool_decide_true. }
  destruct (negb _ && _) eqn:Hm; [|done]. destruct (pool_current existing key) as [|x l] eqn:Hx; [done|].
  cbn [head_generation]. destruct (steady_current key d g x) as (w & Hw' & _ & Hs); [done..| |].
  { rewrite Hx. by left. }
  destruct (wanted_ours cfg key d g w x (proj1 Hinv key d Hd) Hw' Hs) as (_ & _ & ->).
  destruct (Z.ltb_spec 0 g); [done|lia].
Qed.

Lemma steady_apply key d g :
  desired !! key = Some d → published cfg d g s →
  applyPool (pool_current existing key) (buildResourceSlices cfg d g) = mret (Ok tt).
Proof.
  intros Hd Hp. apply applyPool_settled.
  - by apply NoDup_pool_current.
  - rewrite names_of_wanted. apply NoDup_wanted_names. by apply (proj1 Hinv key).
  - intros w Hin. destruct (Hp w Hin) as (x & Hx & Hs). exists x.
    destruct (wanted_ours cfg key d g w x (proj1 Hinv key d Hd) Hin Hs) as (Ho & Hk & _).
    split; [apply pool_current_listed; eauto|]. split; [|done]. by apply Hw in Hx.
  - intros x Hx. destruct (steady_current key d g x) as (w & Hin & -> & _); [done..|].
    by apply list_elem_of_fmap_2.
Qed.

Lemma steady_pools keys errs : (∀ key, key ∈ keys → is_Some (desired !! key)) →
  sync_pools cfg keys existing desired cache errs = mret (cache, errs).
Proof.
  induction keys as [|key keys IH]; intros Hk; [done|]. cbn [sync_pools].
  destruct (Hk key) as [d Hd]; [by left|]. rewrite Hd. cbn [default from_option id].
  fold (pool_current existing key).
  destruct Hst as (H1' & _). destruct (H1' key d Hd) as (g & Hg & Hc & Hp).
  rewrite (steady_generation key d g), (steady_apply key d g) by done.
  cbn [mret prog_ret mbind prog_bind prog_bind_def]. rewrite insert_id by done.
  apply IH. intros k Hin. apply Hk. by right.
Qed.

Lemma steady_existing key : is_Some (existing !! key) → is_Some (desired !! key).
Proof.
  intros [l Hl]. apply existing_keys in Hl as [-> Hne].
  destruct (pool_current existing key) as [|x l] eqn:Hx; [done|].
  assert (x ∈ pool_current existing key) as Hin by (rewrite Hx; by left).
  apply listed_pool in Hin as (Hs & Ho & Hk); [|done].
  destruct Hst as (_ & H2' & _). destruct (H2' _ _ _ Hs Ho Hk) as (d & -> & _). by eexists.
Qed.
End steady.

(** Thunder is only read. *)
Lemma thunder_trace {A} (p : prog thunder_sig A) s :
  Forall (λ x, is_publish_write (evt_call x) = false) (trace server_handler (lift_l p) s).
Proof.
  apply (wp_trace (λ e, is_publish_write e = false) _ [] _ (λ _ _, True)).
  unfold lift_l. generalize ([] : list (event op_sig)).
  induction p as [a|e k IH]; intros pre; [done|]. cbn. split; [done|]. intros r. apply IH.
Qed.

Lemma Sync_quiet cfg clients o s desired :
  well_named s → publishable_inventory cfg desired s → steady cfg desired (op_cache o) s →
  run (snapshot_handler (srv_inventory s)) buildDesiredPools tt = (Ok desired, tt) →
  Forall (λ x, is_publish_write (evt_call x) = false) (trace server_handler (Sync cfg clients o) s) ∧
  let '((err, o'), s') := run server_handler (Sync cfg clients o) s in
  op_cache o' = op_cache o ∧ same_published s s'.
Proof.
  intros Hw Hinv Hst Hdes. unfold Sync. rewrite trace_bind, run_bind.
  destruct (listExisting_run cfg (op_cache o) s) as [-> ->]. cbn [fst snd].
  assert (∀ key, is_Some (existing_of (listed_slices slice_selector (DriverName cfg) s) !! key) →
    is_Some (desired !! key)) as Hex by (intros key; by apply (steady_existing _ _ (op_cache o))).
  rewrite seed_cache_settled.
  2:{ intros key Hk. destruct (Hex key Hk) as [d Hd]. destruct Hst as (Hp & _).
      destruct (Hp key d Hd) as (g & _ & -> & _). by eexists. }
  rewrite run_bind, trace_bind, run_thunder, Hdes. cbn [fst snd].
  rewrite sync_stale_settled.
  2:{ intros key Hk. rewrite map_order_perm, elem_of_keys in Hk. by apply Hex. }
  cbn [mret prog_ret mbind prog_bind prog_bind_def].
  rewrite steady_pools; [|done|done|done|by intros key; rewrite elem_of_sortedPoolKeys].
  cbn [mret prog_ret mbind prog_bind prog_bind_def].
  destruct (syncDeviceClasses_settled cfg desired s Hw) as [Hcr Hct]; [apply Hst|].
  rewrite trace_bind, run_bind, Hcr, trace_bind, run_bind. cbn [fst snd].
  pose proof (reaper_same_published clients (OrphanGracePeriod cfg) (op_orphans o) s) as Hreap.
  assert (Forall (λ x, is_publish_write (evt_call x) = false)
    (trace server_handler (reapOrphanedClients clients (OrphanGracePeriod cfg) (op_orphans o)) s)) as Hrt.
  { apply (wp_trace (λ e, is_publish_write e = false) _ [] _ (λ _ _, True)).
    eapply wp_weaken; [|apply reapOrphanedClients_wp].
    intros pre [e|e] He; [done|]. by destruct e. }
  destruct (run server_handler (reapOrphanedClients _ _ _) s) as [[r orphans] s'].
  cbn [run trace mret prog_ret op_cache fst snd]. split.
  - constructor; [done|]. apply Forall_app. split; [apply thunder_trace|].
    rewrite !Forall_app. split_and!; [|done|by constructor].
    eapply Forall_impl; [exact Hct|]. intros [[t|e] ?]; [by destruct t|by destruct e].
  - split; [|done]. apply map_filter_id. intros key p Hp. by apply Hst.
Qed.

(** In the steady state a synchronisation writes no slice and no class,
    leaves both as they are, and keeps the cache. *)
Theorem Sync_steady_quiet cfg clients o s desired :
  well_named s → publishable_inventory cfg desired s → steady cfg desired (op_cache o) s →
  run (snapshot_handler (srv_inventory s)) buildDesiredPools tt = (Ok desired, tt) →
  Forall (λ x, is_publish_write (evt_call x) = false) (trace server_handler (Sync cfg clients o) s) ∧
  let '((err, o'), s') := run server_handler (Sync cfg clients o) s in
  op_cache o' = op_cache o ∧ same_published s s'.
Proof. apply Sync_quiet. Qed.

Lemma sync_pools_cache_other cfg keys existing desired cache errs tr cache' errs' key :
  exec (sync_pools cfg keys existing desired cache errs) tr (cache', errs') → key ∉ keys →
  cache' !! key = cache !! key.
Proof.
  revert cache errs tr. induction keys as [|k keys IH]; intros cache errs tr.
  { by intros [-> [= -> ->]]. }
  cbn [sync_pools]. intros (tr1 & r & tr2 & -> & _ & Hx)%exec_bind [Hne Hni]%not_elem_of_cons.
  destruct r; [|by eapply IH]. rewrite (IH _ _ _ Hx Hni). by apply lookup_insert_ne.
Qed.

(** The steady state keeps the hypotheses of convergence. *)
Lemma steady_publishable cfg desired cache s0 s : publishable_inventory cfg desired s0 →
  steady cfg desired cache s → publishable_inventory cfg desired s.
Proof.
  intros (Hg & Hap & _) (Hp & _ & _ & Hc). split_and!; [done|done|..].
  - intros key d n x Hd Hn Hx. destruct (Hp key d Hd) as (g & _ & _ & Hpub).
    rewrite <-(names_of_wanted cfg d g) in Hn. apply list_elem_of_fmap in Hn as (w & -> & Hw).
    destruct (Hpub w Hw) as (y & Hy & Hs). assert (y = x) as -> by congruence.
    by destruct (wanted_ours cfg key d g w x (Hg key d Hd) Hw Hs) as (? & ? & _).
  - intros n x Hx [c Hw]. specialize (Hc n). rewrite Hw in Hc. destruct Hc as (y & Hy & Hm & _).
    congruence.
Qed.

(** A second synchronisation with an unchanged inventory writes no slice
    and no class, and leaves them as the first one left them. *)
Theorem Sync_idempotent cfg clients o s desired :
  well_named s → publishable_inventory cfg desired s → good_generations cfg (op_cache o) s →
  run (snapshot_handler (srv_inventory s)) buildDesiredPools tt = (Ok desired, tt) →
  let '((_, o'), s') := run server_handler (Sync cfg clients o) s in
  Forall (λ x, is_publish_write (evt_call x) = false) (trace server_handler (Sync cfg clients o') s') ∧
  same_published s' (run server_handler (Sync cfg clients o') s').2.
Proof.
  intros Hw Hinv Hgen Hdes.
  pose proof (Sync_reaches_steady cfg clients o s desired Hw Hinv Hgen Hdes) as Hs.
  destruct (run server_handler (Sync cfg clients o) s) as [[err o'] s'].
  destruct Hs as (Hw' & Hst & Hiv & _). rewrite <-Hiv in Hdes.
  pose proof (Sync_quiet cfg clients o' s' desired Hw'
    (steady_publishable _ _ _ _ _ Hinv Hst) Hst Hdes) as [Htr Hrun].
  split; [done|]. destruct (run server_handler (Sync cfg clients o') s') as [[? ?] ?]. apply Hrun.
Qed.

(** C28: whatever Kubernetes answers, a failing pool does not keep the others
    from being applied: the pool loop runs the whole application of every
    desired pool in order, reports exactly the failures, and records exactly
    the pools that succeeded. *)
Theorem pool_failures_isolated cfg keys existing desired cache errs tr cache' errs' :
  exec (sync_pools cfg keys existing desired cache errs) tr (cache', errs') →
  ∃ runs : list (Z * list (event op_sig) * result unit),
    tr = concat ((λ r, r.1.2) <$> runs) ∧
    Forall2 (λ key r, exec (applyPool (pool_current existing key)
      (buildResourceSlices cfg (pool_definition desired key) r.1.1)) r.1.2 r.2) keys runs ∧
    errs' = errs ++ (zip keys runs ≫= λ kr,
      match kr.2.2 with Ok _ => [] | Err e => [wrap ("apply pool " +:+ pool_text kr.1) e] end) ∧
    (NoDup keys → ∀ i key r, keys !! i = Some key → runs !! i = Some r →
      cache' !! key = match r.2 with
                      | Ok _ => Some (PublishedPool (pool_definition desired key) r.1.1)
                      | Err _ => cache !! key
                      end).
Proof.
  revert cache errs tr. induction keys as [|key keys IH]; intros cache errs tr.
  { intros [-> [= -> ->]]. exists []. split_and!; [done|constructor|by rewrite app_nil_r|done]. }
  cbn [sync_pools]. set (g := nextGeneration _ _ _ _ _).
  intros (tr1 & r & tr2 & -> & H1' & H2')%exec_bind.
  assert (∃ c1 e1, exec (sync_pools cfg keys existing desired c1 e1) tr2 (cache', errs') ∧
    e1 = errs ++ (match r with Ok _ => [] | Err e => [wrap ("apply pool " +:+ pool_text key) e] end) ∧
    c1 = match r with
         | Ok _ => <[key := PublishedPool (pool_definition desired key) g]> cache
         | Err _ => cache
         end) as (c1 & e1 & Hx & -> & ->).
  { destruct r; eexists _, _; (split; [exact H2'|split; [|reflexivity]]); by rewrite ?app_nil_r. }
  destruct (IH _ _ _ Hx) as (runs & -> & Hall & -> & Hc).
  exists ((g, tr1, r) :: runs). split_and!; [done|by constructor| |].
  - cbn. by rewrite <-app_assoc.
  - intros [Hni Hnd]%NoDup_cons [|i] k r'; cbn.
    + intros [= <-] [= <-]. cbn. rewrite (sync_pools_cache_other _ _ _ _ _ _ _ _ _ _ Hx Hni).
      destruct r; [apply lookup_insert_eq|done].
    + intros Hk Hr. rewrite (Hc Hnd i k r') by done. destruct r'.2; [done|].
      destruct r; [|done]. apply lookup_insert_ne. intros ->. apply Hni. by eapply list_elem_of_lookup_2.
Qed.

Lemma matches_specs cfg current d : currentDefinitionMatches cfg current d = true →
  (∀ x, x ∈ current → spec_driver (rs_spec x) = DriverName cfg) →
  rs_spec <$> current = rs_spec <$> buildResourceSlices cfg d (head_generation current).
Proof.
  unfold currentDefinitionMatches. destruct current as [|c0 current]; [done|].
  intros [Hlen%bool_decide_eq_true Hz]%andb_prop Hdr. cbn [head_generation].
  rewrite (Hdr c0) in * by by left. set (cfg' := Build_Config _ _ _ _ _ _ _) in *.
  assert (rs_spec <$> buildResourceSlices cfg d (spec_pool_generation (rs_spec c0)) =
    rs_spec <$> buildResourceSlices cfg' d (spec_pool_generation (rs_spec c0))) as ->.
  { unfold buildResourceSlices. destruct (_ <=? 0)%Z; [done|]. by rewrite <-!list_fmap_compose. }
  clear Hdr. revert Hlen Hz. generalize (buildResourceSlices cfg' d (spec_pool_generation (rs_spec c0))).
  generalize (c0 :: current). intros l1 l2 Hlen Hz. revert l2 Hlen Hz.
  induction l1 as [|x l1 IH]; intros [|y l2] Hlen Hz; [done..|]. cbn in *.
  apply andb_prop in Hz as [Hxy%bool_decide_eq_true Hz]. rewrite Hxy. f_equal. apply IH; [lia|done].
Qed.

(** C27: where the slices of a pool are at the generation [g] that the cache
    records, the next generation is [g] while the pool's definition is the one
    recorded, and [g + 1] when the definition changed and any slice rendered
    from it differs from those there.  (A slice that was edited under an
    unchanged definition is written back at [g].) *)
Theorem nextGeneration_bumps cfg cache key d0 d current g :
  current ≠ [] → (∀ x, x ∈ current → spec_driver (rs_spec x) = DriverName cfg ∧
    spec_pool_generation (rs_spec x) = g) →
  cache !! key = Some (PublishedPool d0 g) → good_generation g →
  (definition_eqb d0 d = true → nextGeneration cfg cache key d current = g) ∧
  (definition_eqb d0 d = false → rs_spec <$> current ≠ rs_spec <$> buildResourceSlices cfg d g →
   nextGeneration cfg cache key d current = (g + 1)%Z).
Proof.
  intros Hne Hall Hc Hg. unfold good_generation in Hg.
  assert (head_generation current = g) as Hh.
  { destruct current as [|x l]; [done|]. apply Hall. by left. }
  unfold nextGeneration. rewrite Hc, Hh. cbn [pub_Definition pub_Generation]. split; intros Hd.
  - rewrite Hd. destruct (_ && _); [|done]. by destruct (Z.ltb_spec 0 g); [|lia].
  - intros Hspec. rewrite Hd. destruct (currentDefinitionMatches cfg current d) eqn:Hm.
    + exfalso. apply Hspec. rewrite <-Hh at 1. apply matches_specs; [done|]. intros x Hx. by apply Hall.
    + rewrite andb_false_r. apply int64_id. unfold in_int64, min_int64. lia.
Qed.
End theorems.

Section witnesses.
#[local] Existing Instances ascii_tables listed_order amd64_conversion status_errors
  status_server_errors.

Lemma sample_publishable : publishable_inventory sample_config sample_desired sample_server.
Proof.
  unfold publishable_inventory, names_apart, sample_desired. split_and!.
  - intros key d [<- <-]%lookup_singleton_Some. split_and!; try reflexivity;
      repeat first [constructor | vm_compute; congruence].
  - by intros k1 k2 d1 d2 n [<- _]%lookup_singleton_Some [<- _]%lookup_singleton_Some.
  - done.
  - done.
Qed.

Lemma sample_generations : good_generations sample_config ∅ sample_server.
Proof. by split. Qed.

Lemma sample_desired_run :
  run (snapshot_handler (srv_inventory sample_server)) buildDesiredPools tt = (Ok sample_desired, tt).
Proof. reflexivity. Qed.

Lemma Sync_converges_witness :
  let '((err, o'), s') := run server_handler (Sync sample_config false sample_operator) sample_server in
  steady sample_config sample_desired (op_cache o') s' ∧ size (srv_slices s') = 2%nat.
Proof.
  pose proof (Sync_converges sample_config false sample_operator sample_server sample_desired
    ltac:(by split) sample_publishable sample_generations sample_desired_run) as Hs.
  assert (size (srv_slices (run server_handler (Sync sample_config false sample_operator)
    sample_server).2) = 2%nat) as Hsz by (vm_compute; reflexivity).
  destruct (run server_handler (Sync sample_config false sample_operator) sample_server) as [[? ?] ?].
  split; [apply Hs|exact Hsz].
Defined.

Lemma Sync_idempotent_witness :
  let '((_, o'), s') := run server_handler (Sync sample_config true sample_operator) sample_server in
  Forall (λ x, is_publish_write (evt_call x) = false)
    (trace server_handler (Sync sample_config true o') s').
Proof.
  pose proof (Sync_idempotent sample_config true sample_operator sample_server sample_desired
    ltac:(by split) sample_publishable sample_generations sample_desired_run) as Hs.
  destruct (run server_handler (Sync sample_config true sample_operator) sample_server) as [[? ?] ?].
  apply Hs.
Defined.

Lemma Sync_steady_quiet_witness :
  let '((_, o'), s') := run server_handler (Sync sample_config true sample_operator) sample_server in
  op_cache (run server_handler (Sync sample_config true o') s').1.2 = op_cache o'.
Proof.
  pose proof (Sync_reaches_steady sample_config true sample_operator sample_server sample_desired
    ltac:(by split) sample_publishable sample_generations sample_desired_run) as Hs.
  destruct (run server_handler (Sync sample_config true sample_operator) sample_server) as [[? o'] s'].
  destruct Hs as (Hw & Hst & Hiv & _).
  pose proof (Sync_steady_quiet sample_config true o' s' sample_desired Hw
    (steady_publishable _ _ _ _ _ sample_publishable Hst) Hst
    ltac:(rewrite Hiv; exact sample_desired_run)) as [_ Hq].
  destruct (run server_handler (Sync sample_config true o') s') as [[? ?] ?]. apply Hq.
Defined.

Lemma pool_failures_isolated_witness :
  ∃ tr cache' errs' runs,
    exec (sync_pools sample_config two_keys ∅ two_pools ∅ []) tr (cache', errs') ∧
    tr = concat ((λ r : Z * list (event op_sig) * result unit, r.1.2) <$> runs) ∧
    length tr = 2%nat ∧ length errs' = 1%nat ∧
    is_Some (cache' !! PoolKey "us-west" "h100").
Proof.
  set (p := sync_pools sample_config two_keys ∅ two_pools ∅ []).
  pose proof (run_exec first_create_fails p true) as Hx.
  assert (length (trace first_create_fails p true) = 2%nat) as Hlen by (vm_compute; reflexivity).
  assert (length (run first_create_fails p true).1.2 = 1%nat) as Herr by (vm_compute; reflexivity).
  assert (bool_decide (is_Some ((run first_create_fails p true).1.1 !! PoolKey "us-west" "h100")) = true)
    as Hc%bool_decide_eq_true by reflexivity.
  destruct (run first_create_fails p true).1 as [cache' errs'].
  destruct (pool_failures_isolated _ _ _ _ _ _ _ _ _ Hx) as (runs & Htr & _).
  exists (trace first_create_fails p true), cache', errs', runs. by split_and!.
Defined.

Lemma nextGeneration_bumps_witness :
  nextGeneration sample_config {[PoolKey "us-east-1" "a6000" := PublishedPool sample_definition 7]}
    (PoolKey "us-east-1" "a6000") wider_definition
    (buildResourceSlices sample_config sample_definition 7) = 8%Z.
Proof.
  refine (proj2 (nextGeneration_bumps sample_config _ _ sample_definition _ _ 7 _ _ _ _) _ _).
  - intros Hn%(f_equal length). vm_compute in Hn. discriminate.
  - apply Forall_forall. rewrite buildResourceSlices_cons by (split; vm_compute; congruence).
    apply Forall_fmap, Forall_true. intros shard. split; reflexivity.
  - apply lookup_singleton_eq.
  - unfold good_generation, max_int64. lia.
  - vm_compute. reflexivity.
  - intros Heq. apply (f_equal (λ l, length (l ≫= spec_devices))) in Heq.
    apply Nat.eqb_eq in Heq. vm_compute in Heq. discriminate.
Defined.

(** What follows from it: with nothing changed, the second synchronisation of
    a zone called US-East deletes its slice and creates it again. *)
Example unlabelled_pool_churns :
  let '((_, o'), s') := run server_handler (Sync sample_config false sample_operator) unlabelled_server in
  (λ x : event op_sig, match evt_call x with
        | inr (CreateResourceSlice _) => "create"
        | inr (DeleteResourceSlice _) => "delete"
        | inr (UpdateResourceSlice _) => "update"
        | _ => ""
        end) <$> filter (λ x : event op_sig, is_publish_write (evt_call x) = true)
                   (trace server_handler (Sync sample_config false o') s')
  = ["delete"; "create"].
Proof. vm_compute. reflexivity. Qed.

(** With more than ten slices the listing's order of names is not the order of
    the shards, so an operator that restarts finds no match with what it
    published itself and gives the pool a new generation. *)
Example restart_bumps_generation :
  let current := merge_sort slice_name_le (buildResourceSlices sample_config large_definition 7) in
  currentDefinitionMatches sample_config current large_definition = false ∧
  nextGeneration sample_config
    (seed_cache {[PoolKey "us-east-1" "a6000" := current]} ∅)
    (PoolKey "us-east-1" "a6000") large_definition current = 8%Z.
Proof. split; vm_compute; reflexivity. Qed.
End witnesses.
