(* ===== verification/OperatorRun.v ===== *)
(** * Operator: its configuration and its loop

    internal/operator/config.go's ConfigFromEnv and operator.go's New and Run:
    what the environment configures, and one synchronisation at the start and
    at every tick until the context is done. *)

From S2P Require Import Prelude GoStrings Float64 GoDuration Labels ResourceSlice Inventory KubeAPI.
From S2P Require Import DeviceClass Reaper Operator OperatorSpec.

Definition DefaultDriverName : string := "thundercompute.com".
Definition DefaultZoneLabelKey : string := "topology.kubernetes.io/zone".
Definition DefaultOrphanGracePeriod : Z := 5 * Minute.
Definition DefaultDeviceClassPrefix : string := "thunder-gpu-".
Definition DefaultExtendedResourcePrefix : string := "thundercompute.com/gpu-".

Section config.
Context `{UnicodeTables} (lookup : string → option string).

(** [os.Getenv]. *)
Definition Getenv (key : string) : string := default "" (lookup key).

Definition envOrDefaultAllowEmpty (key fallback : string) : string := default fallback (lookup key).

Definition envOrDefault (key fallback : string) : string :=
  let value := Getenv key in if bool_decide (value ≠ "") then value else fallback.

(** A duration variable that is set, or its default. *)
Definition parse_duration_env (key : string) (fallback : Z) (check : Z → option error) : result Z :=
  let raw := Getenv key in
  if bool_decide (raw ≠ "") then
    match ParseDuration raw with
    | Err e => Err (wrap ("parse " +:+ key) e)
    | Ok d => match check d with Some e => Err e | None => Ok d end
    end
  else Ok fallback.

Definition negative_grace (grace : Z) : option error :=
  if (grace <? 0)%Z
  then Some (ErrText ("ORPHAN_GRACE_PERIOD must not be negative, got " +:+ Duration_String grace))
  else None.

Definition ConfigFromEnv : result Config :=
  let driverName := envOrDefault "DRA_DRIVER_NAME" DefaultDriverName in
  let namePrefix := envOrDefault "RESOURCE_SLICE_NAME_PREFIX" DefaultNamePrefix in
  let zoneLabelKey := envOrDefault "NODE_ZONE_LABEL" DefaultZoneLabelKey in
  let deviceClassPrefix := envOrDefault "DEVICE_CLASS_PREFIX" DefaultDeviceClassPrefix in
  let extendedResourcePrefix :=
    envOrDefaultAllowEmpty "EXTENDED_RESOURCE_PREFIX" DefaultExtendedResourcePrefix in
  grace ← parse_duration_env "ORPHAN_GRACE_PERIOD" DefaultOrphanGracePeriod negative_grace;
  interval ← parse_duration_env "RECONCILE_INTERVAL" (60 * Second)%Z (λ _, None);
  if bool_decide (driverName = "") then Err (ErrText "DRA_DRIVER_NAME is required")
  else if bool_decide (namePrefix = "") then Err (ErrText "RESOURCE_SLICE_NAME_PREFIX is required")
  else if bool_decide (zoneLabelKey = "") then Err (ErrText "NODE_ZONE_LABEL is required")
  else if bool_decide (extendedResourcePrefix ≠ "") && bool_decide (deviceClassPrefix = "") then
    Err (ErrText "DEVICE_CLASS_PREFIX is required when EXTENDED_RESOURCE_PREFIX is set")
  else if bool_decide (extendedResourcePrefix ≠ "") && negb (contains extendedResourcePrefix "/") then
    Err (ErrText ("EXTENDED_RESOURCE_PREFIX must be a domain-qualified prefix such as " +:+
                  quote DefaultExtendedResourcePrefix +:+ ", got " +:+ quote extendedResourcePrefix))
  else
    Ok {| DriverName := driverName; NamePrefix := namePrefix; ZoneLabelKey := zoneLabelKey;
          ReconcileInterval := interval; DeviceClassPrefix := deviceClassPrefix;
          ExtendedResourcePrefix := extendedResourcePrefix; OrphanGracePeriod := grace |}.
End config.

(** [New]: nothing is cached and no orphan was seen. *)
Definition New : operator_state := OperatorState ∅ ∅.

(** Waiting for the ticker or the context: true when the context is done. *)
Inductive tick_ev := NextTick.
Definition tick_sig : sig := Sig tick_ev (λ _, bool).
Abbreviation run_sig := (sig_sum op_sig tick_sig).
Definition next_tick : prog run_sig bool := call (S:=run_sig) (inr NextTick).

(** How a run that was followed for some ticks stands: [time.NewTicker] panics
    on an interval that is not positive; [Run] returns the context's error; or
    it is still running, with the operator's state. *)
Inductive run_outcome := Panicked | Returned | Running (o : operator_state).

Section run.
Context `{UnicodeTables, MapOrder, FloatConversion, LibErrors}.

Definition sync_once (cfg : Config) (clients : bool) (o : operator_state) : prog run_sig operator_state :=
  '(_, o) ← lift_l (T:=tick_sig) (Sync cfg clients o); mret o.

(** The loop after the first synchronisation, for [n] ticks. *)
Fixpoint run_loop (cfg : Config) (clients : bool) (o : operator_state) (n : nat)
    : prog run_sig run_outcome :=
  match n with
  | O => mret (Running o)
  | S n =>
      cancelled ← next_tick;
      if (cancelled : bool) then mret Returned
      else o ← sync_once cfg clients o; run_loop cfg clients o n
  end.

Definition Run (cfg : Config) (clients : bool) (o : operator_state) (n : nat)
    : prog run_sig run_outcome :=
  o ← sync_once cfg clients o;
  if (ReconcileInterval cfg <=? 0)%Z then mret Panicked else run_loop cfg clients o n.
End run.

(** An API server and a ticker that never stops. *)
Definition run_handler `{ServerErrors} : handler run_sig server :=
  handler_sum (T:=tick_sig) server_handler (λ _ s, (false, s)).

(** The calls that change a slice or a class, in order. *)
Definition publish_writes (calls : list (ev op_sig)) : list (ev op_sig) :=
  filter (λ e, is_publish_write e = true) calls.
Definition op_calls (calls : list (ev run_sig)) : list (ev op_sig) :=
  omap (λ e : ev run_sig, match e with inl e => Some e | inr _ => None end) calls.

(** The ticks of a run: for each wait, whether the context was done. *)
Definition ticks (tr : list (event run_sig)) : list bool :=
  omap (λ x : event run_sig, match x with Ev (inr NextTick) r => Some r | _ => None end) tr.

Definition op_events (tr : list (event run_sig)) : list (event op_sig) :=
  omap (λ x : event run_sig, match x with Ev (inl e) r => Some (Ev (S:=op_sig) e r) | _ => None end) tr.

(** Synchronisations one after the other, each with the state the one before
    left, and the calls of each. *)
Inductive syncs `{UnicodeTables, FloatConversion, LibErrors, MapOrder} (cfg : Config) (clients : bool) :
    operator_state → list (list (event op_sig)) → operator_state → Prop :=
  | syncs_nil o : syncs cfg clients o [] o
  | syncs_cons o tr err o1 trs o2 :
      exec (Sync cfg clients o) tr (err, o1) → syncs cfg clients o1 trs o2 →
      syncs cfg clients o (tr :: trs) o2.

(* -------------------------------------------------------------------- *)
(** ** Lemmas *)

Section lemmas.
Context `{UnicodeTables, FloatConversion, ServerErrors, MapOrder}.

Lemma run_sync_once cfg clients o s :
  run run_handler (sync_once cfg clients o) s =
    let '((_, o'), s') := run server_handler (Sync cfg clients o) s in (o', s').
Proof.
  unfold sync_once, run_handler. rewrite run_bind, run_lift_l.
  by destruct (run server_handler (Sync cfg clients o) s) as [[? ?] ?].
Qed.

Lemma calls_sync_once cfg clients o s :
  op_calls (evt_call <$> trace run_handler (sync_once cfg clients o) s) =
    evt_call <$> trace server_handler (Sync cfg clients o) s.
Proof.
  unfold sync_once, run_handler. rewrite trace_bind, run_lift_l, fmap_app, calls_lift_l.
  destruct (run server_handler (Sync cfg clients o) s) as [[? ?] ?]. cbn [fst trace mret prog_ret].
  rewrite app_nil_r. unfold op_calls. generalize (trace server_handler (Sync cfg clients o) s).
  intros l. induction l as [|x l IH]; [done|]. cbn. f_equal. exact IH.
Qed.

Lemma op_calls_app l1 l2 : op_calls (l1 ++ l2) = op_calls l1 ++ op_calls l2.
Proof. apply omap_app. Qed.
Lemma publish_writes_app l1 l2 : publish_writes (l1 ++ l2) = publish_writes l1 ++ publish_writes l2.
Proof. apply filter_app. Qed.
Lemma publish_writes_none {h : handler op_sig server} {A} (p : prog op_sig A) s :
  Forall (λ x, is_publish_write (evt_call x) = false) (trace h p s) →
  publish_writes (evt_call <$> trace h p s) = [].
Proof.
  induction 1 as [|x l Hx _ IH]; [done|]. unfold publish_writes in *.
  rewrite fmap_cons, filter_cons. by rewrite decide_False by (rewrite Hx; done).
Qed.

(** The steady state is about slices, classes and the inventory only. *)
Lemma same_published_steady cfg desired cache s s' : same_published s s' →
  steady cfg desired cache s → steady cfg desired cache s'.
Proof. intros (Hs & Hc & _). unfold steady, published. by rewrite Hs, Hc. Qed.
Lemma same_published_named s s' : same_published s s' → well_named s → well_named s'.
Proof. intros (Hs & Hc & _). unfold well_named. by rewrite Hs, Hc. Qed.
End lemmas.

Section ends.
Context `{UnicodeTables, FloatConversion, LibErrors, MapOrder}.

Lemma op_events_lifted tr : op_events (event_l <$> tr) = tr ∧ ticks (event_l <$> tr) = [].
Proof.
  induction tr as [|[e r] tr [IH1 IH2]]; [done|]. split; [|exact IH2].
  cbn. f_equal. exact IH1.
Qed.

Lemma sync_once_exec cfg clients o tr o' : exec (sync_once cfg clients o) tr o' →
  ∃ err tr', exec (Sync cfg clients o) tr' (err, o') ∧ op_events tr = tr' ∧ ticks tr = [].
Proof.
  unfold sync_once. intros (tr1 & [err o1] & tr2 & -> & Hs & [-> ->])%exec_bind.
  apply exec_lift_l in Hs as (tr' & -> & Hs). exists err, tr'. rewrite app_nil_r.
  by destruct (op_events_lifted tr') as [-> ->].
Qed.

Lemma op_events_app tr1 tr2 : op_events (tr1 ++ tr2) = op_events tr1 ++ op_events tr2.
Proof. apply omap_app. Qed.
Lemma ticks_app tr1 tr2 : ticks (tr1 ++ tr2) = ticks tr1 ++ ticks tr2.
Proof. apply omap_app. Qed.

Lemma run_loop_exec cfg clients o n tr a : exec (run_loop cfg clients o n) tr a →
  ∃ trs o', syncs cfg clients o trs o' ∧ op_events tr = concat trs ∧
    match a with
    | Panicked => False
    | Returned => ticks tr = replicate (length trs) false ++ [true] ∧ (length trs < n)%nat
    | Running o1 => ticks tr = replicate (length trs) false ∧ length trs = n ∧ o1 = o'
    end.
Proof.
  revert o tr. induction n as [|n IH]; intros o tr; cbn [run_loop].
  { intros [-> ->]. exists [], o. split; [constructor|]. by split_and!. }
  unfold next_tick. intros (tr1 & c & tr2 & -> & (r & tr3 & -> & -> & ->) & Hx)%exec_bind.
  destruct r.
  - destruct Hx as [-> ->]. exists [], o. split; [constructor|]. split_and!; [done..|cbn; lia].
  - apply exec_bind in Hx as (tr4 & o1 & tr5 & -> & Hs & Hx).
    apply sync_once_exec in Hs as (err & tr' & Hs & Ho & Ht).
    apply IH in Hx as (trs & o' & Hxs & Hev & Hm). exists (tr' :: trs), o'.
    rewrite !op_events_app, !ticks_app, Ho, Ht, Hev. split; [by econstructor|]. split; [done|].
    destruct a; [done| |]; cbn [app length replicate].
    + destruct Hm as [-> ?]. by split; [|lia].
    + destruct Hm as (-> & -> & ->). by split_and!.
Qed.
End ends.

Section config_lemmas.
Context `{UnicodeTables} (lookup : string → option string).

Lemma envOrDefault_nonempty key fallback : fallback ≠ "" → envOrDefault lookup key fallback ≠ "".
Proof. intros Hf. unfold envOrDefault. by case_bool_decide. Qed.

(** A duration variable that is unset, or parses and passes its check. *)
Definition duration_ok (key : string) (P : Z → Prop) : Prop :=
  Getenv lookup key = "" ∨ ∃ d, ParseDuration (Getenv lookup key) = Ok d ∧ P d.

Lemma parse_duration_env_spec key fallback check :
  match parse_duration_env lookup key fallback check with
  | Ok d => (Getenv lookup key = "" ∧ d = fallback) ∨
            (Getenv lookup key ≠ "" ∧ ParseDuration (Getenv lookup key) = Ok d ∧ check d = None)
  | Err _ => ¬ duration_ok key (λ d, check d = None)
  end.
Proof.
  unfold parse_duration_env, duration_ok. case_bool_decide as Hraw.
  - destruct (ParseDuration _) as [d|e] eqn:Hd.
    + destruct (check d) eqn:Hc; [|by right]. intros [?|(d' & [= <-] & ?)]; congruence.
    + intros [?|(d' & ? & ?)]; congruence.
  - left. split; [|done]. by destruct (decide (Getenv lookup key = "")).
Qed.

Lemma negative_grace_none d : negative_grace d = None ↔ (0 ≤ d)%Z.
Proof. unfold negative_grace. destruct (Z.ltb_spec d 0); [|done]. split; [done|lia]. Qed.
End config_lemmas.

(* -------------------------------------------------------------------- *)
(** ** Theorems *)

(** An environment is accepted exactly when its durations parse, the grace
    period is not negative and the resource prefix is off or has a domain.
    An accepted configuration has names everywhere, a whole number of a unit
    means that many, and an empty prefix is not replaced by the default. *)
Theorem ConfigFromEnv_spec `{UnicodeTables} lookup :
  let prefix := envOrDefaultAllowEmpty lookup "EXTENDED_RESOURCE_PREFIX" DefaultExtendedResourcePrefix in
  match ConfigFromEnv lookup with
  | Ok c =>
      (DriverName c ≠ "" ∧ NamePrefix c ≠ "" ∧ ZoneLabelKey c ≠ "" ∧ DeviceClassPrefix c ≠ "") ∧
      ExtendedResourcePrefix c = prefix ∧ (prefix = "" ∨ contains prefix "/" = true) ∧
      (0 ≤ OrphanGracePeriod c ≤ max_int64)%Z ∧ in_int64 (ReconcileInterval c) ∧
      (∀ n u unit, (0 ≤ n)%Z → (0 < unit)%Z → (n * unit ≤ max_int64)%Z → unit_bytes (chars u) →
        unitMap (chars u) = Some unit →
        (lookup "ORPHAN_GRACE_PERIOD" = Some (itoa n +:+ u) → OrphanGracePeriod c = n * unit)%Z ∧
        (lookup "RECONCILE_INTERVAL" = Some (itoa n +:+ u) → ReconcileInterval c = n * unit)%Z)
  | Err _ =>
      ¬ (duration_ok lookup "ORPHAN_GRACE_PERIOD" (λ d, 0 ≤ d)%Z ∧
         duration_ok lookup "RECONCILE_INTERVAL" (λ _, True) ∧
         (prefix = "" ∨ contains prefix "/" = true))
  end.
Proof.
  cbv zeta. unfold ConfigFromEnv.
  pose proof (parse_duration_env_spec lookup "ORPHAN_GRACE_PERIOD" DefaultOrphanGracePeriod negative_grace) as Hg.
  pose proof (parse_duration_env_spec lookup "RECONCILE_INTERVAL" (60 * Second)%Z (λ _, None)) as Hi.
  destruct (parse_duration_env _ "ORPHAN_GRACE_PERIOD" _ _) as [grace|e]; cbn [mbind result_bind].
  2:{ intros (Hok & _). apply Hg. destruct Hok as [?|(d & ? & ?)]; [by left|]. right. exists d.
      by rewrite negative_grace_none. }
  destruct (parse_duration_env _ "RECONCILE_INTERVAL" _ _) as [interval|e]; cbn [mbind result_bind].
  2:{ intros (_ & Hok & _). apply Hi. destruct Hok as [?|(d & ? & _)]; [by left|]. right. by exists d. }
  pose proof (λ key fallback, envOrDefault_nonempty lookup key fallback) as Hne.
  rewrite !(bool_decide_false (envOrDefault _ _ _ = "")) by by apply Hne. rewrite andb_false_r.
  set (prefix := envOrDefaultAllowEmpty _ _ _).
  destruct (bool_decide (prefix ≠ "") && negb (contains prefix "/")) eqn:Hp.
  { apply andb_prop in Hp as [Hp%bool_decide_eq_true Hs%negb_true_iff]. intros (_ & _ & [?|?]); congruence. }
  cbn [DriverName NamePrefix ZoneLabelKey DeviceClassPrefix ExtendedResourcePrefix OrphanGracePeriod
    ReconcileInterval].
  assert (0 ≤ grace ≤ max_int64)%Z.
  { destruct Hg as [[_ ->]|(_ & Hd & Hn%negative_grace_none)]; [by vm_compute|].
    apply ParseDuration_range in Hd. unfold in_int64 in Hd. lia. }
  assert (in_int64 interval).
  { destruct Hi as [[_ ->]|(_ & Hd & _)]; [by vm_compute|]. by apply ParseDuration_range in Hd. }
  split_and!; [by apply Hne..|done| |lia|lia|done|].
  - apply andb_false_iff in Hp as [Hp%bool_decide_eq_false|Hp%negb_false_iff]; [|by right].
    left. by destruct (decide (prefix = "")).
  - intros n u unit Hn Hu Hmax Hb Hm.
    pose proof (ParseDuration_whole n u unit Hn Hu Hmax Hb Hm) as Hw.
    assert (itoa n +:+ u ≠ "") as Hs.
    { intros Hs%(f_equal chars). rewrite chars_app in Hs. apply app_eq_nil in Hs as [_ Hs].
      destruct Hb as [Hb _]. done. }
    unfold Getenv in *. split; intros Hl; rewrite Hl in *; cbn [default from_option id] in *.
    + destruct Hg as [[? _]|(_ & Hd & _)]; [done|]. congruence.
    + destruct Hi as [[? _]|(_ & Hd & _)]; [done|]. congruence.
Qed.

Section theorems.
Context `{UnicodeTables, FloatConversion, ServerErrors, MapOrder}.

Lemma run_loop_settled cfg clients desired n o s :
  well_named s → publishable_inventory cfg desired s → steady cfg desired (op_cache o) s →
  run (snapshot_handler (srv_inventory s)) buildDesiredPools tt = (Ok desired, tt) →
  ∃ o', (run run_handler (run_loop cfg clients o n) s).1 = Running o' ∧ op_cache o' = op_cache o ∧
    same_published s (run run_handler (run_loop cfg clients o n) s).2 ∧
    publish_writes (op_calls (evt_call <$> trace run_handler (run_loop cfg clients o n) s)) = [].
Proof.
  revert o s. induction n as [|n IH]; intros o s Hw Hinv Hst Hdes.
  { exists o. by split_and!. }
  cbn [run_loop]. unfold next_tick. rewrite run_bind, trace_bind. cbn [call run trace run_handler handler_sum fst snd].
  rewrite run_bind, trace_bind, run_sync_once, !fmap_app, !op_calls_app, calls_sync_once, !publish_writes_app.
  pose proof (Sync_quiet cfg clients o s desired Hw Hinv Hst Hdes) as [Hq Hrun].
  destruct (run server_handler (Sync cfg clients o) s) as [[err o1] s1]. cbn [fst snd].
  destruct Hrun as [Hc Hs]. pose proof Hs as (_ & _ & Hiv).
  assert (steady cfg desired (op_cache o1) s1) as Hst1 by (rewrite Hc; by eapply same_published_steady).
  destruct (IH o1 s1) as (o' & Ho & Hc' & Hs' & Hnil).
  - by eapply same_published_named.
  - by eapply steady_publishable.
  - done.
  - by rewrite Hiv.
  - exists o'. split_and!; [done|congruence|by destruct Hs as (? & ? & ?), Hs' as (? & ? & ?); split_and!; congruence|].
    rewrite (publish_writes_none _ _ Hq). exact Hnil.
Qed.

(** C13: an operator that runs, with a positive interval, against an API server
    that refuses nothing and whose inventory does not change makes everything
    as wanted in its first synchronisation and leaves it so for good: however
    many ticks follow, they write no slice and no class, and the state stays
    the steady one.  The inventory and the server have to be as for one
    synchronisation ([Sync_converges]): zones and GPU types that are DNS
    labels, capacities in range, slice names apart and not taken by others,
    objects under their own names, and sane generations.  (A pool whose zone is
    no DNS label is written at every tick, [unlabelled_pool_churns].) *)
Theorem Run_settles cfg clients s desired n :
  (0 < ReconcileInterval cfg)%Z →
  well_named s → publishable_inventory cfg desired s → good_generations cfg ∅ s →
  run (snapshot_handler (srv_inventory s)) buildDesiredPools tt = (Ok desired, tt) →
  let '(a, s') := run run_handler (Run cfg clients New n) s in
  let '((_, o1), s1) := run server_handler (Sync cfg clients New) s in
  ∃ o', a = Running o' ∧ op_cache o' = op_cache o1 ∧ steady cfg desired (op_cache o') s' ∧
    same_published s1 s' ∧
    publish_writes (op_calls (evt_call <$> trace run_handler (Run cfg clients New n) s)) =
    publish_writes (evt_call <$> trace server_handler (Sync cfg clients New) s).
Proof.
  intros Hi Hw Hinv Hgen Hdes. unfold Run. rewrite run_bind, trace_bind, run_sync_once, fmap_app.
  rewrite op_calls_app, calls_sync_once, publish_writes_app.
  pose proof (Sync_reaches_steady cfg clients New s desired Hw Hinv Hgen Hdes) as Hs.
  destruct (run server_handler (Sync cfg clients New) s) as [[err o1] s1]. cbn [fst snd].
  destruct Hs as (Hw1 & Hst & Hiv & _). rewrite <-Hiv in Hdes.
  destruct (Z.leb_spec (ReconcileInterval cfg) 0); [lia|].
  destruct (run_loop_settled cfg clients desired n o1 s1 Hw1 (steady_publishable _ _ _ _ _ Hinv Hst) Hst Hdes)
    as (o' & Ho & Hc & Hsame & Hnil).
  destruct (run run_handler (run_loop cfg clients o1 n) s1) as [a s']. cbn [fst snd] in *.
  exists o'. split_and!; [done|done|rewrite Hc; by eapply same_published_steady|done|].
  by rewrite Hnil, app_nil_r.
Qed.
End theorems.

(** Whatever fails, an operator goes on: it synchronises once at the start
    and once at each tick, each time with the state the synchronisation before
    left, and it ends only because its context is done - or at once, after the
    first synchronisation, when the interval is not positive. *)
Theorem Run_ends `{UnicodeTables, FloatConversion, LibErrors, MapOrder} cfg clients o n tr a :
  exec (Run cfg clients o n) tr a →
  ∃ trs o', syncs cfg clients o trs o' ∧ op_events tr = concat trs ∧
    match a with
    | Panicked => (ReconcileInterval cfg ≤ 0)%Z ∧ length trs = 1%nat ∧ ticks tr = []
    | Returned => (0 < ReconcileInterval cfg)%Z ∧
        ticks tr = replicate (length trs - 1) false ++ [true] ∧ (1 ≤ length trs ≤ n)%nat
    | Running o1 => (0 < ReconcileInterval cfg)%Z ∧
        ticks tr = replicate n false ∧ length trs = S n ∧ o1 = o'
    end.
Proof.
  unfold Run. intros (tr1 & o1 & tr2 & -> & Hs & Hx)%exec_bind.
  apply sync_once_exec in Hs as (err & tr' & Hs & Ho & Ht). rewrite op_events_app, ticks_app, Ho, Ht.
  destruct (Z.leb_spec (ReconcileInterval cfg) 0) as [Hi|Hi].
  - destruct Hx as [-> ->]. exists [tr'], o1. split; [econstructor; [done|constructor]|]. by split_and!.
  - apply run_loop_exec in Hx as (trs & o' & Hxs & Hev & Hm). exists (tr' :: trs), o'. rewrite Hev.
    split; [by econstructor|]. split; [done|]. destruct a; [done| |]; cbn [length app].
    + destruct Hm as [-> ?]. rewrite Nat.sub_succ, Nat.sub_0_r. split_and!; [done..|lia|lia].
    + destruct Hm as (-> & -> & ->). by split_and!.
Qed.

(* -------------------------------------------------------------------- *)
(** ** Witnesses *)

Section witnesses.
#[local] Existing Instances ascii_tables listed_order amd64_conversion status_errors
  status_server_errors.

Definition sample_operator_env (key : string) : option string :=
  if bool_decide (key = "RECONCILE_INTERVAL") then Some "0s"
  else if bool_decide (key = "EXTENDED_RESOURCE_PREFIX") then Some "" else None.

(** An interval of zero is accepted, and stops the operator with a panic after
    its first synchronisation. *)
Example zero_interval_panics :
  match ConfigFromEnv sample_operator_env with
  | Ok c => ReconcileInterval c = 0%Z ∧ ExtendedResourcePrefix c = "" ∧
      OrphanGracePeriod c = 300000000000%Z ∧
      (run run_handler (Run c false New 3) sample_server).1 = Panicked
  | Err _ => False
  end.
Proof. vm_compute. by split_and!. Qed.

Lemma Run_settles_witness :
  let '(a, s') := run run_handler (Run sample_config true New 3) sample_server in
  ∃ o', a = Running o' ∧ steady sample_config sample_desired (op_cache o') s'.
Proof.
  pose proof (Run_settles sample_config true sample_server sample_desired 3
    eq_refl ltac:(by split) sample_publishable sample_generations sample_desired_run) as Hr.
  destruct (run run_handler (Run sample_config true New 3) sample_server) as [a s'].
  destruct (run server_handler (Sync sample_config true New) sample_server) as [[? ?] ?].
  destruct Hr as (o' & Ha & _ & Hst & _). by exists o'.
Defined.

Lemma Run_ends_witness :
  ∃ tr o' trs o1, exec (Run sample_config true New 3) tr (Running o1) ∧
    syncs sample_config true New trs o' ∧ length trs = 4%nat.
Proof.
  set (p := Run sample_config true New 3).
  pose proof (run_exec run_handler p sample_server) as Hx.
  assert (match (run run_handler p sample_server).1 with Running _ => true | _ => false end = true)
    as Hr by (vm_compute; reflexivity).
  destruct (run run_handler p sample_server).1 as [| |o1] eqn:Ho; [discriminate..|].
  destruct (Run_ends sample_config true New 3 (trace run_handler p sample_server) (Running o1) Hx) as (trs & o' & Hs & _ & _ & _ & Hl & _).
  exists (trace run_handler p sample_server), o', trs, o1. exact (conj Hx (conj Hs Hl)).
Defined.
End witnesses.
