(* ===== verification/Driver.v ===== *)
(** * Daemon: the DRA driver

    internal/daemon/driver.go: preparing and unpreparing resource claims.  A
    claim's allocation is decoded from the API, an enrollment token is minted,
    the guest Secret and the CDI device are created from it, and a
    ThunderClient record ties them together; unpreparing revokes and removes
    them again.  The four stores and the API are a signature of calls. *)

From S2P Require Import Prelude GoStrings Float64 Labels ResourceSlice.

Definition GPUTypeAttributeName : string := thunderDomain +:+ "/gpu_type".
Definition ZoneAttributeName : string := thunderDomain +:+ "/zone".
Definition DefaultDriverName : string := thunderDomain.

(** [AllocatedDevice]: one GPU the scheduler assigned to a claim. *)
Record AllocatedDevice := Allocated {
  ad_RequestName : string;
  ad_PoolName : string;
  ad_DeviceName : string;
  ad_ShareID : option string
}.
#[global] Instance AllocatedDevice_eq_dec : EqDecision AllocatedDevice.
Proof. solve_decision. Defined.

Record ResourceConsumer := Consumer {
  con_APIGroup : string;
  con_Resource : string;
  con_Namespace : string;
  con_Name : string;
  con_UID : string
}.
#[global] Instance ResourceConsumer_eq_dec : EqDecision ResourceConsumer.
Proof. solve_decision. Defined.
Definition no_consumer : ResourceConsumer := Consumer "" "" "" "" "".

Record Allocation := MkAllocation {
  al_ClaimUID : string;
  al_ClaimNamespace : string;
  al_ClaimName : string;
  al_Devices : list AllocatedDevice;
  al_RequestName : string;
  al_PoolName : string;
  al_DeviceName : string;
  al_ShareID : option string;
  al_Consumer : ResourceConsumer;
  al_NodeName : string;
  al_Zone : string;
  al_GPUType : string;
  al_GPUCount : Z
}.

(** [ThunderClient]; times are seconds since the epoch, UTC. *)
Record ThunderClient := MkThunderClient {
  cl_ClaimUID : string;
  cl_ClaimNamespace : string;
  cl_ClaimName : string;
  cl_GPUType : string;
  cl_GPUCount : Z;
  cl_Zone : string;
  cl_NodeName : string;
  cl_RequestName : string;
  cl_PoolName : string;
  cl_DeviceName : string;
  cl_ShareID : option string;
  cl_Consumer : ResourceConsumer;
  cl_CDIName : string;
  cl_EnrollmentTokenID : string;
  cl_GuestNamespace : string;
  cl_GuestSecret : string;
  cl_CreatedAt : Z;
  cl_UpdatedAt : Z
}.

Record GuestArtifacts := Artifacts { ga_Namespace : string; ga_SecretName : string }.
#[global] Instance GuestArtifacts_eq_dec : EqDecision GuestArtifacts.
Proof. solve_decision. Defined.

(** [kubeletplugin.Device]. *)
Record plugin_device := PluginDevice {
  pd_Requests : list string;
  pd_PoolName : string;
  pd_DeviceName : string;
  pd_ShareID : option string;
  pd_CDIDeviceIDs : list string
}.

(** A [ResourceClaim]: the results of its allocation, if it has one, and the
    consumers it is reserved for. *)
Record device_result := DeviceResult {
  dr_Driver : string;
  dr_Request : string;
  dr_Pool : string;
  dr_Device : string;
  dr_ShareID : option string
}.
Record consumer_ref := ConsumerRef {
  ref_APIGroup : string; ref_Resource : string; ref_Name : string; ref_UID : string
}.
Record resource_claim := Claim {
  claim_UID : string;
  claim_Namespace : string;
  claim_Name : string;
  claim_allocation : option (list device_result);
  claim_ReservedFor : list consumer_ref
}.

(** What the driver calls: the API, the token issuer, the record store, the
    CDI store and the guest store. *)
Inductive driver_ev :=
  | ListSlices (driver : string)
  | Mint (allocation : Allocation)
  | Revoke (tokenID : string)
  | RevokeClient (clientID : string)
  | GetClient (claimUID : string)
  | UpsertClient (client : ThunderClient)
  | DeleteClient (claimUID : string)
  | CreateCDI (allocation : Allocation) (token : string)
  | RemoveCDI (qualifiedName : string)
  | StagedClientID (qualifiedName : string)
  | CreateGuest (allocation : Allocation) (token installCommand : string)
  | RemoveGuest (artifacts : GuestArtifacts)
  | Clock.
Definition driver_resp (e : driver_ev) : Type :=
  match e with
  | ListSlices _ => result (list resource_slice)
  | Mint _ => result (string * string)
  | GetClient _ => result ThunderClient
  | CreateCDI _ _ => result string
  | StagedClientID _ => string
  | CreateGuest _ _ _ => result GuestArtifacts
  | Clock => Z
  | _ => result unit
  end.
Definition driver_sig : sig := Sig driver_ev driver_resp.
Definition dcall (e : driver_ev) : prog driver_sig (driver_resp e) := call (S:=driver_sig) e.

(** [Driver]: which of its interfaces are set, and the install command of a
    CDI store that is a [FileCDIDeviceStore]. *)
Record Driver := MkDriver {
  d_DriverName : string;
  d_NodeName : string;
  d_Kube : bool;
  d_Tokens : bool;
  d_Clients : bool;
  d_CDI : bool;
  d_Guest : bool;
  d_FileCDIInstallCommand : option string
}.

Definition driverName (d : Driver) : string :=
  if blank (d_DriverName d) then DefaultDriverName else trim_space (d_DriverName d).

Definition validateStoresOnly (d : Driver) : result unit :=
  if negb (d_Tokens d) then Err (ErrText "token issuer is required")
  else if negb (d_Clients d) then Err (ErrText "ThunderClient store is required")
  else if negb (d_CDI d) then Err (ErrText "CDI device store is required")
  else if negb (d_Guest d) then Err (ErrText "guest config store is required")
  else Ok tt.

Definition validate (d : Driver) : result unit :=
  if negb (d_Kube d) then Err (ErrText "kubernetes client is required")
  else validateStoresOnly d.

Definition CDIInstallCommand (d : Driver) : string := default "" (d_FileCDIInstallCommand d).

Definition stringAttribute (d : device) (name : string) : string :=
  match dev_attributes d !! name with
  | Some (Some value) => trim_space value
  | _ => ""
  end.

Definition firstNonEmpty (values : list string) : string :=
  default "" (trim_space <$> find (λ v, negb (blank v)) values).

Definition devicesFor (cdiName : string) (allocation : Allocation) : list plugin_device :=
  (λ device,
    {| pd_Requests := [ad_RequestName device];
       pd_PoolName := ad_PoolName device;
       pd_DeviceName := ad_DeviceName device;
       pd_ShareID := ad_ShareID device;
       pd_CDIDeviceIDs := [cdiName] |}) <$> al_Devices allocation.

Definition firstConsumer (claim : resource_claim) : ResourceConsumer :=
  match claim_ReservedFor claim with
  | [] => no_consumer
  | c :: _ =>
      Consumer (ref_APIGroup c) (ref_Resource c) (claim_Namespace claim) (ref_Name c) (ref_UID c)
  end.

(** The two nested loops of [allocatedDevice]. *)
Definition find_device (slices : list resource_slice) (poolName deviceName : string)
    : option device :=
  head (filter (λ s, spec_pool_name (rs_spec s) = poolName) slices ≫=
        λ s, filter (λ dv, dev_name dv = deviceName) (spec_devices (rs_spec s))).

Definition allocatedDevice (d : Driver) (poolName deviceName : string)
    : prog driver_sig (result device) :=
  if negb (d_Kube d) then mret (Err (ErrText "kubernetes client is required"))
  else
    let? slices := dcall (ListSlices (driverName d)) or wrap "list ResourceSlices" in
    match find_device slices poolName deviceName with
    | Some dv => mret (Ok dv)
    | None =>
        mret (Err (ErrText ("allocated device " +:+ poolName +:+ "/" +:+ deviceName +:+
                            " was not found in ResourceSlices")))
    end.

(** The loop of [decodeAllocation] over the results; it carries the zone, the
    GPU type and the devices found so far. *)
Fixpoint decode_results (d : Driver) (results : list device_result) (zone gpuType : string)
    (devices : list AllocatedDevice)
    : prog driver_sig (result (string * string * list AllocatedDevice)) :=
  match results with
  | [] => mret (Ok (zone, gpuType, devices))
  | r :: results =>
      if bool_decide (dr_Driver r ≠ driverName d) then decode_results d results zone gpuType devices
      else
        let? dv := allocatedDevice d (dr_Pool r) (dr_Device r) or id in
        let zone' := stringAttribute dv ZoneAttributeName in
        let gpuType' := stringAttribute dv GPUTypeAttributeName in
        if bool_decide (zone' = "") || bool_decide (gpuType' = "") then
          mret (Err (ErrText ("allocated device " +:+ dr_Pool r +:+ "/" +:+ dr_Device r +:+
                              " is missing Thunder zone or gpu type attributes")))
        else if bool_decide (zone ≠ "") &&
                (bool_decide (zone ≠ zone') || bool_decide (gpuType ≠ gpuType')) then
          mret (Err (ErrText ("claim mixes Thunder pools: " +:+ zone +:+ "/" +:+ gpuType +:+
                              " and " +:+ zone' +:+ "/" +:+ gpuType')))
        else
          decode_results d results zone' gpuType'
            (devices ++ [Allocated (dr_Request r) (dr_Pool r) (dr_Device r) (dr_ShareID r)])
  end.

Definition decodeAllocation (d : Driver) (claim : resource_claim)
    : prog driver_sig (result Allocation) :=
  match claim_allocation claim with
  | None => mret (Err (ErrText "claim is not allocated"))
  | Some results =>
      let? found := decode_results d results "" "" [] or id in
      let '(zone, gpuType, devices) := found in
      match devices with
      | [] =>
          mret (Err (ErrText ("claim has no allocation result for driver " +:+ driverName d)))
      | first :: _ =>
          mret (Ok
            {| al_ClaimUID := claim_UID claim;
               al_ClaimNamespace := claim_Namespace claim;
               al_ClaimName := claim_Name claim;
               al_Devices := devices;
               al_RequestName := ad_RequestName first;
               al_PoolName := ad_PoolName first;
               al_DeviceName := ad_DeviceName first;
               al_ShareID := ad_ShareID first;
               al_Consumer := firstConsumer claim;
               al_NodeName := d_NodeName d;
               al_Zone := zone;
               al_GPUType := gpuType;
               al_GPUCount := Z.of_nat (length devices) |})
      end
  end.

Definition thunderClientFromAllocation (now : Z) (allocation : Allocation) : ThunderClient :=
  {| cl_ClaimUID := al_ClaimUID allocation;
     cl_ClaimNamespace := al_ClaimNamespace allocation;
     cl_ClaimName := al_ClaimName allocation;
     cl_GPUType := al_GPUType allocation;
     cl_GPUCount := al_GPUCount allocation;
     cl_Zone := al_Zone allocation;
     cl_NodeName := al_NodeName allocation;
     cl_RequestName := al_RequestName allocation;
     cl_PoolName := al_PoolName allocation;
     cl_DeviceName := al_DeviceName allocation;
     cl_ShareID := al_ShareID allocation;
     cl_Consumer := al_Consumer allocation;
     cl_CDIName := "";
     cl_EnrollmentTokenID := "";
     cl_GuestNamespace := "";
     cl_GuestSecret := "";
     cl_CreatedAt := now;
     cl_UpdatedAt := now |}.

(** The record with what was created for it. *)
Definition with_artifacts (c : ThunderClient) (cdiName tokenID : string) (ga : GuestArtifacts)
    : ThunderClient :=
  {| cl_ClaimUID := cl_ClaimUID c;
     cl_ClaimNamespace := cl_ClaimNamespace c;
     cl_ClaimName := cl_ClaimName c;
     cl_GPUType := cl_GPUType c;
     cl_GPUCount := cl_GPUCount c;
     cl_Zone := cl_Zone c;
     cl_NodeName := cl_NodeName c;
     cl_RequestName := cl_RequestName c;
     cl_PoolName := cl_PoolName c;
     cl_DeviceName := cl_DeviceName c;
     cl_ShareID := cl_ShareID c;
     cl_Consumer := cl_Consumer c;
     cl_CDIName := cdiName;
     cl_EnrollmentTokenID := tokenID;
     cl_GuestNamespace := ga_Namespace ga;
     cl_GuestSecret := ga_SecretName ga;
     cl_CreatedAt := cl_CreatedAt c;
     cl_UpdatedAt := cl_UpdatedAt c |}.

(** [prepareOne] after the record was looked up and found missing or
    incomplete: acquire the token, the guest artifacts, the CDI device and
    the record, and release what was acquired when a later step fails. *)
Definition prepare_new (d : Driver) (allocation : Allocation)
    : prog driver_sig (result (list plugin_device)) :=
  let? (tokenID, token) := dcall (Mint allocation) or wrap "mint client enrollment token" in
  guest ← dcall (CreateGuest allocation token (CDIInstallCommand d));
  match guest with
  | Err e =>
      _ ← dcall (Revoke tokenID);
      mret (Err (wrap "create guest Thunder artifacts" e))
  | Ok guestArtifacts =>
      cdi ← dcall (CreateCDI allocation token);
      match cdi with
      | Err e =>
          _ ← dcall (RemoveGuest guestArtifacts);
          _ ← dcall (Revoke tokenID);
          mret (Err (wrap "create CDI device" e))
      | Ok cdiName =>
          now ← dcall Clock;
          let client := with_artifacts (thunderClientFromAllocation now allocation)
                          cdiName tokenID guestArtifacts in
          r ← dcall (UpsertClient client);
          match r with
          | Err e =>
              _ ← dcall (RemoveCDI cdiName);
              _ ← dcall (RemoveGuest guestArtifacts);
              _ ← dcall (Revoke tokenID);
              mret (Err (wrap "upsert ThunderClient" e))
          | Ok _ => mret (Ok (devicesFor cdiName allocation))
          end
      end
  end.

Definition prepareOne (d : Driver) (claim : resource_claim)
    : prog driver_sig (result (list plugin_device)) :=
  let! _ := validate d or id in
  let? allocation := decodeAllocation d claim or wrap "decode allocation" in
  existing ← dcall (GetClient (claim_UID claim));
  match existing with
  | Ok existing =>
      if bool_decide (cl_EnrollmentTokenID existing ≠ "") && bool_decide (cl_CDIName existing ≠ "")
      then mret (Ok (devicesFor (cl_CDIName existing) allocation))
      else prepare_new d allocation
  | Err e =>
      if is_not_found e then prepare_new d allocation
      else mret (Err (wrap "load ThunderClient" e))
  end.

(** [kubeletplugin.NamespacedObject]. *)
Record namespaced_object := NamespacedObject {
  no_Namespace : string; no_Name : string; no_UID : string
}.

Section unprepare.
Context `{UnicodeTables}.

(** The steps of [unprepareOne] after the record is loaded, last one first:
    the record, the guest artifacts, the CDI device, the token. *)
Definition unprepare_record (claim : namespaced_object) : prog driver_sig (result unit) :=
  r ← dcall (DeleteClient (no_UID claim));
  match r with
  | Err e => if is_not_found e then mret (Ok tt) else mret (Err (wrap "delete ThunderClient" e))
  | Ok _ => mret (Ok tt)
  end.

Definition unprepare_guest (claim : namespaced_object) (client : ThunderClient)
    : prog driver_sig (result unit) :=
  let? _ := dcall (RemoveGuest
      {| ga_Namespace := firstNonEmpty
           [cl_GuestNamespace client; cl_ClaimNamespace client; no_Namespace claim];
         ga_SecretName := cl_GuestSecret client |})
    or wrap "remove guest Thunder artifacts" in
  unprepare_record claim.

Definition unprepare_cdi (claim : namespaced_object) (client : ThunderClient)
    : prog driver_sig (result unit) :=
  if negb (blank (cl_CDIName client)) then
    let? _ := dcall (RemoveCDI (cl_CDIName client))
      or wrap ("remove CDI device " +:+ quote (cl_CDIName client)) in
    unprepare_guest claim client
  else unprepare_guest claim client.

Definition unprepare_token (claim : namespaced_object) (client : ThunderClient)
    : prog driver_sig (result unit) :=
  if negb (blank (cl_EnrollmentTokenID client)) then
    let? _ := dcall (Revoke (cl_EnrollmentTokenID client))
      or wrap ("revoke enrollment token " +:+ quote (cl_EnrollmentTokenID client)) in
    unprepare_cdi claim client
  else unprepare_cdi claim client.

Definition unprepareOne (d : Driver) (claim : namespaced_object) : prog driver_sig (result unit) :=
  let! _ := validateStoresOnly d or id in
  r ← dcall (GetClient (no_UID claim));
  match r with
  | Err e => if is_not_found e then mret (Ok tt) else mret (Err (wrap "load ThunderClient" e))
  | Ok client =>
      clientID ← (if negb (blank (cl_CDIName client))
                  then dcall (StagedClientID (cl_CDIName client))
                  else mret "");
      if bool_decide (clientID ≠ "") then
        let? _ := dcall (RevokeClient clientID) or wrap ("revoke thunder client " +:+ quote clientID) in
        unprepare_token claim client
      else unprepare_token claim client
  end.

(** The kubelet's two entry points: every claim of the batch is handled, and
    its outcome filed under its UID. *)
Fixpoint PrepareResourceClaims (d : Driver) (claims : list resource_claim)
    (done : gmap string (result (list plugin_device)))
    : prog driver_sig (gmap string (result (list plugin_device))) :=
  match claims with
  | [] => mret done
  | claim :: claims =>
      r ← prepareOne d claim;
      PrepareResourceClaims d claims (<[claim_UID claim := r]> done)
  end.

Fixpoint UnprepareResourceClaims (d : Driver) (claims : list namespaced_object)
    (done : gmap string (result unit)) : prog driver_sig (gmap string (result unit)) :=
  match claims with
  | [] => mret done
  | claim :: claims =>
      r ← unprepareOne d claim;
      UnprepareResourceClaims d claims (<[no_UID claim := r]> done)
  end.
End unprepare.
