(* ===== verification/DriverSpec.v ===== *)
(** * Daemon: what the driver promises

    Properties of Driver.v, whatever the API, the issuer and the stores
    answer: a failed prepare gives back everything it acquired, in reverse
    order; unprepare forgets a claim only after everything held for it is
    gone. *)

From S2P Require Import Prelude GoStrings Float64 Labels ResourceSlice Driver.

Abbreviation dev := (Ev (S:=driver_sig)).
Implicit Types (pre tr : list (event driver_sig)) (d : Driver) (c : ThunderClient).

(** What a claim holds outside the driver. *)
Inductive held :=
  | HeldToken (tokenID : string)
  | HeldGuest (artifacts : GuestArtifacts)
  | HeldCDI (qualifiedName : string).

Definition acquired_by (x : event driver_sig) : list held :=
  let 'Ev e r := x in
  match e return driver_resp e → list held with
  | Mint _ => λ r, match r with Ok (tokenID, _) => [HeldToken tokenID] | Err _ => [] end
  | CreateGuest _ _ _ => λ r, match r with Ok ga => [HeldGuest ga] | Err _ => [] end
  | CreateCDI _ _ => λ r, match r with Ok name => [HeldCDI name] | Err _ => [] end
  | _ => λ _, []
  end r.
Definition released_by (x : event driver_sig) : list held :=
  match evt_call x with
  | Revoke tokenID => [HeldToken tokenID]
  | RemoveGuest ga => [HeldGuest ga]
  | RemoveCDI name => [HeldCDI name]
  | _ => []
  end.
Definition acquired tr : list held := tr ≫= acquired_by.
Definition released tr : list held := tr ≫= released_by.

(** The results of a claim that belong to this driver. *)
Definition own_results d (claim : resource_claim) : list device_result :=
  filter (λ r, dr_Driver r = driverName d) (default [] (claim_allocation claim)).
Definition allocated_of (r : device_result) : AllocatedDevice :=
  Allocated (dr_Request r) (dr_Pool r) (dr_Device r) (dr_ShareID r).

(** A result was found in a listing of this run, in the given zone and of the
    given GPU type. *)
Definition found_in d tr (zone gpuType : string) (r : device_result) : Prop :=
  ∃ slices dv, dev (ListSlices (driverName d)) (Ok slices) ∈ tr ∧
    find_device slices (dr_Pool r) (dr_Device r) = Some dv ∧
    stringAttribute dv ZoneAttributeName = zone ∧
    stringAttribute dv GPUTypeAttributeName = gpuType.

(** What unprepare has to show of the record [c] before each step. *)
Definition loaded (uid : string) pre c : Prop := dev (GetClient uid) (Ok c) ∈ pre.
Definition client_revoked pre c : Prop :=
  blank (cl_CDIName c) = true ∨
  ∃ id, dev (StagedClientID (cl_CDIName c)) id ∈ pre ∧
    (id = "" ∨ dev (RevokeClient id) (Ok tt) ∈ pre).
Definition token_revoked pre c : Prop :=
  blank (cl_EnrollmentTokenID c) = true ∨ dev (Revoke (cl_EnrollmentTokenID c)) (Ok tt) ∈ pre.
Definition cdi_removed pre c : Prop :=
  blank (cl_CDIName c) = true ∨ dev (RemoveCDI (cl_CDIName c)) (Ok tt) ∈ pre.
Definition guest_of (claim : namespaced_object) c : GuestArtifacts :=
  Artifacts (firstNonEmpty [cl_GuestNamespace c; cl_ClaimNamespace c; no_Namespace claim])
    (cl_GuestSecret c).
Definition guest_removed (claim : namespaced_object) pre c : Prop :=
  dev (RemoveGuest (guest_of claim c)) (Ok tt) ∈ pre.

Definition unprepare_may (claim : namespaced_object) pre (e : driver_ev) : Prop :=
  let record P := ∃ c, loaded (no_UID claim) pre c ∧ P c in
  match e with
  | GetClient uid => uid = no_UID claim
  | StagedClientID name => record (λ c, name = cl_CDIName c)
  | RevokeClient id => id ≠ "" ∧ record (λ c, dev (StagedClientID (cl_CDIName c)) id ∈ pre)
  | Revoke t => record (λ c, t = cl_EnrollmentTokenID c ∧ client_revoked pre c)
  | RemoveCDI n => record (λ c, n = cl_CDIName c ∧ client_revoked pre c ∧ token_revoked pre c)
  | RemoveGuest ga => record (λ c, ga = guest_of claim c ∧ client_revoked pre c ∧
      token_revoked pre c ∧ cdi_removed pre c)
  | DeleteClient uid => uid = no_UID claim ∧ record (λ c, client_revoked pre c ∧
      token_revoked pre c ∧ cdi_removed pre c ∧ guest_removed claim pre c)
  | _ => False
  end.

(** How an unprepare that reports success ended. *)
Definition unprepared (claim : namespaced_object) tr : Prop :=
  (∃ e, dev (GetClient (no_UID claim)) (Err e) ∈ tr ∧ is_not_found e = true) ∨
  (∃ c r, loaded (no_UID claim) tr c ∧ client_revoked tr c ∧ token_revoked tr c ∧
     cdi_removed tr c ∧ guest_removed claim tr c ∧
     dev (DeleteClient (no_UID claim)) r ∈ tr ∧
     match r with Ok _ => True | Err e => is_not_found e = true end).

(* -------------------------------------------------------------------- *)
(** ** Lemmas *)

Lemma exec_dcall {B} e (f : driver_resp e → prog driver_sig B) tr b :
  exec (dcall e ≫= f) tr b ↔ ∃ r tr', tr = dev e r :: tr' ∧ exec (f r) tr' b.
Proof. done. Qed.

(** Take the call an execution starts with apart. *)
Ltac exec_step H r tr :=
  apply exec_dcall in H; destruct H as (r & tr & -> & H); cbn [prog_bind prog_bind_def] in H.

Lemma acquired_app tr1 tr2 : acquired (tr1 ++ tr2) = acquired tr1 ++ acquired tr2.
Proof. apply bind_app. Qed.
Lemma released_app tr1 tr2 : released (tr1 ++ tr2) = released tr1 ++ released tr2.
Proof. apply bind_app. Qed.

(** Looking a device up only lists slices. *)
Lemma allocatedDevice_exec d pool name tr a :
  exec (allocatedDevice d pool name) tr a →
  acquired tr = [] ∧ released tr = [] ∧
  ∀ dv, a = Ok dv → ∃ slices, dev (ListSlices (driverName d)) (Ok slices) ∈ tr ∧
    find_device slices pool name = Some dv.
Proof.
  unfold allocatedDevice. destruct (d_Kube d); cbn [negb]; [|by intros [-> ->]].
  unfold orfail. intros Hx. exec_step Hx r tr'. destruct r as [slices|e].
  - revert Hx. destruct (find_device slices pool name) as [dv|] eqn:Hf; intros [-> ->];
      (split_and!; [done..|]); [|done].
    intros ? [= <-]. exists slices. split; [by left|done].
  - destruct Hx as [-> ->]. by split_and!.
Qed.

(** Decoding only reads. *)
Lemma decode_results_exec d results zone gpuType devices tr a :
  exec (decode_results d results zone gpuType devices) tr a →
  acquired tr = [] ∧ released tr = [] ∧
  ∀ zone' gpuType' devices', a = Ok (zone', gpuType', devices') →
    let own := filter (λ r, dr_Driver r = driverName d) results in
    devices' = devices ++ (allocated_of <$> own) ∧
    Forall (found_in d tr zone' gpuType') own ∧
    (own ≠ [] → zone' ≠ "" ∧ gpuType' ≠ "") ∧
    (own = [] ∨ zone ≠ "" → zone' = zone ∧ gpuType' = gpuType).
Proof.
  revert zone gpuType devices tr. induction results as [|r results IH];
    intros zone gpuType devices tr; cbn [decode_results].
  { intros [-> ->]. split_and!; [done..|]. intros ??? [= <- <- <-]. cbn.
    rewrite app_nil_r. by split_and!. }
  case_bool_decide as Hdr.
  { intros (? & ? & Hok)%IH. split_and!; [done..|]. by rewrite filter_cons_False. }
  intros (tr1 & a1 & tr2 & -> & (Ha1 & Hr1 & Hdv)%allocatedDevice_exec & Hx)%exec_bind.
  rewrite acquired_app, released_app, Ha1, Hr1.
  destruct a1 as [dv|e]; [|by destruct Hx as [-> ->]]. destruct (Hdv dv eq_refl) as (slices & Hin & Hf).
  destruct (bool_decide (stringAttribute dv ZoneAttributeName = "") || _) eqn:Hb1; [by destruct Hx as [-> ->]|].
  destruct (bool_decide (zone ≠ "") && _) eqn:Hb2; [by destruct Hx as [-> ->]|].
  apply IH in Hx as (Ha2 & Hr2 & Hok). rewrite Ha2, Hr2. split_and!; [done..|].
  intros zone' gpuType' devices' Heq. destruct (Hok _ _ _ Heq) as (-> & Hall & Hne & Hkeep).
  apply orb_false_iff in Hb1 as [Hz%bool_decide_eq_false Hg%bool_decide_eq_false].
  destruct Hkeep as [-> ->]; [by right|]. rewrite filter_cons_True by done. cbn zeta. split_and!.
  - by rewrite fmap_cons, <-app_assoc.
  - constructor.
    + exists slices, dv. rewrite elem_of_app. by auto.
    + eapply Forall_impl; [exact Hall|]. intros x (sl & v & Hsl & Hrest). exists sl, v.
      rewrite elem_of_app. by auto.
  - done.
  - intros [?|Hz0]; [done|]. rewrite bool_decide_true in Hb2 by done. cbn [andb] in Hb2.
    apply orb_false_iff in Hb2 as [Hzz%bool_decide_eq_false Hgg%bool_decide_eq_false].
    apply dec_stable in Hzz, Hgg. done.
Qed.

Lemma decodeAllocation_exec d claim tr a :
  exec (decodeAllocation d claim) tr a →
  acquired tr = [] ∧ released tr = [] ∧
  ∀ al, a = Ok al →
    al_Devices al = allocated_of <$> own_results d claim ∧ al_Devices al ≠ [] ∧
    al_GPUCount al = Z.of_nat (length (al_Devices al)) ∧
    al_Zone al ≠ "" ∧ al_GPUType al ≠ "" ∧
    Forall (found_in d tr (al_Zone al) (al_GPUType al)) (own_results d claim) ∧
    al_ClaimUID al = claim_UID claim ∧ al_ClaimNamespace al = claim_Namespace claim ∧
    al_ClaimName al = claim_Name claim ∧ al_NodeName al = d_NodeName d.
Proof.
  unfold decodeAllocation, own_results. destruct (claim_allocation claim) as [results|];
    [|by intros [-> ->]].
  unfold orfail. cbn [default from_option id].
  intros (tr1 & a1 & tr2 & -> & (Ha & Hr & Hok)%decode_results_exec & Hx)%exec_bind.
  rewrite acquired_app, released_app, Ha, Hr.
  destruct a1 as [[[zone gpuType] devices]|e]; [|by destruct Hx as [-> ->]].
  destruct (Hok _ _ _ eq_refl) as (Hdev & Hall & Hne & _). cbn [app] in Hdev.
  destruct devices as [|first devices]; destruct Hx as [-> ->]; [by split_and!|].
  split_and!; [done..|]. intros al [= <-].
  cbn [al_Devices al_GPUCount al_Zone al_GPUType al_ClaimUID al_ClaimNamespace al_ClaimName al_NodeName].
  rewrite app_nil_r. destruct Hne as [Hz Hg]; [by intros Hn; rewrite Hn in Hdev|]. by split_and!.
Qed.

(** What a run that acquires and gives back leaves. *)
Lemma prepare_new_exec d al tr a : exec (prepare_new d al) tr a →
  match a with
  | Err _ => released tr = reverse (acquired tr)
  | Ok devices => ∃ tokenID ga name now tr0,
      released tr = [] ∧ acquired tr = [HeldToken tokenID; HeldGuest ga; HeldCDI name] ∧
      tr = tr0 ++ [dev (UpsertClient (with_artifacts (thunderClientFromAllocation now al)
                      name tokenID ga)) (Ok tt)] ∧
      devices = devicesFor name al
  end.
Proof.
  unfold prepare_new, orfail. intros Hx. exec_step Hx r tr1.
  destruct r as [[tokenID token]|e]; [|by destruct Hx as [-> ->]].
  exec_step Hx r tr2. destruct r as [ga|e].
  2:{ exec_step Hx r tr3; destruct Hx as [-> ->]. done. }
  exec_step Hx r tr3. destruct r as [name|e].
  2:{ exec_step Hx r tr4.
      exec_step Hx r' tr5; destruct Hx as [-> ->]. done. }
  exec_step Hx now tr4.
  exec_step Hx r tr5. destruct r as [[]|e].
  - destruct Hx as [-> ->]. exists tokenID, ga, name, now.
    exists [dev (Mint al) (Ok (tokenID, token));
            dev (CreateGuest al token (CDIInstallCommand d)) (Ok ga);
            dev (CreateCDI al token) (Ok name); dev Clock now]. by split_and!.
  - exec_step Hx r1 tr6. exec_step Hx r2 tr7.
    exec_step Hx r3 tr8; destruct Hx as [-> ->]. done.
Qed.

Section unprepare_lemmas.
Context `{UnicodeTables}.

Lemma wp_dcall {B} (G : list (event driver_sig) → driver_ev → Prop) pre e
    (f : driver_resp e → prog driver_sig B) Q :
  G pre e → (∀ r, wp G (pre ++ [dev e r]) (f r) Q) → wp G pre (dcall e ≫= f) Q.
Proof. by split. Qed.

(** The facts a step relies on stay true as the run goes on. *)
Lemma loaded_app uid pre x c : loaded uid pre c → loaded uid (pre ++ x) c.
Proof. unfold loaded. set_solver. Qed.
Lemma client_revoked_app pre x c : client_revoked pre c → client_revoked (pre ++ x) c.
Proof. intros [?|(id & ? & Hid)]; [by left|right; exists id]. set_solver. Qed.
Lemma token_revoked_app pre x c : token_revoked pre c → token_revoked (pre ++ x) c.
Proof. intros [?|?]; [by left|right; set_solver]. Qed.
Lemma cdi_removed_app pre x c : cdi_removed pre c → cdi_removed (pre ++ x) c.
Proof. intros [?|?]; [by left|right; set_solver]. Qed.
#[local] Hint Resolve loaded_app client_revoked_app token_revoked_app cdi_removed_app
  elem_of_last : core.

(** The steps, last one first. *)
Lemma unprepare_record_wp claim pre c :
  loaded (no_UID claim) pre c → client_revoked pre c → token_revoked pre c → cdi_removed pre c →
  guest_removed claim pre c →
  wp (unprepare_may claim) pre (unprepare_record claim) (λ tr r, r = Ok tt → unprepared claim tr).
Proof.
  intros Hl Hc Ht Hd Hg. unfold unprepare_record. apply wp_dcall.
  { split; [done|]. exists c. by split_and!. }
  intros r. assert (match r with Ok _ => True | Err e => is_not_found e = true end →
    unprepared claim (pre ++ [dev (DeleteClient (no_UID claim)) r])) as Hdone.
  { intros Hr. right. exists c, r. unfold guest_removed in *. split_and!; eauto. set_solver. }
  destruct r as [?|e]; [by intros _; apply Hdone|].
  destruct (is_not_found e) eqn:?; [by intros _; apply Hdone|done].
Qed.

Lemma unprepare_guest_wp claim pre c :
  loaded (no_UID claim) pre c → client_revoked pre c → token_revoked pre c → cdi_removed pre c →
  wp (unprepare_may claim) pre (unprepare_guest claim c) (λ tr r, r = Ok tt → unprepared claim tr).
Proof.
  intros Hl Hc Ht Hd. apply wp_dcall; [exists c; by split_and!|]. intros [[]|e]; [|done].
  apply (unprepare_record_wp _ _ c); eauto. apply elem_of_last.
Qed.

Lemma unprepare_cdi_wp claim pre c :
  loaded (no_UID claim) pre c → client_revoked pre c → token_revoked pre c →
  wp (unprepare_may claim) pre (unprepare_cdi claim c) (λ tr r, r = Ok tt → unprepared claim tr).
Proof.
  intros Hl Hc Ht. unfold unprepare_cdi. destruct (blank (cl_CDIName c)) eqn:Hb; cbn [negb].
  { apply unprepare_guest_wp; [done..|by left]. }
  apply wp_dcall; [exists c; by split_and!|]. intros [[]|e]; [|done].
  apply unprepare_guest_wp; eauto. right. apply elem_of_last.
Qed.

Lemma unprepare_token_wp claim pre c :
  loaded (no_UID claim) pre c → client_revoked pre c →
  wp (unprepare_may claim) pre (unprepare_token claim c) (λ tr r, r = Ok tt → unprepared claim tr).
Proof.
  intros Hl Hc. unfold unprepare_token.
  destruct (blank (cl_EnrollmentTokenID c)) eqn:Hb; cbn [negb].
  { apply unprepare_cdi_wp; [done..|by left]. }
  apply wp_dcall; [exists c; by split_and!|]. intros [[]|e]; [|done].
  apply unprepare_cdi_wp; eauto. right. apply elem_of_last.
Qed.

Lemma unprepareOne_wp d claim :
  wp (unprepare_may claim) [] (unprepareOne d claim) (λ tr r, r = Ok tt → unprepared claim tr).
Proof.
  unfold unprepareOne. destruct (validateStoresOnly d); [|done]. cbn [orfail_pure].
  apply wp_dcall; [done|]. intros [c|e]; cbn [app].
  - set (pre := [_]). assert (loaded (no_UID claim) pre c) as Hl by by left.
    destruct (blank (cl_CDIName c)) eqn:Hb; cbn [negb].
    { apply unprepare_token_wp; [done|by left]. }
    apply wp_dcall; [exists c; by split|]. intros id.
    case_bool_decide as Hid.
    + apply wp_dcall.
      { split; [done|]. exists c. split; [eauto|]. apply elem_of_last. }
      intros [[]|e]; [|done]. apply unprepare_token_wp; [eauto|].
      right. exists id. split; [|right; apply elem_of_last].
      apply elem_of_app. left. apply elem_of_last.
    + apply unprepare_token_wp; [eauto|]. right. exists id. split; [apply elem_of_last|by left].
  - destruct (is_not_found e) eqn:He; [|done]. intros _. left. exists e. split; [by left|done].
Qed.
End unprepare_lemmas.

Section theorems.
Context `{UnicodeTables}.

(** C30: a decoded allocation lists exactly this driver's devices of the claim,
    in order and at least one, counts one GPU per device, and every device
    was found in the API's slices with the zone and GPU type the allocation
    names; a claim that mixes zones or types is never decoded. *)
Theorem decodeAllocation_sound d claim tr al :
  exec (decodeAllocation d claim) tr (Ok al) →
  al_Devices al = allocated_of <$> own_results d claim ∧ al_Devices al ≠ [] ∧
  al_GPUCount al = Z.of_nat (length (al_Devices al)) ∧
  al_Zone al ≠ "" ∧ al_GPUType al ≠ "" ∧
  Forall (found_in d tr (al_Zone al) (al_GPUType al)) (own_results d claim).
Proof. intros (_ & _ & Hok)%decodeAllocation_exec. destruct (Hok al eq_refl) as (?&?&?&?&?&?&_). by split_and!. Qed.

(** C4: whatever the API, the issuer and the stores answer, a prepare that
    fails gives back everything it acquired, in the reverse order, and
    nothing else; one that succeeds gives nothing back, and either acquired
    nothing because a complete record existed, or acquired a token, a guest
    Secret and a CDI device and as its last step stored a record that names
    all three; it reports one device per allocated GPU, all with that CDI
    device. *)
Theorem prepareOne_all_or_nothing d claim tr a : exec (prepareOne d claim) tr a →
  match a with
  | Err _ => released tr = reverse (acquired tr)
  | Ok devices => released tr = [] ∧ ∃ al,
      al_Devices al = allocated_of <$> own_results d claim ∧ al_ClaimUID al = claim_UID claim ∧
      ((acquired tr = [] ∧ ∃ c, dev (GetClient (claim_UID claim)) (Ok c) ∈ tr ∧
          cl_EnrollmentTokenID c ≠ "" ∧ cl_CDIName c ≠ "" ∧ devices = devicesFor (cl_CDIName c) al) ∨
       (∃ tokenID ga name now tr0,
          acquired tr = [HeldToken tokenID; HeldGuest ga; HeldCDI name] ∧
          tr = tr0 ++ [dev (UpsertClient (with_artifacts (thunderClientFromAllocation now al)
                          name tokenID ga)) (Ok tt)] ∧
          devices = devicesFor name al))
  end.
Proof.
  unfold prepareOne. destruct (validate d) as [[]|e]; cbn [orfail_pure]; [|by intros [-> ->]].
  unfold orfail. intros (tr1 & al & tr2 & -> & (Ha & Hr & Hok)%decodeAllocation_exec & Hx)%exec_bind.
  rewrite acquired_app, released_app, Ha, Hr. cbn [app].
  destruct al as [al|e]; [|by destruct Hx as [-> ->]].
  destruct (Hok al eq_refl) as (Hdev & _ & _ & _ & _ & _ & Huid & _).
  exec_step Hx r tr3.
  assert (∀ tr3, exec (prepare_new d al) tr3 a →
    match a with
    | Err _ => released (dev (GetClient (claim_UID claim)) r :: tr3) =
               reverse (acquired (dev (GetClient (claim_UID claim)) r :: tr3))
    | Ok devices => released (dev (GetClient (claim_UID claim)) r :: tr3) = [] ∧
        ∃ tokenID ga name now tr0,
          acquired (dev (GetClient (claim_UID claim)) r :: tr3) =
            [HeldToken tokenID; HeldGuest ga; HeldCDI name] ∧
          tr1 ++ dev (GetClient (claim_UID claim)) r :: tr3 = tr0 ++
            [dev (UpsertClient (with_artifacts (thunderClientFromAllocation now al)
              name tokenID ga)) (Ok tt)] ∧
          devices = devicesFor name al
    end) as Hnew.
  { intros tr' Hn%prepare_new_exec. destruct a as [devices|e]; [|done].
    destruct Hn as (tokenID & ga & name & now & tr0 & ? & ? & -> & ?). split; [done|].
    exists tokenID, ga, name, now, (tr1 ++ dev (GetClient (claim_UID claim)) r :: tr0).
    split; [done|]. by rewrite <-app_assoc. }
  assert (exec (prepare_new d al) tr3 a →
    match a with
    | Err _ => released (dev (GetClient (claim_UID claim)) r :: tr3) =
               reverse (acquired (dev (GetClient (claim_UID claim)) r :: tr3))
    | Ok _ => True end) by (intros Hn%Hnew; by destruct a).
  destruct r as [c|e].
  - destruct (bool_decide _ && bool_decide _) eqn:Hb.
    + destruct Hx as [-> ->]. apply andb_prop in Hb as [?%bool_decide_eq_true ?%bool_decide_eq_true].
      split; [done|]. exists al. split_and!; [done..|]. left. split; [done|]. exists c.
      split_and!; [|done..]. apply elem_of_last.
    + apply Hnew in Hx. destruct a; [|done]. destruct Hx as [Hrel Hx]. split; [done|].
      exists al. naive_solver.
  - destruct (is_not_found e); [|by destruct Hx as [-> ->]].
    apply Hnew in Hx. destruct a; [|done]. destruct Hx as [Hrel Hx]. split; [done|].
    exists al. naive_solver.
Qed.

(** C5: whatever the stores and the issuer answer, unprepare proceeds in one
    order, each step only after the ones before it succeeded for the record
    it loaded: the enrolled client is revoked, then the token, then the CDI
    device and the guest artifacts are removed, and the record is deleted
    last; it creates nothing; and it reports success only when there was no
    record or all of this was done. *)
Theorem unprepareOne_safe d claim tr a : exec (unprepareOne d claim) tr a →
  (a = Ok tt → unprepared claim tr) ∧
  ∀ tr1 e r tr2, tr = tr1 ++ dev e r :: tr2 → unprepare_may claim tr1 e.
Proof. exact (wp_sound _ [] _ _ tr a (unprepareOne_wp d claim)). Qed.
End theorems.
