(* ===== verification/Lifecycle.v ===== *)
(** * Daemon: the life of a claim

    The driver of Driver.v against a backend that keeps tokens, clients,
    Secrets, CDI devices and records and may refuse any call that creates
    something: prepare is all or nothing and idempotent, and unprepare gives
    back everything prepare and the CDI hook left. *)

From S2P Require Import Prelude GoStrings Float64 Labels ResourceSlice Driver DriverSpec.


Record backend := Backend {
  b_slices : list resource_slice;
  b_minted : Z;
  b_tokens : gset string;
  b_clients : gset string;
  b_staged : gmap string string;
  b_guests : gset (string * string);
  b_cdi : gset string;
  b_records : gmap string ThunderClient
}.

(** Everything a claim can hold, without the count of tokens minted so far. *)
Definition holdings (w : backend) :=
  (b_tokens w, b_clients w, b_staged w, b_guests w, b_cdi w, b_records w).

Section backend.
(** The names the stores give, and which calls fail, without effect. *)
Context (guest_name : Allocation → string * string) (cdi_name : Allocation → string)
  (refuse : driver_ev → option error).

Definition minted_name (n : Z) : string := "tok-" +:+ itoa n.

Definition serve (e : driver_ev) (w : backend) : driver_resp e * backend :=
  let 'Backend sl n tk cs st gs cd rs := w in
  match e return driver_resp e * backend with
  | ListSlices _ => (Ok sl, w)
  | Mint _ =>
      (Ok (minted_name n, "secret"), Backend sl (n + 1) ({[minted_name n]} ∪ tk) cs st gs cd rs)
  | Revoke t => (Ok tt, Backend sl n (tk ∖ {[t]}) cs st gs cd rs)
  | RevokeClient id => (Ok tt, Backend sl n tk (cs ∖ {[id]}) st gs cd rs)
  | GetClient uid => (match rs !! uid with Some c => Ok c | None => Err ErrNotFound end, w)
  | UpsertClient c => (Ok tt, Backend sl n tk cs st gs cd (<[cl_ClaimUID c := c]> rs))
  | DeleteClient uid => (Ok tt, Backend sl n tk cs st gs cd (delete uid rs))
  | CreateCDI al _ => (Ok (cdi_name al), Backend sl n tk cs st gs ({[cdi_name al]} ∪ cd) rs)
  | RemoveCDI name => (Ok tt, Backend sl n tk cs (delete name st) gs (cd ∖ {[name]}) rs)
  | StagedClientID name => (default "" (st !! name), w)
  | CreateGuest al _ _ =>
      (Ok (Artifacts (guest_name al).1 (guest_name al).2),
       Backend sl n tk cs st ({[guest_name al]} ∪ gs) cd rs)
  | RemoveGuest ga =>
      (Ok tt, Backend sl n tk cs st (gs ∖ {[(ga_Namespace ga, ga_SecretName ga)]}) cd rs)
  | Clock => (0%Z, w)
  end.

(** A refused call fails; the calls that cannot fail are served. *)
Definition backend_handler : handler driver_sig backend :=
  λ e w, match refuse e with
  | None => serve e w
  | Some err =>
      match e return driver_resp e * backend with
      | Mint _ | UpsertClient _ | CreateCDI _ _ | CreateGuest _ _ _ | GetClient _
      | ListSlices _ | DeleteClient _ | RevokeClient _ => (Err err, w)
      | e => serve e w
      end
  end.

(** What preparing would create for an allocation is not there yet. *)
Definition fresh_for (w : backend) (al : Allocation) : Prop :=
  (minted_name (b_minted w) ∉ b_tokens w) ∧ (guest_name al ∉ b_guests w) ∧ (cdi_name al ∉ b_cdi w) ∧
  b_staged w !! cdi_name al = None.

(** What preparing would create is new, whatever the claim decodes to. *)
Definition ready_for (d : Driver) (claim : resource_claim) (w : backend) : Prop :=
  ∀ al, (run backend_handler (decodeAllocation d claim) w).1 = Ok al → fresh_for w al.

(** The record and the state a successful prepare leaves. *)
Definition record_of (w : backend) (al : Allocation) : ThunderClient :=
  with_artifacts (thunderClientFromAllocation 0 al) (cdi_name al) (minted_name (b_minted w))
    (Artifacts (guest_name al).1 (guest_name al).2).
Definition claimed (w : backend) (al : Allocation) : backend :=
  Backend (b_slices w) (b_minted w + 1) ({[minted_name (b_minted w)]} ∪ b_tokens w) (b_clients w)
    (b_staged w) ({[guest_name al]} ∪ b_guests w) ({[cdi_name al]} ∪ b_cdi w)
    (<[al_ClaimUID al := record_of w al]> (b_records w)).
End backend.

(** The CDI hook enrols a client and stages it. *)
Definition enrol (name id : string) (w : backend) : backend :=
  Backend (b_slices w) (b_minted w) (b_tokens w) ({[id]} ∪ b_clients w)
    (<[name := id]> (b_staged w)) (b_guests w) (b_cdi w) (b_records w).


(** What happens between prepare and unprepare: nothing, or the CDI hook
    enrols a client. *)
Definition used (cdi : string) (client : option string) (w : backend) : backend :=
  match client with None => w | Some id => enrol cdi id w end.
Definition new_client (client : option string) (w : backend) : Prop :=
  match client with None => True | Some id => id ≠ "" ∧ (id ∉ b_clients w) end.

(** The names the stores give are not blank. *)
Definition proper_names (guest_name : Allocation → string * string) (cdi_name : Allocation → string)
    : Prop :=
  ∀ al, blank (cdi_name al) = false ∧ blank (guest_name al).1 = false ∧
    trim_space (guest_name al).1 = (guest_name al).1.

(** Only the API's slices are read. *)
Definition only_lists (pre : list (event driver_sig)) (e : driver_ev) : Prop :=
  match e with ListSlices _ => True | _ => False end.

(** Inputs of the concrete runs. *)
Definition sample_device (name : string) : device :=
  Device name (list_to_map [(ZoneAttributeName, Some "us-east-1"); (GPUTypeAttributeName, Some " A6000")]) "".
Definition sample_slice : resource_slice :=
  Slice "thunder-us-east-1-a6000-0" ∅
    (SliceSpec "thundercompute.com" "us-east-1/a6000" 1 1 None [sample_device "a6000-0"; sample_device "a6000-1"] "") "".
Definition sample_driver : Driver := MkDriver "" "node-1" true true true true true (Some "install.sh").
Definition sample_claim : resource_claim :=
  Claim "uid-1" "default" "claim-1"
    (Some [DeviceResult "thundercompute.com" "gpu" "us-east-1/a6000" "a6000-1" None;
           DeviceResult "other.example" "nic" "p" "d" None;
           DeviceResult "thundercompute.com" "gpu" "us-east-1/a6000" "a6000-0" None])
    [ConsumerRef "" "pods" "pod-1" "uid-pod"].
Definition sample_guest_name (al : Allocation) : string * string := ("default", "claim-1-thunder-setup").
Definition sample_cdi_name (al : Allocation) : string := "thundercompute.com/gpu=claim-uid-1".
Definition sample_backend : backend := Backend [sample_slice] 7 ∅ {["cli-0"]} ∅ ∅ ∅ ∅.
Definition refuse_records (e : driver_ev) : option error :=
  match e with UpsertClient _ => Some (ErrText "conflict") | _ => None end.

(* -------------------------------------------------------------------- *)
(** ** Lemmas *)

Lemma decode_results_reads d results zone gpuType devices pre :
  wp only_lists pre (decode_results d results zone gpuType devices) (λ _ _, True).
Proof.
  revert zone gpuType devices pre. induction results as [|r results IH];
    intros zone gpuType devices pre; [done|]. cbn [decode_results].
  case_bool_decide; [done|]. unfold orfail. rewrite wp_bind. unfold allocatedDevice.
  destruct (d_Kube d); [|done]. cbn [negb]. unfold orfail. apply wp_dcall; [done|].
  intros [slices|e]; [|done].
  destruct (find_device slices _ _) as [dv|]; [|done]. cbn [mret prog_ret wp].
  destruct (_ || _); [done|]. by destruct (_ && _).
Qed.

Lemma decodeAllocation_reads d claim :
  wp only_lists [] (decodeAllocation d claim) (λ _ _, True).
Proof.
  unfold decodeAllocation. destruct (claim_allocation claim); [|done]. unfold orfail. rewrite wp_bind.
  eapply wp_strengthen; [apply decode_results_reads|].
  intros pre' [[[? ?] [|]]|e] _ _; done.
Qed.

Section backend_lemmas.
Context (guest_name : Allocation → string * string) (cdi_name : Allocation → string)
  (refuse : driver_ev → option error).
Abbreviation h := (backend_handler guest_name cdi_name refuse).

(** What a program that only reads returns depends on the slices only. *)
Lemma reads_run {A} (p : prog driver_sig A) pre Q w1 w2 :
  wp only_lists pre p Q → b_slices w1 = b_slices w2 →
  run h p w1 = ((run h p w2).1, w1).
Proof.
  revert pre. induction p as [a|e k IH]; intros pre; [done|].
  intros [He Hk] Hs. destruct e; try done. cbn [run]. unfold backend_handler.
  destruct (refuse _) as [err|].
  - by eapply IH.
  - destruct w1, w2. cbn in Hs |- *. subst. by eapply IH.
Qed.

Lemma decode_run d claim w1 w2 : b_slices w1 = b_slices w2 →
  run h (decodeAllocation d claim) w1 = ((run h (decodeAllocation d claim) w2).1, w1).
Proof. apply (reads_run _ [] (λ _ _, True)), decodeAllocation_reads. Qed.

Lemma run_dcall_bind {B} e (f : driver_resp e → prog driver_sig B) w :
  run h (dcall e ≫= f) w = let '(r, w') := h e w in run h (f r) w'.
Proof. rewrite run_bind. cbn. by destruct (h e w). Qed.

Ltac backend_step :=
  match goal with
  | |- context [dcall ?e ≫= _] => rewrite (run_dcall_bind e)
  end; unfold backend_handler;
  match goal with
  | |- context [refuse ?e] => destruct (refuse e) as [?err|]
  end; cbn [serve fst snd].

Lemma prepare_new_run d al w : fresh_for guest_name cdi_name w al →
  let '(a, w') := run h (prepare_new d al) w in
  match a with
  | Err _ => holdings w' = holdings w
  | Ok devices => devices = devicesFor (cdi_name al) al ∧ w' = claimed guest_name cdi_name w al
  end.
Proof.
  destruct w as [sl n tk cs st gs cd rs]. unfold fresh_for, holdings, claimed, record_of.
  cbn [b_slices b_minted b_tokens b_clients b_staged b_guests b_cdi b_records].
  intros (Ht & Hg & Hc & Hs). unfold prepare_new, orfail.
  assert (({[minted_name n]} ∪ tk) ∖ {[minted_name n]} = tk) as Htk by set_solver.
  assert (({[guest_name al]} ∪ gs) ∖ {[((guest_name al).1, (guest_name al).2)]} = gs) as Hgs
    by (rewrite <-surjective_pairing; set_solver).
  assert (({[cdi_name al]} ∪ cd) ∖ {[cdi_name al]} = cd) as Hcd by set_solver.
  backend_step; [done|].
  backend_step; [backend_step; cbn; by rewrite Htk|].
  backend_step; [do 2 backend_step; cbn; by rewrite Htk, Hgs|].
  backend_step; backend_step; try (do 3 backend_step; cbn; by rewrite Htk, Hgs, Hcd, delete_id by done).
  all: cbn; by split.
Qed.
End backend_lemmas.

Section theorems.
Context `{UnicodeTables}.
Context (guest_name : Allocation → string * string) (cdi_name : Allocation → string)
  (refuse : driver_ev → option error).
Abbreviation h := (backend_handler guest_name cdi_name refuse).

Lemma prepareOne_run d claim w :
  (∀ e err, refuse e = Some err → is_not_found err = false) →
  ready_for guest_name cdi_name refuse d claim w →
  let '(a, w') := run h (prepareOne d claim) w in
  match a with
  | Err _ => holdings w' = holdings w
  | Ok devices => ∃ al, (run h (decodeAllocation d claim) w).1 = Ok al ∧ validate d = Ok tt ∧
      refuse (GetClient (claim_UID claim)) = None ∧
      ((w' = w ∧ ∃ c, b_records w !! claim_UID claim = Some c ∧ cl_EnrollmentTokenID c ≠ "" ∧
          cl_CDIName c ≠ "" ∧ devices = devicesFor (cl_CDIName c) al) ∨
       (w' = claimed guest_name cdi_name w al ∧ devices = devicesFor (cdi_name al) al))
  end.
Proof.
  intros Hrefuse Hready. unfold prepareOne.
  destruct (validate d) as [[]|] eqn:Hv; [|done]. cbn [orfail_pure].
  unfold orfail. rewrite run_bind, (decode_run _ _ _ _ _ w w) by done.
  destruct (run h (decodeAllocation d claim) w).1 as [al|] eqn:Hal; [|done].
  rewrite (run_dcall_bind _ _ _ (GetClient (claim_UID claim))). unfold backend_handler at 1.
  pose proof (prepare_new_run guest_name cdi_name refuse d al w (Hready al Hal)) as Hnew.
  destruct (refuse (GetClient _)) as [err|] eqn:Href; [by rewrite (Hrefuse _ _ Href)|].
  destruct w as [sl n tk cs st gs cd rs] eqn:Hw. cbn [serve]. rewrite <-Hw in *.
  destruct (rs !! claim_UID claim) as [c|] eqn:Hc; cbn [is_not_found].
  - destruct (bool_decide _ && bool_decide _) eqn:Hb.
    + apply andb_prop in Hb as [?%bool_decide_eq_true ?%bool_decide_eq_true].
      exists al. split_and!; [done..|]. left. split; [done|]. exists c. subst w. by split_and!.
    + destruct (run h (prepare_new d al) w) as [[devices|?] w']; [|done]. exists al.
      split_and!; [done..|]. right. naive_solver.
  - destruct (run h (prepare_new d al) w) as [[devices|?] w']; [|done]. exists al.
    split_and!; [done..|]. right. naive_solver.
Qed.

(** Against a backend that refuses any calls it likes, a prepare that
    fails leaves every token, client, Secret, CDI device and record as it
    was. *)
Theorem prepareOne_atomic d claim w :
  (∀ e err, refuse e = Some err → is_not_found err = false) →
  ready_for guest_name cdi_name refuse d claim w →
  match run h (prepareOne d claim) w with
  | (Err _, w') => holdings w' = holdings w
  | (Ok devices, w') => ∃ c, b_records w' !! claim_UID claim = Some c ∧
      Forall (λ p, pd_CDIDeviceIDs p = [cl_CDIName c]) devices
  end.
Proof.
  intros Hrefuse Hready. pose proof (prepareOne_run d claim w Hrefuse Hready) as Hp.
  destruct (run h (prepareOne d claim) w) as [[devices|e] w']; [|done].
  destruct Hp as (al & Hal & _ & _ & [(-> & c & Hc & _ & _ & ->)|[-> ->]]).
  - exists c. split; [done|]. apply Forall_fmap, Forall_true. done.
  - exists (record_of guest_name cdi_name w al). split.
    + assert (al_ClaimUID al = claim_UID claim) as <-.
      { pose proof (run_exec h (decodeAllocation d claim) w) as Hx. rewrite Hal in Hx.
        apply decodeAllocation_exec in Hx as (_ & _ & Hok). by destruct (Hok al eq_refl) as (?&?&?&?&?&?&?&?). }
      apply lookup_insert_eq.
    + apply Forall_fmap, Forall_true. done.
Qed.

(** C29: preparing a prepared claim again returns the same devices and changes
    nothing: no second token is minted. *)
Theorem prepareOne_idempotent d claim w :
  (∀ e err, refuse e = Some err → is_not_found err = false) → (∀ al, cdi_name al ≠ "") →
  ready_for guest_name cdi_name refuse d claim w →
  let '(a, w') := run h (prepareOne d claim) w in
  match a with
  | Ok devices => run h (prepareOne d claim) w' = (Ok devices, w')
  | Err _ => True
  end.
Proof.
  intros Hrefuse Hcdi Hready. pose proof (prepareOne_run d claim w Hrefuse Hready) as Hp.
  destruct (run h (prepareOne d claim) w) as [[devices|e] w']; [|done].
  destruct Hp as (al & Hal & Hv & Href & Hcase).
  assert (∀ c, b_slices w' = b_slices w → b_records w' !! claim_UID claim = Some c →
    cl_EnrollmentTokenID c ≠ "" → cl_CDIName c ≠ "" →
    run h (prepareOne d claim) w' = (Ok (devicesFor (cl_CDIName c) al), w')) as Hagain.
  { intros c Hsl Hc Ht Hn. unfold prepareOne. rewrite Hv. cbn [orfail_pure]. unfold orfail.
    rewrite run_bind, (decode_run _ _ _ _ _ w' w), Hal by done.
    rewrite (run_dcall_bind _ _ _ (GetClient (claim_UID claim))). unfold backend_handler at 1.
    rewrite Href. destruct w'. cbn in Hc. cbn [serve]. rewrite Hc.
    by rewrite !bool_decide_true. }
  destruct Hcase as [(-> & c & Hc & Ht & Hn & ->)|[-> ->]]; [by apply Hagain|].
  assert (al_ClaimUID al = claim_UID claim) as Huid.
  { pose proof (run_exec h (decodeAllocation d claim) w) as Hx. rewrite Hal in Hx.
    apply decodeAllocation_exec in Hx as (_ & _ & Hok). by destruct (Hok al eq_refl) as (?&?&?&?&?&?&?&?). }
  apply (Hagain (record_of guest_name cdi_name w al)); [done| |done|apply Hcdi].
  cbn. rewrite Huid. apply lookup_insert_eq.
Qed.
End theorems.

Section unprepare_theorems.
Context `{UnicodeTables}.
Context (guest_name : Allocation → string * string) (cdi_name : Allocation → string).

Lemma minted_name_not_blank n : (0 ≤ n ≤ max_int64)%Z → blank (minted_name n) = false.
Proof. intros Hn. apply prefixed_itoa_not_blank; [by repeat constructor|done..]. Qed.

Lemma run_dcall_served {B} e (f : driver_resp e → prog driver_sig B) w :
  run (backend_handler guest_name cdi_name (λ _, None)) (dcall e ≫= f) w =
    let '(r, w') := serve guest_name cdi_name e w in
    run (backend_handler guest_name cdi_name (λ _, None)) (f r) w'.
Proof. by rewrite run_dcall_bind. Qed.

(** Unprepare on the state prepare left. *)
Lemma unprepare_claimed_run d al client claim w :
  validateStoresOnly d = Ok tt → proper_names guest_name cdi_name →
  (0 ≤ b_minted w ≤ max_int64)%Z → fresh_for guest_name cdi_name w al → new_client client w →
  al_ClaimUID al = no_UID claim → b_records w !! no_UID claim = None →
  let '(a, w') := run (backend_handler guest_name cdi_name (λ _, None)) (unprepareOne d claim)
                    (used (cdi_name al) client (claimed guest_name cdi_name w al)) in
  a = Ok tt ∧ holdings w' = holdings w.
Proof.
  intros Hv Hnames Hn Hfresh Hclient Huid Hrec. destruct (Hnames al) as (Hcn & Hgn & Htrim).
  destruct w as [sl n tk cs st gs cd rs]. unfold fresh_for, claimed in *.
  cbn [b_slices b_minted b_tokens b_clients b_staged b_guests b_cdi b_records] in *.
  destruct Hfresh as (Ht & Hg & Hc & Hs).
  assert (({[minted_name n]} ∪ tk) ∖ {[minted_name n]} = tk) as Htk by set_solver.
  assert (({[guest_name al]} ∪ gs) ∖ {[guest_name al]} = gs) as Hgs by set_solver.
  assert (({[cdi_name al]} ∪ cd) ∖ {[cdi_name al]} = cd) as Hcd by set_solver.
  set (rec := record_of _ _ _ al). assert (cl_CDIName rec = cdi_name al) as Hrc by done.
  assert (cl_EnrollmentTokenID rec = minted_name n) as Hrt by done.
  assert (guest_of claim rec = Artifacts (guest_name al).1 (guest_name al).2) as Hrg.
  { unfold guest_of. cbn [rec record_of with_artifacts cl_GuestNamespace cl_GuestSecret ga_Namespace
      ga_SecretName]. f_equal. unfold firstNonEmpty. cbn [find]. by rewrite Hgn. }
  clearbody rec. unfold unprepareOne. rewrite Hv. cbn [orfail_pure].
  rewrite (run_dcall_served (GetClient (no_UID claim))).
  assert (serve guest_name cdi_name (GetClient (no_UID claim))
    (used (cdi_name al) client (Backend sl (n + 1) ({[minted_name n]} ∪ tk) cs st
      ({[guest_name al]} ∪ gs) ({[cdi_name al]} ∪ cd) (<[al_ClaimUID al:=rec]> rs))) =
    (Ok rec, used (cdi_name al) client (Backend sl (n + 1) ({[minted_name n]} ∪ tk) cs st
      ({[guest_name al]} ∪ gs) ({[cdi_name al]} ∪ cd) (<[al_ClaimUID al:=rec]> rs)))) as ->.
  { rewrite <-Huid. destruct client; cbn; by rewrite lookup_insert_eq. }
  rewrite Hrc, Hcn. cbn [negb]. rewrite (run_dcall_served (StagedClientID (cdi_name al))).
  set (rest := unprepare_token claim rec).
  assert (∀ cs' st', delete (cdi_name al) st' = st →
    let '(a, w') := run (backend_handler guest_name cdi_name (λ _, None)) rest
      (Backend sl (n + 1) ({[minted_name n]} ∪ tk) cs' st' ({[guest_name al]} ∪ gs)
         ({[cdi_name al]} ∪ cd) (<[al_ClaimUID al:=rec]> rs)) in
    a = Ok tt ∧ holdings w' = (tk, cs', st, gs, cd, rs)) as Hrest.
  { intros cs' st' Hst. subst rest. unfold unprepare_token. rewrite Hrt, minted_name_not_blank by done.
    cbn [negb]. unfold orfail. rewrite (run_dcall_served (Revoke (minted_name n))). cbn [serve].
    unfold unprepare_cdi. rewrite Hrc, Hcn. cbn [negb]. unfold orfail.
    rewrite (run_dcall_served (RemoveCDI (cdi_name al))). cbn [serve].
    unfold unprepare_guest, orfail. fold (guest_of claim rec). rewrite Hrg.
    rewrite (run_dcall_served (RemoveGuest _)). cbn [serve ga_Namespace ga_SecretName].
    unfold unprepare_record. rewrite (run_dcall_served (DeleteClient (no_UID claim))). cbn.
    split; [done|]. unfold holdings. cbn.
    by rewrite <-surjective_pairing, Hst, Huid, delete_insert_id, Htk, Hgs, Hcd by done. }
  destruct client as [cid|]; cbn [used enrol serve b_staged b_clients new_client] in *.
  - rewrite lookup_insert_eq. cbn [default from_option id]. destruct Hclient as [Hid Hnew].
    rewrite bool_decide_true by done. unfold orfail.
    rewrite (run_dcall_served (RevokeClient cid)). cbn [serve enrol].
    cbn [b_slices b_minted b_tokens b_clients b_staged b_guests b_cdi b_records].
    assert (({[cid]} ∪ cs) ∖ {[cid]} = cs) as -> by set_solver.
    apply Hrest. by apply delete_insert_id.
  - rewrite Hs. cbn [default from_option]. rewrite bool_decide_false by (intros Hne; by apply Hne).
    apply Hrest. by apply delete_id.
Qed.

(** From a state with no record of a claim, preparing it and unpreparing
    it again, with or without a container that enrolled a client in between,
    leaves no token, client, Secret, CDI device or record behind and touches
    no other. *)
Theorem prepare_unprepare d claim client w :
  proper_names guest_name cdi_name → (0 ≤ b_minted w ≤ max_int64)%Z →
  ready_for guest_name cdi_name (λ _, None) d claim w → new_client client w →
  b_records w !! claim_UID claim = None →
  match run (backend_handler guest_name cdi_name (λ _, None)) (prepareOne d claim) w with
  | (Ok (p :: devices), w1) =>
      ∃ cdi, pd_CDIDeviceIDs p = [cdi] ∧
        let '(a, w2) := run (backend_handler guest_name cdi_name (λ _, None))
          (unprepareOne d (NamespacedObject (claim_Namespace claim) (claim_Name claim) (claim_UID claim)))
          (used cdi client w1) in
        a = Ok tt ∧ holdings w2 = holdings w
  | (Ok [], _) => False
  | (Err _, w1) => holdings w1 = holdings w
  end.
Proof.
  intros Hnames Hn Hready Hclient Hrec.
  pose proof (prepareOne_run guest_name cdi_name (λ _, None) d claim w ltac:(done) Hready) as Hp.
  destruct (run _ (prepareOne d claim) w) as [[devices|e] w1]; [|done].
  destruct Hp as (al & Hal & Hv & _ & [(_ & c & Hc & _)|[-> ->]]); [congruence|].
  pose proof (run_exec (backend_handler guest_name cdi_name (λ _, None)) (decodeAllocation d claim) w) as Hx.
  rewrite Hal in Hx. apply decodeAllocation_exec in Hx as (_ & _ & Hok).
  destruct (Hok al eq_refl) as (_ & Hne & _ & _ & _ & _ & Huid & _).
  unfold devicesFor. destruct (al_Devices al) as [|p devices]; [done|]. cbn [fmap list_fmap].
  exists (cdi_name al). split; [done|].
  apply (unprepare_claimed_run d al client (NamespacedObject _ _ (claim_UID claim)) w);
    [|done|done|by apply Hready|done..].
  unfold validate in Hv. destruct (d_Kube d); [done|discriminate].
Qed.
End unprepare_theorems.

Section witnesses.
#[local] Existing Instance ascii_tables.

Lemma sample_ready refuse :
  ready_for sample_guest_name sample_cdi_name refuse sample_driver sample_claim sample_backend.
Proof. intros al _. by split_and!. Qed.

Lemma prepareOne_atomic_witness :
  (run (backend_handler sample_guest_name sample_cdi_name refuse_records)
     (prepareOne sample_driver sample_claim) sample_backend).1
  = Err (wrap "upsert ThunderClient" (ErrText "conflict")) ∧
  holdings (run (backend_handler sample_guest_name sample_cdi_name refuse_records)
     (prepareOne sample_driver sample_claim) sample_backend).2 = holdings sample_backend.
Proof.
  pose proof (prepareOne_atomic sample_guest_name sample_cdi_name refuse_records
    sample_driver sample_claim sample_backend) as Ha.
  assert ((run (backend_handler sample_guest_name sample_cdi_name refuse_records)
     (prepareOne sample_driver sample_claim) sample_backend).1
    = Err (wrap "upsert ThunderClient" (ErrText "conflict"))) as Hr by (vm_compute; reflexivity).
  split; [exact Hr|].
  destruct (run _ _ sample_backend) as [a w']. cbn [fst] in Hr. subst a. apply Ha.
  - intros []; try discriminate. by intros err [= <-].
  - apply sample_ready.
Defined.

Lemma prepareOne_idempotent_witness :
  let '(a, w') := run (backend_handler sample_guest_name sample_cdi_name (λ _, None))
                    (prepareOne sample_driver sample_claim) sample_backend in
  (length <$> (match a with Ok devices => Some devices | Err _ => None end)) = Some 2%nat ∧
  run (backend_handler sample_guest_name sample_cdi_name (λ _, None))
    (prepareOne sample_driver sample_claim) w' = (a, w').
Proof.
  pose proof (prepareOne_idempotent sample_guest_name sample_cdi_name (λ _, None)
    sample_driver sample_claim sample_backend ltac:(done) ltac:(done) (sample_ready _)) as Hi.
  assert ((length <$> (match (run (backend_handler sample_guest_name sample_cdi_name (λ _, None))
    (prepareOne sample_driver sample_claim) sample_backend).1 with
    Ok devices => Some devices | Err _ => None end)) = Some 2%nat) as Hn by (vm_compute; reflexivity).
  destruct (run _ _ sample_backend) as [[devices|e] w']; [|discriminate]. by split.
Defined.

Lemma prepare_unprepare_witness :
  let '(a, w1) := run (backend_handler sample_guest_name sample_cdi_name (λ _, None))
                    (prepareOne sample_driver sample_claim) sample_backend in
  is_ok a = true ∧ ∃ cdi,
  holdings (run (backend_handler sample_guest_name sample_cdi_name (λ _, None))
    (unprepareOne sample_driver (NamespacedObject "default" "claim-1" "uid-1"))
    (used cdi (Some "cli-1") w1)).2 = holdings sample_backend.
Proof.
  pose proof (prepare_unprepare sample_guest_name sample_cdi_name sample_driver sample_claim
    (Some "cli-1") sample_backend) as Hp.
  assert (is_ok (run (backend_handler sample_guest_name sample_cdi_name (λ _, None))
    (prepareOne sample_driver sample_claim) sample_backend).1 = true) as Hok by (vm_compute; reflexivity).
  destruct (run _ (prepareOne _ _) sample_backend) as [[[|p devices]|e] w1]; [..|discriminate].
  - exfalso. apply Hp; [by intros al|vm_compute; split; discriminate|apply sample_ready|by split|done].
  - split; [done|]. destruct Hp as (cdi & _ & Hun);
      [by intros al|vm_compute; split; discriminate|apply sample_ready|by split|done|].
    exists cdi. destruct (run _ (unprepareOne _ _) _) as [a w2]. by destruct Hun.
Defined.

Lemma decodeAllocation_sound_witness :
  ∃ tr al, exec (decodeAllocation sample_driver sample_claim) tr (Ok al) ∧
    al_GPUCount al = 2%Z ∧ al_GPUType al = "A6000" ∧
    al_Devices al = allocated_of <$> own_results sample_driver sample_claim.
Proof.
  set (h := backend_handler sample_guest_name sample_cdi_name (λ _, None)).
  pose proof (run_exec h (decodeAllocation sample_driver sample_claim) sample_backend) as Hx.
  assert ((λ r, match r with Ok al => (al_GPUCount al, al_GPUType al) | Err _ => (0%Z, "") end)
    (run h (decodeAllocation sample_driver sample_claim) sample_backend).1 = (2%Z, "A6000")) as Hv
    by (vm_compute; reflexivity).
  destruct (run h (decodeAllocation sample_driver sample_claim) sample_backend).1 as [al|e];
    [|discriminate].
  eexists _, al. split; [exact Hx|]. injection Hv as Hc Ht. split; [done|]. split; [done|].
  refine (proj1 (decodeAllocation_sound sample_driver sample_claim _ al Hx)).
Defined.

Lemma prepareOne_all_or_nothing_witness :
  ∃ tr e, exec (prepareOne sample_driver sample_claim) tr (Err e) ∧
    released tr = reverse (acquired tr) ∧ length (acquired tr) = 3%nat.
Proof.
  set (h := backend_handler sample_guest_name sample_cdi_name refuse_records).
  pose proof (run_exec h (prepareOne sample_driver sample_claim) sample_backend) as Hx.
  assert ((run h (prepareOne sample_driver sample_claim) sample_backend).1
    = Err (wrap "upsert ThunderClient" (ErrText "conflict"))) as Hr by (vm_compute; reflexivity).
  rewrite Hr in Hx. eexists _, _. split; [exact Hx|]. split.
  - exact (prepareOne_all_or_nothing sample_driver sample_claim _ _ Hx).
  - vm_compute. reflexivity.
Defined.

Lemma unprepareOne_safe_witness :
  ∃ tr a, exec (unprepareOne sample_driver (NamespacedObject "default" "claim-1" "uid-1")) tr a ∧
    (a = Ok tt → unprepared (NamespacedObject "default" "claim-1" "uid-1") tr).
Proof.
  set (h := backend_handler sample_guest_name sample_cdi_name refuse_records).
  set (p := unprepareOne sample_driver (NamespacedObject "default" "claim-1" "uid-1")).
  exists (trace h p sample_backend), (run h p sample_backend).1. split; [apply run_exec|].
  exact (proj1 (unprepareOne_safe sample_driver (NamespacedObject "default" "claim-1" "uid-1") _ _
    (run_exec h p sample_backend))).
Defined.
End witnesses.
