(* ===== verification/Published.v ===== *)
(** * From the inventory to a claim

    The two programs meet in the ResourceSlices: the operator writes a pool's
    zone and GPU type into the attributes of its devices, the scheduler gives
    a claim some of them, and the daemon's driver reads the attributes back.
    Here the driver is put on the state the operator promises ([steady]). *)

From S2P Require Import Prelude GoStrings Float64 Labels ResourceSlice Inventory KubeAPI DeviceClass.
From S2P Require Import Reaper Operator OperatorSpec Driver DriverSpec Lifecycle.

(** The driver's view of an API server: a listing by driver name.  It makes no
    other call to decode an allocation. *)
Definition not_served : error := ErrText "not served".
Definition slices_handler (s : server) : handler driver_sig unit := λ e w,
  (match e return driver_resp e with
   | ListSlices driver => Ok (listed_slices [] driver s)
   | Mint _ | GetClient _ | CreateCDI _ _ | CreateGuest _ _ _ => Err not_served
   | StagedClientID _ => ""
   | Clock => 0%Z
   | Revoke _ | RevokeClient _ | UpsertClient _ | DeleteClient _ | RemoveCDI _ | RemoveGuest _ =>
       Err not_served
   end, w).

(** Only the operator publishes under the driver's name. *)
Definition only_ours (cfg : Config) (s : server) : Prop :=
  ∀ n x, srv_slices s !! n = Some x → spec_driver (rs_spec x) = DriverName cfg → ours cfg x.

Section published.
Context `{UnicodeTables, FloatConversion, ServerErrors, MapOrder}.

(** The scheduler gave a claim devices of the pool [def], and perhaps devices
    of other drivers. *)
Definition allocated_from (d : Driver) (def : poolDefinition) (results : list device_result) : Prop :=
  Forall (λ r, dr_Driver r = driverName d → dr_Pool r = poolName (Zone def) (GPUType def) ∧
    ∃ i, (0 ≤ i < Capacity def)%Z ∧ dr_Device r = deviceName (GPUType def) i) results.

Lemma upper_dns_plain a : dns_char a = true → plain_byte (upper_byte a) ∧ is_ascii_byte a = true.
Proof.
  intros Ha. pose proof (byte_forall (λ a, implb (dns_char a)
    ((code (upper_byte a) <? 128)%N && negb (space1 (upper_byte a)) && is_ascii_byte a)) ltac:(by vm_compute) a) as Hb.
  cbv beta in Hb. rewrite Ha in Hb. cbn [implb] in Hb.
  apply andb_prop in Hb as [[? ?%negb_true_iff]%andb_prop ?]. by split; [split|].
Qed.

Lemma upper_dns s : is_dns_label s → trim_space (to_upper s) = to_upper s ∧ to_upper s ≠ "".
Proof.
  intros (Hne & _ & Hs & _).
  assert (to_upper s = of_chars (upper_byte <$> chars s)) as ->.
  { unfold to_upper, is_ascii, map_bytes. assert (forallb is_ascii_byte (chars s) = true) as ->; [|done].
    apply forallb_forall. intros a Ha%list_elem_of_In. rewrite list.Forall_forall in Hs. by apply upper_dns_plain, Hs. }
  split.
  - apply trim_space_plain. rewrite chars_of_chars. apply Forall_fmap.
    eapply Forall_impl; [exact Hs|]. intros a Ha. by apply upper_dns_plain.
  - intros Hu%(f_equal chars). rewrite chars_of_chars in Hu. by apply fmap_nil_inv in Hu.
Qed.

Lemma dns_label_trim s : is_dns_label s → trim_space s = s ∧ s ≠ "".
Proof.
  intros (Hne & _ & Hs & _). split; [|by intros ->]. apply trim_space_plain.
  eapply Forall_impl; [exact Hs|]. intros a (_ & _ & ? & ? & _)%dns_char_plain. by split.
Qed.

(** What the driver reads off a device of a pool. *)
Lemma built_attributes cfg def i : is_dns_label (Zone def) → is_dns_label (GPUType def) →
  stringAttribute (buildDevice cfg def i) ZoneAttributeName = Zone def ∧
  stringAttribute (buildDevice cfg def i) GPUTypeAttributeName = to_upper (GPUType def).
Proof.
  intros Hz Hg. unfold stringAttribute, buildDevice. cbn [dev_attributes list_to_map foldr uncurry].
  split.
  - rewrite lookup_insert_ne by done. rewrite lookup_insert_eq. by apply dns_label_trim.
  - rewrite lookup_insert_eq. by apply upper_dns.
Qed.

Section pool.
Context (cfg : Config) (desired : gmap poolKey poolDefinition) (cache : gmap poolKey publishedPool) (s : server).
Context (key : poolKey) (def : poolDefinition).
Hypothesis Hsteady : steady cfg desired cache s.
Hypothesis Hnamed : well_named s.
Hypothesis Hours : only_ours cfg s.
Hypothesis Hdef : desired !! key = Some def.
Hypothesis Hgood : good_definition key def.

(** Every device listed under the pool's name is one of the pool's. *)
Lemma listed_device x dv : x ∈ listed_slices [] (DriverName cfg) s →
  spec_pool_name (rs_spec x) = poolName (Zone def) (GPUType def) → dv ∈ spec_devices (rs_spec x) →
  ∃ i, dv = buildDevice cfg def i.
Proof using Hsteady Hnamed Hours Hdef Hgood.
  intros (_ & Hdr & n & Hx)%listed_slices_elem Hpool Hdv.
  destruct Hsteady as (Hpub & Hback & _ & _), Hgood as (Hz & Hg & Hlz & Hlg & Hc & _).
  assert (resourceSliceKey x = Some key) as Hkey.
  { unfold resourceSliceKey. rewrite Hpool, poolName_split, Hz, Hg, !dnsLabel_id by done.
    rewrite !bool_decide_false by (by apply dns_label_trim). by destruct key. }
  destruct (Hback n x key Hx (Hours n x Hx Hdr) Hkey) as (d' & Hd' & Hin).
  assert (d' = def) as -> by congruence.
  destruct (Hpub key def Hdef) as (g & _ & _ & Hall).
  rewrite <-(names_of_wanted cfg def g) in Hin. apply list_elem_of_fmap in Hin as (w & -> & Hw).
  destruct (Hall w Hw) as (x' & Hx' & [_ Hspec]%same_published_spec).
  assert (x' = x) as -> by congruence. rewrite Hspec in Hdv.
  apply buildResourceSlices_elem in Hw as (shard & _ & ->); [|done].
  by apply list_elem_of_fmap in Hdv as (i & -> & _); exists i.
Qed.

(** And all of the pool's devices are listed. *)
Lemma device_listed i : (0 ≤ i < Capacity def)%Z →
  ∃ x, x ∈ listed_slices [] (DriverName cfg) s ∧
    spec_pool_name (rs_spec x) = poolName (Zone def) (GPUType def) ∧
    buildDevice cfg def i ∈ spec_devices (rs_spec x).
Proof using Hsteady Hdef Hgood.
  intros Hi. destruct Hsteady as (Hpub & _), Hgood as (_ & _ & _ & _ & Hc & _).
  destruct (Hpub key def Hdef) as (g & _ & _ & Hall).
  assert (buildDevice cfg def i ∈ buildResourceSlices cfg def g ≫= λ s, spec_devices (rs_spec s)) as Hin.
  { rewrite buildResourceSlices_devices by done. apply list_elem_of_fmap_2, elem_of_seqZ. lia. }
  apply list_elem_of_bind in Hin as (w & Hin & Hw). destruct (Hall w Hw) as (x & Hx & [Hl Hspec]%same_published_spec).
  exists x. rewrite Hspec. split_and!; [|by apply buildResourceSlices_elem in Hw as (shard & _ & ->)|done].
  apply listed_slices_elem. split_and!; [done| |by exists (rs_name w)].
  rewrite Hspec. by apply buildResourceSlices_elem in Hw as (shard & _ & ->).
Qed.

Lemma pool_device_found i : (0 ≤ i < Capacity def)%Z →
  ∃ j, find_device (listed_slices [] (DriverName cfg) s) (poolName (Zone def) (GPUType def))
    (deviceName (GPUType def) i) = Some (buildDevice cfg def j).
Proof using Hsteady Hnamed Hours Hdef Hgood.
  intros Hi. unfold find_device. set (found := _ ≫= _).
  assert (∀ dv, dv ∈ found → ∃ j, dv = buildDevice cfg def j) as Hall.
  { intros dv (x & [_ Hdv]%list_elem_of_filter & [Hpool Hx]%list_elem_of_filter)%list_elem_of_bind.
    by eapply listed_device. }
  destruct (device_listed i Hi) as (x & Hx & Hpool & Hdv).
  assert (buildDevice cfg def i ∈ found) as Hin.
  { apply list_elem_of_bind. exists x. split; by apply list_elem_of_filter. }
  destruct found as [|dv found']; [by apply not_elem_of_nil in Hin|].
  destruct (Hall dv) as [j ->]; [by left|]. by exists j.
Qed.
(** Decoding results of the pool: every lookup finds a device of it, so the
    loop keeps the pool's zone and type and adds the devices in order. *)
Lemma decode_results_listed d results zone gpuType devices :
  d_Kube d = true → driverName d = DriverName cfg → allocated_from d def results →
  zone = "" ∨ zone = Zone def ∧ gpuType = to_upper (GPUType def) →
  ∃ zone' gpuType',
    run (slices_handler s) (decode_results d results zone gpuType devices) tt =
      (Ok (zone', gpuType', devices ++ (allocated_of <$> filter (λ r, dr_Driver r = driverName d) results)), tt) ∧
    (filter (λ r, dr_Driver r = driverName d) results ≠ [] ∨ zone ≠ "" →
      zone' = Zone def ∧ gpuType' = to_upper (GPUType def)).
Proof using Hsteady Hnamed Hours Hdef Hgood.
  intros Hk Hd Hall. revert zone gpuType devices.
  destruct Hgood as (Hz & Hg & Hlz & Hlg & _). rewrite <-Hz in Hlz. rewrite <-Hg in Hlg.
  induction Hall as [|r results Hr Hall IH]; intros zone gpuType devices Hzone; cbn [decode_results].
  { exists zone, gpuType. rewrite filter_nil, app_nil_r. split; [done|]. naive_solver. }
  rewrite filter_cons. case_bool_decide as Hdr.
  { rewrite decide_False by done. by apply IH. }
  rewrite decide_True by done. destruct (Hr Hdr) as (Hpool & i & Hi & Hdev).
  destruct (pool_device_found i Hi) as [j Hj]. destruct (built_attributes cfg def j Hlz Hlg) as [Haz Hag].
  unfold allocatedDevice. rewrite Hk. cbn [negb]. unfold orfail. rewrite !run_bind. cbn [run slices_handler].
  rewrite Hd, Hpool, Hdev. cbn. rewrite Hj. cbn [run mret prog_ret]. rewrite Haz, Hag.
  destruct (dns_label_trim _ Hlz) as [_ Hnz], (upper_dns _ Hlg) as [_ Hng].
  rewrite !(bool_decide_false (_ = "")) by done. cbn [orb].
  assert (bool_decide (zone ≠ "") &&
    (bool_decide (zone ≠ Zone def) || bool_decide (gpuType ≠ to_upper (GPUType def))) = false) as ->.
  { destruct Hzone as [->|[-> ->]]; [done|]. assert (∀ t : string, bool_decide (t ≠ t) = false) as Hself by (intros t; apply bool_decide_false; intros Hn; by apply Hn).
    by rewrite !Hself, andb_false_r. }
  destruct (IH (Zone def) (to_upper (GPUType def)) (devices ++ [allocated_of r]) ltac:(by right))
    as (z & g & Hrun & Hzg). destruct Hzg as [-> ->]; [by right|].
  rewrite Hd in Hrun. unfold allocated_of in Hrun at 1. rewrite Hpool, Hdev in Hrun. rewrite Hrun.
  exists (Zone def), (to_upper (GPUType def)). split; [|done]. by rewrite <-app_assoc.
Qed.

(** So a claim that was given devices of the pool decodes to that pool. *)
Lemma steady_claim_decodes d claim results :
  d_Kube d = true → driverName d = DriverName cfg →
  claim_allocation claim = Some results → allocated_from d def results → own_results d claim ≠ [] →
  ∃ al, (run (slices_handler s) (decodeAllocation d claim) tt).1 = Ok al ∧
    al_Zone al = Zone def ∧ al_GPUType al = to_upper (GPUType def) ∧
    al_Devices al = allocated_of <$> own_results d claim ∧
    al_GPUCount al = Z.of_nat (length (own_results d claim)).
Proof using Hsteady Hnamed Hours Hdef Hgood.
  unfold own_results. intros Hk Hd Hc Hall Hne. rewrite Hc in *. cbn [default from_option id] in *.
  destruct (decode_results_listed d results "" "" [] Hk Hd Hall ltac:(by left)) as (z & g & Hrun & Hzg).
  destruct Hzg as [-> ->]; [by left|]. unfold decodeAllocation. rewrite Hc. unfold orfail.
  rewrite run_bind, Hrun. cbn [app]. destruct (filter _ results) as [|r own]; [done|]. cbn.
  eexists. split; [done|]. cbn. by rewrite length_fmap.
Qed.
End pool.

(** A synchronisation leaves no slice under the driver's name but the
    operator's own, whatever it finds and writes. *)
Lemma Sync_only_ours cfg clients o s desired :
  well_named s → publishable_inventory cfg desired s → only_ours cfg s →
  run (snapshot_handler (srv_inventory s)) buildDesiredPools tt = (Ok desired, tt) →
  only_ours cfg (run server_handler (Sync cfg clients o) s).2.
Proof.
  intros Hw Hinv Ho Hdes.
  destruct (Sync_run cfg clients o s desired Hw Hinv Hdes)
    as (cache1 & cache' & m & cm & Hin & Hout & _ & _ & Hrun).
  destruct (run server_handler (Sync cfg clients o) s) as [[err o'] s'].
  destruct Hrun as (_ & (Hsl & _ & _) & _). cbn [snd]. intros n x Hx Hdr. rewrite Hsl in Hx. cbn in Hx.
  set (existing := existing_of _) in *. set (keep := filter _ _) in *.
  assert (∀ y, keep !! n = Some y → spec_driver (rs_spec y) = DriverName cfg → ours cfg y) as Hkeep.
  { intros y [Hy _]%map_lookup_filter_Some. by apply (Ho n). }
  destruct (decide (Exists (λ k, owned cfg existing desired k n) (sortedPoolKeys desired))) as [Hex|Hno].
  - apply Exists_exists in Hex as (k & [d Hd]%elem_of_sortedPoolKeys & Hown).
    destruct (Hin k ltac:(by eexists)) as (_ & _ & Hown'). rewrite Hown' in Hx by done.
    unfold pool_after, pool_wanted in Hx.
    assert (pool_definition desired k = d) as Hdef by (unfold pool_definition; by rewrite Hd).
    rewrite Hdef in Hx. destruct (find_name n _) as [w|] eqn:Hf.
    + apply find_name_elem in Hf as [Hf _]. injection Hx as <-.
      eapply wanted_ours; [by eapply (proj1 Hinv)|done|apply slice_after_same].
    + case_bool_decide; [done|]. by apply Hkeep.
  - rewrite Hout in Hx; [by apply Hkeep|]. intros k Hk' Hown.
    apply Hno, Exists_exists. exists k. by rewrite elem_of_sortedPoolKeys.
Qed.

(** C3: after a synchronisation, the daemon's driver decodes every claim that
    was given devices of a pool: the zone and the GPU type it asks the Thunder
    API for are those of the pool's definition in the inventory (the type in
    upper case), and the devices and their number are what the claim was
    given, in order, if that is one at least.  This needs a driver of the
    operator's name with an API client; an inventory that can be published
    (zones and GPU types that are DNS labels, capacities in range, slice names
    apart and not taken by others); a server whose objects are stored under
    their own names and where only the operator publishes slices under the
    driver's name; and generations of what was written before that are
    positive and not the last one. *)
Theorem published_claim_decodes cfg clients o s desired key def d claim results :
  well_named s → publishable_inventory cfg desired s → good_generations cfg (op_cache o) s →
  only_ours cfg s →
  run (snapshot_handler (srv_inventory s)) buildDesiredPools tt = (Ok desired, tt) →
  desired !! key = Some def →
  d_Kube d = true → driverName d = DriverName cfg →
  claim_allocation claim = Some results → allocated_from d def results → own_results d claim ≠ [] →
  let '(_, s') := run server_handler (Sync cfg clients o) s in
  ∃ al, (run (slices_handler s') (decodeAllocation d claim) tt).1 = Ok al ∧
    al_Zone al = Zone def ∧ al_GPUType al = to_upper (GPUType def) ∧
    al_Devices al = allocated_of <$> own_results d claim ∧
    al_GPUCount al = Z.of_nat (length (own_results d claim)).
Proof.
  intros Hw Hinv Hgen Ho Hdes Hdef Hk Hd Hc Hall Hne.
  pose proof (Sync_reaches_steady cfg clients o s desired Hw Hinv Hgen Hdes) as Hs.
  pose proof (Sync_only_ours cfg clients o s desired Hw Hinv Ho Hdes) as Hours.
  destruct (run server_handler (Sync cfg clients o) s) as [[err o'] s'].
  destruct Hs as (Hw' & Hsteady & _). eapply steady_claim_decodes; try done. by apply (proj1 Hinv).
Qed.
End published.

(** The pool of 130 devices in two slices, and a claim for two of them. *)
Section witnesses.
#[local] Existing Instances ascii_tables listed_order amd64_conversion status_errors
  status_server_errors.

Lemma sample_allocated :
  allocated_from sample_driver (PoolDefinition "us-east-1" "a6000" 130 0 f64_one 130)
    (default [] (claim_allocation sample_claim)).
Proof.
  unfold allocated_from, sample_claim. cbn [claim_allocation default from_option id].
  repeat first [apply Forall_nil_2 | apply Forall_cons_2]; intros Hd; try discriminate;
    (split; [reflexivity|]).
  - exists 1%Z. split; [cbn; lia|reflexivity].
  - exists 0%Z. split; [cbn; lia|reflexivity].
Qed.

Lemma published_claim_decodes_witness :
  let '(_, s') := run server_handler (Sync sample_config false sample_operator) sample_server in
  ∃ al, (run (slices_handler s') (decodeAllocation sample_driver sample_claim) tt).1 = Ok al ∧
    (al_Zone al, al_GPUType al, al_GPUCount al) = ("us-east-1", "A6000", 2%Z).
Proof.
  pose proof (published_claim_decodes sample_config false sample_operator sample_server sample_desired
    (PoolKey "us-east-1" "a6000") (PoolDefinition "us-east-1" "a6000" 130 0 f64_one 130)
    sample_driver sample_claim (default [] (claim_allocation sample_claim))
    ltac:(by split) sample_publishable sample_generations ltac:(by intros ??) sample_desired_run
    ltac:(reflexivity) ltac:(reflexivity) ltac:(reflexivity) ltac:(reflexivity)
    sample_allocated ltac:(by vm_compute)) as Hd.
  destruct (run server_handler (Sync sample_config false sample_operator) sample_server) as [? s'].
  destruct Hd as (al & Hal & Hz & Hg & _ & Hn). exists al. split; [exact Hal|].
  rewrite Hz, Hg, Hn. reflexivity.
Defined.
End witnesses.
