(* ===== verification/Json.v ===== *)
(** * JSON text

    What the programs use of encoding/json to write: [json.Marshal], and
    [json.MarshalIndent] with two spaces of indentation, of strings, integers, slices, structs (members
    in the order of the fields) and maps (members in the order of the keys). *)

From S2P Require Import Prelude GoStrings.

Inductive json :=
  | JString (s : string)
  | JInt (z : Z)
  | JBool (b : bool)
  | JList (l : list json)
  | JObject (members : list (string * json)).

Definition member_le (x y : string * json) : Prop := String.le x.1 y.1.
#[global] Instance member_le_dec x y : Decision (member_le x y).
Proof. unfold member_le. apply _. Defined.

(** A [map[string]any]. *)
Definition JMap (members : list (string * json)) : json := JObject (merge_sort member_le members).

(** The bytes of the rune at the front of UTF-8 text: none when they are
    malformed (package unicode/utf8's table of well-formed sequences). *)
Definition continuation (a : ascii) : bool := (128 <=? code a)%N && (code a <=? 191)%N.
Definition between (lo hi : N) (a : ascii) : bool := (lo <=? code a)%N && (code a <=? hi)%N.
Definition rune_length (l : list ascii) : option nat :=
  match l with
  | [] => None
  | a :: l =>
      let tail n := forallb continuation (take n l) && (n <=? length l)%nat in
      let second lo hi := match l with b :: _ => between lo hi b | [] => false end in
      if (code a <? 128)%N then Some 1%nat
      else if between 194 223 a && tail 1%nat then Some 2%nat
      else if ((code a =? 224)%N && second 160%N 191%N ||
               (between 225 236 a || between 238 239 a) ||
               (code a =? 237)%N && second 128%N 159%N) && tail 2%nat then Some 3%nat
      else if ((code a =? 240)%N && second 144%N 191%N ||
               between 241 243 a ||
               (code a =? 244)%N && second 128%N 143%N) && tail 3%nat then Some 4%nat
      else None
  end.

Definition escape_byte (a : ascii) : list ascii :=
  let esc c := [chr 92; c] in
  let n := code a in
  if (n =? 34)%N || (n =? 92)%N then esc a
  else if (n =? 8)%N then esc "b"%char
  else if (n =? 12)%N then esc "f"%char
  else if (n =? 10)%N then esc "n"%char
  else if (n =? 13)%N then esc "r"%char
  else if (n =? 9)%N then esc "t"%char
  else if (n <? 32)%N || (n =? 60)%N || (n =? 62)%N || (n =? 38)%N
  then esc "u"%char ++ ["0"%char; "0"%char; hex_nibble (n / 16); hex_nibble (n mod 16)]
  else [a].

(** The text of a string between its quotes; the fuel is its length. *)
Fixpoint escape (fuel : nat) (l : list ascii) : list ascii :=
  match fuel, l with
  | S fuel, a :: rest =>
      match rune_length l with
      | None => chr 92 :: chars "ufffd" ++ escape fuel rest
      | Some 1%nat => escape_byte a ++ escape fuel rest
      | Some n =>
          let rune := take n l in
          (if bool_decide (rune = chr <$> [226; 128; 168]%N) then chr 92 :: chars "u2028"
           else if bool_decide (rune = chr <$> [226; 128; 169]%N) then chr 92 :: chars "u2029"
           else rune) ++ escape fuel (drop n l)
      end
  | _, _ => []
  end.

Definition json_string (s : string) : string :=
  dquote +:+ of_chars (escape (String.length s) (chars s)) +:+ dquote.

Definition indentation (depth : nat) : string := newline +:+ of_chars (replicate (2 * depth) " "%char).

(** One element per line, between brackets. *)
Definition block (open close : string) (depth : nat) (elems : list string) : string :=
  match elems with
  | [] => open +:+ close
  | _ => open +:+ indentation (S depth) +:+ join elems ("," +:+ indentation (S depth)) +:+
         indentation depth +:+ close
  end.

Fixpoint marshal (depth : nat) (v : json) : string :=
  match v with
  | JString s => json_string s
  | JInt z => itoa z
  | JBool b => if b then "true" else "false"
  | JList l => block "[" "]" depth (marshal (S depth) <$> l)
  | JObject members =>
      block "{" "}" depth
        ((λ p, json_string p.1 +:+ ": " +:+ marshal (S depth) p.2) <$> members)
  end.

(** [json.MarshalIndent(v, "", "  ")]. *)
Definition MarshalIndent (v : json) : string := marshal 0 v.

(** [json.Marshal(v)]: the same text without white space. *)
Fixpoint Marshal (v : json) : string :=
  match v with
  | JString s => json_string s
  | JInt z => itoa z
  | JBool b => if b then "true" else "false"
  | JList l => "[" +:+ join (Marshal <$> l) "," +:+ "]"
  | JObject members =>
      "{" +:+ join ((λ p, json_string p.1 +:+ ":" +:+ Marshal p.2) <$> members) "," +:+ "}"
  end.

Example marshal_example :
  MarshalIndent (JMap [("b", JList [JString "x<y"; JInt (-3)]); ("a", JMap []);
    ("c", JString (of_chars (chr <$> [195; 169; 255; 9]%N)))]) =
  of_chars (chars "{" ++ chr 10 :: chars "  " ++ chr 34 :: "a"%char :: chr 34 :: chars ": {}," ++
    chr 10 :: chars "  " ++ chr 34 :: "b"%char :: chr 34 :: chars ": [" ++
    chr 10 :: chars "    " ++ chr 34 :: "x"%char :: chr 92 :: chars "u003cy" ++ chr 34 :: ","%char ::
    chr 10 :: chars "    -3" ++ chr 10 :: chars "  ]," ++
    chr 10 :: chars "  " ++ chr 34 :: "c"%char :: chr 34 :: chars ": " ++ chr 34 ::
    chr 195 :: chr 169 :: chr 92 :: chars "ufffd" ++ chr 92 :: "t"%char :: chr 34 ::
    chr 10 :: chars "}").
Proof. vm_compute. reflexivity. Qed.
