(* ===== verification/RegistryStub.v ===== *)
(** * The Registry stub of the local tests

    hack/thunder-registry-stub.go: the server that stands in for the Thunder
    API when the operator is tested.  It reads its inventory file at every
    request, and records requests that would change something instead of
    doing it.  A handler is a program over the file and the log of writes,
    whose lock makes each access to it one step. *)

From S2P Require Import Prelude GoStrings Float64 Labels ResourceSlice Inventory KubeAPI Json.
From S2P Require Import DeviceClass Reaper Operator OperatorSpec.

(** What the handlers see of a request: its method and the elements of its
    path, unescaped.  The path is a clean one; net/http redirects others
    before a handler is looked up. *)
Record request := Request { rq_Method : string; rq_Elems : list string }.
Definition rq_Path (r : request) : string := "/" +:+ join (rq_Elems r) "/".

(** Status, Content-Type, Content-Length where it is set, and body. *)
Record response := Response {
  re_Status : Z; re_ContentType : string; re_Length : option string; re_Body : string
}.

Record write := Write { wr_Method : string; wr_Path : string }.
Definition writeLog := list write.
Definition write_of (r : request) : write := Write (rq_Method r) (rq_Path r).
Definition writeLog_add (l : writeLog) (w : write) : writeLog := l ++ [w].
Definition writeLog_snapshot (l : writeLog) : list write := l.

(** [json.Marshal] of a snapshot: of an empty log it is a nil slice. *)
Definition marshal_writes (ws : list write) : string :=
  match ws with
  | [] => "null"
  | _ => Marshal (JList ((λ w, JObject [("method", JString (wr_Method w)); ("path", JString (wr_Path w))]) <$> ws))
  end.

(** The lists of the inventory file, raw; empty where the file has none. *)
Record inventory := InventoryFile {
  inv_Zones : string; inv_Hosts : string; inv_Clients : string; inv_Oversubscription : string
}.

(** [json.Unmarshal] of an inventory, and net/http's own answer to requests
    that match no pattern. *)
Class StubLibs := {
  Unmarshal_inventory : string → result inventory;
  unmatched : request → response
}.

Inductive stub_ev :=
  | ReadInventory (path : string)
  | AddWrite (w : write)
  | Snapshot.
Definition stub_resp (e : stub_ev) : Type :=
  match e with
  | ReadInventory _ => result string
  | AddWrite _ => unit
  | Snapshot => list write
  end.
Definition stub_sig : sig := Sig stub_ev stub_resp.
Definition scall (e : stub_ev) : prog stub_sig (stub_resp e) := call (S:=stub_sig) e.

Definition writeJSON (body : string) : response :=
  Response 200 "application/json" (Some (itoa (Z.of_nat (String.length body)))) body.
(** [http.Error]. *)
Definition http_Error (message : string) (code : Z) : response :=
  Response code "text/plain; charset=utf-8" None (message +:+ newline).

(** An element of a pattern: a literal, or a wildcard in braces. *)
Inductive segment := Lit (s : string) | Wild.
Definition segment_matches (s : segment) (elem : string) : bool :=
  match s with
  | Lit s => bool_decide (s = elem)
  | Wild => bool_decide (elem ≠ "")
  end.
Fixpoint path_matches (pattern : list segment) (elems : list string) : bool :=
  match pattern, elems with
  | [], [] => true
  | s :: pattern, elem :: elems => segment_matches s elem && path_matches pattern elems
  | _, _ => false
  end.
(** A pattern for GET serves HEAD too. *)
Definition method_matches (pattern method : string) : bool :=
  bool_decide (pattern = method) || bool_decide (pattern = "GET") && bool_decide (method = "HEAD").

Section stub.
Context `{UnicodeTables, StubLibs}.

Definition read (path : string) : prog stub_sig (result inventory) :=
  let? data := scall (ReadInventory path) or wrap "read inventory" in
  match Unmarshal_inventory data with
  | Err e => mret (Err (wrap "parse inventory" e))
  | Ok current => mret (Ok current)
  end.

Definition serve (path : string) (pick : inventory → string * string) (r : request)
    : prog stub_sig response :=
  current ← read path;
  match current with
  | Err e => mret (http_Error (error_text e) 500)
  | Ok current =>
      let '(key, value) := pick current in
      let value := if bool_decide (value = "") then "[]" else value in
      mret (writeJSON ("{" +:+ quote key +:+ ":" +:+ value +:+ "}"))
  end.

Definition serveOversubscription (path : string) (r : request) : prog stub_sig response :=
  current ← read path;
  match current with
  | Err e => mret (http_Error (error_text e) 500)
  | Ok current =>
      let value := inv_Oversubscription current in
      let value := if bool_decide (value = "") then Marshal (JObject [("oversubscriptionTargets", JList [])])
                   else value in
      mret (writeJSON value)
  end.

(** The handlers of the writes. *)
Definition record_write (body : string) (r : request) : prog stub_sig response :=
  _ ← scall (AddWrite (write_of r));
  mret (writeJSON body).

(** A snapshot can always be marshalled. *)
Definition debug_writes (r : request) : prog stub_sig response :=
  entries ← scall Snapshot;
  mret (writeJSON (marshal_writes entries)).

Definition api (elems : list segment) : list segment := Lit "api" :: Lit "v1" :: elems.

Definition routes (path : string)
    : list ((string * list segment) * (request → prog stub_sig response)) :=
  [ (("GET", api [Lit "zones"]), serve path (λ i, ("zones", inv_Zones i)));
    (("GET", api [Lit "hosts"]), serve path (λ i, ("hosts", inv_Hosts i)));
    (("GET", api [Lit "clients"]), serve path (λ i, ("clients", inv_Clients i)));
    (("GET", api [Lit "zones"; Wild; Lit "oversubscription-targets"]), serveOversubscription path);
    (("POST", api [Lit "zones"; Lit "ensure"]),
      record_write (Marshal (JObject [("zoneId", JString "zone-local"); ("displayName", JString "stub")])));
    (("POST", api [Lit "enrollment-tokens"]),
      record_write (Marshal (JObject [("enrollmentTokenId", JString "stub-token-id");
                                      ("enrollmentToken", JString "stub-token")])));
    (("DELETE", api [Lit "enrollment-tokens"; Wild; Lit "node"]),
      record_write (Marshal (JObject [("enrollmentTokenId", JString "stub-token-id"); ("nodeDeleted", JBool true)])));
    (("GET", [Lit "debug"; Lit "writes"]), debug_writes) ].

Definition route_matches (r : request) (p : string * list segment) : bool :=
  method_matches p.1 (rq_Method r) && path_matches p.2 (rq_Elems r).

(** [http.ServeMux]: the handler of the pattern that matches. *)
Definition ServeHTTP (path : string) (r : request) : prog stub_sig response :=
  match find (λ rt, route_matches r rt.1) (routes path) with
  | Some (_, h) => h r
  | None => mret (unmatched r)
  end.
End stub.

(** [main]: listening, announcing the address, and serving until that fails. *)
Inductive main_ev :=
  | Listen (addr : string)
  | Println (line : string)
  | Serve (h : request → prog stub_sig response).
Definition main_resp (e : main_ev) : Type :=
  match e with
  | Listen _ => result string
  | Println _ => unit
  | Serve _ => error
  end.
Definition main_sig : sig := Sig main_ev main_resp.
Definition mcall (e : main_ev) : prog main_sig (main_resp e) := call (S:=main_sig) e.

(** It returns what [log.Fatal] prints before the process exits with 1. *)
Definition stub_main `{UnicodeTables, StubLibs} (addr path : string) : prog main_sig string :=
  if bool_decide (path = "") then mret "-inventory is required"
  else
    listener ← mcall (Listen addr);
    match listener with
    | Err e => mret ("listen on " +:+ addr +:+ ": " +:+ error_text e)
    | Ok listener =>
        _ ← mcall (Println listener);
        e ← mcall (Serve (ServeHTTP path));
        mret (error_text e)
    end.

(** The log, and a file that holds one text during a request. *)
Definition stub_handler (file : result string) : handler stub_sig writeLog := λ e l,
  match e return stub_resp e * writeLog with
  | ReadInventory _ => (file, l)
  | AddWrite w => (tt, writeLog_add l w)
  | Snapshot => (writeLog_snapshot l, l)
  end.

Section served.
Context `{UnicodeTables, StubLibs}.

(** Requests in the order in which they take the lock, each with what the
    file holds then. *)
Fixpoint serve_all (path : string) (l : writeLog) (rs : list (result string * request))
    : list response * writeLog :=
  match rs with
  | [] => ([], l)
  | (file, r) :: rs =>
      let '(a, l) := run (stub_handler file) (ServeHTTP path r) l in
      let '(answers, l) := serve_all path l rs in
      (a :: answers, l)
  end.

(** The patterns of the writes, and what the log gets of a request. *)
Definition write_patterns : list (string * list segment) :=
  [("POST", api [Lit "zones"; Lit "ensure"]); ("POST", api [Lit "enrollment-tokens"]);
   ("DELETE", api [Lit "enrollment-tokens"; Wild; Lit "node"])].
Definition recorded (r : request) : list write :=
  if existsb (route_matches r) write_patterns then [write_of r] else [].

(** The enrollments a run revokes. *)
Definition unenrolled (tr : list (event op_sig)) : list string :=
  tr ≫= λ x : event op_sig, match evt_call x with inl (UnenrollClient t) => [t] | _ => [] end.
(** The requests it makes of Thunder, as the SDK sends them. *)
Definition thunder_requests (request_of : thunder_ev → request) (tr : list (event op_sig)) : list request :=
  tr ≫= λ x : event op_sig, match evt_call x with inl e => [request_of e] | inr _ => [] end.

Definition debug_request : request := Request "GET" ["debug"; "writes"].
End served.

(* -------------------------------------------------------------------- *)
(** ** Lemmas *)

Section lemmas.
Context `{UnicodeTables, StubLibs}.

(** No request matches two patterns: the mux accepts them all, and their order
    does not matter. *)
Definition segments_apart (s t : segment) : bool :=
  match s, t with Lit s, Lit t => bool_decide (s ≠ t) | _, _ => false end.
Fixpoint paths_apart (p q : list segment) : bool :=
  match p, q with
  | [], [] => false
  | s :: p, t :: q => segments_apart s t || paths_apart p q
  | _, _ => true
  end.
Definition patterns_apart (p q : string * list segment) : bool :=
  negb (method_matches p.1 q.1 || method_matches q.1 p.1) || paths_apart p.2 q.2.

Lemma paths_apart_spec p q elems : paths_apart p q = true →
  path_matches p elems = true → path_matches q elems = true → False.
Proof.
  revert q elems. induction p as [|s p IH]; intros [|t q] [|elem elems]; try done. cbn.
  intros [Hst|Hpq]%orb_prop [Hs Hp]%andb_prop [Ht Hq]%andb_prop; [|by eapply IH].
  destruct s as [s|], t as [t|]; try discriminate. cbn in *.
  apply bool_decide_eq_true in Hst, Hs, Ht. congruence.
Qed.

Lemma methods_apart p q m :
  method_matches p m = true → method_matches q m = true → method_matches p q || method_matches q p = true.
Proof.
  unfold method_matches. intros [Hp%bool_decide_eq_true|[Hp%bool_decide_eq_true Hm%bool_decide_eq_true]%andb_prop]%orb_prop
    [Hq%bool_decide_eq_true|[Hq%bool_decide_eq_true Hm'%bool_decide_eq_true]%andb_prop]%orb_prop;
    subst; [by rewrite (bool_decide_true (m = m))|vm_compute; reflexivity..].
Qed.

(** Whatever the request, at most one of the patterns matches it, so that the
    mux takes them all and their order does not matter. *)
Theorem routes_apart path r i j p q :
  (routes path).*1 !! i = Some p → (routes path).*1 !! j = Some q →
  route_matches r p = true → route_matches r q = true → i = j.
Proof.
  set (patterns := imap pair (routes path).*1).
  assert (forallb (λ x, forallb (λ y, bool_decide (x.1 = y.1) || patterns_apart x.2 y.2) patterns) patterns
    = true) as Hall by (vm_compute; reflexivity).
  intros Hp Hq [Hpm Hpe]%andb_prop [Hqm Hqe]%andb_prop. destruct (decide (i = j)) as [|Hne]; [done|exfalso].
  assert (∀ i p, (routes path).*1 !! i = Some p → In (i, p) patterns) as Hin.
  { intros i' p' Hi. apply list_elem_of_In, elem_of_lookup_imap. eauto. }
  rewrite forallb_forall in Hall. specialize (Hall (i, p) (Hin i p Hp)). cbv beta in Hall.
  rewrite forallb_forall in Hall. specialize (Hall (j, q) (Hin j q Hq)). cbn [fst snd] in Hall.
  rewrite bool_decide_false in Hall by done. cbn [orb] in Hall.
  unfold patterns_apart in Hall.
  rewrite (methods_apart _ _ _ Hpm Hqm) in Hall. cbn [negb orb] in Hall.
  by eapply paths_apart_spec.
Qed.

(** A request reads the log or adds itself to it. *)
Lemma serve_reads path pick r file l : (run (stub_handler file) (serve path pick r) l).2 = l.
Proof.
  unfold serve, read, orfail. rewrite !run_bind. destruct file as [data|e]; [|done]. cbn.
  destruct (Unmarshal_inventory data) as [i|e]; [|done]. cbn. by destruct (pick i).
Qed.
Lemma targets_reads path r file l : (run (stub_handler file) (serveOversubscription path r) l).2 = l.
Proof.
  unfold serveOversubscription, read, orfail. rewrite !run_bind. destruct file as [data|e]; [|done]. cbn.
  by destruct (Unmarshal_inventory data) as [i|e].
Qed.

Lemma write_method method m : bool_decide ("GET" = method) = false →
  method_matches method m = bool_decide (method = m).
Proof.
  intros Hg. unfold method_matches. rewrite (bool_decide_ext (method = "GET") ("GET" = method)) by done.
  by rewrite Hg, orb_false_r.
Qed.

Lemma serve_one path r file l : (run (stub_handler file) (ServeHTTP path r) l).2 = l ++ recorded r.
Proof.
  unfold ServeHTTP, recorded, routes, write_patterns, route_matches. cbn [find existsb fst snd].
  rewrite !(write_method "POST"), !(write_method "DELETE") by reflexivity.
  destruct (decide (rq_Method r = "GET" ∨ rq_Method r = "HEAD")) as [Hm|Hm].
  - assert (bool_decide ("POST" = rq_Method r) = false ∧ bool_decide ("DELETE" = rq_Method r) = false) as [-> ->]
      by (destruct Hm as [-> | ->]; by split).
    cbn [andb orb]. rewrite app_nil_r.
    repeat match goal with |- context [if ?b then _ else _] => destruct b end;
      first [apply serve_reads | apply targets_reads | reflexivity].
  - assert (method_matches "GET" (rq_Method r) = false) as ->.
    { apply orb_false_iff. rewrite andb_false_iff.
      split; [|right]; apply bool_decide_eq_false; intros Heq; apply Hm; first [left; congruence | right; congruence]. }
    cbn [andb].
    repeat match goal with
      | |- context [path_matches ?p ?elems] => destruct (path_matches p elems)
      | |- context [bool_decide (?m = rq_Method r)] => destruct (bool_decide (m = rq_Method r))
      end; cbn; by rewrite ?app_nil_r.
Qed.

(** The log holds the writes in their order, and nothing else. *)
Lemma serve_all_log path rs l :
  (serve_all path l rs).2 = l ++ (rs ≫= λ p, recorded p.2).
Proof.
  revert l. induction rs as [|[file r] rs IH]; intros l; cbn; [by rewrite app_nil_r|].
  pose proof (serve_one path r file l) as Hone.
  destruct (run (stub_handler file) (ServeHTTP path r) l) as [a l']. cbn in Hone. subst l'.
  specialize (IH (l ++ recorded r)). destruct (serve_all path _ rs) as [answers l']. cbn in IH |- *.
  by rewrite IH, <-app_assoc.
Qed.

(** The answer to /debug/writes. *)
Lemma debug_answer path file l :
  (run (stub_handler file) (ServeHTTP path debug_request) l).1 = writeJSON (marshal_writes l).
Proof. reflexivity. Qed.

(** The stub serves only with an inventory and after its address is announced. *)
Theorem stub_main_serves addr path :
  wp (S:=main_sig) (λ pre (e : main_ev), match e with
    | Serve h => h = ServeHTTP path ∧ path ≠ "" ∧ ∃ a : string,
        Ev (S:=main_sig) (Listen addr) (Ok a) ∈ pre ∧ Ev (S:=main_sig) (Println a) tt ∈ pre
    | _ => True
    end) [] (stub_main addr path) (λ _ _, True).
Proof.
  unfold stub_main. case_bool_decide as Hp; [done|]. apply wp_call_bind; [done|].
  intros [a|e]; [|done]. apply wp_call_bind; [done|]. intros [].
  apply wp_call_bind; [|done]. split_and!; [done..|]. exists a. set_solver.
Qed.
End lemmas.

(** What a synchronisation asks of Thunder. *)
Section operator.
Context `{UnicodeTables, FloatConversion, LibErrors, MapOrder}.

Definition lists_thunder (e : thunder_ev) : Prop :=
  match e with UnenrollClient _ => False | _ => True end.
Definition reads_thunder (e : ev op_sig) : Prop :=
  match e with inl e => lists_thunder e | inr _ => True end.
Abbreviation reading := (calls_only (S:=op_sig) reads_thunder).

Ltac reading :=
  unfold orfail, kcall;
  repeat first [ done | by apply calls_only_call | apply calls_only_bind; [|intros ?]
               | case_match | match goal with IH : context [calls_only _ _] |- _ => apply IH end ].

Lemma buildDesiredPools_reading : reading (lift_l buildDesiredPools).
Proof.
  apply calls_only_lift_l. assert (∀ id, calls_only (S:=thunder_sig) lists_thunder (zoneOversubscription id))
    by (intros id; unfold zoneOversubscription; reading).
  unfold buildDesiredPools. unfold orfail. apply calls_only_bind; [by apply calls_only_call|].
  intros [zones|e]; [|done]. generalize (∅ : gmap poolKey poolDefinition).
  induction zones as [|zone zones IH]; intros m; cbn [build_zones]; reading.
Qed.
Lemma deleteSlice_reading x : reading (deleteSlice x).
Proof. unfold deleteSlice. reading. Qed.
Lemma delete_slices_reading slices : reading (delete_slices slices).
Proof. pose proof deleteSlice_reading. induction slices; cbn [delete_slices]; reading. Qed.
Lemma apply_wanted_reading wanted m : reading (apply_wanted wanted m).
Proof. revert m. induction wanted; intros m; cbn [apply_wanted]; reading. Qed.
Lemma applyPool_reading current wanted : reading (applyPool current wanted).
Proof.
  pose proof apply_wanted_reading. pose proof delete_slices_reading. unfold applyPool. reading.
Qed.
Lemma sync_stale_reading existing desired cache errs : reading (sync_stale existing desired cache errs).
Proof.
  pose proof delete_slices_reading. revert cache errs.
  induction existing as [|[key slices] existing IH]; intros cache errs; cbn [sync_stale]; reading.
Qed.
Lemma sync_pools_reading cfg keys existing desired cache errs :
  reading (sync_pools cfg keys existing desired cache errs).
Proof.
  pose proof applyPool_reading. revert cache errs.
  induction keys as [|key keys IH]; intros cache errs; cbn [sync_pools]; reading.
Qed.
Lemma listExisting_reading cfg cache : reading (listExistingResourceSlices cfg cache).
Proof. unfold listExistingResourceSlices. reading. Qed.
Lemma sync_wanted_reading wanted existing : reading (sync_wanted wanted existing).
Proof. revert existing. induction wanted as [|[name class] wanted IH]; intros existing; cbn [sync_wanted]; reading. Qed.
Lemma delete_stale_reading names : reading (delete_stale names).
Proof. induction names; cbn [delete_stale]; reading. Qed.
Lemma syncDeviceClasses_reading cfg desired : reading (syncDeviceClasses cfg desired).
Proof.
  pose proof sync_wanted_reading. pose proof delete_stale_reading.
  unfold syncDeviceClasses, listManagedDeviceClasses. reading.
Qed.

(** A synchronisation lists what Thunder has, and then the reaper works. *)
Lemma Sync_wp G cfg clients o :
  (∀ pre e, reads_thunder e → G pre e) →
  (∀ pre, wp G pre (reapOrphanedClients clients (OrphanGracePeriod cfg) (op_orphans o)) (λ _ _, True)) →
  wp G [] (Sync cfg clients o) (λ _ _, True).
Proof.
  intros HG Hreap.
  assert (∀ A (p : prog op_sig A) pre Q, reading p → (∀ pre' a, Q pre' a) → wp G pre p Q) as Hread.
  { intros A p pre Q Hp HQ. eapply wp_weaken; [intros ?; apply HG|].
    eapply wp_strengthen; [by apply calls_only_any|]. intros; apply HQ. }
  unfold Sync. rewrite wp_bind. apply Hread; [apply listExisting_reading|].
  intros pre1 [[existing|e] cache]; [|done].
  rewrite wp_bind. apply Hread; [apply buildDesiredPools_reading|]. intros pre2 [desired|e]; [|done].
  rewrite wp_bind. apply Hread; [apply sync_stale_reading|]. intros pre3 [cache1 errs1].
  rewrite wp_bind. apply Hread; [apply sync_pools_reading|]. intros pre4 [cache2 errs2].
  rewrite wp_bind. apply Hread; [apply syncDeviceClasses_reading|]. intros pre5 classes.
  rewrite wp_bind. eapply wp_strengthen; [apply Hreap|]. by intros ? [] _ _.
Qed.

(** The enrollments a synchronisation may revoke, and after what. *)
Definition sync_may (grace : Z) (orphans : gmap string Z) (pre : list (event op_sig)) (e : ev op_sig) : Prop :=
  match e with
  | inl (UnenrollClient tokenID) =>
      tokenID ≠ "" ∧ ∃ item, orphaned grace orphans pre item ∧ tokenID = tc_enrollmentTokenID item
  | _ => True
  end.

Lemma Sync_may cfg clients o tr a : exec (Sync cfg clients o) tr a →
  ∀ tr1 e reply tr2, tr = tr1 ++ Ev e reply :: tr2 →
    sync_may (OrphanGracePeriod cfg) (op_orphans o) tr1 e.
Proof.
  intros Hx. eapply (wp_sound _ [] _ (λ _ _, True)); [|exact Hx]. apply Sync_wp.
  - by intros pre [[]|].
  - intros pre. rewrite <-(app_nil_r pre). eapply wp_shift; [apply reapOrphanedClients_wp|].
    intros pre1 [[]|]; try done. intros (Ht & item & Ho & ->). split; [done|].
    exists item. split; [|done]. eapply orphaned_mono; [|done]. set_solver.
Qed.

Lemma Sync_no_reaper cfg o tr a : exec (Sync cfg false o) tr a → unenrolled tr = [].
Proof.
  intros Hx. assert (wp (λ _, reads_thunder) [] (Sync cfg false o) (λ _ _, True)) as Hw by by apply Sync_wp.
  pose proof (wp_sound _ [] _ (λ _ _, True) _ _ Hw Hx) as [_ Hall]. clear Hx Hw.
  assert (∀ x, x ∈ tr → reads_thunder (evt_call x)) as Hin.
  { intros [e r] (tr1 & tr2 & ->)%list_elem_of_split. by eapply Hall. }
  clear Hall. unfold unenrolled. induction tr as [|x tr IH]; [done|].
  rewrite bind_cons, IH by (intros y Hy; apply Hin; by right).
  specialize (Hin x ltac:(by left)). by destruct (evt_call x) as [[]|].
Qed.
End operator.

Section theorems.
Context `{UnicodeTables, FloatConversion, LibErrors, MapOrder, StubLibs}.

(** The requests the SDK makes: a list is a GET, revoking an enrollment is the
    DELETE the stub has a pattern for. *)
Definition documented (request_of : thunder_ev → request) : Prop :=
  (∀ e, lists_thunder e → rq_Method (request_of e) = "GET") ∧
  (∀ t, request_of (UnenrollClient t) = Request "DELETE" ["api"; "v1"; "enrollment-tokens"; t; "node"]).

Lemma recorded_unenroll t : t ≠ "" →
  let r := Request "DELETE" ["api"; "v1"; "enrollment-tokens"; t; "node"] in recorded r = [write_of r].
Proof. destruct t; [done|reflexivity]. Qed.

Lemma thunder_requests_recorded request_of tr : documented request_of →
  (∀ t, t ∈ unenrolled tr → t ≠ "") →
  (thunder_requests request_of tr ≫= recorded) = write_of ∘ request_of ∘ UnenrollClient <$> unenrolled tr.
Proof.
  intros [Hget Hdel]. unfold thunder_requests, unenrolled. induction tr as [|x tr IH]; intros Hne; [done|].
  rewrite !bind_cons, bind_app, fmap_app, IH by (intros t Ht; apply Hne; apply elem_of_app; by right).
  f_equal. destruct (evt_call x) as [e|] eqn:Hx; [|done]. rewrite bind_cons, app_nil_r.
  assert (lists_thunder e → recorded (request_of e) = []) as Hlist.
  { intros Hl%Hget. unfold recorded, write_patterns, route_matches. by rewrite Hl. }
  destruct e; cbn [fmap list_fmap]; try (by apply Hlist).
  unfold compose. rewrite Hdel. apply recorded_unenroll.
  apply Hne. rewrite bind_cons, elem_of_app, Hx. left. by left.
Qed.

(** What a synchronisation leaves in the stub's log: the revocations of its
    reaper, in order, each of a client that is due. *)
Lemma stub_writes cfg clients o tr a request_of path rs l :
  exec (Sync cfg clients o) tr a → documented request_of → rs.*2 = thunder_requests request_of tr →
  (serve_all path l rs).2 =
    l ++ ((λ t, Write "DELETE" (rq_Path (request_of (UnenrollClient t)))) <$> unenrolled tr) ∧
  (∀ t, t ∈ unenrolled tr → ∃ item, orphaned (OrphanGracePeriod cfg) (op_orphans o) tr item) ∧
  (clients = false → unenrolled tr = []).
Proof.
  intros Hx Hdoc Hrs. pose proof (Sync_may _ _ _ _ _ Hx) as Hmay.
  assert (∀ t, t ∈ unenrolled tr → t ≠ "" ∧
    ∃ item, orphaned (OrphanGracePeriod cfg) (op_orphans o) tr item) as Hdue.
  { unfold unenrolled. intros t ([e r] & Ht & Hin)%list_elem_of_bind.
    apply list_elem_of_split in Hin as (tr1 & tr2 & ->). specialize (Hmay _ _ _ _ eq_refl).
    destruct e as [[]|]; try (by apply not_elem_of_nil in Ht). cbn in Ht.
    apply list_elem_of_singleton in Ht as ->. destruct Hmay as (? & item & Hor & _). split; [done|].
    exists item. eapply orphaned_mono; [|exact Hor]. set_solver. }
  split_and!.
  - rewrite serve_all_log. f_equal.
    assert ((rs ≫= λ p, recorded p.2) = rs.*2 ≫= recorded) as ->.
    { clear. induction rs as [|p rs IH]; [done|]. by rewrite fmap_cons, !bind_cons, IH. }
    rewrite Hrs, thunder_requests_recorded; [|done|intros t ?; by apply Hdue].
    apply list_fmap_ext. intros ? t _. unfold write_of, compose. by rewrite (proj2 Hdoc).
  - intros t Ht. exact (proj2 (Hdue t Ht)).
  - intros ->. exact (Sync_no_reaper _ _ _ _ Hx).
Qed.

Lemma quiet_requests request_of tr r : documented request_of → unenrolled tr = [] →
  r ∈ thunder_requests request_of tr → rq_Method r = "GET".
Proof.
  intros [Hget _] Hno ([e reply] & Hr & Hin)%list_elem_of_bind. cbn [evt_call] in Hr.
  destruct e as [e|]; [|by apply not_elem_of_nil in Hr]. apply list_elem_of_singleton in Hr as ->.
  apply Hget. destruct e as [|?|?|?|t]; try done.
  assert (t ∈ unenrolled tr) as Ht; [|by rewrite Hno in Ht; apply not_elem_of_nil in Ht].
  apply list_elem_of_bind. eexists. split; [|exact Hin]. by left.
Qed.

End theorems.

(** A client whose claim has been gone for the grace period. *)
Definition sample_request_of (e : thunder_ev) : request :=
  match e with
  | ListZones => Request "GET" ["api"; "v1"; "zones"]
  | ListServers _ => Request "GET" ["api"; "v1"; "hosts"]
  | ListClients _ => Request "GET" ["api"; "v1"; "clients"]
  | ListZoneOversubscriptionTargets z => Request "GET" ["api"; "v1"; "zones"; z; "oversubscription-targets"]
  | UnenrollClient t => Request "DELETE" ["api"; "v1"; "enrollment-tokens"; t; "node"]
  end.
Definition reaping_config : Config :=
  Build_Config "thundercompute.com" "thunder" "topology.kubernetes.io/zone" 60000000000
    "thunder-gpu-" "thundercompute.com/gpu-" 500.
Definition reaping_operator : operator_state := OperatorState ∅ {["default/gone" := 400%Z]}.

Section witnesses.
#[local] Existing Instances ascii_tables listed_order amd64_conversion status_errors
  status_server_errors.
#[local] Instance sample_stub : StubLibs := {|
  Unmarshal_inventory := λ data, Ok (InventoryFile data "" "" "");
  unmatched := λ _, http_Error "404 page not found" 404
|}.

(** The file is served as it is at each request, a missing list as an empty one. *)
Example inventory_served :
  re_Body <$> (serve_all "inv.json" []
    [(Ok "[1]", Request "GET" ["api"; "v1"; "zones"]); (Ok "[2]", Request "HEAD" ["api"; "v1"; "zones"]);
     (Ok "[2]", Request "GET" ["api"; "v1"; "hosts"]); (Err (ErrText "missing"), Request "GET" ["api"; "v1"; "clients"]);
     (Ok "", Request "POST" ["api"; "v1"; "zones"])]).1 =
  ["{" +:+ dquote +:+ "zones" +:+ dquote +:+ ":[1]}"; "{" +:+ dquote +:+ "zones" +:+ dquote +:+ ":[2]}";
   "{" +:+ dquote +:+ "hosts" +:+ dquote +:+ ":[]}"; "read inventory: missing" +:+ newline;
   "404 page not found" +:+ newline].
Proof. vm_compute. reflexivity. Qed.

(** What the reaper revokes is a write. *)
Example reaper_writes :
  let tr := trace server_handler (Sync reaping_config true reaping_operator) reaper_server in
  (serve_all "inv.json" [] ((λ r, (Ok "[]", r)) <$> thunder_requests sample_request_of tr)).2 =
    [Write "DELETE" "/api/v1/enrollment-tokens/tok-1/node"].
Proof. vm_compute. reflexivity. Qed.

(** The reaper is on, and the one client's claim is alive. *)
Definition quiet_server : server :=
  Server ∅ ∅ {[ ("default", "kept") := live_client ]} {[ ("default", "claim-2") := "uid-2" ]} 1000
    (Inventory.Snapshot [] (λ _, []) (λ _, []) (λ _, Err (ErrText ""))).

End witnesses.
