(* ===== verification/GoTime.v ===== *)
(** * Times as text

    What the daemon uses of package time: an instant as seconds since the
    epoch, written and read in RFC 3339. *)

From S2P Require Import Prelude GoStrings.

Open Scope Z_scope.

(* -------------------------------------------------------------------- *)
(** ** The calendar *)

(** Days since 1970-01-01 of a date of the Gregorian calendar, and back.  A
    year starts in March, so the leap day is its last; 400 years are one
    period of 146097 days. *)
Definition day_of_year (month day : Z) : Z :=
  (153 * (if month >? 2 then month - 3 else month + 9) + 2) / 5 + day - 1.
Definition days_from_civil (year month day : Z) : Z :=
  let y := if month <=? 2 then year - 1 else year in
  let yoe := y mod 400 in
  (y / 400) * 146097 + (yoe * 365 + yoe / 4 - yoe / 100 + day_of_year month day) - 719468.

Definition year_of_era (doe : Z) : Z :=
  (doe - doe / 1460 + doe / 36524 - doe / 146096) / 365.
Definition civil_from_days (days : Z) : Z * Z * Z :=
  let z := days + 719468 in
  let doe := z mod 146097 in
  let yoe := year_of_era doe in
  let doy := doe - (365 * yoe + yoe / 4 - yoe / 100) in
  let mp := (5 * doy + 2) / 153 in
  let day := doy - (153 * mp + 2) / 5 + 1 in
  let month := if mp <? 10 then mp + 3 else mp - 9 in
  let year := yoe + (z / 146097) * 400 in
  ((if month <=? 2 then year + 1 else year), month, day).

Lemma year_of_era_spec doe : 0 ≤ doe < 146097 →
  let yoe := year_of_era doe in
  0 ≤ yoe < 400 ∧ 0 ≤ doe - (365 * yoe + yoe / 4 - yoe / 100) ≤ 365.
Proof.
  unfold year_of_era. intros Hd. cbn zeta.
  Z.to_euclidean_division_equations; lia.
Qed.

(** The month and the day of a day of the year. *)
Lemma month_day_spec doy : 0 ≤ doy ≤ 365 →
  let mp := (5 * doy + 2) / 153 in
  let day := doy - (153 * mp + 2) / 5 + 1 in
  let month := if mp <? 10 then mp + 3 else mp - 9 in
  1 ≤ month ≤ 12 ∧ 1 ≤ day ≤ 31 ∧ day_of_year month day = doy.
Proof.
  intros Hd. cbn zeta. unfold day_of_year. set (mp := (5 * doy + 2) / 153).
  assert (0 ≤ mp ≤ 11 ∧ 0 ≤ doy - (153 * mp + 2) / 5 ≤ 30) as [Hm Hday]
    by (unfold mp; Z.to_euclidean_division_equations; lia).
  destruct (Z.ltb_spec mp 10).
  - assert (mp + 3 >? 2 = true) as -> by lia. replace (mp + 3 - 3) with mp by lia. lia.
  - assert (mp - 9 >? 2 = false) as -> by lia. replace (mp - 9 + 9) with mp by lia. lia.
Qed.

Lemma civil_roundtrip days :
  let '(year, month, day) := civil_from_days days in
  1 ≤ month ≤ 12 ∧ 1 ≤ day ≤ 31 ∧ days_from_civil year month day = days.
Proof.
  unfold civil_from_days, days_from_civil. cbn zeta.
  pose proof (Z.mod_pos_bound (days + 719468) 146097 ltac:(lia)) as Hdoe.
  pose proof (Z.div_mod (days + 719468) 146097 ltac:(lia)) as Hdiv.
  set (doe := (days + 719468) mod 146097) in *. set (era := (days + 719468) / 146097) in *.
  pose proof (year_of_era_spec doe Hdoe) as [Hyoe Hdoy]. cbn zeta in Hdoy.
  set (yoe := year_of_era doe) in *.
  set (doy := doe - (365 * yoe + yoe / 4 - yoe / 100)) in *.
  pose proof (month_day_spec doy Hdoy) as (Hm & Hd & Hday). cbn zeta in *.
  set (mp := (5 * doy + 2) / 153) in *.
  set (month := if mp <? 10 then mp + 3 else mp - 9) in *.
  split; [done|]. split; [done|]. rewrite Hday.
  assert ((if month <=? 2 then (if month <=? 2 then yoe + era * 400 + 1 else yoe + era * 400) - 1
    else (if month <=? 2 then yoe + era * 400 + 1 else yoe + era * 400)) = yoe + era * 400) as ->
    by (destruct (month <=? 2); lia).
  rewrite Z.mod_add, Z.div_add, Z.mod_small, Z.div_small by lia. lia.
Qed.

Definition is_leap (year : Z) : bool :=
  (year mod 4 =? 0) && (negb (year mod 100 =? 0) || (year mod 400 =? 0)).
Definition days_in_month (year month : Z) : Z :=
  if month =? 2 then if is_leap year then 29 else 28
  else if bool_decide (month ∈ [4; 6; 9; 11]) then 30 else 31.

(** A day 365 of a year from March is the 29th of a leap year's February. *)
Lemma leap_day doe : 0 ≤ doe < 146097 →
  let yoe := year_of_era doe in
  doe - (365 * yoe + yoe / 4 - yoe / 100) = 365 → is_leap (yoe + 1) = true.
Proof.
  unfold year_of_era. intros Hd. cbn zeta. set (yoe := _ / 365). intros Hdoy.
  assert ((yoe + 1) mod 4 = 0 ∧ ((yoe + 1) mod 100 ≠ 0 ∨ (yoe + 1) mod 400 = 0)) as [H4 H100]
    by (subst yoe; Z.to_euclidean_division_equations; lia).
  unfold is_leap. rewrite H4. cbn [Z.eqb andb].
  destruct (Z.eqb_spec ((yoe + 1) mod 100) 0); [|done]. cbn [negb orb].
  apply Z.eqb_eq. by destruct H100.
Qed.

(* -------------------------------------------------------------------- *)
(** ** RFC 3339 in UTC, to the second *)

Definition digit (z : Z) : ascii := chr (48 + Z.to_N z).
Definition undigit (a : ascii) : option Z :=
  if is_digit a then Some (Z.of_N (code a) - 48) else None.
Definition pad2 (z : Z) : list ascii := [digit (z / 10); digit (z mod 10)].
Definition pad4 (z : Z) : list ascii := pad2 (z / 100) ++ pad2 (z mod 100).
Definition number2 (a b : ascii) : option Z :=
  x ← undigit a; y ← undigit b; Some (10 * x + y).

(** [appendInt] of the year, to four digits. *)
Definition pad_year (year : Z) : list ascii :=
  let digits := if Z.abs year <? 10000 then pad4 (Z.abs year) else chars (itoa (Z.abs year)) in
  if year <? 0 then "-"%char :: digits else digits.

(** [t.Format(time.RFC3339)] of an instant in UTC. *)
Definition time_Format (t : Z) : string :=
  let '(year, month, day) := civil_from_days (t / 86400) in
  let second := t mod 86400 in
  of_chars (pad_year year ++ "-"%char :: pad2 month ++ "-"%char :: pad2 day ++ "T"%char ::
    pad2 (second / 3600) ++ ":"%char :: pad2 (second / 60 mod 60) ++ ":"%char ::
    pad2 (second mod 60) ++ ["Z"%char]).

(** The seconds a time zone is east of UTC; a fraction of a second before it
    is dropped. *)
Definition parse_zone (l : list ascii) : option Z :=
  match l with
  | ["Z"%char] => Some 0
  | [sign; h1; h2; c; m1; m2] =>
      hour ← number2 h1 h2; minute ← number2 m1 m2;
      if (hour <=? 24) && (minute <? 60) && bool_decide (c = ":"%char) then
        if bool_decide (sign = "+"%char) then Some (hour * 3600 + minute * 60)
        else if bool_decide (sign = "-"%char) then Some (- (hour * 3600 + minute * 60))
        else None
      else None
  | _ => None
  end.
Definition parse_fraction_zone (l : list ascii) : option Z :=
  match l with
  | "."%char :: a :: l => if is_digit a then parse_zone (drop_while is_digit l) else None
  | _ => parse_zone l
  end.

(** [time.Parse(time.RFC3339, s)], to the second.  Parse also takes an hour of
    one digit and a comma before the fraction, which are no RFC 3339 and read
    as errors here. *)
Definition time_Parse (s : string) : option Z :=
  match chars s with
  | y1 :: y2 :: y3 :: y4 :: s1 :: m1 :: m2 :: s2 :: d1 :: d2 :: s3 ::
    h1 :: h2 :: s4 :: i1 :: i2 :: s5 :: x1 :: x2 :: rest =>
      if bool_decide ([s1; s2; s3; s4; s5] = ["-"; "-"; "T"; ":"; ":"]%char) then
        century ← number2 y1 y2; year ← number2 y3 y4; month ← number2 m1 m2; day ← number2 d1 d2;
        hour ← number2 h1 h2; minute ← number2 i1 i2; second ← number2 x1 x2;
        offset ← parse_fraction_zone rest;
        let year := 100 * century + year in
        if bool_decide (1 ≤ month ≤ 12) && bool_decide (1 ≤ day ≤ days_in_month year month) &&
           (hour <? 24) && (minute <? 60) && (second <? 60)
        then Some (days_from_civil year month day * 86400 + hour * 3600 + minute * 60 + second
                   - offset)
        else None
      else None
  | _ => None
  end.

(** From the first to the last second of the years 0 to 9999. *)
Definition utc_range (t : Z) : Prop := -62167219200 ≤ t < 253402300800.

Lemma undigit_digit z : 0 ≤ z < 10 → undigit (digit z) = Some z.
Proof.
  intros Hz. assert (z ∈ [0; 1; 2; 3; 4; 5; 6; 7; 8; 9]) as Hin by (rewrite !elem_of_cons; lia).
  repeat (apply elem_of_cons in Hin as [->|Hin]; [reflexivity|]). by apply elem_of_nil in Hin.
Qed.

Lemma number2_pad2 z : 0 ≤ z < 100 → number2 (digit (z / 10)) (digit (z mod 10)) = Some z.
Proof.
  intros Hz. unfold number2. rewrite !undigit_digit by (Z.to_euclidean_division_equations; lia).
  cbn. f_equal. Z.to_euclidean_division_equations; lia.
Qed.

Lemma month_day_length year doy : 0 ≤ doy ≤ 365 → (doy = 365 → is_leap (year + 1) = true) →
  let mp := (5 * doy + 2) / 153 in
  let day := doy - (153 * mp + 2) / 5 + 1 in
  let month := if mp <? 10 then mp + 3 else mp - 9 in
  day ≤ days_in_month (if month <=? 2 then year + 1 else year) month.
Proof.
  intros Hd Hleap. cbn zeta. set (mp := (5 * doy + 2) / 153).
  assert (153 * mp ≤ 5 * doy + 2 < 153 * mp + 153 ∧ 0 ≤ mp ≤ 11) as [Hmp Hr]
    by (unfold mp; Z.to_euclidean_division_equations; lia). clearbody mp.
  assert (mp ∈ [0; 1; 2; 3; 4; 5; 6; 7; 8; 9; 10; 11]) as Hin by (rewrite !elem_of_cons; lia).
  unfold days_in_month. clear Hr.
  repeat (apply elem_of_cons in Hin as [->|Hin];
    [match goal with |- context [if ?k <? 10 then ?a else ?b] =>
       let m := eval vm_compute in (if k <? 10 then a else b) in
       change (if k <? 10 then a else b) with m
     end; cbn -[is_leap bool_decide Z.mul Z.add Z.sub Z.div]|]);
    [..|by apply elem_of_nil in Hin];
    try first [rewrite bool_decide_true by set_solver | rewrite bool_decide_false by set_solver];
    try (Z.to_euclidean_division_equations; lia).
  destruct (is_leap (year + 1)) eqn:Hl; [Z.to_euclidean_division_equations; lia|].
  destruct (decide (doy = 365)) as [He|]; [|Z.to_euclidean_division_equations; lia].
  by specialize (Hleap He).
Qed.

Lemma is_leap_shift year era : is_leap (year + era * 400) = is_leap year.
Proof.
  unfold is_leap. replace (era * 400) with (era * 100 * 4) at 1 by lia.
  rewrite Z.mod_add by lia. replace (era * 400) with (era * 4 * 100) at 1 by lia.
  by rewrite !Z.mod_add by lia.
Qed.

Lemma civil_length days :
  let '(year, month, day) := civil_from_days days in day ≤ days_in_month year month.
Proof.
  unfold civil_from_days. cbn zeta.
  pose proof (Z.mod_pos_bound (days + 719468) 146097 ltac:(lia)) as Hdoe.
  set (doe := (days + 719468) mod 146097) in *. set (era := (days + 719468) / 146097) in *.
  pose proof (year_of_era_spec doe Hdoe) as [Hyoe Hdoy].
  pose proof (leap_day doe Hdoe) as Hleap. cbn zeta in *.
  apply month_day_length; [done|]. intros Heq.
  replace (year_of_era doe + era * 400 + 1) with (year_of_era doe + 1 + era * 400) by lia.
  rewrite is_leap_shift. by apply Hleap.
Qed.

(** The years of the range: a year's first day is past every day of the
    year before. *)
Lemma day_of_year_range month day : 1 ≤ month ≤ 12 → 1 ≤ day ≤ 31 →
  0 ≤ day_of_year month day ≤ 367 ∧
  (month ≤ 2 → 306 ≤ day_of_year month day) ∧ (2 < month → day_of_year month day ≤ 305).
Proof.
  intros Hm Hd. unfold day_of_year.
  destruct (Z.gtb_spec month 2); Z.to_euclidean_division_equations; lia.
Qed.

Lemma civil_year days : -719528 ≤ days < 2932897 →
  let '(year, month, day) := civil_from_days days in 0 ≤ year < 10000.
Proof.
  intros Hd. pose proof (civil_roundtrip days) as Hr.
  destruct (civil_from_days days) as [[year month] day]. destruct Hr as (Hm & Hday & Heq).
  pose proof (day_of_year_range month day Hm Hday) as (Hr & H2 & H3).
  revert Heq. unfold days_from_civil. destruct (Z.leb_spec month 2) as [Hle|Hgt]; intros Heq.
  - specialize (H2 Hle). generalize dependent (day_of_year month day). intros doy.
    intros. Z.to_euclidean_division_equations. lia.
  - specialize (H3 Hgt). generalize dependent (day_of_year month day). intros doy.
    intros. Z.to_euclidean_division_equations. lia.
Qed.

Lemma time_roundtrip t : utc_range t → time_Parse (time_Format t) = Some t.
Proof.
  unfold utc_range, time_Parse, time_Format. intros Ht.
  pose proof (civil_roundtrip (t / 86400)) as Hr. pose proof (civil_length (t / 86400)) as Hl.
  assert (-719528 ≤ t / 86400 < 2932897) as Hrange by (Z.to_euclidean_division_equations; lia).
  pose proof (civil_year _ Hrange) as Hy.
  destruct (civil_from_days (t / 86400)) as [[year month] day]. destruct Hr as (Hm & Hd & Heq).
  pose proof (Z.mod_pos_bound t 86400 ltac:(lia)) as Hsec.
  pose proof (Z.div_mod t 86400 ltac:(lia)) as Hdiv.
  set (second := t mod 86400) in *. rewrite chars_of_chars. unfold pad_year.
  rewrite Z.abs_eq by lia. assert (year <? 10000 = true) as -> by lia.
  assert (year <? 0 = false) as -> by lia. unfold pad4, pad2. cbn [app].
  rewrite bool_decide_true by done. rewrite !number2_pad2
    by (Z.to_euclidean_division_equations; lia). cbn [mbind option_bind parse_fraction_zone parse_zone].
  replace (100 * (year / 100) + year mod 100) with year by (Z.to_euclidean_division_equations; lia).
  rewrite !bool_decide_true by lia. cbn [andb].
  assert ((second / 3600 <? 24) && (second / 60 mod 60 <? 60) && (second mod 60 <? 60) = true) as ->.
  { rewrite !andb_true_iff, !Z.ltb_lt. Z.to_euclidean_division_equations. lia. }
  rewrite Heq. f_equal. Z.to_euclidean_division_equations. lia.
Qed.

Lemma time_Format_nonempty t : time_Format t ≠ "".
Proof.
  unfold time_Format. destruct (civil_from_days _) as [[year month] day].
  intros Heq%of_chars_nil_inv. by apply app_eq_nil in Heq as [_ ?].
Qed.

Example time_examples :
  (time_Format (-62135596800), time_Format 1709210096, time_Parse "2024-02-30T00:00:00Z",
   time_Parse "2024-02-29T14:34:56.25+02:00", time_Format 253402300800) =
  ("0001-01-01T00:00:00Z", "2024-02-29T12:34:56Z", None, Some 1709210096,
   "10000-01-01T00:00:00Z").
Proof. vm_compute. reflexivity. Qed.
