(* ===== verification/ClientStore.v ===== *)
(** * Daemon: the ThunderClient store

    internal/daemon/store.go: the driver's records as ThunderClient resources
    of the Kubernetes API - their rendering as nested fields and reading back,
    and the store's three operations with the finalizer that keeps a resource
    until its enrollment is revoked. *)

From S2P Require Import Prelude GoStrings Float64 Labels ResourceSlice Inventory KubeAPI Reaper Driver.
From S2P Require Import GoTime.

(* -------------------------------------------------------------------- *)
(** ** Objects *)

(** The values under an unstructured object's fields. *)
Inductive value :=
  | VString (s : string)
  | VInt (z : Z)
  | VMap (fields : list (string * value)).

Definition field (key : string) (m : list (string * value)) : option value :=
  snd <$> find (λ p, bool_decide (p.1 = key)) m.

Fixpoint set_field (key : string) (v : value) (m : list (string * value)) : list (string * value) :=
  match m with
  | [] => [(key, v)]
  | (k, w) :: m => if bool_decide (k = key) then (k, v) :: m else (k, w) :: set_field key v m
  end.

(** [unstructured.NestedFieldNoCopy] on a path that is not empty. *)
Fixpoint nested (m : list (string * value)) (path : list string) : option value :=
  match path with
  | [] => None
  | [key] => field key m
  | key :: path => match field key m with Some (VMap m') => nested m' path | _ => None end
  end.

(** [unstructured.SetNestedField]; a path through a value that is no map is
    an error, which the code ignores. *)
Fixpoint set_nested (m : list (string * value)) (path : list string) (v : value)
    : list (string * value) :=
  match path with
  | [] => m
  | [key] => set_field key v m
  | key :: path =>
      match field key m with
      | Some (VMap m') => set_field key (VMap (set_nested m' path v)) m
      | Some _ => m
      | None => set_field key (VMap (set_nested [] path v)) m
      end
  end.

(** A ThunderClient resource: its metadata, and its other fields. *)
Record object := Object {
  o_name : string;
  o_namespace : string;
  o_labels : gmap string string;
  o_finalizers : list string;
  o_resourceVersion : string;
  o_fields : list (string * value)
}.

Definition set_finalizers (o : object) (finalizers : list string) : object :=
  Object (o_name o) (o_namespace o) (o_labels o) finalizers (o_resourceVersion o) (o_fields o).
Definition set_version (o : object) (version : string) : object :=
  Object (o_name o) (o_namespace o) (o_labels o) (o_finalizers o) version (o_fields o).

Definition nestedString (o : object) (path : list string) : string :=
  match nested (o_fields o) path with Some (VString s) => s | _ => "" end.
Definition nestedInt64 (o : object) (path : list string) : Z :=
  match nested (o_fields o) path with Some (VInt z) => z | _ => 0%Z end.

Definition stringFromMap (values : list (string * value)) (key : string) : string :=
  match field key values with Some (VString s) => s | _ => "" end.

(** [time.Time{}]: the first second of year 1. *)
Definition zero_time : Z := -62135596800.

Definition nestedTime (o : object) (path : list string) : Z :=
  let value := nestedString o path in
  if bool_decide (value = "") then zero_time else default zero_time (time_Parse value).

(* -------------------------------------------------------------------- *)
(** ** Rendering a record *)

Definition DefaultThunderClientNamespace : string := "thunder-system".
Definition claimUIDLabelName : string := thunderDomain +:+ "/claim-uid".
Definition claimNameLabelName : string := thunderDomain +:+ "/claim-name".
Definition claimNamespaceLabelName : string := thunderDomain +:+ "/claim-namespace".
Definition gpuTypeLabelName : string := thunderDomain +:+ "/gpu-type".

Section rendering.
Context `{UnicodeTables}.

Definition ThunderClientName (claimUID : string) : string :=
  let name := replace_byte "_"%char "-" (to_lower (trim_space claimUID)) in
  "claim-" +:+ (if bool_decide (name = "") then "unknown" else name).

Definition thunderClientObject (client : ThunderClient) (namespace : string) : object :=
  let fields :=
    [("apiVersion", VString "thundercompute.com/v1alpha1");
     ("kind", VString "ThunderClient");
     ("spec", VMap
       [("claimUID", VString (cl_ClaimUID client));
        ("claimNamespace", VString (cl_ClaimNamespace client));
        ("claimName", VString (cl_ClaimName client));
        ("gpuType", VString (cl_GPUType client));
        ("gpuCount", VInt (cl_GPUCount client))]);
     ("status", VMap
       [("nodeName", VString (cl_NodeName client));
        ("zone", VString (cl_Zone client));
        ("requestName", VString (cl_RequestName client));
        ("poolName", VString (cl_PoolName client));
        ("deviceName", VString (cl_DeviceName client));
        ("cdiName", VString (cl_CDIName client));
        ("enrollmentTokenID", VString (cl_EnrollmentTokenID client));
        ("guestNamespace", VString (cl_GuestNamespace client));
        ("guestSecretName", VString (cl_GuestSecret client));
        ("createdAt", VString (time_Format (cl_CreatedAt client)));
        ("updatedAt", VString (time_Format (cl_UpdatedAt client)))])] in
  let fields :=
    match cl_ShareID client with
    | Some shareID => set_nested fields ["status"; "shareID"] (VString shareID)
    | None => fields
    end in
  let consumer := cl_Consumer client in
  let fields :=
    if bool_decide (con_Name consumer ≠ "") || bool_decide (con_UID consumer ≠ "") then
      set_nested fields ["status"; "consumer"]
        (VMap [("apiGroup", VString (con_APIGroup consumer));
               ("resource", VString (con_Resource consumer));
               ("namespace", VString (con_Namespace consumer));
               ("name", VString (con_Name consumer));
               ("uid", VString (con_UID consumer))])
    else fields in
  {| o_name := ThunderClientName (cl_ClaimUID client);
     o_namespace := namespace;
     o_labels := labels_of
       [("app.kubernetes.io/name", "thunder-dra-driver");
        (claimUIDLabelName, cl_ClaimUID client);
        (gpuTypeLabelName, to_lower (cl_GPUType client));
        (claimNamespaceLabelName, cl_ClaimNamespace client)];
     o_finalizers := [];
     o_resourceVersion := "";
     o_fields := fields |}.

Definition thunderClientFromObject (o : object) : ThunderClient :=
  let shareID := nestedString o ["status"; "shareID"] in
  {| cl_ClaimUID := nestedString o ["spec"; "claimUID"];
     cl_ClaimNamespace := nestedString o ["spec"; "claimNamespace"];
     cl_ClaimName := nestedString o ["spec"; "claimName"];
     cl_GPUType := nestedString o ["spec"; "gpuType"];
     cl_GPUCount := nestedInt64 o ["spec"; "gpuCount"];
     cl_Zone := nestedString o ["status"; "zone"];
     cl_NodeName := nestedString o ["status"; "nodeName"];
     cl_RequestName := nestedString o ["status"; "requestName"];
     cl_PoolName := nestedString o ["status"; "poolName"];
     cl_DeviceName := nestedString o ["status"; "deviceName"];
     cl_ShareID := if bool_decide (shareID = "") then None else Some shareID;
     cl_Consumer :=
       match nested (o_fields o) ["status"; "consumer"] with
       | Some (VMap consumer) =>
           Consumer (stringFromMap consumer "apiGroup") (stringFromMap consumer "resource")
             (stringFromMap consumer "namespace") (stringFromMap consumer "name")
             (stringFromMap consumer "uid")
       | _ => no_consumer
       end;
     cl_CDIName := nestedString o ["status"; "cdiName"];
     cl_EnrollmentTokenID := nestedString o ["status"; "enrollmentTokenID"];
     cl_GuestNamespace := nestedString o ["status"; "guestNamespace"];
     cl_GuestSecret := nestedString o ["status"; "guestSecretName"];
     cl_CreatedAt := nestedTime o ["status"; "createdAt"];
     cl_UpdatedAt := nestedTime o ["status"; "updatedAt"] |}.
End rendering.

(* -------------------------------------------------------------------- *)
(** ** The store *)

(** The calls on the ThunderClient resource of a namespace, and the clock.
    The object a write returns is not used. *)
Inductive crd_ev :=
  | GetObject (namespace name : string)
  | CreateObject (namespace : string) (o : object)
  | UpdateObject (namespace : string) (o : object)
  | DeleteObject (namespace name : string)
  | TimeNow.
Definition crd_resp (e : crd_ev) : Type :=
  match e with
  | GetObject _ _ => result object
  | TimeNow => Z
  | _ => result unit
  end.
Definition crd_sig : sig := Sig crd_ev crd_resp.
Definition ccall (e : crd_ev) : prog crd_sig (crd_resp e) := call (S:=crd_sig) e.

Record KubernetesThunderClientStore := ClientStore { ks_Client : bool; ks_Namespace : string }.

Definition NewKubernetesThunderClientStore (client : bool) (namespace : string)
    : KubernetesThunderClientStore :=
  ClientStore client (if blank namespace then DefaultThunderClientNamespace else namespace).

Definition store_namespace (s : KubernetesThunderClientStore) : string :=
  if blank (ks_Namespace s) then DefaultThunderClientNamespace else trim_space (ks_Namespace s).

Definition withFinalizer (finalizers : list string) : list string :=
  if existsb (λ f, bool_decide (f = Finalizer)) finalizers then finalizers
  else finalizers ++ [Finalizer].

Definition no_client : error := ErrText "dynamic client is required".

(** The record with its times set: [CreatedAt] when it has none. *)
Definition stamped (client : ThunderClient) (created updated : Z) : ThunderClient :=
  {| cl_ClaimUID := cl_ClaimUID client;
     cl_ClaimNamespace := cl_ClaimNamespace client;
     cl_ClaimName := cl_ClaimName client;
     cl_GPUType := cl_GPUType client;
     cl_GPUCount := cl_GPUCount client;
     cl_Zone := cl_Zone client;
     cl_NodeName := cl_NodeName client;
     cl_RequestName := cl_RequestName client;
     cl_PoolName := cl_PoolName client;
     cl_DeviceName := cl_DeviceName client;
     cl_ShareID := cl_ShareID client;
     cl_Consumer := cl_Consumer client;
     cl_CDIName := cl_CDIName client;
     cl_EnrollmentTokenID := cl_EnrollmentTokenID client;
     cl_GuestNamespace := cl_GuestNamespace client;
     cl_GuestSecret := cl_GuestSecret client;
     cl_CreatedAt := created;
     cl_UpdatedAt := updated |}.

Section store.
Context `{UnicodeTables, LibErrors}.

Definition store_Get (s : KubernetesThunderClientStore) (claimUID : string)
    : prog crd_sig (result ThunderClient) :=
  if negb (ks_Client s) then mret (Err no_client)
  else
    r ← ccall (GetObject (store_namespace s) (ThunderClientName claimUID));
    match r with
    | Ok o => mret (Ok (thunderClientFromObject o))
    | Err e => if kube_is_not_found e then mret (Err ErrNotFound) else mret (Err e)
    end.

Definition store_Upsert (s : KubernetesThunderClientStore) (client : ThunderClient)
    : prog crd_sig (result unit) :=
  if negb (ks_Client s) then mret (Err no_client)
  else
    created ← (if bool_decide (cl_CreatedAt client = zero_time) then ccall TimeNow
               else mret (cl_CreatedAt client));
    updated ← ccall TimeNow;
    let namespace := store_namespace s in
    let o := thunderClientObject (stamped client created updated) namespace in
    current ← ccall (GetObject namespace (o_name o));
    match current with
    | Err e =>
        if kube_is_not_found e then ccall (CreateObject namespace (set_finalizers o [Finalizer]))
        else mret (Err e)
    | Ok current =>
        ccall (UpdateObject namespace
          (set_version (set_finalizers o (withFinalizer (o_finalizers current)))
             (o_resourceVersion current)))
    end.

Definition store_remove (namespace name : string) : prog crd_sig (result unit) :=
  r ← ccall (DeleteObject namespace name);
  match r with
  | Err e => if kube_is_not_found e then mret (Ok tt) else mret (Err e)
  | Ok _ => mret (Ok tt)
  end.

Definition store_Delete (s : KubernetesThunderClientStore) (claimUID : string)
    : prog crd_sig (result unit) :=
  if negb (ks_Client s) then mret (Err no_client)
  else
    let namespace := store_namespace s in
    let name := ThunderClientName claimUID in
    current ← ccall (GetObject namespace name);
    match current with
    | Err e => if kube_is_not_found e then mret (Err ErrNotFound) else mret (Err e)
    | Ok current =>
        let kept := withoutFinalizer (o_finalizers current) in
        if bool_decide (length kept ≠ length (o_finalizers current)) then
          r ← ccall (UpdateObject namespace (set_finalizers current kept));
          match r with
          | Err e =>
              if kube_is_not_found e then store_remove namespace name
              else mret (Err (wrap ("release finalizer on ThunderClient " +:+ name) e))
          | Ok _ => store_remove namespace name
          end
        else store_remove namespace name
    end.
End store.

(* -------------------------------------------------------------------- *)
(** ** The API server, and the ledger the store keeps on it *)

(** The resources of every namespace, each with whether its deletion was asked
    for; the version of the next write; and how often the clock was read. *)
Record crd_server := CRDServer {
  crd_objects : gmap (string * string) (object * bool);
  crd_version : Z;
  crd_ticks : nat
}.

Definition conflict_error : error := ErrAPI 409 "the object has been modified".

(** What a client uses of the store; [Outside] is a deletion of the resource
    [name] by someone else. *)
Inductive record_ev :=
  | RecGet (claimUID : string)
  | RecUpsert (client : ThunderClient)
  | RecDelete (claimUID : string)
  | Outside (name : string).
Definition record_resp (e : record_ev) : Type :=
  match e with
  | RecGet _ => result ThunderClient
  | RecUpsert _ | RecDelete _ => result unit
  | Outside _ => unit
  end.
Definition record_sig : sig := Sig record_ev record_resp.

Record ledger := Ledger { l_records : gmap string ThunderClient; l_ticks : nat }.

(** The record as it is kept: an empty share and an empty consumer are none. *)
Definition normal (client : ThunderClient) : ThunderClient :=
  let share := match cl_ShareID client with
               | Some s => if bool_decide (s = "") then None else Some s
               | None => None
               end in
  let consumer :=
    if bool_decide (con_Name (cl_Consumer client) ≠ "") || bool_decide (con_UID (cl_Consumer client) ≠ "")
    then cl_Consumer client else no_consumer in
  {| cl_ClaimUID := cl_ClaimUID client;
     cl_ClaimNamespace := cl_ClaimNamespace client;
     cl_ClaimName := cl_ClaimName client;
     cl_GPUType := cl_GPUType client;
     cl_GPUCount := cl_GPUCount client;
     cl_Zone := cl_Zone client;
     cl_NodeName := cl_NodeName client;
     cl_RequestName := cl_RequestName client;
     cl_PoolName := cl_PoolName client;
     cl_DeviceName := cl_DeviceName client;
     cl_ShareID := share;
     cl_Consumer := consumer;
     cl_CDIName := cl_CDIName client;
     cl_EnrollmentTokenID := cl_EnrollmentTokenID client;
     cl_GuestNamespace := cl_GuestNamespace client;
     cl_GuestSecret := cl_GuestSecret client;
     cl_CreatedAt := cl_CreatedAt client;
     cl_UpdatedAt := cl_UpdatedAt client |}.

Section server.
Context `{UnicodeTables, ServerErrors} (clock : nat → Z).

Definition put (k : string * string) (o : object) (deleting : bool) (w : crd_server) : crd_server :=
  CRDServer (<[k := (set_version o (itoa (crd_version w)), deleting)]> (crd_objects w))
    (crd_version w + 1) (crd_ticks w).
Definition drop_object (k : string * string) (w : crd_server) : crd_server :=
  CRDServer (delete k (crd_objects w)) (crd_version w) (crd_ticks w).

(** A write with an old version conflicts; a resource with finalizers is only
    marked when it is deleted, and goes when the last of them does. *)
Definition crd_handler : handler crd_sig crd_server :=
  λ e w, match e return crd_resp e * crd_server with
  | GetObject ns name =>
      (match crd_objects w !! (ns, name) with
       | Some (o, _) => Ok o | None => Err not_found_error end, w)
  | CreateObject ns o =>
      match crd_objects w !! (ns, o_name o) with
      | Some _ => (Err already_exists_error, w)
      | None => (Ok tt, put (ns, o_name o) o false w)
      end
  | UpdateObject ns o =>
      match crd_objects w !! (ns, o_name o) with
      | None => (Err not_found_error, w)
      | Some (current, deleting) =>
          if bool_decide (o_resourceVersion o ≠ "") &&
             bool_decide (o_resourceVersion o ≠ o_resourceVersion current)
          then (Err conflict_error, w)
          else if deleting && bool_decide (o_finalizers o = [])
          then (Ok tt, drop_object (ns, o_name o) w)
          else (Ok tt, put (ns, o_name o) o deleting w)
      end
  | DeleteObject ns name =>
      match crd_objects w !! (ns, name) with
      | None => (Err not_found_error, w)
      | Some (o, _) =>
          if bool_decide (o_finalizers o = []) then (Ok tt, drop_object (ns, name) w)
          else (Ok tt, put (ns, name) o true w)
      end
  | TimeNow => (clock (crd_ticks w), CRDServer (crd_objects w) (crd_version w) (S (crd_ticks w)))
  end.

(** The store behind its interface. *)
Definition store_impl (s : KubernetesThunderClientStore) (e : ev record_sig)
    : prog crd_sig (resp record_sig e) :=
  match e return prog crd_sig (record_resp e) with
  | RecGet uid => store_Get s uid
  | RecUpsert client => store_Upsert s client
  | RecDelete uid => store_Delete s uid
  | Outside name => _ ← ccall (DeleteObject (store_namespace s) name); mret tt
  end.

(** What it promises: a map of records by their resources' names, which no
    deletion by others touches. *)
Definition ledger_handler : handler record_sig ledger :=
  λ e l, match e return record_resp e * ledger with
  | RecGet uid =>
      (match l_records l !! ThunderClientName uid with
       | Some c => Ok c | None => Err ErrNotFound end, l)
  | RecUpsert client =>
      let n := l_ticks l in
      let '(created, n) :=
        if bool_decide (cl_CreatedAt client = zero_time) then (clock n, S n)
        else (cl_CreatedAt client, n) in
      (Ok tt, Ledger (<[ThunderClientName (cl_ClaimUID client) :=
                 normal (stamped client created (clock n))]> (l_records l)) (S n))
  | RecDelete uid =>
      match l_records l !! ThunderClientName uid with
      | Some _ => (Ok tt, Ledger (delete (ThunderClientName uid) (l_records l)) (l_ticks l))
      | None => (Err ErrNotFound, l)
      end
  | Outside _ => (tt, l)
  end.
End server.

(** A server that holds the ledger: each resource has its name, our finalizer
    and no other, and reads as its record. *)
Definition holds_record (name : string) (client : option ThunderClient)
    (stored : option (object * bool)) : Prop :=
  match client, stored with
  | None, None => True
  | Some c, Some (o, _) =>
      o_name o = name ∧ o_finalizers o = [Finalizer] ∧ thunderClientFromObject o = c
  | _, _ => False
  end.
Definition holds_ledger (namespace : string) (w : crd_server) (l : ledger) : Prop :=
  crd_ticks w = l_ticks l ∧
  ∀ name, holds_record name (l_records l !! name) (crd_objects w !! (namespace, name)).

(** The times a record is given can be written. *)
Definition writable_times (e : record_ev) : Prop :=
  match e with RecUpsert client => utc_range (cl_CreatedAt client) | _ => True end.

(* -------------------------------------------------------------------- *)
(** ** Lemmas *)

Lemma nestedTime_written o path t : utc_range t →
  nestedString o path = time_Format t → nestedTime o path = t.
Proof.
  intros Ht Hs. unfold nestedTime. rewrite Hs.
  destruct (bool_decide_reflect (time_Format t = "")) as [He|_]; [by apply time_Format_nonempty in He|].
  by rewrite time_roundtrip.
Qed.

Section lemmas.
Context `{UnicodeTables}.

Lemma from_thunderClientObject client namespace :
  utc_range (cl_CreatedAt client) → utc_range (cl_UpdatedAt client) →
  thunderClientFromObject (thunderClientObject client namespace) = normal client.
Proof.
  unfold thunderClientFromObject. intros Hc Hu.
  rewrite (nestedTime_written _ ["status"; "createdAt"] (cl_CreatedAt client)),
    (nestedTime_written _ ["status"; "updatedAt"] (cl_UpdatedAt client)); try done.
  all: unfold thunderClientObject, normal, nestedString, nestedInt64;
    generalize (time_Format (cl_CreatedAt client)), (time_Format (cl_UpdatedAt client)); intros;
    destruct (cl_Consumer client) as [apiGroup kind space name uid]; destruct (cl_ShareID client); cbn [con_Name con_UID];
    destruct (_ || _); reflexivity.
Qed.

Lemma with_ours : withFinalizer [Finalizer] = [Finalizer].
Proof. reflexivity. Qed.
Lemma without_ours : withoutFinalizer [Finalizer] = [].
Proof. unfold withoutFinalizer. by rewrite filter_cons_False by tauto. Qed.

Lemma holds_put namespace w l name o deleting :
  holds_ledger namespace w l → o_name o = name → o_finalizers o = [Finalizer] →
  holds_ledger namespace (put (namespace, name) o deleting w)
    (Ledger (<[name := thunderClientFromObject o]> (l_records l)) (l_ticks l)).
Proof.
  intros [Ht Hl] Hn Hf. split; [done|]. intros name'. cbn [l_records put crd_objects].
  destruct (decide (name = name')) as [<-|Hne].
  - by rewrite !lookup_insert_eq.
  - rewrite !lookup_insert_ne by congruence. apply Hl.
Qed.

Lemma holds_drop namespace w l name : holds_ledger namespace w l →
  holds_ledger namespace (drop_object (namespace, name) w)
    (Ledger (delete name (l_records l)) (l_ticks l)).
Proof.
  intros [Ht Hl]. split; [done|]. intros name'. cbn [l_records drop_object crd_objects].
  destruct (decide (name = name')) as [<-|Hne].
  - by rewrite !lookup_delete_eq.
  - rewrite !lookup_delete_ne by congruence. apply Hl.
Qed.

Lemma holds_tick namespace w l objects version n :
  holds_ledger namespace w l → objects = crd_objects w →
  holds_ledger namespace (CRDServer objects version n) (Ledger (l_records l) n).
Proof. by intros [_ Hl] ->. Qed.

(** What the server has for a record the ledger has. *)
Lemma holds_some namespace w l name c : holds_ledger namespace w l → l_records l !! name = Some c →
  ∃ o deleting, crd_objects w !! (namespace, name) = Some (o, deleting) ∧
    o_name o = name ∧ o_finalizers o = [Finalizer] ∧ thunderClientFromObject o = c.
Proof.
  intros [_ Hl] Hc. specialize (Hl name). rewrite Hc in Hl.
  destruct (crd_objects w !! _) as [[o d]|]; [|done]. by exists o, d.
Qed.
Lemma holds_none namespace w l name : holds_ledger namespace w l → l_records l !! name = None →
  crd_objects w !! (namespace, name) = None.
Proof.
  intros [_ Hl] Hc. specialize (Hl name). rewrite Hc in Hl. by destruct (crd_objects w !! _) as [[]|].
Qed.
End lemmas.

Section refinement.
Context `{UnicodeTables, ServerErrors} (clock : nat → Z) (s : KubernetesThunderClientStore).
Abbreviation ns := (store_namespace s).
Abbreviation h := (crd_handler clock).

Lemma run_ccall_bind {B} e (f : crd_resp e → prog crd_sig B) w :
  run h (ccall e ≫= f) w = let '(r, w') := h e w in run h (f r) w'.
Proof. rewrite run_bind. cbn. by destruct (h e w). Qed.

(** One call of a run. *)
Ltac crd_step :=
  match goal with |- context [ccall ?e ≫= _] => rewrite (run_ccall_bind e) end.
Ltac crd_last :=
  unfold ccall, call; cbn [run].

Hypothesis Hclient : ks_Client s = true.
Hypothesis Hclock : ∀ n, utc_range (clock n).

Lemma run_Get uid w l : holds_ledger ns w l →
  run h (store_Get s uid) w =
    (match l_records l !! ThunderClientName uid with
     | Some c => Ok c | None => Err ErrNotFound end, w).
Proof using Type*.
  intros Hl. unfold store_Get. rewrite Hclient. cbn [negb]. crd_step. cbn [crd_handler].
  destruct (l_records l !! _) as [c|] eqn:Hc.
  - eapply holds_some in Hc as (o & d & -> & _ & _ & <-); done.
  - eapply holds_none in Hc as ->; [|done]. by rewrite not_found_error_is.
Qed.

Lemma run_Delete uid w l : holds_ledger ns w l →
  let '(a, w') := run h (store_Delete s uid) w in
  let '(b, l') := ledger_handler clock (RecDelete uid) l in
  a = b ∧ holds_ledger ns w' l'.
Proof using Type*.
  intros Hl. unfold store_Delete. rewrite Hclient. cbn [negb].
  crd_step. cbn [crd_handler ledger_handler].
  destruct (l_records l !! _) as [c|] eqn:Hc; cbn [l_records].
  - pose proof (holds_some _ _ _ _ _ Hl Hc) as (o & d & Ho & Hn & Hf & _). rewrite Ho, Hf, without_ours.
    rewrite bool_decide_true by done. crd_step. cbn [crd_handler set_finalizers o_name o_resourceVersion o_finalizers].
    rewrite Hn, Ho, (bool_decide_false (o_resourceVersion o ≠ o_resourceVersion o)), andb_false_r by tauto.
    rewrite (bool_decide_true (@nil string = [])), andb_true_r by done.
    pose proof (holds_drop _ _ _ (ThunderClientName uid) Hl) as Hdrop.
    unfold store_remove. destruct d; crd_step; cbn [crd_handler drop_object put crd_objects].
    + rewrite lookup_delete_eq, not_found_error_is. done.
    + rewrite lookup_insert_eq. cbn. split; [done|]. unfold drop_object, put. cbn.
      rewrite delete_insert_eq. destruct Hdrop. by split.
  - eapply holds_none in Hc as Ho; [|done]. rewrite Ho, not_found_error_is. done.
Qed.

Lemma run_Upsert client w l : utc_range (cl_CreatedAt client) → holds_ledger ns w l →
  let '(a, w') := run h (store_Upsert s client) w in
  let '(b, l') := ledger_handler clock (RecUpsert client) l in
  a = b ∧ holds_ledger ns w' l'.
Proof using Type*.
  intros Hcreated Hl. unfold store_Upsert. rewrite Hclient. cbn [negb]. rewrite run_bind.
  set (created := if bool_decide (cl_CreatedAt client = zero_time) then clock (l_ticks l)
                  else cl_CreatedAt client).
  set (n := if bool_decide (cl_CreatedAt client = zero_time) then S (l_ticks l) else l_ticks l).
  match goal with |- context [run h ?p w] =>
    assert (run h p w = (created, CRDServer (crd_objects w) (crd_version w) n)) as ->
  end.
  { unfold created, n. destruct Hl as [<- _]. destruct w. by destruct (bool_decide _). }
  crd_step. cbn [crd_handler crd_objects crd_version crd_ticks].
  set (client' := stamped client created (clock n)).
  assert (ledger_handler clock (RecUpsert client) l =
    (Ok tt, Ledger (<[ThunderClientName (cl_ClaimUID client) := normal client']> (l_records l)) (S n)))
    as -> by (cbn; unfold client', created, n; by destruct (bool_decide _)).
  assert (utc_range created) as Hr by (unfold created; destruct (bool_decide _); auto).
  set (o := thunderClientObject client' ns).
  assert (normal client' = thunderClientFromObject o) as ->
    by (symmetry; apply from_thunderClientObject; cbn; auto).
  assert (o_name o = ThunderClientName (cl_ClaimUID client)) as Hname by done. clearbody o.
  pose proof (holds_tick _ _ _ (crd_objects w) (crd_version w) (S n) Hl eq_refl) as Hl'.
  set (w' := CRDServer _ _ _) in *. set (l' := Ledger _ _) in Hl'.
  crd_step. cbn [crd_handler]. rewrite Hname.
  destruct (l_records l' !! ThunderClientName (cl_ClaimUID client)) as [c|] eqn:Hc.
  - pose proof (holds_some _ _ _ _ _ Hl' Hc) as (cur & d & Ho & Hn & Hf & _).
    rewrite Ho, Hf, with_ours. crd_last.
    cbn [crd_handler set_finalizers set_version o_name o_resourceVersion o_finalizers].
    rewrite Hname, Ho, (bool_decide_false (o_resourceVersion cur ≠ o_resourceVersion cur)),
      andb_false_r, (bool_decide_false ([Finalizer] = [])), andb_false_r by (tauto || done).
    split; [done|].
    apply (holds_put _ w' l' _ (set_version (set_finalizers o [Finalizer]) (o_resourceVersion cur))); done.
  - pose proof (holds_none _ _ _ _ Hl' Hc) as Ho. rewrite Ho, not_found_error_is. crd_last.
    cbn [crd_handler]. change (o_name (set_finalizers o [Finalizer])) with (o_name o).
    rewrite Hname, Ho. split; [done|].
    apply (holds_put _ w' l' _ (set_finalizers o [Finalizer])); done.
Qed.

Lemma run_Outside name w l : holds_ledger ns w l →
  holds_ledger ns (run h (store_impl s (Outside name)) w).2 l.
Proof using Type*.
  intros Hl. cbn [store_impl]. crd_step. cbn [crd_handler].
  destruct (l_records l !! name) as [c|] eqn:Hc.
  - pose proof (holds_some _ _ _ _ _ Hl Hc) as (o & d & Ho & Hn & Hf & Hr). rewrite Ho, Hf. cbn.
    pose proof (holds_put _ _ _ name o true Hl Hn Hf) as Hput. rewrite Hr, insert_id in Hput by done.
    by destruct l.
  - pose proof (holds_none _ _ _ _ Hl Hc) as ->. done.
Qed.

Lemma store_impl_refines (e : ev record_sig) w l : writable_times e → holds_ledger ns w l →
  let '(a, w') := run h (store_impl s e) w in
  let '(b, l') := ledger_handler clock e l in
  a = b ∧ holds_ledger ns w' l'.
Proof using Type*.
  intros He Hl. destruct e as [uid|client|uid|name].
  - pose proof (run_Get uid w l Hl : run h (store_impl s (RecGet uid)) w = _) as ->. done.
  - by apply run_Upsert.
  - by apply run_Delete.
  - pose proof (run_Outside name w l Hl) as Ho. destruct (run h _ w) as [[] w']. by split.
Qed.

(** C15: as long as nobody else writes the resources, any client of the store
    sees a map of records that only its own calls change: what it gets is what
    it last upserted, and a deletion of the resource by anyone else, whenever
    it comes, removes no record. *)
Theorem store_refines {A} (p : prog record_sig A) w l :
  wp (S:=record_sig) (λ _ e, writable_times e) [] p (λ _ _, True) → holds_ledger ns w l →
  let '(a, w') := run h (link (store_impl s) p) w in
  let '(b, l') := run (ledger_handler clock) p l in
  a = b ∧ holds_ledger ns w' l'.
Proof using Type*.
  rewrite run_link. generalize (@nil (event record_sig)). revert w l.
  induction p as [a|e k IH]; intros w l pre; [by split|].
  intros [He Hk] Hl. cbn [run]. pose proof (store_impl_refines e w l He Hl) as Hs.
  destruct (run h (store_impl s e) w) as [a w']. destruct (ledger_handler clock e l) as [b l'].
  destruct Hs as [-> Hs].
  eapply IH; [apply Hk|exact Hs].
Qed.
End refinement.

(* -------------------------------------------------------------------- *)
(** ** What the store calls, whatever the API answers *)

Section calls.
Context `{UnicodeTables, LibErrors} (s : KubernetesThunderClientStore).

Definition cev (e : crd_ev) (r : crd_resp e) : event crd_sig := Ev (S:=crd_sig) e r.

(** The resource of the call's record was read, or is not there. *)
Definition read (pre : list (event crd_sig)) (name : string) (o : object) : Prop :=
  cev (GetObject (store_namespace s) name) (Ok o) ∈ pre.
Definition read_missing (pre : list (event crd_sig)) (name : string) : Prop :=
  ∃ e, cev (GetObject (store_namespace s) name) (Err e) ∈ pre ∧ kube_is_not_found e = true.

(** A reply to a write that says it is done, or that nothing is left to do. *)
Definition settled (r : result unit) : Prop :=
  match r with Ok _ => True | Err e => kube_is_not_found e = true end.

(** Our finalizer is off the resource that was read. *)
Definition released (pre : list (event crd_sig)) (o : object) : Prop :=
  Finalizer ∉ o_finalizers o ∨
  ∃ r, cev (UpdateObject (store_namespace s)
         (set_finalizers o (withoutFinalizer (o_finalizers o)))) r ∈ pre ∧ settled r.

(** The calls an upsert may make: a create of what is missing, with our
    finalizer; an update of what was read, with its version, its finalizers
    and ours. *)
Definition upsert_may (client : ThunderClient) (pre : list (event crd_sig)) (e : crd_ev) : Prop :=
  let name := ThunderClientName (cl_ClaimUID client) in
  match e with
  | GetObject ns n => ns = store_namespace s ∧ n = name
  | CreateObject ns o =>
      ns = store_namespace s ∧ o_name o = name ∧ o_finalizers o = [Finalizer] ∧
      read_missing pre name
  | UpdateObject ns o =>
      ns = store_namespace s ∧ o_name o = name ∧ ∃ current, read pre name current ∧
      o_resourceVersion o = o_resourceVersion current ∧ Finalizer ∈ o_finalizers o ∧
      withoutFinalizer (o_finalizers o) = withoutFinalizer (o_finalizers current)
  | DeleteObject _ _ => False
  | TimeNow => True
  end.

(** The calls a delete may make: an update of what was read that only takes
    our finalizer off, then a delete. *)
Definition delete_may (claimUID : string) (pre : list (event crd_sig)) (e : crd_ev) : Prop :=
  let name := ThunderClientName claimUID in
  match e with
  | GetObject ns n => ns = store_namespace s ∧ n = name
  | UpdateObject ns o =>
      ns = store_namespace s ∧ ∃ current, read pre name current ∧
      Finalizer ∈ o_finalizers current ∧
      o = set_finalizers current (withoutFinalizer (o_finalizers current))
  | DeleteObject ns n =>
      ns = store_namespace s ∧ n = name ∧ ∃ current, read pre name current ∧ released pre current
  | CreateObject _ _ | TimeNow => False
  end.

(** What a delete that succeeds has seen. *)
Definition deleted (claimUID : string) (pre : list (event crd_sig)) : Prop :=
  ∃ r, cev (DeleteObject (store_namespace s) (ThunderClientName claimUID)) r ∈ pre ∧ settled r.

Lemma wp_ccall {B} (G : list (event crd_sig) → ev crd_sig → Prop) pre (e : crd_ev)
    (f : crd_resp e → prog crd_sig B) Q :
  G pre e → (∀ r, wp G (pre ++ [cev e r]) (f r) Q) → wp G pre (ccall e ≫= f) Q.
Proof. apply (wp_call_bind (S:=crd_sig)). Qed.

Lemma withFinalizer_spec l : Finalizer ∈ withFinalizer l ∧
  withoutFinalizer (withFinalizer l) = withoutFinalizer l.
Proof.
  unfold withFinalizer, withoutFinalizer. destruct (existsb _ l) eqn:He.
  - apply existsb_exists in He as (f & Hf & ->%bool_decide_eq_true). split; [|done].
    by apply list_elem_of_In.
  - split; [apply elem_of_last|]. rewrite filter_app, (filter_cons_False _ Finalizer) by tauto.
    by rewrite filter_nil, app_nil_r.
Qed.

Lemma withoutFinalizer_same l :
  length (withoutFinalizer l) = length l → Finalizer ∉ l.
Proof.
  unfold withoutFinalizer. intros Hlen Hin. apply list_elem_of_split in Hin as (l1 & l2 & ->).
  rewrite filter_app, filter_cons_False in Hlen by tauto. rewrite !length_app in Hlen. cbn in Hlen.
  pose proof (length_filter (λ f, f ≠ Finalizer) l1). pose proof (length_filter (λ f, f ≠ Finalizer) l2).
  lia.
Qed.

Lemma withoutFinalizer_changed l : length (withoutFinalizer l) ≠ length l → Finalizer ∈ l.
Proof.
  intros Hlen. destruct (decide (Finalizer ∈ l)) as [|Hn]; [done|]. exfalso. apply Hlen. revert Hn.
  unfold withoutFinalizer. clear Hlen. induction l as [|f l IH]; intros Hn; [done|].
  apply not_elem_of_cons in Hn as [Hf Hn]. rewrite filter_cons_True by congruence.
  cbn. f_equal. by apply IH.
Qed.

Lemma store_Upsert_wp client :
  wp (S:=crd_sig) (upsert_may client) [] (store_Upsert s client) (λ _ _, True).
Proof.
  unfold store_Upsert. destruct (ks_Client s); [|done]. cbn [negb]. rewrite wp_bind.
  assert (∀ pre created, wp (S:=crd_sig) (upsert_may client) pre
    (updated ← ccall TimeNow;
     let o := thunderClientObject (stamped client created updated) (store_namespace s) in
     current ← ccall (GetObject (store_namespace s) (o_name o));
     match current with
     | Err e =>
         if kube_is_not_found e
         then ccall (CreateObject (store_namespace s) (set_finalizers o [Finalizer]))
         else mret (Err e)
     | Ok current =>
         ccall (UpdateObject (store_namespace s)
           (set_version (set_finalizers o (withFinalizer (o_finalizers current)))
              (o_resourceVersion current)))
     end) (λ _ _, True)) as Hrest.
  { intros pre created. apply wp_ccall; [done|]. intros updated. cbn zeta.
    apply wp_ccall; [done|]. intros [current|e].
    - split; [|done]. split; [done|]. split; [done|]. exists current.
      split; [apply elem_of_last|]. split; [done|]. apply withFinalizer_spec.
    - destruct (kube_is_not_found e) eqn:He; [|done]. split; [|done]. split_and!; [done..|].
      exists e. split; [apply elem_of_last|done]. }
  destruct (bool_decide _); [|apply Hrest]. split; [done|]. intros r. apply Hrest.
Qed.

Lemma store_remove_wp uid current pre : read pre (ThunderClientName uid) current →
  released pre current →
  wp (S:=crd_sig) (delete_may uid) pre (store_remove (store_namespace s) (ThunderClientName uid))
    (λ pre' r, match r with Ok _ => deleted uid pre' | Err _ => True end).
Proof.
  intros Hr Hl. unfold store_remove. apply wp_ccall; [by split_and!; [done..|exists current]|].
  intros [[]|e]; [|destruct (kube_is_not_found e) eqn:He; [|done]];
    eexists; (split; [apply elem_of_last|done]).
Qed.

Lemma store_Delete_wp uid :
  wp (S:=crd_sig) (delete_may uid) [] (store_Delete s uid)
    (λ pre r, match r with Ok _ => deleted uid pre | Err _ => True end).
Proof.
  unfold store_Delete. destruct (ks_Client s); [|done]. cbn [negb].
  apply wp_ccall; [done|]. intros [current|e]; [|by destruct (kube_is_not_found e)].
  cbn [app]. set (kept := withoutFinalizer (o_finalizers current)).
  assert (∀ pre, read pre (ThunderClientName uid) current → released pre current →
    wp (S:=crd_sig) (delete_may uid) pre (store_remove (store_namespace s) (ThunderClientName uid))
    (λ pre r, match r with Ok _ => deleted uid pre | Err _ => True end)) as Hremove
    by (intros; by apply (store_remove_wp uid current)).
  destruct (bool_decide_reflect (length kept ≠ length (o_finalizers current))) as [Hlen|Hlen].
  - apply withoutFinalizer_changed in Hlen as Hin.
    apply wp_ccall. { split; [done|]. exists current. split_and!; [by left|done..]. }
    intros r. destruct r as [[]|e]; [|destruct (kube_is_not_found e) eqn:He; [|done]]; apply Hremove;
      try (by left); right; eexists; (split; [right; by left|done]).
  - apply Hremove; [by left|]. left. apply withoutFinalizer_same, dec_stable, Hlen.
Qed.

(** C22: whatever the API answers, the store writes only the resource of the
    record it was given, in its own namespace: it creates it only when it is
    missing, with the finalizer that keeps it; it updates it only with the
    version it read and keeps the finalizers of others; and it deletes it only
    after its own finalizer is off, reporting success only when the API says
    the resource is deleted or gone. *)
Theorem store_writes client uid tr1 r1 tr2 r2 :
  exec (store_Upsert s client) tr1 r1 → exec (store_Delete s uid) tr2 r2 →
  (∀ l e r l', tr1 = l ++ cev e r :: l' → upsert_may client l e) ∧
  (∀ l e r l', tr2 = l ++ cev e r :: l' → delete_may uid l e) ∧
  (r2 = Ok tt → deleted uid tr2).
Proof.
  intros Hu Hd. apply (wp_sound _ _ _ _ _ _ (store_Upsert_wp client)) in Hu as [_ Hu].
  apply (wp_sound _ _ _ _ _ _ (store_Delete_wp uid)) in Hd as [Hok Hd].
  split; [exact Hu|]. split; [exact Hd|]. intros ->. exact Hok.
Qed.
End calls.


Definition client_sample : ThunderClient :=
  MkThunderClient "UID_1" "default" "claim-1" "A6000" 2 "us-east-1" "node-1" "gpu" "us-east-1/a6000"
    "a6000-0" (Some "") (Consumer "" "pods" "default" "pod-1" "uid-pod") "thundercompute.com/gpu=claim-uid-1"
    "tok-1" "default" "claim-1-thunder-setup" zero_time zero_time.


#[refine] Definition store_errors : @ServerErrors status_errors :=
  {| not_found_error := ErrAPI 404 "not found"; already_exists_error := ErrAPI 409 "exists" |}.
Proof. all: reflexivity. Defined.

Definition store_clock (n : nat) : Z := if Nat.even n then 1700000000 else 1700000001.
Definition store_sample : KubernetesThunderClientStore := ClientStore true " ".

(** A client that upserts, sees its resource deleted by someone else, reads
    and deletes the record, and reads again. *)
Definition store_client : prog record_sig (result ThunderClient * result unit * result ThunderClient) :=
  _ ← call (S:=record_sig) (RecUpsert client_sample);
  _ ← call (S:=record_sig) (Outside "claim-uid-1");
  found ← call (S:=record_sig) (RecGet "uid-1");
  gone ← call (S:=record_sig) (RecDelete "uid_1");
  missing ← call (S:=record_sig) (RecGet "uid-1");
  mret (found, gone, missing).

Lemma store_refines_witness :
  let '(a, w') := run (@crd_handler status_errors store_errors store_clock)
    (link (@store_impl ascii_tables status_errors store_sample) store_client)
    (CRDServer ∅ 1 0) in
  let '(b, l') := run (@ledger_handler ascii_tables store_clock) store_client (Ledger ∅ 0) in
  a = b ∧ holds_ledger "thunder-system" w' l'.
Proof.
  apply (@store_refines ascii_tables status_errors store_errors store_clock store_sample).
  - reflexivity.
  - intros n. unfold utc_range, store_clock. destruct (Nat.even n); lia.
  - split; [|done]. unfold writable_times, utc_range, client_sample, cl_CreatedAt, zero_time. lia.
  - split; [reflexivity|]. intros name. unfold l_records, crd_objects. by rewrite !lookup_empty.
Defined.

Example store_client_run :
  run (@ledger_handler ascii_tables store_clock) store_client (Ledger ∅ 0) =
  ((Ok (normal (stamped client_sample 1700000000 1700000001)), Ok tt, Err ErrNotFound), Ledger ∅ 2).
Proof. vm_compute. reflexivity. Qed.

Lemma store_writes_witness :
  ∃ tr1 r1 tr2 r2,
    exec (@store_Upsert ascii_tables status_errors store_sample client_sample) tr1 r1 ∧
    exec (@store_Delete ascii_tables status_errors store_sample "uid_1") tr2 r2 ∧
    (∀ l e r l', tr1 = l ++ cev e r :: l' →
       @upsert_may ascii_tables status_errors store_sample client_sample l e) ∧
    (r2 = Ok tt → @deleted ascii_tables status_errors store_sample "uid_1" tr2).
Proof.
  pose (h := @crd_handler status_errors store_errors (λ _, 0)).
  pose (p := @store_Upsert ascii_tables status_errors store_sample client_sample).
  pose (q := @store_Delete ascii_tables status_errors store_sample "uid_1").
  pose proof (run_exec h p (CRDServer ∅ 1 0)) as H1.
  pose proof (run_exec h q (run h p (CRDServer ∅ 1 0)).2) as H2.
  destruct (@store_writes ascii_tables status_errors store_sample client_sample "uid_1" _ _ _ _ H1 H2)
    as (Hu & _ & Hd).
  exists (trace h p (CRDServer ∅ 1 0)), (run h p (CRDServer ∅ 1 0)).1,
    (trace h q (run h p (CRDServer ∅ 1 0)).2), (run h q (run h p (CRDServer ∅ 1 0)).2).1.
  exact (conj H1 (conj H2 (conj Hu Hd))).
Defined.
