(* ===== verification/GuestStore.v ===== *)
(** * Daemon: the guest store

    internal/daemon/store.go: the Secret a VM mounts to set itself up as a
    Thunder client - its name, its script, and creating and removing it
    through the Kubernetes API. *)

From S2P Require Import Prelude GoStrings Sha256 Labels KubeAPI Reaper Driver.
From S2P Require Import ClientStore.

Definition ThunderGuestInstallScriptKey : string := "install-thunder-client.sh".
Definition ThunderGuestSecretTokenKey : string := "enrollment-token".
Definition ThunderGuestTokenPath : string := "/mnt/thunder-setup/enrollment-token".
Definition ThunderEnrollmentTokenEnv : string := "THUNDER_ENROLLMENT_TOKEN".

(** [corev1.Secret]: what the store sets, and the rest of its metadata. *)
Record secret := Secret {
  sec_Name : string;
  sec_Namespace : string;
  sec_Labels : gmap string string;
  sec_Type : string;
  sec_Data : gmap string string;
  sec_meta : string
}.

Inductive secret_ev :=
  | GetSecret (namespace name : string)
  | CreateSecret (namespace : string) (s : secret)
  | UpdateSecret (namespace : string) (s : secret)
  | DeleteSecret (namespace name : string).
Definition secret_resp (e : secret_ev) : Type :=
  match e with GetSecret _ _ => result secret | _ => result unit end.
Definition secret_sig : sig := Sig secret_ev secret_resp.
Definition scall (e : secret_ev) : prog secret_sig (secret_resp e) := call (S:=secret_sig) e.

Section names.
Context `{UnicodeTables}.

Definition thunderGuestArtifactName (claimName suffix : string) : string :=
  let base := to_lower (trim_space claimName) in
  let base := if bool_decide (base = "") then "claim" else base in
  let name := base +:+ "-" +:+ suffix in
  if (String.length name <=? 253)%nat then name
  else
    let hash := take_bytes 10 (sha256_hex name) in
    let maxBaseLen := (253 - String.length suffix - String.length hash - 2)%nat in
    trim_suffix (take_bytes maxBaseLen base) "-" +:+ "-" +:+ hash +:+ "-" +:+ suffix.

Definition ThunderGuestSetupSecretName (claimName : string) : string :=
  thunderGuestArtifactName claimName "thunder-setup".
End names.

Definition guestArtifactLabels (allocation : Allocation) : gmap string string :=
  ResourceSlice.labels_of
    [("app.kubernetes.io/name", "thunder-dra-driver");
     ("app.kubernetes.io/component", "guest-config");
     (claimUIDLabelName, al_ClaimUID allocation);
     (claimNamespaceLabelName, al_ClaimNamespace allocation);
     (claimNameLabelName, al_ClaimName allocation)].

(** The script's lines, with each ~ a double quote. *)
Definition lines (l : list string) : string :=
  String.concat "" ((λ line, replace_byte "~"%char dquote line +:+ newline) <$> l).

Definition thunderGuestInstallScript (installCommand : string) : string :=
  let installCommand := trim_space installCommand in
  let installCommand :=
    if bool_decide (installCommand = "")
    then "echo thunder client install command is not configured >&2; exit 1"
    else installCommand in
  lines
    ["#!/usr/bin/env bash";
     "set -euo pipefail";
     "";
     "TOKEN_FILE=~${THUNDER_ENROLLMENT_TOKEN_FILE:-" +:+ ThunderGuestTokenPath +:+ "}~";
     "if [[ ! -s ~${TOKEN_FILE}~ ]]; then";
     "  echo ~Thunder enrollment token file is missing: ${TOKEN_FILE}~ >&2";
     "  exit 1";
     "fi";
     "export " +:+ ThunderEnrollmentTokenEnv +:+ "=~$(cat ~${TOKEN_FILE}~)~";
     ""]
  +:+ installCommand +:+ newline.

Section store.
Context `{UnicodeTables, LibErrors}.

Definition upsertSecret (desired : secret) : prog secret_sig (result unit) :=
  current ← scall (GetSecret (sec_Namespace desired) (sec_Name desired));
  match current with
  | Err e =>
      if kube_is_not_found e then scall (CreateSecret (sec_Namespace desired) desired)
      else mret (Err e)
  | Ok current =>
      scall (UpdateSecret (sec_Namespace desired)
        {| sec_Name := sec_Name current; sec_Namespace := sec_Namespace current;
           sec_Labels := sec_Labels desired; sec_Type := sec_Type desired;
           sec_Data := sec_Data desired; sec_meta := sec_meta current |})
  end.

Definition deleteSecret (namespace name : string) : prog secret_sig (result unit) :=
  let name := trim_space name in
  if bool_decide (name = "") then mret (Ok tt)
  else
    r ← scall (DeleteSecret namespace name);
    match r with
    | Err e => if kube_is_not_found e then mret (Ok tt) else mret (Err e)
    | Ok _ => mret (Ok tt)
    end.

(** [KubernetesGuestConfigStore]; [client] is whether its client is set. *)
Definition guest_secret (allocation : Allocation) (token installCommand : string) : secret :=
  {| sec_Name := ThunderGuestSetupSecretName (al_ClaimName allocation);
     sec_Namespace := trim_space (al_ClaimNamespace allocation);
     sec_Labels := guestArtifactLabels allocation;
     sec_Type := "Opaque";
     sec_Data := ResourceSlice.labels_of
       [(ThunderGuestSecretTokenKey, token);
        (ThunderGuestInstallScriptKey, thunderGuestInstallScript installCommand)];
     sec_meta := "" |}.

Definition guest_Create (client : bool) (allocation : Allocation) (token installCommand : string)
    : prog secret_sig (result GuestArtifacts) :=
  if negb client then mret (Err (ErrText "kubernetes client is required"))
  else
    let namespace := trim_space (al_ClaimNamespace allocation) in
    if bool_decide (namespace = "") then mret (Err (ErrText "claim namespace is required"))
    else if blank token then mret (Err (ErrText "client enrollment token is required"))
    else
      let desired := guest_secret allocation token installCommand in
      let? _ := upsertSecret desired or id in
      mret (Ok (Artifacts namespace (sec_Name desired))).

Definition guest_Remove (client : bool) (artifacts : GuestArtifacts)
    : prog secret_sig (result unit) :=
  if negb client then mret (Err (ErrText "kubernetes client is required"))
  else
    let namespace := trim_space (ga_Namespace artifacts) in
    if bool_decide (namespace = "") then mret (Ok tt)
    else
      let? _ := deleteSecret namespace (ga_SecretName artifacts) or id in
      mret (Ok tt).
End store.

(** A server of Secrets, by namespace and name. *)
Definition secret_handler `{ServerErrors} : handler secret_sig (gmap (string * string) secret) :=
  λ e m, match e return secret_resp e * gmap (string * string) secret with
  | GetSecret ns name =>
      (match m !! (ns, name) with Some s => Ok s | None => Err not_found_error end, m)
  | CreateSecret ns s =>
      match m !! (ns, sec_Name s) with
      | Some _ => (Err already_exists_error, m) | None => (Ok tt, <[(ns, sec_Name s) := s]> m) end
  | UpdateSecret ns s => update_in (ns, sec_Name s) s m
  | DeleteSecret ns name => delete_in (ns, name) m
  end.

(** The Secret [desired] as an upsert leaves it: over one that is there, it
    keeps that one's other metadata. *)
Definition upserted (current : option secret) (desired : secret) : secret :=
  match current with
  | Some c => Secret (sec_Name desired) (sec_Namespace c) (sec_Labels desired) (sec_Type desired)
                (sec_Data desired) (sec_meta c)
  | None => desired
  end.

(** A server files each Secret under its name. *)
Definition filed (m : gmap (string * string) secret) : Prop :=
  ∀ ns name s, m !! (ns, name) = Some s → sec_Name s = name.

(** The bytes of a Kubernetes object name. *)
Definition name_byte (a : ascii) : bool := dns_char a || bool_decide (a = "."%char).
Definition object_name (s : string) : bool :=
  bool_decide (s ≠ "") && forallb name_byte (chars s).

(** RFC 1123 subdomains, what the API takes as a Secret's name. *)
Definition subdomain_label (s : string) : bool :=
  bool_decide (s ≠ "") && forallb dns_char (chars s) &&
  negb (has_prefix s "-") && negb (bool_decide (last (chars s) = Some "-"%char)).
Definition is_subdomain (s : string) : bool :=
  (String.length s <=? 253)%nat && forallb subdomain_label (split s "."%char).

(* -------------------------------------------------------------------- *)
(** ** Lemmas *)

Lemma name_byte_plain a : name_byte a = true → plain_byte a ∧ is_ascii_byte a = true ∧ lower_byte a = a.
Proof.
  unfold name_byte. intros [Ha| ->%bool_decide_eq_true]%orb_prop; [|done].
  apply dns_char_plain in Ha. unfold plain_byte. tauto.
Qed.

Lemma object_name_spec s : object_name s = true → s ≠ "" ∧ Forall (λ a, name_byte a = true) (chars s).
Proof.
  unfold object_name. intros [Hs Hf]%andb_prop. apply bool_decide_eq_true in Hs. split; [done|].
  apply Forall_forall. intros a Ha%list_elem_of_In. by eapply forallb_forall in Hf.
Qed.

Lemma name_bytes_trim s : Forall (λ a, name_byte a = true) (chars s) → trim_space s = s.
Proof.
  intros Hs. apply trim_space_plain. eapply Forall_impl; [done|]. intros a Ha. by apply name_byte_plain.
Qed.

Section lemmas.
Context `{UnicodeTables}.

Lemma name_bytes_lower s : Forall (λ a, name_byte a = true) (chars s) → to_lower s = s.
Proof.
  intros Hs. unfold to_lower, is_ascii, map_bytes.
  assert (forallb is_ascii_byte (chars s) = true) as ->.
  { apply forallb_forall. intros a Ha%list_elem_of_In. rewrite Forall_forall in Hs.
    by apply name_byte_plain, Hs. }
  assert (lower_byte <$> chars s = chars s) as ->; [|apply of_chars_chars].
  rewrite <-(list_fmap_id (chars s)) at 2. apply Forall_fmap_ext.
  eapply Forall_impl; [done|]. intros a Ha. by apply name_byte_plain in Ha as (_&_&?).
Qed.

Lemma trim_suffix_length s p : (String.length (trim_suffix s p) ≤ String.length s)%nat.
Proof.
  destruct (trim_suffix_cases s p) as [Hc|Hc]; [|by rewrite Hc].
  apply (f_equal length) in Hc. rewrite length_app, !length_chars in Hc. lia.
Qed.

Lemma trim_suffix_Forall (P : ascii → Prop) s p : Forall P (chars s) → Forall P (chars (trim_suffix s p)).
Proof.
  destruct (trim_suffix_cases s p) as [Hc| ->]; [|done]. rewrite Hc. by intros [? _]%Forall_app.
Qed.

(** The name of any claim's Secret is short enough. *)
Lemma artifactName_length claimName suffix : (String.length suffix ≤ 241)%nat →
  (String.length (thunderGuestArtifactName claimName suffix) ≤ 253)%nat.
Proof.
  intros Hs. unfold thunderGuestArtifactName. cbn zeta.
  set (base := if bool_decide _ then _ else _). set (name := base +:+ "-" +:+ suffix).
  destruct (Nat.leb_spec (String.length name) 253); [done|].
  change (take_bytes 10 (sha256_hex name)) with (short_hash name).
  rewrite !length_string_app, short_hash_length.
  pose proof (trim_suffix_length (take_bytes (253 - String.length suffix - 10 - 2) base) "-") as Ht.
  rewrite <-(length_chars (take_bytes _ _)), chars_take_bytes, length_take in Ht.
  change (String.length "-") with 1%nat. lia.
Qed.

Lemma setupName_bytes claimName : object_name claimName = true →
  Forall (λ a, name_byte a = true) (chars (ThunderGuestSetupSecretName claimName)).
Proof.
  intros [Hne Hb]%object_name_spec. unfold ThunderGuestSetupSecretName, thunderGuestArtifactName.
  rewrite (name_bytes_trim claimName), (name_bytes_lower claimName), bool_decide_false by done.
  cbn zeta. set (name := claimName +:+ "-" +:+ "thunder-setup").
  assert (Forall (λ a, name_byte a = true) (chars name)) as Hname.
  { unfold name. rewrite !chars_app. apply Forall_app. split; [done|]. by repeat constructor. }
  destruct (_ <=? _)%nat; [done|]. change (take_bytes 10 (sha256_hex name)) with (short_hash name).
  rewrite !chars_app. apply Forall_app. split.
  { apply trim_suffix_Forall. rewrite chars_take_bytes. by apply Forall_take. }
  apply Forall_app. split; [by repeat constructor|]. apply Forall_app. split; [|by repeat constructor].
  eapply Forall_impl; [apply short_hash_chars|]. intros a [Ha _]%hex_dns_char. unfold name_byte. by rewrite Ha.
Qed.

Lemma setupName_nonempty claimName : ThunderGuestSetupSecretName claimName ≠ "".
Proof.
  unfold ThunderGuestSetupSecretName, thunderGuestArtifactName. cbn zeta.
  destruct (_ <=? _)%nat; intros He%(f_equal String.length); rewrite !length_string_app in He; cbn in He; lia.
Qed.

Lemma setupName_short claimName : object_name claimName = true →
  (String.length claimName ≤ 239)%nat →
  ThunderGuestSetupSecretName claimName = claimName +:+ "-thunder-setup".
Proof.
  intros [Hne Hb]%object_name_spec Hlen.
  unfold ThunderGuestSetupSecretName, thunderGuestArtifactName.
  rewrite (name_bytes_trim claimName), (name_bytes_lower claimName), bool_decide_false by done.
  cbn zeta. rewrite (leb_correct _ 253); [done|]. rewrite !length_string_app. cbn. lia.
Qed.
End lemmas.

Section theorems.
Context `{UnicodeTables, ServerErrors}.

Lemma run_scall_bind {B} e (f : secret_resp e → prog secret_sig B) m :
  run secret_handler (scall e ≫= f) m =
    let '(r, m') := secret_handler e m in run secret_handler (f r) m'.
Proof. rewrite run_bind. cbn. by destruct (secret_handler e m). Qed.

Lemma upsertSecret_run desired m : filed m →
  run secret_handler (upsertSecret desired) m =
    (Ok tt, <[(sec_Namespace desired, sec_Name desired) :=
                upserted (m !! (sec_Namespace desired, sec_Name desired)) desired]> m).
Proof.
  intros Hm. unfold upsertSecret. rewrite (run_scall_bind (GetSecret _ _)). cbn [secret_handler].
  destruct (m !! _) as [c|] eqn:Hc.
  - unfold scall, call. cbn [run secret_handler sec_Name]. unfold update_in.
    apply Hm in Hc as Hn. rewrite Hn, Hc. done.
  - rewrite not_found_error_is. unfold scall, call. cbn [run secret_handler]. by rewrite Hc.
Qed.

Lemma deleteSecret_run namespace name m : trim_space name = name → name ≠ "" →
  run secret_handler (deleteSecret namespace name) m = (Ok tt, delete (namespace, name) m).
Proof.
  intros Ht Hne. unfold deleteSecret. rewrite Ht, bool_decide_false by done.
  rewrite (run_scall_bind (DeleteSecret _ _)). cbn [secret_handler]. unfold delete_in.
  destruct (m !! _) as [c|] eqn:Hc; [done|]. rewrite not_found_error_is.
  cbn. by rewrite delete_id by done.
Qed.

Lemma guest_Create_run al token cmd m :
  blank token = false → blank (al_ClaimNamespace al) = false → filed m →
  let key := (trim_space (al_ClaimNamespace al), ThunderGuestSetupSecretName (al_ClaimName al)) in
  run secret_handler (guest_Create true al token cmd) m =
    (Ok (Artifacts key.1 key.2), <[key := upserted (m !! key) (guest_secret al token cmd)]> m).
Proof.
  intros Ht Hns%blank_false Hm. unfold guest_Create. cbn [negb].
  rewrite Ht, !bool_decide_false by done. unfold orfail. by rewrite run_bind, upsertSecret_run.
Qed.

Lemma guest_Remove_run ns claimName m : blank ns = false → object_name claimName = true →
  let key := (trim_space ns, ThunderGuestSetupSecretName claimName) in
  run secret_handler (guest_Remove true (Artifacts key.1 key.2)) m = (Ok tt, delete key m).
Proof.
  intros Hns%blank_false Hname. unfold guest_Remove. cbn [negb ga_Namespace ga_SecretName fst snd].
  rewrite trim_space_idem, bool_decide_false by done. unfold orfail.
  rewrite run_bind, deleteSecret_run; [done| |apply setupName_nonempty].
  by apply name_bytes_trim, setupName_bytes.
Qed.

(** Creating a claim's guest artifacts leaves one Secret in the claim's
    namespace, with the token and the install script and nothing a stale one
    held, and no other Secret is touched; removing the artifacts, whatever
    happened since, removes that Secret and no other, also when it is gone. *)
Theorem guest_lifecycle al token cmd m :
  blank token = false → blank (al_ClaimNamespace al) = false → object_name (al_ClaimName al) = true →
  filed m →
  let key := (trim_space (al_ClaimNamespace al), ThunderGuestSetupSecretName (al_ClaimName al)) in
  let artifacts := Artifacts key.1 key.2 in
  run secret_handler (guest_Create true al token cmd) m =
    (Ok artifacts, <[key := upserted (m !! key) (guest_secret al token cmd)]> m) ∧
  ∀ m', run secret_handler (guest_Remove true artifacts) m' = (Ok tt, delete key m').
Proof.
  intros Ht Hns Hname Hm. split; [by apply guest_Create_run|]. intros m'. by apply guest_Remove_run.
Qed.
End theorems.

(** A claim's Secret has a name of at most 253 bytes, made of the bytes of
    an object name; short claim names in a namespace never share a Secret. *)
Theorem guest_names `{UnicodeTables} claim1 claim2 :
  object_name claim1 = true → object_name claim2 = true →
  (String.length (ThunderGuestSetupSecretName claim1) ≤ 253)%nat ∧
  object_name (ThunderGuestSetupSecretName claim1) = true ∧
  ((String.length claim1 ≤ 239)%nat → (String.length claim2 ≤ 239)%nat →
   ThunderGuestSetupSecretName claim1 = ThunderGuestSetupSecretName claim2 → claim1 = claim2).
Proof.
  intros H1 H2. split; [apply artifactName_length; cbn; lia|]. split.
  - unfold object_name. rewrite bool_decide_true by apply setupName_nonempty. apply forallb_forall.
    intros a Ha%list_elem_of_In. pose proof (setupName_bytes claim1 H1) as Hb.
    rewrite Forall_forall in Hb. by apply Hb.
  - intros Hl1 Hl2. rewrite !setupName_short by done. apply string_app_inj_r.
Qed.

(** A claim's name may be long and have a dot where it is cut: the label after
    the dot then starts with a dash, and the API refuses the Secret. *)
Definition dotted_claim : string :=
  of_chars (replicate 227 "a"%char) +:+ "." +:+ of_chars (replicate 20 "b"%char).
Example dotted_claim_refused :
  (is_subdomain dotted_claim, is_subdomain (@ThunderGuestSetupSecretName ascii_tables dotted_claim)) =
  (true, false).
Proof. vm_compute. reflexivity. Qed.

Lemma guest_names_witness :
  object_name "claim.1" = true ∧
  (String.length (@ThunderGuestSetupSecretName ascii_tables "claim.1") ≤ 253)%nat.
Proof.
  split; [reflexivity|].
  exact (proj1 (@guest_names ascii_tables "claim.1" "claim-2" eq_refl eq_refl)).
Defined.

Definition guest_sample : Allocation :=
  MkAllocation "uid-1" " default " "claim-1" [] "" "" "" None no_consumer "" "" "" 0.

Lemma guest_lifecycle_witness :
  let key := ("default", "claim-1-thunder-setup") in
  let p := @guest_Create ascii_tables status_errors true guest_sample "token" "" in
  let q := @guest_Remove status_errors true (Artifacts "default" "claim-1-thunder-setup") in
  (run (@secret_handler status_errors store_errors) p ∅).1 = Ok (Artifacts key.1 key.2) ∧
  run (@secret_handler status_errors store_errors) q
    (run (@secret_handler status_errors store_errors) p ∅).2 = (Ok tt, ∅).
Proof.
  assert (filed ∅) as Hf by (intros ns name s Hs; by rewrite lookup_empty in Hs).
  destruct (@guest_lifecycle ascii_tables status_errors store_errors guest_sample "token" "" ∅
    eq_refl eq_refl eq_refl Hf) as [Hc Hr].
  cbv zeta. split.
  - exact (f_equal fst Hc).
  - rewrite (f_equal snd Hc). exact (Hr _).
Defined.
