(* ===== verification/TokenIssuer.v ===== *)
(** * Daemon: the token issuer

    internal/daemon/driver.go's ThunderTokenIssuer: the Thunder SDK as the
    driver sees it.  It mints the enrollment token of a claim and revokes
    tokens and clients, where one that is gone already counts as revoked. *)

From S2P Require Import Prelude GoStrings Float64 Labels ResourceSlice Driver DriverSpec Lifecycle.
From S2P Require Import GoTime ClientStore.

(** The SDK's [CreateClientEnrollmentRequest], and the response's fields. *)
Record ClientEnrollmentRequest := EnrollmentRequest {
  eq_ZoneID : string;
  eq_GPUType : string;
  eq_GPUCount : Z
}.
Record ClientEnrollmentToken := EnrollmentToken {
  et_EnrollmentTokenID : string;
  et_EnrollmentToken : string;
  et_ExpiresAt : option Z
}.

Inductive issuer_ev :=
  | CreateClientEnrollment (request : ClientEnrollmentRequest)
  | UnenrollClient (tokenID : string)
  | RevokeClientCall (clientID : string).
Definition issuer_resp (e : issuer_ev) : Type :=
  match e with CreateClientEnrollment _ => result ClientEnrollmentToken | _ => result unit end.
Definition issuer_sig : sig := Sig issuer_ev issuer_resp.
Definition icall (e : issuer_ev) : prog issuer_sig (issuer_resp e) := call (S:=issuer_sig) e.

(** [Client] is whether the SDK's client is set. *)
Record ThunderTokenIssuer := TokenIssuer { ti_Client : bool; ti_ZoneID : string }.

(** The conversion of an [int64] to [uint64]. *)
Definition uint64 (z : Z) : Z := z `mod` 2^64.

Definition no_thunder_client : error := ErrText "thunder client is required".

Section issuer.
Context `{LibErrors} (i : ThunderTokenIssuer).

(** The token's ID, the token and when it expires: the zero time when the API
    does not say. *)
Definition issuer_Mint (allocation : Allocation) : prog issuer_sig (result (string * string * Z)) :=
  if negb (ti_Client i) then mret (Err no_thunder_client)
  else
    let zoneID := trim_space (ti_ZoneID i) in
    let zoneID := if bool_decide (zoneID = "") then al_Zone allocation else zoneID in
    let? token := icall (CreateClientEnrollment
      {| eq_ZoneID := zoneID; eq_GPUType := al_GPUType allocation;
         eq_GPUCount := uint64 (al_GPUCount allocation) |}) or id in
    mret (Ok (et_EnrollmentTokenID token, et_EnrollmentToken token, default zero_time (et_ExpiresAt token))).

(** What is not found is revoked already. *)
Definition revoke_with (call : string → prog issuer_sig (result unit)) (id : string)
    : prog issuer_sig (result unit) :=
  if blank id then mret (Ok tt)
  else if negb (ti_Client i) then mret (Err no_thunder_client)
  else
    r ← call id;
    match r with
    | Err err => if thunder_is_not_found err then mret (Ok tt) else mret (Err err)
    | Ok _ => mret (Ok tt)
    end.
Definition issuer_RevokeClient (clientID : string) : prog issuer_sig (result unit) :=
  revoke_with (λ id, icall (RevokeClientCall id)) clientID.
Definition issuer_Revoke (tokenID : string) : prog issuer_sig (result unit) :=
  revoke_with (λ id, icall (UnenrollClient id)) tokenID.
End issuer.

(* -------------------------------------------------------------------- *)
(** ** The Thunder account *)

(** How many tokens were minted, the tokens that can be spent and the clients
    that are enrolled. *)
Record account := Account { ac_minted : Z; ac_tokens : gset string; ac_clients : gset string }.

(** The error of a name the API does not know. *)
Class AccountErrors `{LibErrors} := {
  unknown_error : error;
  unknown_error_is : thunder_is_not_found unknown_error = true
}.

Definition token_secret (n : Z) : string := "secret-" +:+ itoa n.

Definition account_handler `{AccountErrors} : handler issuer_sig account := λ e w,
  let 'Account n tokens clients := w in
  match e return issuer_resp e * account with
  | CreateClientEnrollment _ =>
      (Ok (EnrollmentToken (minted_name n) (token_secret n) None),
       Account (n + 1) ({[minted_name n]} ∪ tokens) clients)
  | UnenrollClient t =>
      (if bool_decide (t ∈ tokens) then Ok tt else Err unknown_error, Account n (tokens ∖ {[t]}) clients)
  | RevokeClientCall c =>
      (if bool_decide (c ∈ clients) then Ok tt else Err unknown_error, Account n tokens (clients ∖ {[c]}))
  end.

(* -------------------------------------------------------------------- *)
(** ** Lemmas *)

Section lemmas.
Context `{AccountErrors} (i : ThunderTokenIssuer).
Hypothesis Hclient : ti_Client i = true.

Lemma run_icall_bind {B} e (f : issuer_resp e → prog issuer_sig B) w :
  run account_handler (icall e ≫= f) w =
    let '(r, w') := account_handler e w in run account_handler (f r) w'.
Proof using Type. rewrite run_bind. cbn. by destruct (account_handler e w). Qed.

Lemma issuer_Mint_run al w :
  run account_handler (issuer_Mint i al) w =
    (Ok (minted_name (ac_minted w), token_secret (ac_minted w), zero_time),
     Account (ac_minted w + 1) ({[minted_name (ac_minted w)]} ∪ ac_tokens w) (ac_clients w)).
Proof using Type*.
  unfold issuer_Mint, orfail. rewrite Hclient. cbn [negb].
  rewrite (run_icall_bind (CreateClientEnrollment _)). by destruct w.
Qed.

Lemma issuer_Revoke_run t w : blank t = false →
  run account_handler (issuer_Revoke i t) w =
    (Ok tt, Account (ac_minted w) (ac_tokens w ∖ {[t]}) (ac_clients w)).
Proof using Type*.
  intros Hb. unfold issuer_Revoke, revoke_with. rewrite Hb, Hclient. cbn [negb].
  rewrite (run_icall_bind (UnenrollClient t)). destruct w. cbn [account_handler].
  case_bool_decide; [done|]. by rewrite unknown_error_is.
Qed.

Lemma issuer_RevokeClient_run c w : blank c = false →
  run account_handler (issuer_RevokeClient i c) w =
    (Ok tt, Account (ac_minted w) (ac_tokens w) (ac_clients w ∖ {[c]})).
Proof using Type*.
  intros Hb. unfold issuer_RevokeClient, revoke_with. rewrite Hb, Hclient. cbn [negb].
  rewrite (run_icall_bind (RevokeClientCall c)). destruct w. cbn [account_handler].
  case_bool_decide; [done|]. by rewrite unknown_error_is.
Qed.
End lemmas.
