(* ===== verification/DaemonConfig.v ===== *)
(** * Daemon: configuration

    internal/daemon/config.go: the daemon's configuration from its
    environment.  [lookup] is [os.LookupEnv].  Which configurations are
    accepted, with port ranges as the chart's schema has them. *)

From S2P Require Import Prelude GoStrings Labels.

Definition EnvNode : string := "NODE".
Definition EnvZone : string := "ZONE".
Definition EnvAdvertisedIP : string := "ADVERTISED_IP".
Definition EnvMinNVDriverVersion : string := "MIN_DRIVER_VERSION".
Definition EnvThunderAPIURL : string := "THUNDER_API_URL".
Definition EnvThunderPortRange : string := "THUNDER_PORT_RANGE".
Definition EnvThunderAPIToken : string := "THUNDER_API_TOKEN".
Definition EnvHostRoot : string := "HOST_ROOT".
Definition EnvLibCUDAPath : string := "LIBCUDA_PATH".
Definition EnvLibNVMLPath : string := "LIBNVIDIA_ML_PATH".
Definition EnvNVSMIPath : string := "NVIDIA_SMI_PATH".
Definition EnvZoneLabel : string := "NODE_ZONE_LABEL".
Definition EnvAdvertisedIPLabel : string := "NODE_ADVERTISED_IP_LABEL".
Definition EnvHostTargetPID : string := "HOST_TARGET_PID".
Definition EnvDRAEnabled : string := "DRA_ENABLED".
Definition EnvDRADriverName : string := "DRA_DRIVER_NAME".
Definition EnvCDISpecDir : string := "CDI_SPEC_DIR".
Definition EnvThunderClientNS : string := "THUNDER_CLIENT_NAMESPACE".
Definition EnvKubeletPluginDir : string := "KUBELET_PLUGIN_DIR".
Definition EnvKubeletRegistrarDir : string := "KUBELET_REGISTRAR_DIR".
Definition EnvThunderInstallURL : string := "THUNDER_INSTALL_URL".
Definition EnvThunderTelemetryURL : string := "THUNDER_TELEMETRY_URL".
Definition EnvArtifactBaseURL : string := "THUNDER_ARTIFACT_BASE_URL".
Definition EnvLibthunderURL : string := "LIBTHUNDER_URL".
Definition EnvLibthunderSHA256 : string := "LIBTHUNDER_SHA256".
Definition EnvCABundlePath : string := "CA_BUNDLE_PATH".
Definition EnvThunderdLogUnit : string := "THUNDERD_LOG_UNIT".

Definition DefaultHostRoot : string := "/host".
Definition DefaultLibCUDAPath : string := "/usr/lib/x86_64-linux-gnu/libcuda.so.1".
Definition DefaultLibNVMLPath : string := "/usr/lib/x86_64-linux-gnu/libnvidia-ml.so.1".
Definition DefaultNVSMIPath : string := "/usr/bin/nvidia-smi".
Definition DefaultZoneLabel : string := "topology.kubernetes.io/zone".
Definition DefaultAdvertisedIPLabel : string := "thundercompute.com/advertised-ip".
Definition DefaultHostTargetPID : string := "1".
Definition DefaultDRAEnabled : bool := true.
Definition DefaultDRADriverName : string := thunderDomain.
Definition DefaultCDISpecDir : string := "/var/run/cdi".
Definition DefaultThunderClientNS : string := "thunder-system".
Definition DefaultKubeletPluginDir : string := "/var/lib/kubelet/plugins/" +:+ thunderDomain.
Definition DefaultKubeletRegistrarDir : string := "/var/lib/kubelet/plugins_registry".
Definition DefaultThunderInstallURL : string := "https://get.thundercompute.com/install.sh".
Definition DefaultThunderTelemetryURL : string := "https://telemetry.thundercompute.com:2096".
Definition DefaultCABundlePath : string := "/etc/ssl/certs/ca-certificates.crt".
Definition DefaultThunderdLogUnit : string := "thunderd.service".

Record Config := {
  c_Node : string;
  c_Zone : string;
  c_AdvertisedIP : string;
  c_MinDriverVersion : string;
  c_PortRange : string;
  c_ThunderAPIURL : string;
  c_ThunderAPIToken : string;
  c_HostRoot : string;
  c_LibCUDAPath : string;
  c_LibNVMLPath : string;
  c_NVSMIPath : string;
  c_ZoneLabel : string;
  c_AdvertisedIPLabel : string;
  c_HostTargetPID : string;
  c_DRAEnabled : bool;
  c_DRADriverName : string;
  c_CDISpecDir : string;
  c_ThunderClientNS : string;
  c_KubeletPluginDir : string;
  c_KubeletRegistrarDir : string;
  c_ThunderInstallURL : string;
  c_ThunderTelemetryURL : string;
  c_ArtifactBaseURL : string;
  c_LibthunderURL : string;
  c_LibthunderSHA256 : string;
  c_CABundlePath : string;
  c_ThunderdLogUnit : string
}.

Section config.
Context `{UnicodeTables}.
Context (lookup : string → option string).

Definition requiredEnv (key : string) : result string :=
  match lookup key with
  | None => Err (ErrText (key +:+ " must be specified"))
  | Some value =>
      if blank value then Err (ErrText (key +:+ " must be specified")) else Ok (trim_space value)
  end.

Definition optionalEnv (key fallback : string) : string :=
  match lookup key with
  | None => fallback
  | Some value => if blank value then fallback else trim_space value
  end.

Definition optionalBoolEnv (key : string) (fallback : bool) : result bool :=
  match lookup key with
  | None => Ok fallback
  | Some value =>
      if blank value then Ok fallback
      else match parse_bool (trim_space value) with
           | Some b => Ok b
           | None =>
               Err (ErrWrap (key +:+ " must be a boolean: ")
                 (ErrLib ("strconv.ParseBool: parsing " +:+ quote (trim_space value) +:+
                          ": invalid syntax")) "")
           end
  end.

Definition optionalPortRangeEnv (key : string) : result string :=
  let value := optionalEnv key "" in
  if bool_decide (value = "") then Ok ""
  else
    let malformed := Err (ErrText (key +:+ " must be a port range like 32000-32199, got " +:+
                                   quote value)) in
    match cut value "-" with
    | None => malformed
    | Some (rawStart, rawEnd) =>
        match parse_int rawStart, parse_int rawEnd with
        | Some start, Some end_ =>
            if (start <? 1)%Z || (65535 <? end_)%Z || (end_ <? start)%Z then
              Err (ErrText (key +:+ " must be a port range within 1-65535 with start <= end, got " +:+
                            quote value))
            else Ok value
        | _, _ => malformed
        end
    end.

Definition configFromLookup : result Config :=
  node ← requiredEnv EnvNode;
  let zone := optionalEnv EnvZone "" in
  let advertisedIP := optionalEnv EnvAdvertisedIP "" in
  minVersion ← requiredEnv EnvMinNVDriverVersion;
  apiToken ← requiredEnv EnvThunderAPIToken;
  draEnabled ← optionalBoolEnv EnvDRAEnabled DefaultDRAEnabled;
  portRange ← optionalPortRangeEnv EnvThunderPortRange;
  Ok
    {| c_Node := node;
       c_Zone := zone;
       c_AdvertisedIP := advertisedIP;
       c_MinDriverVersion := minVersion;
       c_PortRange := portRange;
       c_ThunderAPIURL := optionalEnv EnvThunderAPIURL "";
       c_ThunderAPIToken := apiToken;
       c_HostRoot := optionalEnv EnvHostRoot DefaultHostRoot;
       c_LibCUDAPath := optionalEnv EnvLibCUDAPath DefaultLibCUDAPath;
       c_LibNVMLPath := optionalEnv EnvLibNVMLPath DefaultLibNVMLPath;
       c_NVSMIPath := optionalEnv EnvNVSMIPath DefaultNVSMIPath;
       c_ZoneLabel := optionalEnv EnvZoneLabel DefaultZoneLabel;
       c_AdvertisedIPLabel := optionalEnv EnvAdvertisedIPLabel DefaultAdvertisedIPLabel;
       c_HostTargetPID := optionalEnv EnvHostTargetPID DefaultHostTargetPID;
       c_DRAEnabled := draEnabled;
       c_DRADriverName := optionalEnv EnvDRADriverName DefaultDRADriverName;
       c_CDISpecDir := optionalEnv EnvCDISpecDir DefaultCDISpecDir;
       c_ThunderClientNS := optionalEnv EnvThunderClientNS DefaultThunderClientNS;
       c_KubeletPluginDir := optionalEnv EnvKubeletPluginDir DefaultKubeletPluginDir;
       c_KubeletRegistrarDir := optionalEnv EnvKubeletRegistrarDir DefaultKubeletRegistrarDir;
       c_ThunderInstallURL := optionalEnv EnvThunderInstallURL DefaultThunderInstallURL;
       c_ThunderTelemetryURL := optionalEnv EnvThunderTelemetryURL DefaultThunderTelemetryURL;
       c_ArtifactBaseURL := optionalEnv EnvArtifactBaseURL "";
       c_LibthunderURL := optionalEnv EnvLibthunderURL "";
       c_LibthunderSHA256 := optionalEnv EnvLibthunderSHA256 "";
       c_CABundlePath := optionalEnv EnvCABundlePath DefaultCABundlePath;
       c_ThunderdLogUnit := optionalEnv EnvThunderdLogUnit DefaultThunderdLogUnit |}.

(** A value the code takes for a port range. *)
Definition parsed_range (value : string) (start end_ : Z) : Prop :=
  ∃ rawStart rawEnd, cut value "-" = Some (rawStart, rawEnd) ∧
    parse_int rawStart = Some start ∧ parse_int rawEnd = Some end_ ∧
    (1 ≤ start ≤ end_)%Z ∧ (end_ ≤ 65535)%Z.

(** The values every accepted configuration has. *)
Definition never_empty : list (Config → string) :=
  [c_Node; c_MinDriverVersion; c_ThunderAPIToken; c_HostRoot; c_LibCUDAPath; c_LibNVMLPath;
   c_NVSMIPath; c_ZoneLabel; c_AdvertisedIPLabel; c_HostTargetPID; c_DRADriverName; c_CDISpecDir;
   c_ThunderClientNS; c_KubeletPluginDir; c_KubeletRegistrarDir; c_ThunderInstallURL;
   c_ThunderTelemetryURL; c_CABundlePath; c_ThunderdLogUnit].

(** A number written in decimal digits. *)
Inductive decimal : list ascii → Z → Prop :=
  | decimal_one d : (d < 10)%N → decimal [chr (48 + d)] (Z.of_N d)
  | decimal_more l n d : decimal l n → (d < 10)%N →
      decimal (l ++ [chr (48 + d)]) (10 * n + Z.of_N d).

(** A port range as the chart's schema describes it: two ports in order, each
    written in one to five digits. *)
Definition port_range (value : string) (start end_ : Z) : Prop :=
  ∃ rawStart rawEnd, value = rawStart +:+ "-" +:+ rawEnd ∧
    (String.length rawStart ≤ 5)%nat ∧ (String.length rawEnd ≤ 5)%nat ∧
    decimal (chars rawStart) start ∧ decimal (chars rawEnd) end_ ∧
    (1 ≤ start ≤ end_)%Z ∧ (end_ ≤ 65535)%Z.

(** No end of a range is written with a plus sign or in more than five bytes. *)
Definition plain_ends (value : string) : Prop :=
  "+"%char ∉ chars value ∧ ∀ rawStart rawEnd, cut value "-" = Some (rawStart, rawEnd) →
    (String.length rawStart ≤ 5)%nat ∧ (String.length rawEnd ≤ 5)%nat.

(** A variable that is set to something other than white space. *)
Definition env_set (key : string) : Prop := ∃ value, lookup key = Some value ∧ blank value = false.
End config.

(** Inputs of the concrete runs. *)
Definition sample_env (key : string) : option string :=
  (list_to_map [("NODE", " node-1 "); ("MIN_DRIVER_VERSION", "535.104"); ("THUNDER_API_TOKEN", "t");
                ("THUNDER_PORT_RANGE", "32000-32199"); ("ZONE", "  ")] : gmap string string) !! key.

Definition sample_config : Config :=
  {| c_Node := "node-1"; c_Zone := ""; c_AdvertisedIP := ""; c_MinDriverVersion := "535.104";
     c_PortRange := ""; c_ThunderAPIURL := ""; c_ThunderAPIToken := "t";
     c_HostRoot := DefaultHostRoot; c_LibCUDAPath := DefaultLibCUDAPath;
     c_LibNVMLPath := DefaultLibNVMLPath; c_NVSMIPath := DefaultNVSMIPath;
     c_ZoneLabel := DefaultZoneLabel; c_AdvertisedIPLabel := DefaultAdvertisedIPLabel;
     c_HostTargetPID := DefaultHostTargetPID; c_DRAEnabled := DefaultDRAEnabled;
     c_DRADriverName := DefaultDRADriverName; c_CDISpecDir := DefaultCDISpecDir;
     c_ThunderClientNS := DefaultThunderClientNS; c_KubeletPluginDir := DefaultKubeletPluginDir;
     c_KubeletRegistrarDir := DefaultKubeletRegistrarDir;
     c_ThunderInstallURL := DefaultThunderInstallURL;
     c_ThunderTelemetryURL := DefaultThunderTelemetryURL; c_ArtifactBaseURL := "";
     c_LibthunderURL := ""; c_LibthunderSHA256 := ""; c_CABundlePath := DefaultCABundlePath;
     c_ThunderdLogUnit := DefaultThunderdLogUnit |}.

(* -------------------------------------------------------------------- *)
(** ** Lemmas *)

Lemma digit_char d : (d < 10)%N → is_digit (chr (48 + d)) = true ∧ code (chr (48 + d)) = (48 + d)%N.
Proof.
  intros Hd. unfold is_digit. assert (code (chr (48 + d)) = (48 + d)%N) as ->.
  { apply Stdlib.Strings.Ascii.N_ascii_embedding. lia. }
  split; [|done]. apply andb_true_iff. rewrite !N.leb_le. lia.
Qed.
Lemma char_digit a : is_digit a = true → ∃ d, (d < 10)%N ∧ a = chr (48 + d) ∧ (code a - 48 = d)%N.
Proof.
  unfold is_digit. rewrite andb_true_iff, !N.leb_le. intros Ha. exists (code a - 48)%N.
  split_and!; [lia| |done]. rewrite N.add_comm, N.sub_add by lia.
  symmetry. apply Stdlib.Strings.Ascii.ascii_N_embedding.
Qed.

Lemma decimal_digits l z : decimal l z →
  (0 ≤ z)%Z ∧ parse_uint l = Some (Z.to_N z) ∧ Forall (λ a, is_digit a = true) l.
Proof.
  induction 1 as [d Hd|l n d _ (Hn & IH & Hl) Hd]; destruct (digit_char d Hd) as [H1 H2].
  - cbn. rewrite H1, H2. split_and!; [lia| |by repeat constructor]. f_equal. lia.
  - split_and!; [lia| |by apply Forall_app; repeat constructor].
    destruct l as [|a l]; [done|]. unfold parse_uint in *. cbn [app].
    rewrite app_comm_cons, digits_value_app, IH. cbn. rewrite H1, H2. f_equal. lia.
Qed.
Lemma digits_decimal l n : parse_uint l = Some n → decimal l (Z.of_N n).
Proof.
  revert n. induction l as [|a l IH] using rev_ind; intros n; [done|].
  assert (parse_uint (l ++ [a]) = (digits_value 0 l ≫= λ v, digits_value v [a])) as ->.
  { rewrite <-digits_value_app. by destruct l. }
  destruct (digits_value 0 l) as [v|] eqn:Hv; [|done]. cbn.
  destruct (is_digit a) eqn:Ha; [|done]. intros [= <-].
  destruct (char_digit a Ha) as (d & Hd & -> & Hcode). rewrite Hcode.
  destruct l as [|b l].
  - injection Hv as <-. cbn [app]. by apply decimal_one.
  - replace (Z.of_N (v * 10 + d)) with (10 * Z.of_N v + Z.of_N d)%Z by lia.
    apply decimal_more; [|done]. by apply IH.
Qed.

Lemma decimal_parse s z : decimal (chars s) z → (z ≤ 65535)%Z → parse_int s = Some z.
Proof.
  intros (Hz & Hp & Hl)%decimal_digits Hmax. unfold parse_int. destruct (chars s) as [|a l]; [done|].
  apply Forall_cons in Hl as [Ha _].
  rewrite !bool_decide_false by (by intros ->).
  unfold parse_signed. rewrite Hp, Z2N.id by done. rewrite bool_decide_true; [done|].
  unfold min_int64, max_int64. lia.
Qed.
Lemma parse_decimal s z : parse_int s = Some z → (1 ≤ z)%Z → "+"%char ∉ chars s → decimal (chars s) z.
Proof.
  unfold parse_int. destruct (chars s) as [|a l] eqn:Hs; [done|]. intros Hp Hz Hplus.
  case_bool_decide.
  { unfold parse_signed in Hp. destruct (parse_uint l); [|done]. case_bool_decide; [|done].
    injection Hp as <-. lia. }
  rewrite bool_decide_false in Hp by (intros ->; set_solver).
  unfold parse_signed in Hp. destruct (parse_uint (a :: l)) as [n|] eqn:Hn; [|done].
  case_bool_decide; [|done]. injection Hp as <-. by apply digits_decimal.
Qed.

Lemma cut_digits x y : Forall (λ a, is_digit a = true) (chars x) →
  cut (x +:+ "-" +:+ y) "-" = Some (x, y).
Proof.
  intros Hx. unfold cut. rewrite !chars_app.
  assert (cut_l (chars "-") (chars x ++ chars "-" ++ chars y) = Some (chars x, chars y)) as ->.
  2:{ by rewrite !of_chars_chars. }
  induction Hx as [|a l Ha _ IH]; [done|]. cbn [app cut_l chars] in *.
  cbn [drop_prefix_l]. rewrite bool_decide_false by (by intros <-). by rewrite IH.
Qed.

(** On plain values the code's test is the chart's. *)
Lemma parsed_plain value start end_ : plain_ends value →
  parsed_range value start end_ ↔ port_range value start end_.
Proof.
  intros [Hplus Hlen]. split.
  - intros (rs & re & Hc & Hs & He & Hle & Hmax). pose proof (cut_sound _ _ _ _ Hc) as ->.
    destruct (Hlen _ _ Hc). rewrite !chars_app in Hplus. exists rs, re.
    split_and!; [done..| | |lia|lia|done]; (apply parse_decimal; [done|lia|set_solver]).
  - intros (rs & re & -> & _ & _ & Hs & He & Hle & Hmax). exists rs, re.
    pose proof (decimal_digits _ _ Hs) as (_ & _ & Hd).
    split_and!; [by apply cut_digits| | |lia|lia|done]; (apply decimal_parse; [done|lia]).
Qed.

Section lemmas.
Context `{UnicodeTables}.
Context (lookup : string → option string).

Lemma requiredEnv_ok key v : requiredEnv lookup key = Ok v →
  env_set lookup key ∧ v ≠ "" ∧ trim_space v = v.
Proof.
  unfold requiredEnv, env_set. destruct (lookup key) as [value|]; [|done].
  destruct (blank value) eqn:Hb; [done|]. intros [= <-]. split; [by exists value|].
  split; [by apply blank_false in Hb|apply trim_space_idem].
Qed.

Lemma requiredEnv_set key : env_set lookup key → ∃ v, requiredEnv lookup key = Ok v.
Proof. intros (value & Hl & Hb). unfold requiredEnv. rewrite Hl, Hb. by eexists. Qed.

Lemma optionalPortRangeEnv_ok key v : optionalPortRangeEnv lookup key = Ok v →
  v = optionalEnv lookup key "" ∧ (v = "" ∨ ∃ start end_, parsed_range v start end_).
Proof.
  unfold optionalPortRangeEnv. set (value := optionalEnv lookup key "").
  case_bool_decide as Hv; [intros [= <-]; split; [done|by left]|].
  destruct (cut value "-") as [[rs re]|] eqn:Hc; [|done].
  destruct (parse_int rs) as [start|] eqn:Hs; [|done].
  destruct (parse_int re) as [end_|] eqn:He; [|done].
  destruct (_ || _) eqn:Hb; [done|]. intros [= <-]. split; [done|]. right.
  apply orb_false_iff in Hb as [[H1 H2]%orb_false_iff H3].
  exists start, end_, rs, re. split_and!; try done; lia.
Qed.

Lemma optionalPortRangeEnv_accepts key start end_ :
  parsed_range (optionalEnv lookup key "") start end_ →
  optionalPortRangeEnv lookup key = Ok (optionalEnv lookup key "").
Proof.
  unfold optionalPortRangeEnv. intros (rs & re & Hc & Hs & He & Hle & Hmax).
  case_bool_decide as Hv; [by rewrite Hv|]. rewrite Hc, Hs, He.
  destruct (_ || _) eqn:Hb; [|done].
  apply orb_true_iff in Hb as [[Hb|Hb]%orb_true_iff|Hb]; lia.
Qed.

Lemma optionalEnv_fields key fallback : fallback ≠ "" → trim_space fallback = fallback →
  optionalEnv lookup key fallback ≠ "" ∧
  trim_space (optionalEnv lookup key fallback) = optionalEnv lookup key fallback.
Proof.
  intros Hne Ht. unfold optionalEnv. destruct (lookup key) as [value|]; [|done].
  destruct (blank value) eqn:Hb; [done|].
  split; [by apply blank_false in Hb|apply trim_space_idem].
Qed.

Lemma configFromLookup_fields c : configFromLookup lookup = Ok c →
  (∀ field, field ∈ never_empty → field c ≠ "" ∧ trim_space (field c) = field c) ∧
  c_PortRange c = optionalEnv lookup EnvThunderPortRange "" ∧
  (c_PortRange c = "" ∨ ∃ start end_, parsed_range (c_PortRange c) start end_).
Proof.
  unfold configFromLookup, mbind, result_bind. intros Hc.
  destruct (requiredEnv lookup EnvNode) as [node|] eqn:H1; [|done].
  destruct (requiredEnv lookup EnvMinNVDriverVersion) as [ver|] eqn:H2; [|done].
  destruct (requiredEnv lookup EnvThunderAPIToken) as [tok|] eqn:H3; [|done].
  destruct (optionalBoolEnv _ _ _) as [dra|]; [|done].
  destruct (optionalPortRangeEnv _ _) as [range|] eqn:H4; [|done].
  injection Hc as <-.
  apply requiredEnv_ok in H1 as [_ ?], H2 as [_ ?], H3 as [_ ?].
  apply optionalPortRangeEnv_ok in H4. split; [|done].
  apply list.Forall_forall.
  repeat (apply Forall_cons_2; [first [done | by apply optionalEnv_fields]|]). by apply Forall_nil.
Qed.
End lemmas.

Section theorems.
Context `{UnicodeTables}.
Context (lookup : string → option string).

(** C40: unless an end of THUNDER_PORT_RANGE has a plus sign or more than five
    digits, a configuration is accepted exactly when the node name, the minimum
    driver version and the API token are set, DRA_ENABLED is unset or a
    boolean and THUNDER_PORT_RANGE is unset or two ports in decimal digits,
    joined by a dash, in order and within 1 to 65535.  In an accepted
    configuration the required values and those that have a default are never
    empty or padded, and the port range is empty or such a range. *)
Theorem configFromLookup_spec : plain_ends (optionalEnv lookup EnvThunderPortRange "") →
  (is_ok (configFromLookup lookup) = true ↔
    env_set lookup EnvNode ∧ env_set lookup EnvMinNVDriverVersion ∧
    env_set lookup EnvThunderAPIToken ∧
    (env_set lookup EnvDRAEnabled →
      ∃ v b, lookup EnvDRAEnabled = Some v ∧ parse_bool (trim_space v) = Some b) ∧
    (env_set lookup EnvThunderPortRange →
      ∃ start end_, port_range (optionalEnv lookup EnvThunderPortRange "") start end_)) ∧
  ∀ c, configFromLookup lookup = Ok c →
    (∀ field, field ∈ never_empty → field c ≠ "" ∧ trim_space (field c) = field c) ∧
    (c_PortRange c = "" ∨ ∃ start end_, port_range (c_PortRange c) start end_).
Proof.
  intros Hplain. split.
  2:{ intros c (Hf & Hp & Hr)%configFromLookup_fields. split; [done|]. rewrite <-Hp in Hplain.
    destruct Hr as [?|(start & end_ & Hr)]; [by left|right]. exists start, end_. by apply parsed_plain. }
  assert (is_ok (optionalBoolEnv lookup EnvDRAEnabled DefaultDRAEnabled) = true ↔
    (env_set lookup EnvDRAEnabled →
      ∃ v b, lookup EnvDRAEnabled = Some v ∧ parse_bool (trim_space v) = Some b)) as Hbool.
  { unfold optionalBoolEnv, env_set. destruct (lookup EnvDRAEnabled) as [v|]; [|by split; [intros _ (?&?&?)|]].
    destruct (blank v) eqn:Hb; [split; [|done]|].
    - intros _ (v' & [= <-] & Hv). congruence.
    - destruct (parse_bool (trim_space v)) as [b|] eqn:Hp; cbn.
      + split; [|done]. intros _ _. by exists v, b.
      + split; [done|]. intros (v' & b & [= <-] & Hb'); [by exists v|]. congruence. }
  assert (is_ok (optionalPortRangeEnv lookup EnvThunderPortRange) = true ↔
    (env_set lookup EnvThunderPortRange →
      ∃ start end_, port_range (optionalEnv lookup EnvThunderPortRange "") start end_)) as Hport.
  { split.
    - intros Hok (v & Hl & Hb). destruct (optionalPortRangeEnv _ _) as [p|] eqn:Hp; [|done].
      apply optionalPortRangeEnv_ok in Hp as [-> [Hempty|(start & end_ & Hr)]];
        [|exists start, end_; by apply parsed_plain].
      unfold optionalEnv in Hempty. rewrite Hl, Hb in Hempty. by apply blank_false in Hb.
    - intros Hr. destruct (decide (optionalEnv lookup EnvThunderPortRange "" = "")) as [He|He].
      + unfold optionalPortRangeEnv. by rewrite He, bool_decide_true.
      + destruct Hr as (start & end_ & Hr).
        { unfold optionalEnv, env_set in *. destruct (lookup EnvThunderPortRange) as [v|]; [|done].
          exists v. split; [done|]. by destruct (blank v). }
        apply (parsed_plain _ _ _ Hplain) in Hr. by rewrite (optionalPortRangeEnv_accepts _ _ _ _ Hr). }
  unfold configFromLookup, mbind, result_bind. rewrite <-Hbool, <-Hport. clear Hbool Hport.
  destruct (requiredEnv lookup EnvNode) as [node|] eqn:H1.
  2:{ split; [done|]. intros (Hs & _). by apply requiredEnv_set in Hs as [? Hs]; rewrite H1 in Hs. }
  destruct (requiredEnv lookup EnvMinNVDriverVersion) as [ver|] eqn:H2.
  2:{ split; [done|]. intros (_ & Hs & _). by apply requiredEnv_set in Hs as [? Hs]; rewrite H2 in Hs. }
  destruct (requiredEnv lookup EnvThunderAPIToken) as [tok|] eqn:H3.
  2:{ split; [done|]. intros (_ & _ & Hs & _). by apply requiredEnv_set in Hs as [? Hs]; rewrite H3 in Hs. }
  apply requiredEnv_ok in H1 as [? _], H2 as [? _], H3 as [? _].
  destruct (optionalBoolEnv _ _ _); [|naive_solver].
  destruct (optionalPortRangeEnv _ _); naive_solver.
Qed.
End theorems.

Section witnesses.
#[local] Existing Instance ascii_tables.

(** A range both of whose ends carry a sign is accepted as it is. *)
Example signed_range_accepted :
  optionalPortRangeEnv (λ _, Some "+80-+90") "THUNDER_PORT_RANGE" = Ok "+80-+90".
Proof. reflexivity. Qed.

Lemma configFromLookup_spec_witness :
  is_ok (configFromLookup sample_env) = true ∧
  ∃ start end_, port_range "32000-32199" start end_.
Proof.
  assert (plain_ends (optionalEnv sample_env EnvThunderPortRange "")) as Hplain.
  { split; [apply (bool_decide_eq_true_1 (_ ∉ _)); vm_compute; reflexivity|].
    intros a b Hc. vm_compute in Hc. injection Hc as <- <-. vm_compute. split; repeat constructor. }
  assert (is_ok (configFromLookup sample_env) = true) as Hok by (vm_compute; reflexivity).
  split; [exact Hok|].
  destruct (configFromLookup_spec sample_env Hplain) as [Hspec _].
  apply Hspec in Hok as (_ & _ & _ & _ & Hr). apply Hr.
  exists "32000-32199". split; vm_compute; reflexivity.
Defined.

Example sample_config_ok :
  (λ c, (c_Node c, c_Zone c, c_PortRange c, c_DRAEnabled c)) <$>
    match configFromLookup sample_env with Ok c => Some c | Err _ => None end =
  Some ("node-1", "", "32000-32199", true).
Proof. vm_compute. reflexivity. Qed.
End witnesses.
