(* ===== verification/GoPath.v ===== *)
(** * Slash-separated paths

    What the daemon uses of path/filepath, and internal/daemon/nvidia.go's
    resolution of a node's paths under the mounted host root. *)

From S2P Require Import Prelude GoStrings.

Definition slash : ascii := "/"%char.

(** One path element of [filepath.Clean], over the elements kept so far, the
    last one first. *)
Definition clean_step (rooted : bool) (kept : list string) (elem : string) : list string :=
  if bool_decide (elem = "") || bool_decide (elem = ".") then kept
  else if bool_decide (elem = "..") then
    match kept with
    | top :: rest => if bool_decide (top = "..") then elem :: kept else rest
    | [] => if rooted then [] else [elem]
    end
  else elem :: kept.

(** [filepath.IsAbs] on Unix. *)
Definition path_IsAbs (path : string) : bool := has_prefix path "/".

Definition clean_elems (path : string) : list string :=
  reverse (foldl (clean_step (path_IsAbs path)) [] (split path slash)).

(** [filepath.Clean]. *)
Definition path_Clean (path : string) : string :=
  let body := join (clean_elems path) "/" in
  if path_IsAbs path then "/" +:+ body
  else if bool_decide (body = "") then "." else body.

(** [filepath.Join]: leading empty elements are skipped. *)
Fixpoint path_Join (elems : list string) : string :=
  match elems with
  | [] => ""
  | e :: rest => if bool_decide (e = "") then path_Join rest else path_Clean (join elems "/")
  end.

(** [filepath.Base]: the last element, without trailing slashes. *)
Definition path_Base (path : string) : string :=
  if bool_decide (path = "") then "."
  else
    let stripped := trim_right_byte slash path in
    if bool_decide (stripped = "") then "/" else default "" (last (split stripped slash)).

Definition resolveNodePath (hostRoot nodePath : string) : string :=
  let cleanNodePath := path_Clean nodePath in
  if bool_decide (hostRoot = "") || bool_decide (hostRoot = "/") || negb (path_IsAbs cleanNodePath)
  then cleanNodePath
  else path_Join [hostRoot; trim_prefix cleanNodePath "/"].

(** The elements of a path. *)
Definition components (path : string) : list string :=
  filter (λ e, e ≠ "") (split path slash).

(** An element that names an entry of the directory before it. *)
Definition plain (elem : string) : Prop :=
  elem ≠ "" ∧ elem ≠ "." ∧ elem ≠ ".." ∧ slash ∉ chars elem.
#[global] Instance plain_dec elem : Decision (plain elem).
Proof. unfold plain. apply _. Defined.

(* -------------------------------------------------------------------- *)
(** ** Lemmas *)

Lemma split_l_nonempty c l : split_l c l ≠ [].
Proof. destruct l as [|a l]; [done|]. cbn. case_bool_decide; [done|]. by destruct (split_l c l). Qed.

Lemma split_app_slash a b : split (a +:+ "/" +:+ b) slash = split a slash ++ split b slash.
Proof.
  unfold split. rewrite !chars_app. change (chars "/") with [slash]. rewrite <-fmap_app. f_equal.
  induction (chars a) as [|x l IH]; [done|]. cbn [app split_l]. cbn [app] in IH. rewrite IH.
  case_bool_decide; [done|]. pose proof (split_l_nonempty slash l). by destruct (split_l slash l).
Qed.

Lemma split_no_slash a e : e ∈ split a slash → slash ∉ chars e.
Proof.
  unfold split. rewrite list_elem_of_fmap. intros (l & -> & Hl). rewrite chars_of_chars.
  revert l Hl. induction (chars a) as [|x t IH]; cbn [split_l]; intros l.
  { rewrite list_elem_of_singleton. by intros ->; apply not_elem_of_nil. }
  case_bool_decide as Hx.
  { rewrite elem_of_cons. intros [->|Hl]; [by apply not_elem_of_nil|by apply IH]. }
  destruct (split_l slash t) as [|y ys].
  { rewrite list_elem_of_singleton. by intros ->; rewrite elem_of_cons, elem_of_nil; intros [?|?]. }
  rewrite elem_of_cons. intros [->|Hl]; [|apply IH; by right].
  rewrite not_elem_of_cons. split; [congruence|]. apply IH. by left.
Qed.

Lemma split_plain e : slash ∉ chars e → split e slash = [e].
Proof. intros He. unfold split. rewrite split_l_none by done. cbn. by rewrite of_chars_chars. Qed.

Lemma components_join elems : Forall plain elems → components (join elems "/") = elems.
Proof.
  unfold components. induction elems as [|e rest IH]; [done|].
  intros [(Hne & _ & _ & Hs) Hrest]%Forall_cons. destruct rest as [|e' rest'].
  { change (join [e] "/") with e. rewrite split_plain by done. by rewrite filter_cons_True. }
  specialize (IH Hrest). change (join (e :: e' :: rest') "/") with (e +:+ "/" +:+ join (e' :: rest') "/").
  rewrite split_app_slash, filter_app, IH, split_plain by done. by rewrite filter_cons_True.
Qed.

Lemma components_rooted p : components ("/" +:+ p) = components p.
Proof.
  unfold components. change ("/" +:+ p) with ("" +:+ "/" +:+ p). by rewrite split_app_slash.
Qed.

Lemma has_prefix_slash p : path_IsAbs p = true ↔ ∃ q, p = "/" +:+ q.
Proof.
  unfold path_IsAbs, has_prefix. rewrite bool_decide_eq_true. split.
  - intros [r Hr]. apply drop_prefix_l_spec in Hr. exists (of_chars r).
    apply chars_inj. by rewrite chars_app, chars_of_chars.
  - intros [q ->]. exists (chars q). apply drop_prefix_l_spec. by rewrite chars_app.
Qed.

(** The kept elements of a rooted path. *)
Lemma clean_step_plain kept elem : slash ∉ chars elem →
  Forall plain kept → Forall plain (clean_step true kept elem).
Proof.
  intros Hs Hk. unfold clean_step. repeat case_bool_decide; cbn [orb]; try done.
  - destruct kept as [|top rest]; [done|]. apply Forall_cons in Hk as [(? & ? & ? & ?) Hk].
    by rewrite bool_decide_false.
  - constructor; [|done]. by split_and!.
Qed.

Lemma foldl_clean_plain kept l : Forall (λ e, slash ∉ chars e) l →
  Forall plain kept → Forall plain (foldl (clean_step true) kept l).
Proof.
  revert kept. induction l as [|e l IH]; intros kept; [done|]. intros [He Hl]%Forall_cons Hk.
  apply IH; [done|]. by apply clean_step_plain.
Qed.

Lemma clean_elems_plain p : path_IsAbs p = true → Forall plain (clean_elems p).
Proof.
  intros Hp. unfold clean_elems. rewrite Hp. apply Forall_reverse, foldl_clean_plain; [|done].
  apply list.Forall_forall. intros e. apply split_no_slash.
Qed.

Lemma clean_abs p : path_IsAbs p = true → path_Clean p = "/" +:+ join (clean_elems p) "/".
Proof. intros Hp. unfold path_Clean. by rewrite Hp. Qed.

Lemma components_clean p : path_IsAbs p = true → components (path_Clean p) = clean_elems p.
Proof.
  intros Hp. rewrite clean_abs by done. rewrite components_rooted.
  by apply components_join, clean_elems_plain.
Qed.

(** Elements that are plain are pushed, empty ones skipped. *)
Lemma foldl_clean_push kept l : Forall plain (filter (λ e, e ≠ "") l) →
  foldl (clean_step true) kept l = reverse (filter (λ e, e ≠ "") l) ++ kept.
Proof.
  revert kept. induction l as [|e l IH]; intros kept Hl; [done|]. cbn [foldl].
  destruct (decide (e = "")) as [->|He].
  { rewrite filter_cons_False in * by (by intros []). by apply IH. }
  rewrite filter_cons_True in * by done. apply Forall_cons in Hl as [(? & ? & ? & ?) Hl].
  rewrite IH by done. unfold clean_step. rewrite !bool_decide_false by done. cbn [orb].
  by rewrite reverse_cons, <-app_assoc.
Qed.

Lemma clean_elems_join root rest : path_IsAbs root = true → Forall plain (components rest) →
  clean_elems (root +:+ "/" +:+ rest) = clean_elems root ++ components rest.
Proof.
  intros Hr Hp. assert (path_IsAbs (root +:+ "/" +:+ rest) = true) as Ha.
  { apply has_prefix_slash in Hr as [q ->]. apply has_prefix_slash. by eexists. }
  unfold clean_elems. rewrite Ha, Hr, split_app_slash, foldl_app, foldl_clean_push by done.
  by rewrite reverse_app, reverse_involutive.
Qed.

Lemma trim_prefix_slash q : trim_prefix ("/" +:+ q) "/" = q.
Proof.
  unfold trim_prefix. assert (drop_prefix_l (chars "/") (chars ("/" +:+ q)) = Some (chars q)) as ->.
  { apply drop_prefix_l_spec. by rewrite chars_app. }
  apply of_chars_chars.
Qed.

Lemma resolve_components hostRoot nodePath :
  path_IsAbs hostRoot = true → path_IsAbs nodePath = true →
  path_IsAbs (resolveNodePath hostRoot nodePath) = true ∧
  components (resolveNodePath hostRoot nodePath) =
    components (path_Clean hostRoot) ++ components (path_Clean nodePath).
Proof.
  intros Hr Hn. rewrite !components_clean by done.
  pose proof (clean_elems_plain _ Hn) as Hpl. unfold resolveNodePath.
  assert (path_IsAbs (path_Clean nodePath) = true) as ->.
  { rewrite clean_abs by done. apply has_prefix_slash. by eexists. }
  cbn [negb]. rewrite orb_false_r. case_bool_decide as H1; [by subst|].
  case_bool_decide as H2; cbn [orb].
  { subst. split; [|by rewrite components_clean]. rewrite clean_abs by done.
    apply has_prefix_slash. by eexists. }
  rewrite (clean_abs nodePath), trim_prefix_slash by done. cbn [path_Join].
  rewrite bool_decide_false by done.
  change (join [hostRoot; ?x] "/") with (hostRoot +:+ "/" +:+ x).
  pose proof (components_join _ Hpl) as Hc.
  assert (path_IsAbs (hostRoot +:+ "/" +:+ join (clean_elems nodePath) "/") = true) as Ha.
  { apply has_prefix_slash in Hr as [q ->]. apply has_prefix_slash. by eexists. }
  rewrite components_clean, clean_elems_join, Hc by (done || by rewrite Hc). split; [|done].
  rewrite clean_abs by done. apply has_prefix_slash. by eexists.
Qed.

(** Joining an absolute path and one more element. *)
Lemma join_snoc l e sep : l ≠ [] → join (l ++ [e]) sep = join l sep +:+ sep +:+ e.
Proof.
  induction l as [|x l IH]; [done|]. intros _. destruct l as [|y l]; [done|].
  specialize (IH ltac:(done)). unfold join in *. cbn [app String.concat] in *. rewrite IH.
  by rewrite !string_app_assoc.
Qed.

Lemma clean_elems_rooted elems : Forall plain elems →
  clean_elems ("/" +:+ join elems "/") = elems.
Proof.
  intros Hp. pose proof (components_join _ Hp) as Hc. unfold components in Hc.
  set (body := join elems "/") in *. clearbody body.
  assert (path_IsAbs ("/" +:+ body) = true) as Hab by (apply has_prefix_slash; by eexists).
  unfold clean_elems. rewrite Hab. change ("/" +:+ body) with ("" +:+ "/" +:+ body).
  rewrite split_app_slash, foldl_app. change (split "" slash) with [""].
  change (foldl (clean_step true) [] [""]) with (@nil string).
  rewrite foldl_clean_push by (by rewrite Hc). by rewrite Hc, app_nil_r, reverse_involutive.
Qed.

Lemma path_Join_plain root e : path_IsAbs root = true → plain e →
  path_IsAbs (path_Join [root; e]) = true ∧
  clean_elems (path_Join [root; e]) = clean_elems root ++ [e] ∧
  path_Join [root; e] = "/" +:+ join (clean_elems root ++ [e]) "/".
Proof.
  intros Hr He. assert (root ≠ "") as Hne by (by intros ->).
  assert (components e = [e]) as Hc.
  { destruct He as (? & _ & _ & ?). unfold components. rewrite split_plain by done.
    by rewrite filter_cons_True. }
  assert (path_IsAbs (root +:+ "/" +:+ e) = true) as Ha.
  { apply has_prefix_slash in Hr as [q ->]. apply has_prefix_slash. by eexists. }
  assert (clean_elems (root +:+ "/" +:+ e) = clean_elems root ++ [e]) as Hel.
  { rewrite clean_elems_join, Hc; [done|done|]. rewrite Hc. by constructor. }
  cbn [path_Join]. rewrite bool_decide_false by done.
  change (join [root; e] "/") with (root +:+ "/" +:+ e). rewrite clean_abs, Hel by done.
  assert (path_IsAbs ("/" +:+ join (clean_elems root ++ [e]) "/") = true) as Hab
    by (apply has_prefix_slash; by eexists).
  split_and!; [done| |done]. apply clean_elems_rooted, Forall_app.
  split; [by apply clean_elems_plain|by constructor].
Qed.

(** The same for a path of several elements. *)
Lemma path_Join_elems root rest : path_IsAbs root = true → rest ≠ "" → Forall plain (components rest) →
  path_IsAbs (path_Join [root; rest]) = true ∧
  clean_elems (path_Join [root; rest]) = clean_elems root ++ components rest ∧
  path_Join [root; rest] = "/" +:+ join (clean_elems root ++ components rest) "/".
Proof.
  intros Hr Hne Hp. assert (root ≠ "") as Hroot by (by intros ->).
  assert (path_IsAbs (root +:+ "/" +:+ rest) = true) as Ha.
  { apply has_prefix_slash in Hr as [q ->]. apply has_prefix_slash. by eexists. }
  cbn [path_Join]. rewrite bool_decide_false by done.
  change (join [root; rest] "/") with (root +:+ "/" +:+ rest).
  rewrite clean_abs, clean_elems_join by done. split_and!; [|by apply clean_elems_rooted, Forall_app;
    split; [apply clean_elems_plain|]|done].
  apply has_prefix_slash. by eexists.
Qed.

Lemma path_Join_last root e : path_IsAbs root = true → plain e →
  ∃ pre, path_Join [root; e] = pre +:+ e.
Proof.
  intros Hr He. pose proof (path_Join_plain _ _ Hr He) as (_ & _ & ->).
  destruct (clean_elems root) as [|x l]; [by exists "/"|].
  rewrite join_snoc by done. exists ("/" +:+ join (x :: l) "/" +:+ "/"). by rewrite !string_app_assoc.
Qed.

Lemma path_Join_inj root e1 e2 : path_IsAbs root = true → plain e1 → plain e2 →
  path_Join [root; e1] = path_Join [root; e2] → e1 = e2.
Proof.
  intros Hr H1 H2 Heq. pose proof (path_Join_plain _ _ Hr H1) as (_ & Hc1 & _).
  pose proof (path_Join_plain _ _ Hr H2) as (_ & Hc2 & _).
  rewrite Heq, Hc2 in Hc1. by apply app_inj_tail in Hc1 as [_ ?].
Qed.

Lemma path_Join_two root e1 e2 : path_IsAbs root = true → plain e1 → plain e2 →
  path_Join [path_Join [root; e1]; e2] = path_Join [root; e1] +:+ "/" +:+ e2.
Proof.
  intros Hr H1 H2. pose proof (path_Join_plain _ _ Hr H1) as (Ha & He & Hj).
  pose proof (path_Join_plain _ _ Ha H2) as (_ & _ & ->). rewrite He, join_snoc, Hj.
  - by rewrite string_app_assoc.
  - by destruct (clean_elems root).
Qed.

(* -------------------------------------------------------------------- *)
(** ** Theorems *)

(** A node path never leaves the host root it is resolved under: the
    resolved path is the cleaned root followed by the cleaned node path,
    element by element, and no element of it is empty, a dot, a double dot,
    or holds a slash, whatever double dots the two paths came with. *)
Theorem resolveNodePath_contained hostRoot nodePath :
  path_IsAbs hostRoot = true → path_IsAbs nodePath = true →
  path_IsAbs (resolveNodePath hostRoot nodePath) = true ∧
  components (resolveNodePath hostRoot nodePath) =
    components (path_Clean hostRoot) ++ components (path_Clean nodePath) ∧
  Forall plain (components (resolveNodePath hostRoot nodePath)).
Proof.
  intros Hr Hn. pose proof (resolve_components _ _ Hr Hn) as [Ha Hc]. split_and!; [done..|].
  rewrite Hc, !components_clean by done. apply Forall_app. eauto using clean_elems_plain.
Qed.

Lemma resolveNodePath_contained_witness :
  path_IsAbs "/host/" = true ∧
  resolveNodePath "/host/" "/../../usr/./lib//libcuda.so.1" = "/host/usr/lib/libcuda.so.1" ∧
  Forall plain (components (resolveNodePath "/host/" "/../../usr/./lib//libcuda.so.1")).
Proof.
  split_and!; [reflexivity..|].
  by apply (resolveNodePath_contained "/host/" "/../../usr/./lib//libcuda.so.1").
Defined.

Example clean_examples :
  (path_Clean "", path_Clean "a/../..", path_Clean "/..", path_Base "/usr/bin/", path_Join [""; "a"; ""])
  = (".", "..", "/", "bin", "a").
Proof. reflexivity. Qed.
