(* ===== verification/OS.v ===== *)
(** * Daemon: the calls of processes on the node

    What store.go's CDI store, cdihook.go, clientconfig.go and libthunder.go
    call: package os, advisory locks, HTTP, the clock and random numbers; the
    helpers over them that take a lock and that publish a file by renaming it;
    and a node with files and a network, the environment of the theorems on
    what is left behind.  Every theorem about failures quantifies over
    arbitrary replies instead. *)

From S2P Require Import Prelude GoStrings GoPath.

Record file_info := FileInfo { fi_IsDir : bool; fi_Size : Z }.

(** A request, and the response's status; its body is read by calls. *)
Record http_request := HTTPRequest {
  rq_Method : string;
  rq_URL : string;
  rq_Headers : list (string * string);
  rq_Body : string
}.
Record http_status := HTTPStatus { st_Code : Z; st_Text : string }.

(** A temporary file is known by its name.  [CopyTemp] is io.Copy from the
    opened source to the temporary file; [ReadBody] and [CopyBody] read at most
    [limit] bytes of the last response's body, into memory or also into a
    temporary file; [NewRequest] checks a request before it is sent;
    [TimeLeft] is the time to the context's deadline; [After]
    waits, and is true when the context is done first; [Rand n] is an integer
    from 0 to n-1. *)
Inductive os_ev :=
  | MkdirAll (path : string) (mode : Z)
  | ReadFile (path : string)
  | WriteFile (path data : string) (mode : Z)
  | Remove (path : string)
  | RemoveAll (path : string)
  | Rename (old new : string)
  | Stat (path : string)
  | Lstat (path : string)
  | Open (path : string)
  | CreateTemp (dir pattern : string)
  | WriteTemp (name data : string)
  | CopyTemp (source name : string)
  | CloseTemp (name : string)
  | Chmod (name : string) (mode : Z)
  | OpenLock (path : string)
  | Flock (path : string)
  | Unlock (path : string)
  | Executable
  | NewRequest (request : http_request)
  | HTTPDo (request : http_request)
  | ReadBody (limit : Z)
  | CopyBody (limit : Z) (name : string)
  | TimeLeft
  | After (delay : Z)
  | Rand (n : Z).
Definition os_resp (e : os_ev) : Type :=
  match e with
  | ReadFile _ | CreateTemp _ _ | Executable | ReadBody _ | CopyBody _ _ => result string
  | Stat _ | Lstat _ => result file_info
  | HTTPDo _ => result http_status
  | TimeLeft => option Z
  | After _ => bool
  | Rand _ => Z
  | Unlock _ => unit
  | _ => result unit
  end.
Definition os_sig : sig := Sig os_ev os_resp.
Definition ocall (e : os_ev) : prog os_sig (os_resp e) := call (S:=os_sig) e.
Definition oev (e : os_ev) (r : os_resp e) : event os_sig := Ev (S:=os_sig) e r.

(** The predicate of package os on its errors. *)
Class FileErrors := { os_IsNotExist : error → bool }.

(** What io.LimitReader lets through. *)
Definition limited (limit : Z) (s : string) : string :=
  if (Z.of_nat (String.length s) <=? limit)%Z then s else take_bytes (Z.to_nat limit) s.

(** [filepath.Dir]. *)
Definition path_Dir (path : string) : string :=
  path_Clean (of_chars (reverse (drop_while (λ a, negb (bool_decide (a = slash))) (reverse (chars path))))).

(* -------------------------------------------------------------------- *)
(** ** Locks and atomic writes (cdihook.go) *)

Definition thunderLockFile : string := "stage.lock".

(** [lockFile]: the release it returns is [Unlock path]. *)
Definition lockFile (path what : string) : prog os_sig (result unit) :=
  let? _ := ocall (OpenLock path) or wrap ("open " +:+ what +:+ " lock") in
  let? _ := ocall (Flock path) or wrap ("lock " +:+ what) in
  mret (Ok tt).

Definition lock_path (stateDir : string) : string := path_Join [stateDir; thunderLockFile].

Definition lockStateDir (stateDir : string) : prog os_sig (result unit) :=
  let? _ := ocall (MkdirAll stateDir 448) or wrap "create claim state dir" in
  lockFile (lock_path stateDir) "claim state".

(** What [copyFile] and [writeFileAtomic] share: a temporary file beside the
    target is filled, closed, given its mode and renamed; in every case its
    name is removed at the end. *)
Definition publish_temp (target : string) (mode : Z) (fill : string → prog os_sig (result unit))
    : prog os_sig (result unit) :=
  let? tempName := ocall (CreateTemp (path_Dir target) ".stage-*") or id in
  done ←
    (r ← fill tempName;
     match r with
     | Err e => _ ← ocall (CloseTemp tempName); mret (Err e)
     | Ok _ =>
         let? _ := ocall (CloseTemp tempName) or id in
         let? _ := ocall (Chmod tempName mode) or id in
         ocall (Rename tempName target)
     end);
  _ ← ocall (Remove tempName);
  mret done.

Definition copyFile (source target : string) (mode : Z) : prog os_sig (result unit) :=
  let? _ := ocall (Open source) or id in
  publish_temp target mode (λ tempName, ocall (CopyTemp source tempName)).

Definition writeFileAtomic (target data : string) (mode : Z) : prog os_sig (result unit) :=
  publish_temp target mode (λ tempName, ocall (WriteTemp tempName data)).

Lemma wp_ocall {B} (G : list (event os_sig) → ev os_sig → Prop) pre (e : os_ev)
    (f : os_resp e → prog os_sig B) Q :
  G pre e → (∀ r, wp G (pre ++ [oev e r]) (f r) Q) → wp G pre (ocall e ≫= f) Q.
Proof. apply (wp_call_bind (S:=os_sig)). Qed.

(* -------------------------------------------------------------------- *)
(** ** A node's file system and its network *)

Class FileServerErrors `{FileErrors} := {
  not_exist_error : error;
  not_exist_error_is : os_IsNotExist not_exist_error = true
}.

(** The files by path; the locks that are held; the requests made so far, the
    last one first, and the body of the last response.  Directories are implied
    by the files under them. *)
Record fs := FS {
  fs_files : gmap string string;
  fs_locks : gset string;
  fs_requests : list http_request;
  fs_body : string
}.

Definition below (dir path : string) : Prop := has_prefix path (dir +:+ "/") = true.
#[global] Instance below_dec dir path : Decision (below dir path).
Proof. unfold below. apply _. Defined.

(** The paths [RemoveAll dir] removes. *)
Definition inside (dir path : string) : Prop := path = dir ∨ below dir path.
#[global] Instance inside_dec dir path : Decision (inside dir path).
Proof. unfold inside. apply _. Defined.

Definition set_files (f : gmap string string → gmap string string) (w : fs) : fs :=
  FS (f (fs_files w)) (fs_locks w) (fs_requests w) (fs_body w).
Definition set_locks (f : gset string → gset string) (w : fs) : fs :=
  FS (fs_files w) (f (fs_locks w)) (fs_requests w) (fs_body w).
(** A name longer than any that is taken. *)
Definition temp_name (prefix : string) (w : fs) : string :=
  let longest := foldr max 0%nat (String.length <$> elements (dom (fs_files w))) in
  prefix +:+ of_chars (replicate (S longest) "0"%char).

(** The names a temporary file can have, by [".stage-*"]. *)
Definition temporary (p : string) : Prop :=
  ∃ dir n, p = (dir +:+ "/.stage-") +:+ of_chars (replicate (S n) "0"%char).

Lemma temp_name_temporary dir w : temporary (temp_name (dir +:+ "/.stage-") w).
Proof. by eexists _, _. Qed.

(** A path with another last byte is none of them. *)
Lemma not_temporary p : last (chars p) ≠ Some "0"%char → ¬ temporary p.
Proof.
  intros Hp (dir & n & ->). apply Hp.
  by rewrite chars_app, chars_of_chars, replicate_S_end, app_assoc, last_snoc.
Qed.

(** The server at the other end answers a request by those before it. *)
Section file_system.
Context `{FileServerErrors} (net : list http_request → http_request → result (http_status * string)).

(** The answer of a call that is refused; a failing write leaves part of the
    data behind. *)
Definition refused (e : os_ev) (err : error) : os_resp e :=
  match e return os_resp e with
  | ReadFile _ | CreateTemp _ _ | Executable | ReadBody _ | CopyBody _ _
  | Stat _ | Lstat _ | HTTPDo _ => Err err
  | TimeLeft => None
  | After _ => true
  | Rand _ => 0%Z
  | Unlock _ => tt
  | _ => Err err
  end.
Definition refused_effect (e : os_ev) (w : fs) : fs :=
  match e with
  | WriteFile path data _ | WriteTemp path data => set_files <[path := take_bytes 1 data]> w
  | _ => w
  end.

Definition missing_or {A} (f : string → result A) (path : string) (w : fs) : result A :=
  match fs_files w !! path with Some data => f data | None => Err not_exist_error end.

Definition serve_file (e : os_ev) (w : fs) : os_resp e * fs :=
  match e return os_resp e * fs with
  | MkdirAll _ _ => (Ok tt, w)
  | ReadFile path => (missing_or Ok path w, w)
  | WriteFile path data _ | WriteTemp path data => (Ok tt, set_files <[path := data]> w)
  | Remove path => (missing_or (λ _, Ok tt) path w, set_files (delete path) w)
  | RemoveAll path =>
      (Ok tt, set_files (λ files, filter (λ p, ¬ inside path p.1) files) w)
  | Rename old new =>
      match fs_files w !! old with
      | Some data => (Ok tt, set_files (λ files, <[new := data]> (delete old files)) w)
      | None => (Err not_exist_error, w)
      end
  | Stat path | Lstat path =>
      (missing_or (λ data, Ok (FileInfo false (Z.of_nat (String.length data)))) path w, w)
  | Open path => (missing_or (λ _, Ok tt) path w, w)
  | CreateTemp dir _ =>
      let name := temp_name (dir +:+ "/.stage-") w in
      (Ok name, set_files <[name := ""]> w)
  | CopyTemp source name =>
      match fs_files w !! source with
      | Some data => (Ok tt, set_files <[name := data]> w)
      | None => (Err not_exist_error, w)
      end
  | CloseTemp _ | Chmod _ _ | OpenLock _ => (Ok tt, w)
  | Flock path => (Ok tt, set_locks (λ locks, {[path]} ∪ locks) w)
  | Unlock path => (tt, set_locks (λ locks, locks ∖ {[path]}) w)
  | Executable => (Ok "/proc/self/exe", w)
  | NewRequest _ => (Ok tt, w)
  | HTTPDo request =>
      let asked := FS (fs_files w) (fs_locks w) (request :: fs_requests w) in
      match net (fs_requests w) request with
      | Ok (status, body) => (Ok status, asked body)
      | Err e => (Err e, asked "")
      end
  | ReadBody limit => (Ok (limited limit (fs_body w)), w)
  | CopyBody limit name =>
      let data := limited limit (fs_body w) in
      (Ok data, set_files <[name := data]> w)
  | TimeLeft => (None, w)
  | After _ => (false, w)
  | Rand _ => (0%Z, w)
  end.

(** A file system that refuses the calls it likes. *)
Definition fs_handler (refuse : os_ev → option error) : handler os_sig fs :=
  λ e w, match refuse e with
         | Some err => (refused e err, refused_effect e w)
         | None => serve_file e w
         end.

Lemma run_ocall_bind {B} refuse e (f : os_resp e → prog os_sig B) w :
  run (fs_handler refuse) (ocall e ≫= f) w =
    let '(r, w') := fs_handler refuse e w in run (fs_handler refuse) (f r) w'.
Proof. rewrite run_bind. cbn. by destruct (fs_handler refuse e w). Qed.

(** One call of a run, refused or served. *)
Ltac fs_step :=
  match goal with |- context [run (fs_handler ?r) (ocall ?e ≫= _)] =>
    rewrite (run_ocall_bind r e); unfold fs_handler at 1; destruct (r e) as [?err|] eqn:?
  end; cbn [serve_file refused refused_effect run mret prog_ret].

(** A file that was written atomically has the data, whatever was refused. *)
Lemma writeFileAtomic_run refuse target data mode w w' : ¬ temporary target →
  run (fs_handler refuse) (writeFileAtomic target data mode) w = (Ok tt, w') →
  fs_files w' !! target = Some data.
Proof using Type*.
  intros Hlast. unfold writeFileAtomic, publish_temp, orfail.
  fs_step; [done|]. set (temp := temp_name _ w). cbn [fst snd].
  assert (temp ≠ target) as Hne by (intros Heq; apply Hlast; rewrite <-Heq; apply temp_name_temporary).
  rewrite run_bind. fs_step.
  { fs_step; fs_step; done. }
  fs_step; [fs_step; done|]. fs_step; [fs_step; done|].
  unfold ocall at 1, call. cbn [run]. unfold fs_handler at 1. destruct (refuse (Rename temp target)) eqn:?.
  { fs_step; done. }
  cbn [serve_file set_files fs_files]. rewrite lookup_insert_eq.
  fs_step; intros [= <-]; cbn [set_files fs_files].
  - apply lookup_insert_eq.
  - rewrite lookup_delete_ne by done. apply lookup_insert_eq.
Qed.

(** A file that is published is as it was filled; every other file but
    temporary ones is as before, also when publishing fails. *)
Definition fills (refuse : os_ev → option error) (fill : string → prog os_sig (result unit))
    (data : option string) (w : fs) : Prop :=
  ∀ temp w1, (∀ p, p ≠ temp → fs_files w1 !! p = fs_files w !! p) → temporary temp →
    is_Some (fs_files w1 !! temp) →
    let '(r, w2) := run (fs_handler refuse) (fill temp) w1 in
    (∀ p, p ≠ temp → fs_files w2 !! p = fs_files w1 !! p) ∧
    (r = Ok tt → fs_files w2 !! temp = data).

Lemma publish_temp_run refuse target mode fill data w : ¬ temporary target →
  fills refuse fill data w →
  let '(r, w') := run (fs_handler refuse) (publish_temp target mode fill) w in
  (∀ p, ¬ temporary p → p ≠ target → fs_files w' !! p = fs_files w !! p) ∧
  match r with
  | Ok _ => fs_files w' !! target = data
  | Err _ => fs_files w' !! target = fs_files w !! target
  end.
Proof using Type*.
  intros Hlast Hfill. unfold publish_temp, orfail.
  fs_step; [by split|]. set (temp := temp_name _ w). cbn [fst snd].
  pose proof (temp_name_temporary (path_Dir target) w) as Htemp. fold temp in Htemp.
  assert (∀ p, ¬ temporary p → p ≠ temp) as Hne by (intros p Hp ->; done).
  specialize (Hfill temp (set_files <[temp := ""]> w)). cbn [set_files fs_files] in Hfill.
  rewrite lookup_insert_eq in Hfill.
  specialize (Hfill (λ p Hp, lookup_insert_ne _ _ _ _ (not_eq_sym Hp)) Htemp (mk_is_Some _ _ eq_refl)).
  rewrite !run_bind.
  destruct (run (fs_handler refuse) (fill temp) _) as [r w2]. destruct Hfill as [Hsame Hdata].
  assert (∀ p, ¬ temporary p → fs_files w2 !! p = fs_files w !! p) as Hframe.
  { intros p Hp. rewrite Hsame by auto. rewrite lookup_insert_ne; [done|]. intros <-. done. }
  assert (∀ w3 (e : error), (∀ p, ¬ temporary p → fs_files w3 !! p = fs_files w !! p) →
    let '(r, w') := run (fs_handler refuse) (_ ← ocall (Remove temp); mret (@Err unit e)) w3 in
    (∀ p, ¬ temporary p → p ≠ target → fs_files w' !! p = fs_files w !! p) ∧
    match r with
    | Ok _ => fs_files w' !! target = data
    | Err _ => fs_files w' !! target = fs_files w !! target
    end) as Hfail.
  { intros w3 e Hw3. fs_step; cbn [set_files fs_files]; [by split; auto|].
    split; [intros p Hp _|]; (rewrite lookup_delete_ne by (apply not_eq_sym; auto)); auto. }
  destruct r as [[]|e].
  - fs_step; [by apply Hfail|]. fs_step; [by apply Hfail|].
    unfold ocall at 1, call. cbn [run]. unfold fs_handler at 1.
    destruct (refuse (Rename temp target)) eqn:?; [by apply Hfail|].
    cbn [serve_file]. rewrite Hdata by done. destruct data as [data|]; [|by apply Hfail].
    assert (∀ p, ¬ temporary p → p ≠ target →
      <[target := data]> (delete temp (fs_files w2)) !! p = fs_files w !! p) as Hother.
    { intros p Hp Hpt. rewrite lookup_insert_ne by congruence.
      rewrite lookup_delete_ne by (apply not_eq_sym; auto). auto. }
    fs_step; cbn [set_files fs_files].
    + split; [done|]. apply lookup_insert_eq.
    + split; [|rewrite lookup_delete_ne by (apply not_eq_sym; auto); apply lookup_insert_eq].
      intros p Hp Hpt. rewrite lookup_delete_ne by (apply not_eq_sym; auto). auto.
  - fs_step; [by apply Hfail|]. by apply Hfail.
Qed.

Lemma writeFileAtomic_frame refuse target data mode w : ¬ temporary target →
  let '(r, w') := run (fs_handler refuse) (writeFileAtomic target data mode) w in
  (∀ p, ¬ temporary p → p ≠ target → fs_files w' !! p = fs_files w !! p) ∧
  match r with
  | Ok _ => fs_files w' !! target = Some data
  | Err _ => fs_files w' !! target = fs_files w !! target
  end.
Proof using Type*.
  intros Hlast. apply publish_temp_run; [done|]. intros temp w1 Hw1 Ht Hs.
  unfold ocall, call. cbn [run]. unfold fs_handler. destruct (refuse (WriteTemp temp data)) eqn:?; cbn.
  - split; [|done]. intros p Hp. by rewrite lookup_insert_ne.
  - split; [|intros _; apply lookup_insert_eq]. intros p Hp. by rewrite lookup_insert_ne.
Qed.

Lemma temp_name_fresh prefix w : fs_files w !! temp_name prefix w = None.
Proof using Type.
  destruct (fs_files w !! temp_name prefix w) as [data|] eqn:Hd; [exfalso|done].
  assert (∀ l n, n ∈ l → (n ≤ foldr max 0 l)%nat) as Hmax.
  { intros l. induction l as [|m l IH]; intros n; [by intros ?%not_elem_of_nil|].
    intros [->|Hn%IH]%elem_of_cons; cbn; lia. }
  specialize (Hmax (String.length <$> elements (dom (fs_files w))) (String.length (temp_name prefix w))).
  assert (String.length (temp_name prefix w) ∈ String.length <$> elements (dom (fs_files w))) as Hin.
  { apply list_elem_of_fmap_2, elem_of_elements, elem_of_dom. by exists data. }
  apply Hmax in Hin. unfold temp_name in Hin at 1. rewrite length_string_app, length_of_chars, length_replicate in Hin.
  lia.
Qed.

(** Where nothing is refused, a file is written. *)
Lemma writeFileAtomic_served target data mode w : ¬ temporary target →
  run (fs_handler (λ _, None)) (writeFileAtomic target data mode) w = (Ok tt, set_files <[target := data]> w).
Proof using Type*.
  intros Hlast. unfold writeFileAtomic, publish_temp, orfail.
  set (temp := temp_name (path_Dir target +:+ "/.stage-") w).
  assert (fs_files w !! temp = None) as Hfresh by apply temp_name_fresh.
  assert (temp ≠ target) as Hne by (intros Heq; apply Hlast; rewrite <-Heq; apply temp_name_temporary).
  unfold ocall, call. cbn -[temp_name]. fold temp. rewrite lookup_insert_eq. cbn.
  f_equal. unfold set_files. cbn. f_equal.
  rewrite insert_insert_eq, delete_insert_eq, (delete_id (fs_files w)) by done.
  by rewrite delete_id by (rewrite lookup_insert_ne; done).
Qed.

Lemma copyFile_frame refuse source target mode w :
  ¬ temporary source → ¬ temporary target →
  let '(r, w') := run (fs_handler refuse) (copyFile source target mode) w in
  (∀ p, ¬ temporary p → p ≠ target → fs_files w' !! p = fs_files w !! p) ∧
  match r with
  | Ok _ => fs_files w' !! target = fs_files w !! source ∧ is_Some (fs_files w !! source)
  | Err _ => fs_files w' !! target = fs_files w !! target
  end.
Proof using Type*.
  intros Hsource Hlast. unfold copyFile, orfail.
  fs_step; [by split|]. unfold missing_or. destruct (fs_files w !! source) as [data|] eqn:Hd; [|by split].
  pose proof (publish_temp_run refuse target mode (λ temp, ocall (CopyTemp source temp)) (Some data) w
    Hlast) as Hp.
  destruct (run _ (publish_temp _ _ _) w) as [r w'].
  assert (fills refuse (λ temp, ocall (CopyTemp source temp)) (Some data) w) as Hf.
  { intros temp w1 Hw1 Ht Hs. unfold ocall, call. cbn [run]. unfold fs_handler.
    destruct (refuse (CopyTemp source temp)) eqn:?; cbn; [done|].
    rewrite Hw1 by (by intros ->). rewrite Hd. cbn. split; [|intros _; apply lookup_insert_eq].
    intros p Hp1. by rewrite lookup_insert_ne. }
  destruct (Hp Hf) as [Ho Hr]. split; [done|]. destruct r; [|done]. rewrite Hr. by split.
Qed.
End file_system.

(** One call of a run, refused or served. *)
Ltac os_step :=
  match goal with |- context [run (fs_handler ?n ?r) (ocall ?e ≫= _)] =>
    rewrite (run_ocall_bind n r e); unfold fs_handler at 1; destruct (r e) as [?err|] eqn:?
  end; cbn [serve_file refused refused_effect run mret prog_ret].
