(* ===== verification/ClientConfig.v ===== *)
(** * Daemon: enrolling a client

    internal/daemon/clientconfig.go: spending a client enrollment token for
    the configuration a container's libthunder.so reads, and the claims of the
    token that comes with it. *)

From S2P Require Import Prelude GoStrings OS Json.

(** [retryableError] anywhere in the chain. *)
Fixpoint isRetryable (e : error) : bool :=
  match e with
  | ErrRetryable _ => true
  | ErrWrap _ e _ => isRetryable e
  | ErrJoin e1 e2 => isRetryable e1 || isRetryable e2
  | _ => false
  end.

(** [ThunderClientConfig]. *)
Record ThunderClientConfig := ClientConfig {
  cc_DeviceID : string;
  cc_ClientID : string;
  cc_OrgID : string;
  cc_GPUType : string;
  cc_GPUCount : Z;
  cc_CentralAPIURL : string;
  cc_AuthToken : string;
  cc_Claims : string;
  cc_EnableGRPCTLS : bool;
  cc_ThunderdDiscoveryEnabled : bool;
  cc_TelemetryCollector : string
}.

Record clientEnrollmentResponse := EnrollmentResponse { er_AuthToken : string; er_JWT : string }.
Record clientClaims := Claims {
  cm_OrgID : string; cm_ClientID : string; cm_GPUType : string; cm_GPUCount : Z
}.
Record ociState := OCIState { oci_ID : string; oci_Bundle : string; oci_Rootfs : string }.

Definition config_json (c : ThunderClientConfig) : json :=
  JObject
    [("deviceId", JString (cc_DeviceID c));
     ("clientId", JString (cc_ClientID c));
     ("orgId", JString (cc_OrgID c));
     ("gpuType", JString (cc_GPUType c));
     ("gpuCount", JInt (cc_GPUCount c));
     ("centralApiUrl", JString (cc_CentralAPIURL c));
     ("authToken", JString (cc_AuthToken c));
     ("claims", JString (cc_Claims c));
     ("enableGrpcTls", JBool (cc_EnableGRPCTLS c));
     ("thunderdDiscoveryEnabled", JBool (cc_ThunderdDiscoveryEnabled c));
     ("telemetryCollector", JString (cc_TelemetryCollector c))].

(** [json.Unmarshal] into the four structures the daemon reads. *)
Class HookJSON := {
  json_config : string → result ThunderClientConfig;
  json_enrollment : string → result clientEnrollmentResponse;
  json_claims : string → result clientClaims;
  json_oci_state : string → result ociState
}.

(** The file a configuration is kept in. *)
Definition config_file (c : ThunderClientConfig) : string := MarshalIndent (config_json c) +:+ newline.

(* -------------------------------------------------------------------- *)
(** ** base64.RawURLEncoding *)

Definition sextet (a : ascii) : option N :=
  if is_upper a then Some (code a - 65)%N
  else if is_lower a then Some (code a - 71)%N
  else if is_digit a then Some (code a + 4)%N
  else if bool_decide (a = "-"%char) then Some 62%N
  else if bool_decide (a = "_"%char) then Some 63%N
  else None.

(** The six-bit digits of the text, line breaks skipped; an error names the
    byte that is none. *)
Fixpoint sextets (offset : Z) (l : list ascii) : result (list N) :=
  match l with
  | [] => Ok []
  | a :: l =>
      if bool_decide (a = chr 10) || bool_decide (a = chr 13) then sextets (offset + 1) l
      else match sextet a with
           | None => Err (ErrLib ("illegal base64 data at input byte " +:+ itoa offset))
           | Some x => xs ← sextets (offset + 1) l; Ok (x :: xs)
           end
  end.

(** Four digits are three bytes; two or three left over are one or two; the
    bits beyond them are ignored. *)
Fixpoint base64_bytes (l : list N) : option (list ascii) :=
  match l with
  | [] => Some []
  | [_] => None
  | [x; y] => Some [chr (N.lor (N.shiftl x 2) (N.shiftr y 4))]
  | [x; y; z] =>
      Some [chr (N.lor (N.shiftl x 2) (N.shiftr y 4));
            chr (N.land (N.lor (N.shiftl y 4) (N.shiftr z 2)) 255)]
  | x :: y :: z :: t :: l =>
      rest ← base64_bytes l;
      Some (chr (N.lor (N.shiftl x 2) (N.shiftr y 4)) ::
            chr (N.land (N.lor (N.shiftl y 4) (N.shiftr z 2)) 255) ::
            chr (N.land (N.lor (N.shiftl z 6) t) 255) :: rest)
  end.

Definition RawURLDecode (s : string) : result string :=
  digits ← sextets 0 (chars s);
  match base64_bytes digits with
  | Some bytes => Ok (of_chars bytes)
  | None => Err (ErrLib ("illegal base64 data at input byte " +:+ itoa (Z.of_nat (String.length s) - 1)))
  end.

Example base64_examples :
  (RawURLDecode "eyJvIjoi_yJ9", RawURLDecode "YQ", RawURLDecode "YQ==", RawURLDecode "YWJjZ") =
  (Ok (of_chars (chr <$> [123; 34; 111; 34; 58; 34; 255; 34; 125]%N)), Ok "a",
   Err (ErrLib "illegal base64 data at input byte 2"),
   Err (ErrLib "illegal base64 data at input byte 4")).
Proof. vm_compute. reflexivity. Qed.

(* -------------------------------------------------------------------- *)
(** ** The exchange *)

Definition installerReadLimit : Z := 1048576.

Section exchange.
Context `{HookJSON, MapOrder}.

Definition decodeClientClaims (token : string) : result clientClaims :=
  match split token "."%char with
  | [_; middle; _] =>
      match RawURLDecode middle with
      | Err e => Err (wrap "client claims JWT payload could not be decoded" e)
      | Ok payload =>
          match json_claims payload with
          | Err e => Err (wrap "client claims JWT payload is malformed" e)
          | Ok claims =>
              match find (λ p : string * string, blank p.2)
                      (map_order "claims" [("orgId", cm_OrgID claims); ("clientId", cm_ClientID claims);
                                           ("gpuType", cm_GPUType claims)]) with
              | Some (field, _) => Err (ErrText ("client claims JWT is missing " +:+ field))
              | None =>
                  if (cm_GPUCount claims <=? 0)%Z
                  then Err (ErrText "client claims JWT is missing gpuCount")
                  else Ok claims
              end
          end
      end
  | _ => Err (ErrText "client claims JWT is malformed")
  end.

Definition enrollment_body (hostname : string) : string :=
  if blank hostname then "{}"
  else "{" +:+ json_string "hostname" +:+ ":" +:+ json_string hostname +:+ "}".

Definition enrollment_request (centralURL enrollmentToken hostname : string) : http_request :=
  HTTPRequest "POST" (trim_suffix centralURL "/" +:+ "/api/v1/enrollment-tokens/enroll")
    [("Authorization", "Bearer " +:+ enrollmentToken); ("Content-Type", "application/json")]
    (enrollment_body hostname).

(** The configuration in the body of a successful response. *)
Definition enrolled_config (centralURL telemetryURL payload : string) : result ThunderClientConfig :=
  match json_enrollment payload with
  | Err e => Err (wrap "decode enrollment response" e)
  | Ok enrolled =>
      if bool_decide (er_AuthToken enrolled = "")
      then Err (ErrText "enrollment response is missing authToken")
      else if bool_decide (er_JWT enrolled = "")
      then Err (ErrText "enrollment response is missing jwt")
      else
        claims ← decodeClientClaims (er_JWT enrolled);
        Ok {| cc_DeviceID := cm_ClientID claims;
              cc_ClientID := cm_ClientID claims;
              cc_OrgID := cm_OrgID claims;
              cc_GPUType := cm_GPUType claims;
              cc_GPUCount := cm_GPUCount claims;
              cc_CentralAPIURL := trim_suffix centralURL "/";
              cc_AuthToken := er_AuthToken enrolled;
              cc_Claims := er_JWT enrolled;
              cc_EnableGRPCTLS := false;
              cc_ThunderdDiscoveryEnabled := true;
              cc_TelemetryCollector := telemetryURL |}
  end.

Definition ExchangeClientEnrollment (centralURL telemetryURL enrollmentToken hostname : string)
    : prog os_sig (result ThunderClientConfig) :=
  if blank enrollmentToken then mret (Err (ErrText "enrollment token is required"))
  else if blank centralURL then mret (Err (ErrText "central URL is required"))
  else
    let request := enrollment_request centralURL enrollmentToken hostname in
    let? _ := ocall (NewRequest request) or wrap "build enrollment request" in
    r ← ocall (HTTPDo request);
    match r with
    | Err e => mret (Err (ErrRetryable (wrap "exchange client enrollment" e)))
    | Ok response =>
        let? payload := ocall (ReadBody installerReadLimit) or wrap "read enrollment response" in
        if (st_Code response <? 200)%Z || (299 <? st_Code response)%Z then
          let e := ErrText ("exchange client enrollment: status " +:+ st_Text response +:+ ": " +:+
                            trim_space payload) in
          if (st_Code response =? 429)%Z || (500 <=? st_Code response)%Z
          then mret (Err (ErrRetryable e)) else mret (Err e)
        else mret (enrolled_config centralURL telemetryURL payload)
    end.
End exchange.
