(* ===== verification/CDIStore.v ===== *)
(** * Daemon: the CDI store

    internal/daemon/store.go's [FileCDIDeviceStore]: the CDI spec of a claim's
    device and the enrollment token beside it, created and removed on the
    node's file system. *)

From S2P Require Import Prelude GoStrings ResourceSlice Driver DaemonConfig GoPath OS Json ClientConfig.
From S2P Require Import ClientStore GuestStore.

Definition ThunderClientInstallCommandEnv : string := "THUNDER_CLIENT_INSTALL_COMMAND".
Definition cdiHookTimeoutSeconds : Z := 120.
Definition CDIHookCommand : string := "cdi-hook".
Definition thunderTokenFile : string := "enrollment-token".
Definition thunderConfigFile : string := "config.json".

Definition DefaultCDIKind : string := "thundercompute.com/gpu".

Record FileCDIDeviceStore := CDIStore {
  fc_SpecDir : string;
  fc_StateDir : string;
  fc_Kind : string;
  fc_LibCUDAPath : string;
  fc_LibNVMLPath : string;
  fc_NVSMIPath : string;
  fc_ClientInstallCommand : string;
  fc_HookPath : string;
  fc_CacheDir : string;
  fc_CentralURL : string;
  fc_TelemetryURL : string;
  fc_InstallURL : string;
  fc_ArtifactBaseURL : string;
  fc_LibthunderURL : string;
  fc_LibthunderSHA256 : string;
  fc_CABundlePath : string
}.

Definition NewFileCDIDeviceStore (specDir : string) : FileCDIDeviceStore :=
  CDIStore specDir "" DefaultCDIKind "" "" "" "" "" "" "" "" "" "" "" "" "".

Definition or_default (value fallback : string) : string :=
  if blank value then fallback else trim_space value.

Section paths.
Context (s : FileCDIDeviceStore).

Definition specDir : string := or_default (fc_SpecDir s) "/var/run/cdi".
Definition stateRoot : string :=
  if negb (blank (fc_StateDir s)) then trim_space (fc_StateDir s) else path_Join [specDir; "thunder"].
Definition kind : string := or_default (fc_Kind s) DefaultCDIKind.
Definition libCUDAPath : string := or_default (fc_LibCUDAPath s) DefaultLibCUDAPath.
Definition libNVMLPath : string := or_default (fc_LibNVMLPath s) DefaultLibNVMLPath.
Definition nvidiaSMIPath : string := or_default (fc_NVSMIPath s) DefaultNVSMIPath.

(** The [strings.NewReplacer] of two functions. *)
Definition dashed (name : string) : string :=
  map_bytes (λ a, if bool_decide (a ∈ ["/"; "="; ":"; "."]%char) then "-"%char else a) name.

Definition specPath (qualifiedName : string) : string :=
  path_Join [specDir; dashed qualifiedName +:+ ".json"].
Definition stateDir (deviceName : string) : string := path_Join [stateRoot; deviceName].
Definition tokenPath (deviceName : string) : string :=
  path_Join [stateDir deviceName; thunderTokenFile].
End paths.

(** The index of the last [c], by the bytes after it. *)
Fixpoint after_last (c : ascii) (l : list ascii) : option (list ascii) :=
  match l with
  | [] => None
  | a :: l =>
      match after_last c l with
      | Some rest => Some rest
      | None => if bool_decide (a = c) then Some l else None
      end
  end.

Definition cdiDeviceNameFromQualifiedName (qualifiedName : string) : string :=
  match after_last "="%char (chars qualifiedName) with
  | Some ((_ :: _) as rest) => of_chars rest
  | _ => dashed qualifiedName
  end.

Definition thunderClientName (allocation : Allocation) : string :=
  let name := trim_space (con_Name (al_Consumer allocation)) in
  if bool_decide (name ≠ "") then name else trim_space (al_ClaimName allocation).

Definition uniqueNonEmpty (values : list string) : list string :=
  (foldl (λ '(seen, unique) value,
    let value := trim_space value in
    if bool_decide (value = "") || bool_decide (value = ".") then (seen, unique)
    else if bool_decide (value ∈ seen) then (seen, unique)
    else ({[value]} ∪ seen, unique ++ [value])) (∅ : gset string, []) values).2.

(** A mount of a path onto itself. *)
Record mount := Mount { mt_hostPath : string; mt_containerPath : string }.
Definition bindMount (path : string) : mount := Mount path path.
Definition mount_json (m : mount) : json :=
  JMap [("hostPath", JString (mt_hostPath m)); ("containerPath", JString (mt_containerPath m));
        ("type", JString "none"); ("options", JList [JString "ro"; JString "bind"])].

Definition uniqueMounts (mounts : list mount) : list mount :=
  (foldl (λ '(seen, unique) m,
    if blank (mt_hostPath m) || blank (mt_containerPath m) then (seen, unique)
    else
      let key := mt_hostPath m +:+ String (chr 0) "" +:+ mt_containerPath m in
      if bool_decide (key ∈ seen) then (seen, unique)
      else ({[key]} ∪ seen, unique ++ [m])) (∅ : gset string, []) mounts).2.

Definition mounts (s : FileCDIDeviceStore) : list mount :=
  uniqueMounts [bindMount (nvidiaSMIPath s); bindMount (libCUDAPath s); bindMount (libNVMLPath s)].

(** The pairs of a flat list of flags and values, sorted by flag. *)
Fixpoint arg_pairs (args : list string) : list (string * string) :=
  match args with
  | flag :: value :: args => (flag, value) :: arg_pairs args
  | _ => []
  end.
Definition flat_pairs (pairs : list (string * string)) : list string := pairs ≫= λ p, [p.1; p.2].
Definition pair_le (x y : string * string) : Prop := String.le x.1 y.1.
#[global] Instance pair_le_dec x y : Decision (pair_le x y).
Proof. unfold pair_le. apply _. Defined.
Definition sortArgPairs (args : list string) : list string :=
  flat_pairs (merge_sort pair_le (arg_pairs args)).

Section spec.
Context `{UnicodeTables, MapOrder} (s : FileCDIDeviceStore).

Definition hook_flags (allocation : Allocation) : list (string * string) :=
  [("--central-url", fc_CentralURL s);
   ("--telemetry-url", fc_TelemetryURL s);
   ("--install-url", fc_InstallURL s);
   ("--artifact-base-url", fc_ArtifactBaseURL s);
   ("--libthunder-url", fc_LibthunderURL s);
   ("--libthunder-sha256", fc_LibthunderSHA256 s);
   ("--cache-dir", fc_CacheDir s);
   ("--ca-bundle", fc_CABundlePath s);
   ("--client-name", thunderClientName allocation)].

Definition hook_args (deviceName : string) (allocation : Allocation) : list string :=
  [trim_space (fc_HookPath s); CDIHookCommand; "--state-dir"; stateDir s deviceName] ++
  sortArgPairs (map_order "hook flags" (hook_flags allocation) ≫= λ '(flag, value),
    if negb (blank value) then [flag; value] else []).

Definition hooks (deviceName : string) (allocation : Allocation) : list json :=
  let hookPath := trim_space (fc_HookPath s) in
  if bool_decide (hookPath = "") then []
  else
    [JMap [("hookName", JString "createRuntime"); ("path", JString hookPath);
           ("args", JList (JString <$> hook_args deviceName allocation));
           ("timeout", JInt cdiHookTimeoutSeconds)]].

Definition containerEnv (qualifiedName : string) (allocation : Allocation) (token : string)
    : list string :=
  let env :=
    [ThunderEnrollmentTokenEnv +:+ "=" +:+ token;
     ThunderClientInstallCommandEnv +:+ "=" +:+ trim_space (fc_ClientInstallCommand s);
     "THUNDER_RESOURCE_CLAIM_UID=" +:+ al_ClaimUID allocation;
     "THUNDER_RESOURCE_CLAIM_NAMESPACE=" +:+ al_ClaimNamespace allocation;
     "THUNDER_RESOURCE_CLAIM_NAME=" +:+ al_ClaimName allocation;
     "THUNDER_GPU_TYPE=" +:+ al_GPUType allocation;
     "THUNDER_GPU_COUNT=" +:+ itoa (al_GPUCount allocation);
     "THUNDER_CDI_DEVICE=" +:+ qualifiedName;
     "LD_PRELOAD=/etc/thunder/libthunder.so"] in
  let pathDirs := uniqueNonEmpty
    [path_Dir (nvidiaSMIPath s); "/usr/local/sbin"; "/usr/local/bin"; "/usr/sbin"; "/usr/bin";
     "/sbin"; "/bin"] in
  let libraryDirs := uniqueNonEmpty [path_Dir (libCUDAPath s); path_Dir (libNVMLPath s)] in
  env ++
  (if bool_decide (pathDirs = []) then [] else ["PATH=" +:+ join pathDirs ":"]) ++
  (if bool_decide (libraryDirs = []) then [] else ["LD_LIBRARY_PATH=" +:+ join libraryDirs ":"]).

Definition hookEnv (allocation : Allocation) (token : string) : list string :=
  [ThunderEnrollmentTokenEnv +:+ "=" +:+ token;
   "THUNDER_RESOURCE_CLAIM_UID=" +:+ al_ClaimUID allocation;
   "THUNDER_RESOURCE_CLAIM_NAMESPACE=" +:+ al_ClaimNamespace allocation;
   "THUNDER_RESOURCE_CLAIM_NAME=" +:+ al_ClaimName allocation;
   "THUNDER_GPU_TYPE=" +:+ al_GPUType allocation;
   "THUNDER_GPU_COUNT=" +:+ itoa (al_GPUCount allocation)].

(** The CDI spec of the claim's device. *)
Definition cdi_spec (qualifiedName deviceName : string) (allocation : Allocation) (token : string)
    : json :=
  let containerEdits :=
    [("env", JList (JString <$> containerEnv qualifiedName allocation token));
     ("mounts", JList (mount_json <$> mounts s))] ++
    (let hooks := hooks deviceName allocation in
     if bool_decide (0 < length hooks)%nat then [("hooks", JList hooks)] else []) in
  JMap [("cdiVersion", JString "0.6.0"); ("kind", JString (kind s));
        ("devices", JList [JMap [("name", JString deviceName);
                                 ("containerEdits", JMap containerEdits)]])].
End spec.

Section store.
Context `{UnicodeTables, MapOrder, FileErrors, HookJSON} (s : FileCDIDeviceStore).

Definition cdiDeviceName (claimUID : string) : string := ThunderClientName claimUID.

(** Fail with [e] once the state directory is removed again. *)
Definition abandon {A} (dir : string) (e : error) : prog os_sig (result A) :=
  _ ← ocall (RemoveAll dir); mret (Err e).

Definition cdi_Create (allocation : Allocation) (token : string) : prog os_sig (result string) :=
  let kind := kind s in
  let deviceName := cdiDeviceName (al_ClaimUID allocation) in
  let qualifiedName := kind +:+ "=" +:+ deviceName in
  if blank (fc_ClientInstallCommand s) then
    mret (Err (ErrText "client install command is required"))
  else if blank token then mret (Err (ErrText "client enrollment token is required"))
  else
    let dir := stateDir s deviceName in
    let? _ := ocall (MkdirAll dir 448) or id in
    r ← ocall (WriteFile (tokenPath s deviceName) (token +:+ newline) 384);
    match r with
    | Err e => abandon dir e
    | Ok _ =>
        let data := MarshalIndent (cdi_spec s qualifiedName deviceName allocation token) in
        r ← ocall (MkdirAll (specDir s) 493);
        match r with
        | Err e => abandon dir e
        | Ok _ =>
            let path := specPath s qualifiedName in
            let tmp := path +:+ ".tmp" in
            r ← ocall (WriteFile tmp (data +:+ newline) 420);
            match r with
            | Err e => abandon dir e
            | Ok _ =>
                r ← ocall (Rename tmp path);
                match r with
                | Err e => _ ← ocall (Remove tmp); abandon dir e
                | Ok _ => mret (Ok qualifiedName)
                end
            end
        end
    end.

Definition StagedClientID (qualifiedName : string) : prog os_sig string :=
  if blank qualifiedName then mret ""
  else
    let deviceName := cdiDeviceNameFromQualifiedName qualifiedName in
    raw ← ocall (ReadFile (path_Join [stateDir s deviceName; thunderConfigFile]));
    match raw with
    | Err _ => mret ""
    | Ok raw =>
        match json_config raw with
        | Err _ => mret ""
        | Ok config => mret (trim_space (cc_ClientID config))
        end
    end.

Definition remove_state (qualifiedName : string) : prog os_sig (result unit) :=
  r ← ocall (RemoveAll (stateDir s (cdiDeviceNameFromQualifiedName qualifiedName)));
  match r with
  | Err e => if os_IsNotExist e then mret (Ok tt) else mret (Err e)
  | Ok _ => mret (Ok tt)
  end.

(** After the lock attempt of [Remove]. *)
Definition cdi_remove_files (qualifiedName : string) : prog os_sig (result unit) :=
  r ← ocall (Remove (specPath s qualifiedName));
  match r with
  | Err e => if os_IsNotExist e then remove_state qualifiedName else mret (Err e)
  | Ok _ => remove_state qualifiedName
  end.

Definition cdi_Remove (qualifiedName : string) : prog os_sig (result unit) :=
  if blank qualifiedName then mret (Ok tt)
  else
    let dir := stateDir s (cdiDeviceNameFromQualifiedName qualifiedName) in
    locked ← lockStateDir dir;
    match locked with
    | Ok _ =>
        r ← cdi_remove_files qualifiedName;
        _ ← ocall (Unlock (lock_path dir));
        mret r
    | Err _ => cdi_remove_files qualifiedName
    end.
End store.

(* -------------------------------------------------------------------- *)
(** ** Lemmas *)

(** A UID as the API server makes them: a byte of a DNS label throughout. *)
Definition plain_uid (uid : string) : Prop := Forall (λ a, Labels.dns_char a = true) (chars uid).

Lemma after_last_none c l : c ∉ l → after_last c l = None.
Proof.
  induction l as [|a l IH]; [done|]. intros [Ha Hl]%not_elem_of_cons. cbn.
  rewrite IH by done. by rewrite bool_decide_false.
Qed.

Lemma after_last_app c l1 l2 : c ∉ l2 → after_last c (l1 ++ c :: l2) = Some l2.
Proof.
  intros Hl. induction l1 as [|a l1 IH]; cbn.
  - rewrite after_last_none by done. by rewrite bool_decide_true.
  - by rewrite IH.
Qed.

Section names.
Context `{UnicodeTables}.

Lemma cdiDeviceName_plain uid : plain_uid uid → uid ≠ "" → cdiDeviceName uid = "claim-" +:+ uid.
Proof.
  intros Hu Hne. unfold cdiDeviceName, ThunderClientName.
  rewrite Labels.trim_space_plain.
  2:{ eapply Forall_impl; [exact Hu|]. intros a Ha. apply Labels.dns_char_plain in Ha.
      unfold Labels.plain_byte. tauto. }
  rewrite Labels.to_lower_dns by done.
  assert (replace_byte "_"%char "-" uid = uid) as ->.
  { unfold replace_byte. assert (chars uid ≫= (λ a, if bool_decide (a = "_"%char) then chars "-" else [a])
      = chars uid) as ->; [|apply of_chars_chars].
    clear Hne. revert Hu. unfold plain_uid. induction (chars uid) as [|a l IH]; [done|].
    intros [Ha Hl]%Forall_cons. rewrite bind_cons, IH by done.
    rewrite bool_decide_false; [done|]. intros ->. discriminate. }
  by rewrite bool_decide_false.
Qed.

Lemma claim_name_dns uid : plain_uid uid → Forall (λ a, Labels.dns_char a = true) (chars ("claim-" +:+ uid)).
Proof. intros Hu. rewrite chars_app. apply Forall_app. split; [|done]. by repeat constructor. Qed.

(** A device's name is found again in its qualified name. *)
Lemma qualified_name_device kind uid : plain_uid uid → uid ≠ "" →
  cdiDeviceNameFromQualifiedName (kind +:+ "=" +:+ cdiDeviceName uid) = cdiDeviceName uid.
Proof.
  intros Hu Hne. rewrite cdiDeviceName_plain by done. unfold cdiDeviceNameFromQualifiedName.
  rewrite (chars_app kind), (chars_app "=").
  change (chars "=" ++ chars ("claim-" +:+ uid)) with ("="%char :: chars ("claim-" +:+ uid)).
  rewrite after_last_app.
  - destruct (chars ("claim-" +:+ uid)) as [|a l] eqn:Hl; [done|].
    change (of_chars (a :: l) = "claim-" +:+ uid). rewrite <-Hl. apply of_chars_chars.
  - intros Hin. pose proof (claim_name_dns uid Hu) as Hd. rewrite Forall_forall in Hd.
    by apply Hd in Hin.
Qed.

Lemma device_name_plain uid : plain_uid uid → uid ≠ "" → GoPath.plain (cdiDeviceName uid).
Proof.
  intros Hu Hne. rewrite cdiDeviceName_plain by done. unfold plain. split_and!; [by destruct uid..|].
  intros Hin. pose proof (claim_name_dns uid Hu) as Hd. rewrite Forall_forall in Hd.
  by apply Hd in Hin.
Qed.
End names.

Lemma below_app dir path : below dir (dir +:+ "/" +:+ path).
Proof.
  unfold below, has_prefix. rewrite bool_decide_true; [done|]. exists (chars path).
  apply drop_prefix_l_spec. by rewrite !chars_app, <-app_assoc.
Qed.

Section create.
Context `{UnicodeTables, MapOrder, FileServerErrors, HookJSON}
  (net : list http_request → http_request → result (http_status * string))
  (s : FileCDIDeviceStore) (al : Allocation) (token : string).
Abbreviation h refuse := (fs_handler net refuse).
Abbreviation name := (cdiDeviceName (al_ClaimUID al)).
Abbreviation qualified := (kind s +:+ "=" +:+ cdiDeviceName (al_ClaimUID al)).
Abbreviation dir := (stateDir s name).
Abbreviation spec := (specPath s qualified).
Abbreviation tmp := (specPath s qualified +:+ ".tmp").

(** The files a successful create leaves. *)
Definition created_files (files : gmap string string) : gmap string string :=
  <[spec := MarshalIndent (cdi_spec s qualified name al token) +:+ newline]>
    (delete tmp (<[tokenPath s name := token +:+ newline]> files)).

(** After a failed one nothing is inside the state directory, and no other
    file changed, save the temporary one. *)
Definition abandoned_files (files files' : gmap string string) : Prop :=
  (∀ p, inside dir p → files' !! p = None) ∧
  ∀ p, ¬ inside dir p → p ≠ tmp → files' !! p = files !! p.

Lemma abandon_run {A} refuse (e : error) w w0 : refuse (RemoveAll dir) = None →
  (∀ p, ¬ inside dir p → p ≠ tmp → fs_files w !! p = fs_files w0 !! p) →
  let '(r, w') := run (h refuse) (abandon (A:=A) dir e) w in
  r = Err e ∧ abandoned_files (fs_files w0) (fs_files w').
Proof.
  intros Href Hsame. unfold abandon. rewrite (run_ocall_bind net refuse (RemoveAll dir)).
  unfold fs_handler. rewrite Href. cbn. split; [done|]. split.
  - intros p Hp. apply map_lookup_filter_None. right. intros data _. cbn. tauto.
  - intros p Hp Hne. rewrite <-Hsame by done.
    destruct (fs_files w !! p) as [data|] eqn:Hl.
    + apply map_lookup_filter_Some. by split.
    + apply map_lookup_filter_None. by left.
Qed.

Lemma token_inside : path_IsAbs (stateRoot s) = true → plain_uid (al_ClaimUID al) →
  al_ClaimUID al ≠ "" → inside dir (tokenPath s name).
Proof.
  intros Ha Hu Hne. right. unfold tokenPath, stateDir.
  rewrite path_Join_two; [apply below_app|done|by apply device_name_plain|].
  by apply (bool_decide_eq_true_1 (plain thunderTokenFile)).
Qed.

Lemma cdi_Create_run refuse w : path_IsAbs (stateRoot s) = true → plain_uid (al_ClaimUID al) →
  al_ClaimUID al ≠ "" → refuse (RemoveAll dir) = None →
  let '(r, w') := run (h refuse) (cdi_Create s al token) w in
  match r with
  | Ok q => q = qualified ∧ fs_files w' = created_files (fs_files w)
  | Err _ => w' = w ∨ abandoned_files (fs_files w) (fs_files w')
  end.
Proof.
  intros Ha Hu Hne Hremove. pose proof (token_inside Ha Hu Hne) as Htoken.
  unfold cdi_Create. destruct (blank (fc_ClientInstallCommand s)); [by left|].
  destruct (blank token); [by left|]. unfold orfail.
  assert (∀ data p, ¬ inside dir p → <[tokenPath s name := data]> (fs_files w) !! p = fs_files w !! p)
    as Hother by (intros data p Hp; apply lookup_insert_ne; by intros <-).
  assert (∀ data1 data2 p, ¬ inside dir p → p ≠ tmp →
    <[tmp := data2]> (<[tokenPath s name := data1]> (fs_files w)) !! p = fs_files w !! p) as Hother2
    by (intros data1 data2 p Hp Hq; rewrite lookup_insert_ne by congruence; by apply Hother).
  assert (∀ (e : error) w', (∀ p, ¬ inside dir p → p ≠ tmp → fs_files w' !! p = fs_files w !! p) →
    let '(r, w'') := run (h refuse) (abandon (A:=string) dir e) w' in
    match r with
    | Ok q => q = qualified ∧ fs_files w'' = created_files (fs_files w)
    | Err _ => w'' = w ∨ abandoned_files (fs_files w) (fs_files w'')
    end) as Habandon.
  { intros e w' Hsame. pose proof (abandon_run (A:=string) refuse e w' w Hremove Hsame) as Hab.
    destruct (run _ (abandon dir e) w') as [r w'']. destruct Hab as [-> Hab]. by right. }
  os_step; [by left|]. os_step; [apply Habandon; cbn; auto|].
  os_step; [apply Habandon; cbn; auto|]. os_step; [apply Habandon; cbn; auto|].
  os_step.
  - os_step; apply Habandon; cbn; auto.
    intros p Hp Hq. rewrite lookup_delete_ne by congruence. auto.
  - cbn [set_files fs_files]. rewrite lookup_insert_eq. cbn [set_files fs_files run mret prog_ret].
    split; [done|]. unfold created_files. by rewrite delete_insert_eq.
Qed.

Lemma qualified_not_blank : plain_uid (al_ClaimUID al) → al_ClaimUID al ≠ "" → blank qualified = false.
Proof.
  intros Hu Hne. rewrite cdiDeviceName_plain by done.
  assert (∃ l a, chars (al_ClaimUID al) = l ++ [a] ∧ Labels.dns_char a = true) as (l & a & Hl & Ha).
  { destruct (exists_last (l:=chars (al_ClaimUID al))) as (l & a & Hl).
    - intros Hn. apply Hne. by apply chars_inj.
    - exists l, a. split; [done|]. unfold plain_uid in Hu. rewrite Hl in Hu.
      apply Forall_app in Hu as [_ Hu]. by apply Forall_cons in Hu as [? _]. }
  apply (Labels.ends_plain_not_blank _ (chars (kind s +:+ "=" +:+ "claim-") ++ l) a).
  - rewrite !chars_app, Hl. by rewrite <-!app_assoc.
  - apply Labels.dns_char_plain in Ha. unfold Labels.plain_byte. tauto.
Qed.

(** The files a remove leaves. *)
Definition removed_files (files : gmap string string) : gmap string string :=
  filter (λ p, ¬ inside dir p.1) (delete spec files).

Lemma remove_files_run refuse w : plain_uid (al_ClaimUID al) → al_ClaimUID al ≠ "" →
  refuse (Remove spec) = None → refuse (RemoveAll dir) = None →
  let '(r, w') := run (h refuse) (cdi_remove_files s qualified) w in
  r = Ok tt ∧ fs_files w' = removed_files (fs_files w).
Proof.
  intros Hu Hne H4 H5. unfold cdi_remove_files, remove_state. rewrite qualified_name_device by done.
  os_step; [congruence|]. unfold missing_or.
  destruct (fs_files w !! spec); [|rewrite not_exist_error_is]; (os_step; [congruence|]); by split.
Qed.

Lemma cdi_Remove_run refuse w : plain_uid (al_ClaimUID al) → al_ClaimUID al ≠ "" →
  refuse (Remove spec) = None → refuse (RemoveAll dir) = None →
  let '(r, w') := run (h refuse) (cdi_Remove s qualified) w in
  r = Ok tt ∧ fs_files w' = removed_files (fs_files w).
Proof.
  intros Hu Hne H4 H5. pose proof (λ w, remove_files_run refuse w Hu Hne H4 H5) as Hrun.
  unfold cdi_Remove. rewrite qualified_not_blank, qualified_name_device by done.
  unfold lockStateDir, lockFile, orfail. rewrite run_bind.
  os_step; [apply Hrun|]. os_step; [apply Hrun|]. os_step; [apply Hrun|].
  cbn [run mret prog_ret]. rewrite run_bind.
  match goal with |- context [run _ (cdi_remove_files s qualified) ?w'] => specialize (Hrun w') end.
  destruct (run _ (cdi_remove_files s qualified) _) as [r w']. destruct Hrun as [-> Hf].
  by os_step.
Qed.

(** C18: as long as the claim's state directory can be removed, and whatever
    else the file system refuses: a create that fails leaves nothing inside the
    claim's state directory and no other file changed but the temporary one,
    [.tmp], that the spec is written through, of which part is left where
    writing it failed; and one that succeeds leaves exactly the token and the
    claim's spec.  A later remove by the name it returned, if removing the spec
    and the directory is not refused, succeeds, also when its lock cannot be
    had, and takes away them and what the hook staged beside them, and nothing
    else.  (On an absolute state root, for a claim with a UID as Kubernetes
    makes them.) *)
Theorem cdi_lifecycle refuse w :
  path_IsAbs (stateRoot s) = true → plain_uid (al_ClaimUID al) → al_ClaimUID al ≠ "" →
  refuse (RemoveAll dir) = None →
  match run (h refuse) (cdi_Create s al token) w with
  | (Err _, w') => w' = w ∨ abandoned_files (fs_files w) (fs_files w')
  | (Ok q, w') =>
      fs_files w' = created_files (fs_files w) ∧
      ∀ refuse' w1, refuse' (Remove spec) = None → refuse' (RemoveAll dir) = None →
        let '(r, w2) := run (h refuse') (cdi_Remove s q) w1 in
        r = Ok tt ∧ fs_files w2 = removed_files (fs_files w1)
  end.
Proof.
  intros Ha Hu Hne Hr. pose proof (cdi_Create_run refuse w Ha Hu Hne Hr) as Hc.
  destruct (run _ (cdi_Create s al token) w) as [[q|e] w']; [|exact Hc].
  destruct Hc as [-> Hc]. split; [exact Hc|]. intros. by apply cdi_Remove_run.
Qed.
End create.

Definition sample_store : FileCDIDeviceStore :=
  CDIStore "/var/run/cdi" "/var/lib/thunder" "" "" "" "" "curl | sh" " /opt/hook " "/cache"
    "https://api.example/" "" "https://get.example" "" " " "" "".

Definition lib_missing : FileErrors :=
  {| os_IsNotExist := λ e, match e with ErrLib _ => true | _ => false end |}.
#[refine] Definition sample_file_errors : @FileServerErrors lib_missing :=
  {| not_exist_error := ErrLib "no such file or directory" |}.
Proof. reflexivity. Defined.

Definition sample_json : HookJSON :=
  {| json_config := λ _, Err (ErrLib "json"); json_enrollment := λ _, Err (ErrLib "json");
     json_claims := λ _, Err (ErrLib "json"); json_oci_state := λ _, Err (ErrLib "json") |}.

Definition no_network (past : list http_request) (r : http_request) : result (http_status * string) :=
  Err (ErrLib "no network").
Definition empty_node : fs := FS {["/etc/passwd" := "root"]} ∅ [] "".
Definition sample_create : prog os_sig (result string) :=
  @cdi_Create ascii_tables listed_order sample_store guest_sample "token".
Definition sample_handler : handler os_sig fs :=
  @fs_handler lib_missing sample_file_errors no_network (λ _, None).

Lemma sample_create_ok :
  (run sample_handler sample_create empty_node).1 = Ok "thundercompute.com/gpu=claim-uid-1".
Proof. vm_compute. reflexivity. Qed.

Lemma cdi_lifecycle_witness :
  ∃ w', run sample_handler sample_create empty_node = (Ok "thundercompute.com/gpu=claim-uid-1", w') ∧
    fs_files w' = @created_files ascii_tables listed_order sample_store guest_sample "token"
                    (fs_files empty_node).
Proof.
  pose proof (@cdi_lifecycle ascii_tables listed_order lib_missing sample_file_errors no_network
    sample_store guest_sample "token" (λ _, None) empty_node eq_refl
    ltac:(by repeat constructor) ltac:(done) eq_refl) as Hl.
  pose proof sample_create_ok as Hok. unfold sample_create, sample_handler in *.
  destruct (run _ _ empty_node) as [r w']. cbn [fst] in Hok. rewrite Hok in Hl |- *.
  exists w'. exact (conj eq_refl (proj1 Hl)).
Defined.

(** The files of the sample, and what is left of them. *)
Example sample_removed :
  let w := (run sample_handler sample_create empty_node).2 in
  (map_to_list (fs_files w)).*1 =
    ["/etc/passwd"; "/var/run/cdi/thundercompute-com-gpu-claim-uid-1.json";
     "/var/lib/thunder/claim-uid-1/enrollment-token"] ∧
  fs_files (run sample_handler
    (@cdi_Remove lib_missing sample_store "thundercompute.com/gpu=claim-uid-1") w).2 =
  fs_files empty_node.
Proof. vm_compute. split; reflexivity. Qed.

(** When the temporary spec cannot be written whole, what was written of it
    stays. *)
Example leftover_temporary :
  let refuse (e : os_ev) : option error :=
    match e with
    | WriteFile path _ _ => if bool_decide (path = "/var/run/cdi/thundercompute-com-gpu-claim-uid-1.json.tmp")
                           then Some (ErrLib "no space left on device") else None
    | _ => None
    end in
  let '(r, w) := run (@fs_handler lib_missing sample_file_errors no_network refuse) sample_create empty_node in
  is_ok r = false ∧
  (map_to_list (fs_files w)).*1 =
    ["/etc/passwd"; "/var/run/cdi/thundercompute-com-gpu-claim-uid-1.json.tmp"].
Proof. vm_compute. by split. Qed.
