(* ===== verification/Version.v ===== *)
(** * Version and commands

    internal/version/version.go and runtime.go's buildDescription: what the
    two programs call themselves; and runner.go: how the daemon runs commands in
    the node's namespaces, and the lines of their output it republishes. *)

From S2P Require Import Prelude GoStrings Labels.

(** What [debug.ReadBuildInfo] returns, when it does. *)
Record build_info := BuildInfo { bi_Version : string; bi_Settings : list (string * string) }.

(** [Version] and [Commit], which the linker sets. *)
Section version.
Context (Version Commit : string) (info : option build_info).

Definition version_Get : string :=
  let v := trim_space Version in
  if bool_decide (v ≠ "") then v
  else
    match info with
    | Some i =>
        let v := trim_space (bi_Version i) in
        if bool_decide (v ≠ "") && bool_decide (v ≠ "(devel)") then v else "dev"
    | None => "dev"
    end.

Definition Revision : string :=
  let c := trim_space Commit in
  if bool_decide (c ≠ "") then c
  else
    match info with
    | Some i =>
        match find (λ s, bool_decide (s.1 = "vcs.revision") && bool_decide (s.2 ≠ "")) (bi_Settings i) with
        | Some (_, value) => value
        | None => "unknown"
        end
    | None => "unknown"
    end.

Definition UserAgent (component : string) : string :=
  "thunder-device-plugin/" +:+ version_Get +:+ " (" +:+ component +:+ ")".

Definition buildDescription : string :=
  let build := version_Get in
  let revision := Revision in
  if has_prefix revision build || has_prefix build revision then build
  else build +:+ " (" +:+ revision +:+ ")".

(** Neither is ever empty. *)
Lemma version_nonempty : version_Get ≠ "" ∧ Revision ≠ "".
Proof.
  unfold version_Get, Revision. split.
  - case_bool_decide; [done|]. destruct info as [i|]; [|done].
    destruct (bool_decide_reflect (trim_space (bi_Version i) ≠ "")); [|done]. cbn. by case_bool_decide.
  - case_bool_decide; [done|]. destruct info as [i|]; [|done].
    destruct (find _ _) as [[k v]|] eqn:Hf; [|done]. apply find_some in Hf as [_ Hf].
    by apply andb_prop in Hf as [_ ?%bool_decide_eq_true].
Qed.
End version.

(** A build of a commit is described once: by its version alone when one of
    the two starts the other. *)
Example descriptions :
  (buildDescription "v1.2.3" "abcdef" None, buildDescription "" "abcdef" (Some (BuildInfo "abcdef1" [])),
   buildDescription "" "" (Some (BuildInfo "(devel)" [("vcs.revision", ""); ("vcs.revision", "123")]))) =
  ("v1.2.3 (abcdef)", "abcdef1", "dev (123)").
Proof. vm_compute. reflexivity. Qed.

(* -------------------------------------------------------------------- *)
(** ** Commands *)

Definition maxLogLineBytes : Z := 1048576.

(** [osCommandRunner.command]: the program and the arguments that are run. *)
Definition command (targetPID name : string) (args : list string) : string * list string :=
  if bool_decide (targetPID = "") || bool_decide (targetPID = "0") then (name, args)
  else ("nsenter", ["-t"; targetPID; "-m"; "-u"; "-i"; "-n"; "-p"; "--"; name] ++ args).

(** What [RunShell] runs, and [Stream]. *)
Definition shell_command (targetPID shell : string) : string * list string :=
  command targetPID "/bin/sh" ["-c"; shell].

(** [bufio.Scanner] on lines: each without its line feed and one carriage
    return before it; the scan ends for good at a line that does not fit. *)
Definition drop_CR (l : list ascii) : list ascii :=
  match reverse l with a :: r => if bool_decide (a = chr 13) then reverse r else l | [] => l end.
Fixpoint scan (lines : list (list ascii)) : list (list ascii) :=
  match lines with
  | [] => []
  | [last] => match last with
              | [] => []
              | _ => if (Z.of_nat (length last) <? maxLogLineBytes)%Z then [drop_CR last] else []
              end
  | line :: lines =>
      if (Z.of_nat (length line) <? maxLogLineBytes)%Z then drop_CR line :: scan lines else []
  end.

(** [strings.TrimRight(line, "\r")]. *)
Definition trim_right_CR (l : list ascii) : list ascii :=
  reverse (drop_while (λ a, bool_decide (a = chr 13)) (reverse l)).

(** The lines of [stream]: what is written is split, and every line that has
    something on it is handed on. *)
Definition stream_lines (output : string) : list string :=
  filter (λ line, blank line = false)
    ((λ l, of_chars (trim_right_CR l)) <$> scan (split_l (chr 10) (chars output))).

(** The daemon's log has one entry for each line of output, in order, none of
    them blank or broken over lines, whatever the command writes. *)
Lemma split_l_clean c l : Forall (λ x, c ∉ x) (split_l c l).
Proof.
  induction l as [|a l IH]; cbn [split_l]; [by constructor; [apply not_elem_of_nil|]|].
  case_bool_decide as Ha; [by constructor; [apply not_elem_of_nil|]|].
  destruct (split_l c l) as [|x xs]; [constructor; [|done]; set_solver|].
  apply Forall_cons in IH as [Hx Hxs]. constructor; [|done]. apply not_elem_of_cons. by split.
Qed.

Lemma scan_sub lines x : x ∈ scan lines → ∃ line, line ∈ lines ∧ (x = line ∨ x = drop_CR line).
Proof.
  induction lines as [|l lines IH]; [by intros ?%not_elem_of_nil|].
  intros Hx. cbn [scan] in Hx. destruct lines as [|l2 lines].
  - destruct l as [|a l]; [by apply not_elem_of_nil in Hx|]. destruct (_ <? _)%Z; [|by apply not_elem_of_nil in Hx].
    apply list_elem_of_singleton in Hx as ->. eexists. split; [by left|by right].
  - destruct (_ <? _)%Z; [|by apply not_elem_of_nil in Hx]. apply elem_of_cons in Hx as [->|Hx].
    + eexists. split; [by left|by right].
    + destruct (IH Hx) as (line & Hin & Hl). exists line. split; [by right|done].
Qed.

Lemma drop_while_sub P l a : a ∈ drop_while P l → a ∈ l.
Proof.
  induction l as [|b l IH]; [done|]. cbn [drop_while]. destruct (P b); [|done]. intros ?%IH. by right.
Qed.
Lemma drop_CR_sub l a : a ∈ drop_CR l → a ∈ l.
Proof.
  unfold drop_CR. destruct (reverse l) as [|b r] eqn:Hr; [done|]. case_bool_decide; [|done].
  rewrite elem_of_reverse. intros Ha. apply elem_of_reverse. rewrite Hr. by right.
Qed.
Lemma trim_right_CR_sub l a : a ∈ trim_right_CR l → a ∈ l.
Proof. unfold trim_right_CR. rewrite elem_of_reverse. intros ?%drop_while_sub. by apply elem_of_reverse. Qed.

Lemma stream_lines_spec output line : line ∈ stream_lines output →
  blank line = false ∧ chr 10 ∉ chars line ∧ last (chars line) ≠ Some (chr 13).
Proof.
  unfold stream_lines. intros [Hb Hin]%list_elem_of_filter. split; [done|].
  apply list_elem_of_fmap in Hin as (l & -> & Hx). apply scan_sub in Hx as (x & Hx & Hl). rewrite chars_of_chars. split.
  - pose proof (split_l_clean (chr 10) (chars output)) as Hc. rewrite list.Forall_forall in Hc.
    intros Hn%trim_right_CR_sub. apply (Hc x Hx). destruct Hl as [Hl|Hl]; rewrite Hl in Hn; [done|]. by apply drop_CR_sub.
  - unfold trim_right_CR. rewrite last_reverse.
    assert (∀ P (k : list ascii) a, head (drop_while P k) = Some a → P a = false) as Hd.
    { intros P k a. induction k as [|b k IH]; [done|]. cbn. destruct (P b) eqn:Hp; [done|].
      by intros [= <-]. }
    intros Ha%Hd. rewrite bool_decide_true in Ha by done. discriminate.
Qed.

Example streamed :
  stream_lines ("one" +:+ of_chars [chr 13; chr 10] +:+ "  " +:+ newline +:+ newline +:+ "two" +:+ newline +:+ "three")
  = ["one"; "two"; "three"] ∧
  command "1" "journalctl" ["--follow"] =
    ("nsenter", ["-t"; "1"; "-m"; "-u"; "-i"; "-n"; "-p"; "--"; "journalctl"; "--follow"]).
Proof. vm_compute. split; reflexivity. Qed.
