(* ===== verification/Shell.v ===== *)
(** * Shell words

    internal/daemon/store.go's [shellQuote], and the part of the POSIX shell's
    word splitting it is written against: a string of bare, single-quoted and
    double-quoted pieces.  Text the shell would expand or take as an operator
    is no word here. *)

From S2P Require Import Prelude GoStrings.

Definition squote : ascii := "'"%char.
Definition dquote_c : ascii := chr 34.

(** The text between two quoted halves of a value: a quote of its own,
    double-quoted. *)
Definition quoted_squote : string := of_chars [squote; dquote_c; squote; dquote_c; squote].

Definition shellQuote (value : string) : string :=
  if bool_decide (value = "") then "''"
  else "'" +:+ replace_byte squote quoted_squote value +:+ "'".

(** Bytes that stand for themselves outside quotes. *)
Definition bare_byte (a : ascii) : bool :=
  is_upper a || is_lower a || is_digit a || bool_decide (a ∈ chars "_-./=:,+@%").

Inductive quoting := Bare | Single | Double.

(** The words of a command line; [word] is the word being read. *)
Fixpoint sh_words_l (q : quoting) (word : option (list ascii)) (l : list ascii)
    : option (list string) :=
  match l with
  | [] =>
      match q with
      | Bare => Some (of_chars <$> option_list word)
      | _ => None
      end
  | a :: l =>
      let keep q := sh_words_l q (Some (default [] word ++ [a])) l in
      match q with
      | Bare =>
          if bool_decide (a = " "%char) then
            words ← sh_words_l Bare None l; Some ((of_chars <$> option_list word) ++ words)
          else if bool_decide (a = squote) then sh_words_l Single (Some (default [] word)) l
          else if bool_decide (a = dquote_c) then sh_words_l Double (Some (default [] word)) l
          else if bare_byte a then keep Bare
          else None
      | Single => if bool_decide (a = squote) then sh_words_l Bare word l else keep Single
      | Double =>
          if bool_decide (a = dquote_c) then sh_words_l Bare word l
          else if bool_decide (a ∈ chars "$`\") then None
          else keep Double
      end
  end.

Definition sh_words (s : string) : option (list string) := sh_words_l Bare None (chars s).

(** A word the code writes out as it is. *)
Definition plain_word (s : string) : bool :=
  negb (bool_decide (s = "")) && forallb (λ a, bare_byte a) (chars s).

(* -------------------------------------------------------------------- *)
(** ** Lemmas *)

Lemma bare_byte_not a : bare_byte a = true → a ≠ " "%char ∧ a ≠ squote ∧ a ≠ dquote_c.
Proof. intros Ha. split_and!; intros ->; vm_compute in Ha; discriminate. Qed.

(** Inside single quotes every byte is kept; a quote is spelled out. *)
Lemma sh_words_quoted s word rest :
  sh_words_l Single (Some word)
    ((s ≫= λ a, if bool_decide (a = squote) then chars quoted_squote else [a]) ++ squote :: rest) =
  sh_words_l Bare (Some (word ++ s)) rest.
Proof.
  revert word. induction s as [|a s IH]; intros word; [by rewrite app_nil_r|].
  rewrite bind_cons, <-app_assoc. case_bool_decide as Ha.
  - subst a. etrans; [|etrans; [apply (IH (word ++ [squote]))|by rewrite <-app_assoc]]. done.
  - cbn [app sh_words_l]. rewrite bool_decide_false by done. cbn [default from_option id].
    rewrite IH. by rewrite <-app_assoc.
Qed.

Lemma sh_words_shellQuote s word rest :
  sh_words_l Bare word (chars (shellQuote s) ++ rest) =
  sh_words_l Bare (Some (default [] word ++ chars s)) rest.
Proof.
  unfold shellQuote. case_bool_decide as Hs.
  { subst s. cbn -[bool_decide]. by rewrite app_nil_r. }
  rewrite !chars_app. change (chars "'") with [squote].
  unfold replace_byte. rewrite chars_of_chars, <-!app_assoc. cbn [app].
  etrans; [|apply sh_words_quoted]. done.
Qed.

Lemma sh_words_bare s word rest : forallb (λ a, bare_byte a) (chars s) = true → s ≠ "" →
  sh_words_l Bare word (chars s ++ rest) = sh_words_l Bare (Some (default [] word ++ chars s)) rest.
Proof.
  intros Hs Hne. assert (chars s ≠ []) as Hne'.
  { intros Hn. apply Hne. by rewrite <-(of_chars_chars s), Hn. }
  clear Hne. revert word. induction (chars s) as [|a l IH]; intros word; [done|].
  cbn [forallb] in Hs. apply andb_true_iff in Hs as [Ha Hl].
  pose proof (bare_byte_not _ Ha) as (? & ? & ?).
  cbn [app sh_words_l]. rewrite !bool_decide_false, Ha by done.
  destruct l as [|b l]; [done|]. rewrite IH by done. cbn [default from_option id].
  by rewrite <-app_assoc.
Qed.

(** A word ends at a space. *)
Lemma sh_words_space word rest :
  sh_words_l Bare (Some word) (" "%char :: rest) =
  words ← sh_words_l Bare None rest; Some (of_chars word :: words).
Proof. done. Qed.

(** One argument of a command line: written bare, or quoted. *)
Inductive sh_arg := BareArg (s : string) | QuotedArg (s : string).
Definition arg_text (a : sh_arg) : string :=
  match a with BareArg s => s | QuotedArg s => shellQuote s end.
Definition arg_value (a : sh_arg) : string :=
  match a with BareArg s | QuotedArg s => s end.
Definition arg_ok (a : sh_arg) : bool :=
  match a with BareArg s => plain_word s | QuotedArg _ => true end.

Lemma sh_words_arg a rest : arg_ok a = true →
  sh_words_l Bare None (chars (arg_text a) ++ rest) = sh_words_l Bare (Some (chars (arg_value a))) rest.
Proof.
  destruct a as [s|s]; cbn [arg_ok arg_text arg_value].
  - unfold plain_word. intros [Hne Hs]%andb_true_iff.
    apply negb_true_iff, bool_decide_eq_false in Hne. by rewrite sh_words_bare.
  - intros _. by rewrite sh_words_shellQuote.
Qed.

(** A command line of such arguments is read back as their values. *)
Lemma sh_words_join args : forallb arg_ok args = true →
  sh_words (join (arg_text <$> args) " ") = Some (arg_value <$> args).
Proof.
  unfold sh_words. induction args as [|a args IH]; [done|]. cbn [forallb].
  intros [Ha Hargs]%andb_true_iff. specialize (IH Hargs). destruct args as [|b args].
  { cbn [fmap list_fmap]. change (join [arg_text a] " ") with (arg_text a).
    rewrite <-(app_nil_r (chars (arg_text a))), sh_words_arg by done. cbn.
    by rewrite of_chars_chars. }
  rewrite !fmap_cons.
  change (join (arg_text a :: arg_text b :: (arg_text <$> args)) " ")
    with (arg_text a +:+ " " +:+ join (arg_text b :: (arg_text <$> args)) " ").
  rewrite !chars_app, sh_words_arg by done. change (chars " ") with [" "%char]. cbn [app].
  rewrite sh_words_space. rewrite !fmap_cons in IH. rewrite IH. cbn. by rewrite of_chars_chars.
Qed.

(* -------------------------------------------------------------------- *)
(** ** Theorems *)

(** Whatever a value holds - quotes, blanks, operators, expansions -
    quoting it makes it exactly one word of a shell command that reads back
    as the value, glued to whatever is written next to it and leaving the rest
    of the command line as it was. *)
Theorem shellQuote_one_word value rest :
  sh_words (shellQuote value) = Some [value] ∧
  sh_words (shellQuote value +:+ " " +:+ rest) = words ← sh_words rest; Some (value :: words).
Proof.
  split.
  - by apply (sh_words_join [QuotedArg value]).
  - unfold sh_words. rewrite !chars_app, sh_words_shellQuote. cbn [default from_option id app].
    change (chars " ") with [" "%char]. cbn [app]. rewrite sh_words_space.
    by rewrite of_chars_chars.
Qed.

Example shellQuote_hostile :
  sh_words ("thunder up --zone " +:+ shellQuote "a'; reboot #") =
  Some ["thunder"; "up"; "--zone"; "a'; reboot #"].
Proof. vm_compute. reflexivity. Qed.
