(* ===== verification/Host.v ===== *)
(** * Daemon: the node and the services around it

    What the reconcile loop calls: commands and files on the node
    (internal/daemon/runner.go's [commandRunner], [fileExists]), the
    Kubernetes node object (node.go), the Thunder API through the SDK, the
    libthunder cache and the kubelet plugin.  Replies are arbitrary. *)

From S2P Require Import Prelude GoStrings Driver DaemonConfig.

(** [NodeInfo]: the subset of a Kubernetes Node the daemon needs. *)
Record NodeInfo := {
  ni_Labels : gmap string string;
  ni_InternalIP : string;
  ni_ExternalIP : string
}.

Definition NodeIP (n : NodeInfo) : string := firstNonEmpty [ni_InternalIP n; ni_ExternalIP n].

(** The node object [decodeNodeInfo] decodes the response body into. *)
Record address := Address { addr_Type : string; addr_Address : string }.
Record node_object := NodeObject {
  node_Labels : gmap string string;
  node_Addresses : list address
}.

Definition decode_address (info : NodeInfo) (a : address) : NodeInfo :=
  let value := trim_space (addr_Address a) in
  if bool_decide (value = "") then info
  else if bool_decide (addr_Type a = "InternalIP") then
    if bool_decide (ni_InternalIP info = "")
    then {| ni_Labels := ni_Labels info; ni_InternalIP := value; ni_ExternalIP := ni_ExternalIP info |}
    else info
  else if bool_decide (addr_Type a = "ExternalIP") then
    if bool_decide (ni_ExternalIP info = "")
    then {| ni_Labels := ni_Labels info; ni_InternalIP := ni_InternalIP info; ni_ExternalIP := value |}
    else info
  else info.

Definition node_info (node : node_object) : NodeInfo :=
  foldl decode_address
    {| ni_Labels := node_Labels node; ni_InternalIP := ""; ni_ExternalIP := "" |}
    (node_Addresses node).

(** A zone as the SDK lists it. *)
Record Zone := MkZone { zone_ZoneID : string; zone_DisplayName : string }.

(** The SDK's [CreateServerEnrollment] response. *)
Record ServerEnrollment := Enrollment { en_Token : string; en_TokenID : string }.

(** The SDK's [ServerEnrollmentCommandRequest]. *)
Record ServerEnrollmentCommandRequest := {
  cr_EnrollmentToken : string;
  cr_IP : string;
  cr_Zone : string;
  cr_PortRange : string;
  cr_ServerName : string
}.

(** [LibthunderCache]: where the client library is cached and what pins it. *)
Record LibthunderCache := {
  lc_Dir : string;
  lc_InstallURL : string;
  lc_URL : string;
  lc_SHA256 : string;
  lc_ArtifactBaseURL : string
}.

(** [thunderStatus], the fields the daemon reads. *)
Record diagnostic := Diagnostic { dg_Severity : string; dg_Message : string; dg_Action : string }.
Record thunderStatus := {
  ts_Service : string;
  ts_Active : string;
  ts_SubState : string;
  ts_LocalAPIHealthy : bool;
  ts_LocalAPIError : string;
  ts_AuthTokenConfigured : bool;
  ts_ConfigError : string;
  ts_Healthy : bool;
  ts_Warnings : list string;
  ts_Diagnostics : list diagnostic
}.

(** Code of other repositories and [encoding/json]: the SDK's installer
    command line, and the decoding of a response body. *)
Class HostLibs := {
  ServerEnrollmentCommand : ServerEnrollmentCommandRequest → string;
  json_status : string → result thunderStatus;
  json_node : string → result node_object
}.

Definition decodeNodeInfo `{HostLibs} (body : string) : result NodeInfo :=
  match json_node body with
  | Err e => Err (wrap "decode node response" e)
  | Ok node => Ok (node_info node)
  end.

(** The calls of the reconcile loop.  [Wait] is its select on the timer and
    the context: true when the context was cancelled; [Cancelled] asks the
    context. *)
Inductive host_ev :=
  | ReadNode (name : string)
  | ListZones
  | CreateZone (displayName : string)
  | FileExists (path : string)
  | CombinedOutput (name : string) (args : list string)
  | RunShell (label command : string)
  | CreateServerEnrollment (zoneID : string)
  | LibthunderEnsure (cache : LibthunderCache)
  | StartPlugin (cfg : Config) (zoneID : string)
  | Wait (delay : Z)
  | Cancelled.

Definition host_resp (e : host_ev) : Type :=
  match e with
  | ReadNode _ => result NodeInfo
  | ListZones => result (list Zone)
  | CreateZone _ | RunShell _ _ | StartPlugin _ _ => result unit
  | FileExists _ | Wait _ | Cancelled => bool
  | CombinedOutput _ _ => string * option error
  | CreateServerEnrollment _ => result ServerEnrollment
  | LibthunderEnsure _ => result string
  end.

Definition host_sig : sig := Sig host_ev host_resp.
Definition hcall (e : host_ev) : prog host_sig (host_resp e) := call (S:=host_sig) e.
Abbreviation hev := (Ev (S:=host_sig)).

(* -------------------------------------------------------------------- *)
(** ** Lemmas *)

Lemma wp_hcall {B} (G : list (event host_sig) → host_ev → Prop) pre e
    (f : host_resp e → prog host_sig B) Q :
  G pre e → (∀ r, wp G (pre ++ [hev e r]) (f r) Q) → wp G pre (hcall e ≫= f) Q.
Proof. by split. Qed.

Lemma exec_hcall {B} e (f : host_resp e → prog host_sig B) tr b :
  exec (hcall e ≫= f) tr b ↔ ∃ r tr', tr = hev e r :: tr' ∧ exec (f r) tr' b.
Proof. done. Qed.

(** The first address of a type that is not blank. *)
Definition first_address (type : string) (l : list address) : string :=
  default "" (trim_space ∘ addr_Address <$>
    find (λ a, negb (blank (addr_Address a)) && bool_decide (addr_Type a = type)) l).

Lemma node_info_fold l info :
  foldl decode_address info l =
  {| ni_Labels := ni_Labels info;
     ni_InternalIP := if bool_decide (ni_InternalIP info = "") then first_address "InternalIP" l
                      else ni_InternalIP info;
     ni_ExternalIP := if bool_decide (ni_ExternalIP info = "") then first_address "ExternalIP" l
                      else ni_ExternalIP info |}.
Proof.
  revert info. induction l as [|a l IH]; intros [labels internal external].
  { cbn. do 2 case_bool_decide; by subst. }
  cbn [foldl]. rewrite IH. unfold decode_address, first_address.
  cbn [ni_Labels ni_InternalIP ni_ExternalIP find].
  change (blank (addr_Address a)) with (bool_decide (trim_space (addr_Address a) = "")).
  repeat case_bool_decide; cbn [negb andb ni_Labels ni_InternalIP ni_ExternalIP fmap option_fmap
    option_map default from_option id compose]; try done; congruence.
Qed.

Lemma firstNonEmpty_spec l :
  (firstNonEmpty l = "" ∧ Forall (λ v, blank v = true) l) ∨
  (∃ l1 v l2, l = l1 ++ v :: l2 ∧ Forall (λ v, blank v = true) l1 ∧ blank v = false ∧
     firstNonEmpty l = trim_space v).
Proof.
  unfold firstNonEmpty. induction l as [|v l IH]; [by left|]. cbn [find].
  destruct (blank v) eqn:Hv; cbn [negb].
  - destruct IH as [[H1 H2]|(l1 & w & l2 & -> & ? & ? & ?)]; [left; by split; [|constructor]|].
    right. exists (v :: l1), w, l2. split_and!; [done|by constructor|done..].
  - right. exists [], v, l. by split_and!.
Qed.

Lemma firstNonEmpty_empty l : firstNonEmpty l = "" ↔ Forall (λ v, blank v = true) l.
Proof.
  destruct (firstNonEmpty_spec l) as [[? ?]|(l1 & v & l2 & -> & _ & Hv & ->)]; [done|].
  rewrite blank_false in Hv. split; [done|]. rewrite Forall_app, Forall_cons, trim_space_blank. naive_solver.
Qed.

Lemma first_address_blank type l : blank (first_address type l) = true ↔
  ∀ a, a ∈ l → addr_Type a = type → blank (addr_Address a) = true.
Proof.
  unfold first_address. induction l as [|a l IH]; cbn [find].
  { split; [|done]. by intros _ a ?%not_elem_of_nil. }
  destruct (blank (addr_Address a)) eqn:Hb; cbn [negb andb].
  { rewrite IH. setoid_rewrite elem_of_cons. naive_solver. }
  case_bool_decide as Ht; [|rewrite IH; setoid_rewrite elem_of_cons; naive_solver].
  cbn. rewrite blank_trim, Hb. split; [done|]. intros Hall. rewrite <-Hb. by apply Hall; [left|].
Qed.

(* -------------------------------------------------------------------- *)
(** ** Theorems *)

(** The addresses decoded from a node object are, for either type, its
    first address of that type that is not blank, trimmed; the address the
    node is advertised at by default is the internal one, or else the external
    one, and is missing only when the node has neither. *)
Theorem node_info_addresses node :
  ni_Labels (node_info node) = node_Labels node ∧
  ni_InternalIP (node_info node) = first_address "InternalIP" (node_Addresses node) ∧
  ni_ExternalIP (node_info node) = first_address "ExternalIP" (node_Addresses node) ∧
  (NodeIP (node_info node) = "" ↔
    ∀ a, a ∈ node_Addresses node → addr_Type a = "InternalIP" ∨ addr_Type a = "ExternalIP" →
      blank (addr_Address a) = true).
Proof.
  unfold node_info. rewrite node_info_fold. cbn [ni_Labels ni_InternalIP ni_ExternalIP].
  rewrite !bool_decide_true by done. split_and!; [done..|]. unfold NodeIP.
  cbn [ni_InternalIP ni_ExternalIP].
  rewrite firstNonEmpty_empty, !Forall_cons, !first_address_blank. naive_solver.
Qed.
