(* ===== verification/NodeReader.v ===== *)
(** * Daemon: reading the node object

    internal/daemon/node.go's kubernetesNodeInfoReader: one request to the API
    server, authenticated with the pod's service account, before any client
    library is set up. *)

From S2P Require Import Prelude GoStrings Float64 Labels ResourceSlice Driver DaemonConfig Host.

Definition ServiceAccountToken : string := "/var/run/secrets/kubernetes.io/serviceaccount/token".
Definition ServiceAccountCA : string := "/var/run/secrets/kubernetes.io/serviceaccount/ca.crt".
Definition maxResponseSize : Z := 10485760.

(** [url.PathEscape]. *)
Definition path_segment_byte (a : ascii) : bool :=
  is_lower a || is_upper a || is_digit a ||
  bool_decide (a ∈ ["-"; "_"; "."; "~"; "$"; "&"; "+"; ":"; "="; "@"]%char).
Definition upper_nibble (n : N) : ascii := if (n <? 10)%N then chr (48 + n) else chr (55 + n).
Definition PathEscape (s : string) : string :=
  of_chars (chars s ≫= λ a,
    if path_segment_byte a then [a]
    else ["%"%char; upper_nibble (code a / 16); upper_nibble (code a mod 16)]).

(** A GET over TLS to a server that a certificate of [nr_Roots] vouches for. *)
Record node_request := NodeRequest {
  nr_Roots : string;
  nr_URL : string;
  nr_Authorization : string;
  nr_Accept : string
}.
Record node_response := NodeResponse { ns_Code : Z; ns_Status : string }.

Inductive reader_ev :=
  | ReadAccount (path : string)
  | NewNodeRequest (url : string)
  | GetNode (request : node_request)
  | ReadNodeBody (limit : Z).
Definition reader_resp (e : reader_ev) : Type :=
  match e with
  | ReadAccount _ | ReadNodeBody _ => result string
  | NewNodeRequest _ => result unit
  | GetNode _ => result node_response
  end.
Definition reader_sig : sig := Sig reader_ev reader_resp.
Definition rcall (e : reader_ev) : prog reader_sig (reader_resp e) := call (S:=reader_sig) e.

(** crypto/x509: whether a PEM text holds a certificate. *)
Class Certificates := { AppendCertsFromPEM : string → bool }.

Section reader.
Context `{HostLibs, Certificates} (lookup : string → option string).

Definition node_url (host nodeName : string) : string :=
  "https://" +:+ host +:+ ":" +:+ optionalEnv lookup "KUBERNETES_SERVICE_PORT" "443" +:+
  "/api/v1/nodes/" +:+ PathEscape nodeName.

Definition fetch_node (nodeName : string) : prog reader_sig (result NodeInfo) :=
  match lookup "KUBERNETES_SERVICE_HOST" with
  | None => mret (Err (ErrText "KUBERNETES_SERVICE_HOST is not set"))
  | Some host =>
      if blank host then mret (Err (ErrText "KUBERNETES_SERVICE_HOST is not set"))
      else
        let? token := rcall (ReadAccount ServiceAccountToken) or wrap "read service account token" in
        let? ca := rcall (ReadAccount ServiceAccountCA) or wrap "read service account CA" in
        if negb (AppendCertsFromPEM ca) then
          mret (Err (ErrText "service account CA bundle did not contain a PEM certificate"))
        else
          let endpoint := node_url host nodeName in
          let? _ := rcall (NewNodeRequest endpoint) or wrap "create node request" in
          let? response := rcall (GetNode (NodeRequest ca endpoint ("Bearer " +:+ trim_space token)
              "application/json"))
            or wrap "get node from kubernetes API" in
          let? body := rcall (ReadNodeBody maxResponseSize) or wrap "read node response" in
          if (ns_Code response <? 200)%Z || (300 <=? ns_Code response)%Z then
            mret (Err (ErrText ("kubernetes API returned " +:+ ns_Status response +:+ ": " +:+ trim_space body)))
          else mret (decodeNodeInfo body)
  end.

Abbreviation rev := (Ev (S:=reader_sig)).

Definition sent (tr : list (event reader_sig)) : list node_request :=
  omap (λ x : event reader_sig, match evt_call x with GetNode rq => Some rq | _ => None end) tr.

Lemma exec_rcall {B} e (f : reader_resp e → prog reader_sig B) tr b :
  exec (rcall e ≫= f) tr b ↔ ∃ r tr', tr = rev e r :: tr' ∧ exec (f r) tr' b.
Proof. done. Qed.

(** C26: reading the node sends the service account's token at most once, over
    TLS to the API server of the cluster's environment, whose certificate the
    account's CA bundle vouches for - never with a bundle that holds no
    certificate - and for the node's own object, whatever its name; and it
    reports a node only from the body of a successful response. *)
Theorem fetch_node_safe nodeName tr r : exec (fetch_node nodeName) tr r →
  (∀ rq, rq ∈ sent tr → ∃ host token ca,
     lookup "KUBERNETES_SERVICE_HOST" = Some host ∧ blank host = false ∧
     rev (ReadAccount ServiceAccountToken) (Ok token) ∈ tr ∧
     rev (ReadAccount ServiceAccountCA) (Ok ca) ∈ tr ∧ AppendCertsFromPEM ca = true ∧
     rq = NodeRequest ca (node_url host nodeName) ("Bearer " +:+ trim_space token) "application/json") ∧
  (length (sent tr) ≤ 1)%nat ∧
  (∀ info, r = Ok info → ∃ rq response body,
     rev (GetNode rq) (Ok response) ∈ tr ∧ (200 ≤ ns_Code response ≤ 299)%Z ∧
     rev (ReadNodeBody maxResponseSize) (Ok body) ∈ tr ∧ decodeNodeInfo body = Ok info).
Proof.
  unfold fetch_node. destruct (lookup "KUBERNETES_SERVICE_HOST") as [host|]; [|intros [-> ->]; by split_and!; [set_solver|cbn; lia|]].
  destruct (blank host) eqn:Hb; [intros [-> ->]; by split_and!; [set_solver|cbn; lia|]|]. unfold orfail.
  intros ([token|?] & ? & -> & Hx)%exec_rcall; cbn [mbind prog_bind prog_bind_def] in Hx;
    [|destruct Hx as [-> ->]; split_and!; [cbn; set_solver|cbn; lia|done]].
  apply exec_rcall in Hx as ([ca|?] & ? & -> & Hx); cbn [mbind prog_bind prog_bind_def] in Hx;
    [|destruct Hx as [-> ->]; split_and!; [cbn; set_solver|cbn; lia|done]].
  destruct (AppendCertsFromPEM ca) eqn:Hca; cbn [negb] in Hx;
    [|destruct Hx as [-> ->]; split_and!; [cbn; set_solver|cbn; lia|done]].
  apply exec_rcall in Hx as ([[]|?] & ? & -> & Hx); cbn [mbind prog_bind prog_bind_def] in Hx;
    [|destruct Hx as [-> ->]; split_and!; [cbn; set_solver|cbn; lia|done]].
  apply exec_rcall in Hx as (answer & tr4 & -> & Hx); cbn [mbind prog_bind prog_bind_def] in Hx.
  assert (sent tr4 = [] ∧ ∀ info, r = Ok info → ∃ response body, answer = Ok response ∧
    (200 ≤ ns_Code response ≤ 299)%Z ∧ rev (ReadNodeBody maxResponseSize) (Ok body) ∈ tr4 ∧
    decodeNodeInfo body = Ok info) as [Hs Hok].
  { destruct answer as [response|?]; [|by destruct Hx as [-> ->]].
    apply exec_rcall in Hx as ([body|?] & ? & -> & Hx); cbn [mbind prog_bind prog_bind_def] in Hx;
      [|by destruct Hx as [-> ->]].
    destruct (_ || _) eqn:Hcode; destruct Hx as [-> ->]; [done|]. split; [done|].
    intros info Hinfo. exists response, body. split_and!; [done|lia|lia|by left|done]. }
  unfold sent in *. cbn [omap list_omap evt_call]. rewrite Hs. split_and!.
  - intros rq ->%list_elem_of_singleton. exists host, token, ca. split_and!; try done; set_solver.
  - done.
  - intros info Hinfo. destruct (Hok info Hinfo) as (response & body & -> & Hc & Hin & Hd).
    eexists _, response, body. split_and!; [do 3 right; by left|lia|lia|by do 4 right|done].
Qed.
End reader.

Section witnesses.

Definition cluster_env (key : string) : option string :=
  if bool_decide (key = "KUBERNETES_SERVICE_HOST") then Some "10.0.0.1" else None.
Definition sample_node_libs : HostLibs :=
  {| ServerEnrollmentCommand _ := ""; json_status _ := Err (ErrLib "json");
     json_node _ := Ok (NodeObject ∅ []) |}.
Definition any_certificate : Certificates := {| AppendCertsFromPEM pem := bool_decide (pem ≠ "") |}.
Definition api_handler : handler reader_sig unit := λ e w,
  match e return reader_resp e * unit with
  | ReadAccount _ => (Ok "text", w)
  | NewNodeRequest _ => (Ok tt, w)
  | GetNode _ => (Ok (NodeResponse 200 "200 OK"), w)
  | ReadNodeBody _ => (Ok "{}", w)
  end.
Definition sample_fetch : prog reader_sig (result NodeInfo) :=
  @fetch_node sample_node_libs any_certificate cluster_env "node/1".

Lemma fetch_node_safe_witness :
  ∃ tr info, exec sample_fetch tr (Ok info) ∧
    nr_URL <$> sent tr = ["https://10.0.0.1:443/api/v1/nodes/node%2F1"] ∧ (length (sent tr) ≤ 1)%nat.
Proof.
  pose proof (run_exec api_handler sample_fetch tt) as Hx.
  assert (is_ok (run api_handler sample_fetch tt).1 = true) as Hok by (vm_compute; reflexivity).
  destruct (run api_handler sample_fetch tt).1 as [info|]; [|discriminate Hok].
  exists (trace api_handler sample_fetch tt), info. split; [exact Hx|].
  split; [vm_compute; reflexivity|].
  exact (proj1 (proj2 (@fetch_node_safe sample_node_libs any_certificate cluster_env
    "node/1" _ _ Hx))).
Defined.
End witnesses.
