(* ===== verification/Libthunder.v ===== *)
(** * Daemon: the libthunder cache

    internal/daemon/libthunder.go: which build of libthunder.so a node should
    have, and downloading it once per node with its digest verified before it
    is published. *)

From S2P Require Import Prelude GoStrings Sha256 DaemonConfig Host GoPath OS ClientConfig.

Definition libthunderCacheSubdir : string := "lib".
Definition libthunderSizeLimit : Z := 536870912.
Definition libthunderLockFile : string := ".download.lock".

Record LibthunderArtifact := Artifact { la_URL : string; la_SHA256 : string }.

(** The submatch of a pattern [prefix(class+)suffix] with [check] on the text
    between, leftmost match first: at every occurrence of the prefix, the run
    of class bytes that follows must be ended by the suffix. *)
Fixpoint find_submatch (prefix : list ascii) (class : ascii → bool) (check : nat → bool)
    (suffix : list ascii) (l : list ascii) : option (list ascii) :=
  let here :=
    match drop_prefix_l prefix l with
    | None => None
    | Some rest =>
        let after := drop_while class rest in
        let body := take (length rest - length after) rest in
        if check (length body) && bool_decide (is_Some (drop_prefix_l suffix after))
        then Some body else None
    end in
  match here with
  | Some body => Some body
  | None =>
      match l with
      | [] => None
      | _ :: l => find_submatch prefix class check suffix l
      end
  end.

(** The two patterns' submatches. *)
Definition sha_prefix : string := "libthunder_sha256=" +:+ dquote.
Definition find_sha (installer : string) : option string :=
  of_chars <$> find_submatch (chars sha_prefix) is_hex (λ n, (n =? 64)%nat) (chars dquote)
                 (chars installer).
Definition find_base (installer : string) : option string :=
  of_chars <$> find_submatch (chars "default_artifact_base_url='") (λ a, negb (bool_decide (a = "'"%char)))
                 (λ n, (1 <=? n)%nat) (chars "'") (chars installer).

Definition parseLibthunderArtifact (installer baseOverride : string) : result LibthunderArtifact :=
  match find_sha installer with
  | None => Err (ErrText "installer does not pin libthunder_sha256")
  | Some sha =>
      let base := trim_space baseOverride in
      let artifact base := Artifact (trim_suffix base "/" +:+ "/libthunder.so") sha in
      if bool_decide (base = "") then
        match find_base installer with
        | None => Err (ErrText "installer does not declare default_artifact_base_url")
        | Some base => Ok (artifact base)
        end
      else Ok (artifact base)
  end.

Definition installURL (c : LibthunderCache) : string :=
  if negb (blank (lc_InstallURL c)) then trim_space (lc_InstallURL c) else DefaultThunderInstallURL.

Definition get_request (url : string) : http_request := HTTPRequest "GET" url [] "".

Definition fetchInstaller (c : LibthunderCache) : prog os_sig (result string) :=
  let? _ := ocall (NewRequest (get_request (installURL c))) or wrap "build installer request" in
  let? response := ocall (HTTPDo (get_request (installURL c)))
    or wrap ("fetch installer " +:+ installURL c) in
  if bool_decide (st_Code response ≠ 200%Z) then
    mret (Err (ErrText ("fetch installer " +:+ installURL c +:+ ": unexpected status " +:+
                        st_Text response)))
  else
    let? body := ocall (ReadBody installerReadLimit) or wrap ("read installer " +:+ installURL c) in
    mret (Ok body).

(** [Resolve], with the answer it memoises passed in and out. *)
Definition Resolve (c : LibthunderCache) (resolved : option LibthunderArtifact)
    : prog os_sig (result LibthunderArtifact * option LibthunderArtifact) :=
  match resolved with
  | Some artifact => mret (Ok artifact, resolved)
  | None =>
      if negb (blank (lc_URL c)) && negb (blank (lc_SHA256 c)) then
        let artifact := Artifact (trim_space (lc_URL c)) (trim_space (lc_SHA256 c)) in
        mret (Ok artifact, Some artifact)
      else
        installer ← fetchInstaller c;
        match installer with
        | Err e => mret (Err e, None)
        | Ok installer =>
            match parseLibthunderArtifact installer (lc_ArtifactBaseURL c) with
            | Err e => mret (Err (ErrWrap "" e (" (installer " +:+ installURL c +:+ ")")), None)
            | Ok artifact => mret (Ok artifact, Some artifact)
            end
        end
  end.

(** [Path]. *)
Definition cache_path (c : LibthunderCache) (artifact : LibthunderArtifact) : string :=
  path_Join [lc_Dir c; libthunderCacheSubdir; "libthunder-" +:+ la_SHA256 artifact +:+ ".so"].

Definition cached (path : string) : prog os_sig bool :=
  info ← ocall (Stat path);
  match info with Ok info => mret (0 <? fi_Size info)%Z | Err _ => mret false end.

(** The digest, the mode and the name of a download. *)
Definition verify_publish (artifact : LibthunderArtifact) (path tempName data : string)
    : prog os_sig (result string) :=
  let? _ := ocall (CloseTemp tempName) or wrap "close libthunder temp file" in
  let got := sha256_hex data in
  if bool_decide (got ≠ la_SHA256 artifact) then
    mret (Err (ErrText ("libthunder digest mismatch: downloaded " +:+ got +:+ ", expected " +:+
                        la_SHA256 artifact)))
  else
    let? _ := ocall (Chmod tempName 493) or wrap "chmod libthunder" in
    let? _ := ocall (Rename tempName path) or wrap "publish libthunder" in
    mret (Ok path).

Definition download (artifact : LibthunderArtifact) (path : string) : prog os_sig (result string) :=
  let request := get_request (la_URL artifact) in
  let? _ := ocall (NewRequest request) or wrap "build libthunder request" in
  let? response := ocall (HTTPDo request) or wrap ("download " +:+ la_URL artifact) in
  if bool_decide (st_Code response ≠ 200%Z) then
    mret (Err (ErrText ("download " +:+ la_URL artifact +:+ ": unexpected status " +:+
                        st_Text response)))
  else
    let? tempName := ocall (CreateTemp (path_Dir path) ".libthunder-*")
      or wrap "create libthunder temp file" in
    copied ← ocall (CopyBody libthunderSizeLimit tempName);
    r ← (match copied with
         | Err e => _ ← ocall (CloseTemp tempName); mret (Err (wrap "write libthunder" e))
         | Ok data => verify_publish artifact path tempName data
         end);
    _ ← ocall (Remove tempName);
    mret r.

(** [Ensure] of a resolved build. *)
Definition ensure_artifact (c : LibthunderCache) (artifact : LibthunderArtifact)
    : prog os_sig (result string) :=
  let path := cache_path c artifact in
  found ← cached path;
  if found : bool then mret (Ok path)
  else
    let? _ := ocall (MkdirAll (path_Dir path) 493) or wrap "create libthunder cache dir" in
    let lock := path_Join [path_Dir path; libthunderLockFile] in
    let? _ := lockFile lock "libthunder cache" or id in
    found ← cached path;
    r ← (if found : bool then mret (Ok path) else download artifact path);
    _ ← ocall (Unlock lock);
    mret r.

Definition Ensure (c : LibthunderCache) (resolved : option LibthunderArtifact)
    : prog os_sig (result string * option LibthunderArtifact) :=
  found ← Resolve c resolved;
  match found with
  | (Err e, resolved) => mret (Err e, resolved)
  | (Ok artifact, resolved) => r ← ensure_artifact c artifact; mret (r, resolved)
  end.

(* -------------------------------------------------------------------- *)
(** ** What reaches the cache *)

Definition lock_of (path : string) : string := path_Join [path_Dir path; libthunderLockFile].

(** The lock is held: it was granted and not given back. *)
Definition holding (lock : string) (pre : list (event os_sig)) : Prop :=
  oev (Flock lock) (Ok tt) ∈ pre ∧ oev (Unlock lock) tt ∉ pre.

(** A temporary file with the whole of a download of the right digest. *)
Definition verified (artifact : LibthunderArtifact) (pre : list (event os_sig)) (temp : string) : Prop :=
  ∃ data, oev (CopyBody libthunderSizeLimit temp) (Ok data) ∈ pre ∧
    sha256_hex data = la_SHA256 artifact ∧ oev (CloseTemp temp) (Ok tt) ∈ pre.

(** The calls that ensuring a build at [path] may make. *)
Definition ensure_may (path : string) (artifact : LibthunderArtifact) (pre : list (event os_sig))
    (e : os_ev) : Prop :=
  match e with
  | Stat p => p = path
  | MkdirAll p _ => p = path_Dir path
  | OpenLock p | Flock p => p = lock_of path
  | NewRequest rq | HTTPDo rq => rq = get_request (la_URL artifact) ∧ holding (lock_of path) pre
  | CreateTemp dir _ => dir = path_Dir path ∧ holding (lock_of path) pre
  | CopyBody _ temp | CloseTemp temp | Chmod temp _ | Remove temp =>
      oev (CreateTemp (path_Dir path) ".libthunder-*") (Ok temp) ∈ pre ∧ holding (lock_of path) pre
  | Rename temp target => target = path ∧ verified artifact pre temp ∧ holding (lock_of path) pre
  | Unlock p => p = lock_of path ∧
      ∀ temp, oev (CreateTemp (path_Dir path) ".libthunder-*") (Ok temp) ∈ pre →
        ∃ r, oev (Remove temp) r ∈ pre
  | _ => False
  end.

(** The library is at [path]: it was there, or it was published. *)
Definition in_place (path : string) (tr : list (event os_sig)) : Prop :=
  (∃ info, oev (Stat path) (Ok info) ∈ tr ∧ (0 < fi_Size info)%Z) ∨
  ∃ temp, oev (Rename temp path) (Ok tt) ∈ tr.

Lemma holding_snoc lock pre e r : holding lock pre → (e = Unlock lock → False) →
  holding lock (pre ++ [oev e r]).
Proof.
  intros [Hf Hu] He. split; [apply elem_of_app; by left|].
  rewrite not_elem_of_app. split; [done|]. intros Hin%list_elem_of_singleton.
  apply He. by apply (f_equal evt_call) in Hin.
Qed.

Lemma holding_locked lock pre : oev (Unlock lock) tt ∉ pre →
  holding lock (pre ++ [oev (Flock lock) (Ok tt)]).
Proof.
  intros Hu. split; [apply elem_of_last|]. rewrite not_elem_of_app. split; [done|].
  by intros Hin%list_elem_of_singleton%(f_equal evt_call).
Qed.

Lemma in_place_mono path tr tr' : in_place path tr → in_place path (tr ++ tr').
Proof.
  intros [(info & Hin & Hs)|[temp Hin]]; [left; exists info|right; exists temp];
    repeat split; try done; apply elem_of_app; by left.
Qed.

Definition temp_reply (x : event os_sig) : option (result string) :=
  match evt_call x as e return os_resp e → option (result string) with
  | CreateTemp _ _ => λ r, Some r
  | _ => λ _, None
  end (evt_reply x).

Section ensure.
Context (path : string) (artifact : LibthunderArtifact).
Abbreviation lock := (lock_of path).
Abbreviation may := (ensure_may path artifact).
Abbreviation created temp := (oev (CreateTemp (path_Dir path) ".libthunder-*") (Ok temp)).

(** Every temporary file is removed again, save those of [open]. *)
Definition temps_removed (open : list string) (pre : list (event os_sig)) : Prop :=
  ∀ temp, created temp ∈ pre → temp ∈ open ∨ ∃ r, oev (Remove temp) r ∈ pre.

Lemma temps_snoc open pre e r : temps_removed open pre →
  (∀ dir pattern, e ≠ CreateTemp dir pattern) → temps_removed open (pre ++ [oev e r]).
Proof.
  intros Ht He temp [Hin|Hin%list_elem_of_singleton]%elem_of_app.
  - destruct (Ht temp Hin) as [|[r' Hr]]; [by left|right; exists r']. apply elem_of_app. by left.
  - apply (f_equal evt_call) in Hin. cbn in Hin. by destruct (He _ _ (eq_sym Hin)).
Qed.

(** The result of a step under the lock. *)
Definition step_done (open : list string) (pre : list (event os_sig)) (r : result string) : Prop :=
  holding lock pre ∧ temps_removed open pre ∧ ∀ p, r = Ok p → p = path ∧ in_place path pre.

Lemma verify_publish_wp temp data pre :
  holding lock pre → temps_removed [temp] pre → created temp ∈ pre →
  oev (CopyBody libthunderSizeLimit temp) (Ok data) ∈ pre →
  wp may pre (verify_publish artifact path temp data) (step_done [temp]).
Proof.
  intros Hh Ht Hc Hd. unfold verify_publish, orfail. apply wp_ocall; [done|]. intros closed.
  assert (holding lock (pre ++ [oev (CloseTemp temp) closed])) as Hh1 by by apply holding_snoc.
  assert (temps_removed [temp] (pre ++ [oev (CloseTemp temp) closed])) as Ht1 by by apply temps_snoc.
  destruct closed as [[]|e]; [|done].
  destruct (bool_decide_reflect (sha256_hex data ≠ la_SHA256 artifact)) as [_|Hsha]; [done|].
  apply dec_stable in Hsha.
  apply wp_ocall; [split; [apply elem_of_app; by left|done]|]. intros changed.
  apply (holding_snoc _ _ (Chmod temp 493) changed) in Hh1; [|done].
  apply (temps_snoc _ _ (Chmod temp 493) changed) in Ht1; [|done].
  destruct changed as [[]|e]; [|done].
  apply wp_ocall.
  { split; [done|]. split; [|done]. exists data.
    split_and!; [| |rewrite !elem_of_app; left; right; by left]; [|done].
    rewrite !elem_of_app. auto. }
  intros renamed.
  apply (holding_snoc _ _ (Rename temp path) renamed) in Hh1; [|done].
  apply (temps_snoc _ _ (Rename temp path) renamed) in Ht1; [|done].
  destruct renamed as [[]|e]; [|done]. split_and!; [done|done|].
  intros p [= <-]. split; [done|]. right. exists temp. apply elem_of_last.
Qed.

Lemma download_wp pre : holding lock pre → temps_removed [] pre →
  wp may pre (download artifact path) (step_done []).
Proof.
  intros Hh Ht. unfold download, orfail. apply wp_ocall; [done|]. intros asked.
  apply (holding_snoc _ _ (NewRequest (get_request (la_URL artifact))) asked) in Hh; [|done].
  apply (temps_snoc _ _ (NewRequest (get_request (la_URL artifact))) asked) in Ht; [|done].
  destruct asked as [[]|e]; [|done].
  apply wp_ocall; [done|]. intros response.
  apply (holding_snoc _ _ (HTTPDo (get_request (la_URL artifact))) response) in Hh; [|done].
  apply (temps_snoc _ _ (HTTPDo (get_request (la_URL artifact))) response) in Ht; [|done].
  destruct response as [response|e]; [|done]. destruct (bool_decide _); [done|].
  apply wp_ocall; [done|]. intros temp.
  apply (holding_snoc _ _ (CreateTemp (path_Dir path) ".libthunder-*") temp) in Hh; [|done].
  set (pre1 := _ ++ [oev (CreateTemp _ _) temp]) in *.
  destruct temp as [temp|e].
  2:{ split_and!; [done| |done]. intros temp [Hin|Hin%list_elem_of_singleton]%elem_of_app.
      - destruct (Ht temp Hin) as [[]%not_elem_of_nil|[r Hr]]. right. exists r. apply elem_of_app. by left.
      - by apply (f_equal temp_reply) in Hin. }
  assert (created temp ∈ pre1) as Hc by apply elem_of_last.
  assert (temps_removed [temp] pre1) as Ht1.
  { intros temp' [Hin|Hin%list_elem_of_singleton]%elem_of_app.
    - destruct (Ht temp' Hin) as [[]%not_elem_of_nil|[r Hr]]. right. exists r. apply elem_of_app. by left.
    - apply (f_equal temp_reply) in Hin. injection Hin as ->. left. by left. }
  apply wp_ocall; [done|]. intros copied.
  apply (holding_snoc _ _ (CopyBody libthunderSizeLimit temp) copied) in Hh; [|done].
  apply (temps_snoc _ _ (CopyBody libthunderSizeLimit temp) copied) in Ht1; [|done].
  set (pre2 := pre1 ++ [_]) in *. assert (created temp ∈ pre2) as Hc2 by (apply elem_of_app; by left).
  rewrite wp_bind. eapply wp_strengthen with (Q1 := step_done [temp]).
  - destruct copied as [data|e].
    + apply verify_publish_wp; [done..|]. apply elem_of_last.
    + apply wp_ocall; [done|]. intros closed. split_and!; [by apply holding_snoc|by apply temps_snoc|done].
  - intros pre3 r Hsub (Hh3 & Ht3 & Hr).
    apply wp_ocall; [split; [by apply Hsub|done]|]. intros removed.
    split_and!; [by apply holding_snoc| |].
    + intros temp' [Hin|Hin%list_elem_of_singleton]%elem_of_app.
      * right. destruct (Ht3 temp' Hin) as [->%list_elem_of_singleton|[r' Hr']].
        { exists removed. apply elem_of_last. }
        exists r'. apply elem_of_app. by left.
      * by apply (f_equal evt_call) in Hin.
    + intros p Hp. destruct (Hr p Hp) as [-> Hin]. split; [done|]. by apply in_place_mono.
Qed.
End ensure.

Lemma cached_wp path artifact pre Q :
  (∀ r b, (b = true → ∃ info, r = Ok info ∧ (0 < fi_Size info)%Z) → Q (pre ++ [oev (Stat path) r]) b) →
  wp (ensure_may path artifact) pre (cached path) Q.
Proof.
  intros HQ. unfold cached. apply wp_ocall; [done|]. intros [info|e]; apply HQ; [|done].
  intros Hs%Z.ltb_lt. by exists info.
Qed.

(** What holds when a build was ensured, or could not be. *)
Definition ensured (path : string) (pre : list (event os_sig)) (r : result string) : Prop :=
  (∀ p, r = Ok p → p = path ∧ in_place path pre) ∧
  (∀ temp, oev (CreateTemp (path_Dir path) ".libthunder-*") (Ok temp) ∈ pre →
     ∃ r, oev (Remove temp) r ∈ pre) ∧
  ¬ holding (lock_of path) pre.

Definition granted (x : event os_sig) : Prop :=
  match evt_call x as e return os_resp e → Prop with
  | Flock _ => λ r, r = Ok tt
  | _ => λ _, False
  end (evt_reply x).
Definition creates_temp (x : event os_sig) : Prop :=
  match evt_call x with CreateTemp _ _ => True | _ => False end.

Lemma not_created path (pre : list (event os_sig)) :
  Forall (λ x, ¬ creates_temp x) pre → temps_removed path [] pre.
Proof. rewrite Forall_forall. intros Hp temp Hin. by destruct (Hp _ Hin). Qed.

Lemma not_holding lock (pre : list (event os_sig)) : Forall (λ x, ¬ granted x) pre → ¬ holding lock pre.
Proof. rewrite Forall_forall. intros Hp [Hin _]. by destruct (Hp _ Hin). Qed.

Lemma ensured_early path (pre : list (event os_sig)) r :
  Forall (λ x, ¬ creates_temp x) pre → Forall (λ x, ¬ granted x) pre →
  (∀ p, r = Ok p → p = path ∧ in_place path pre) → ensured path pre r.
Proof.
  intros Hc Hg Hr. split_and!; [done| |by apply not_holding].
  intros temp Hin. by apply (not_created path) in Hin as [[]%not_elem_of_nil|].
Qed.

(** Facts about each call of a known history. *)
Ltac each_call :=
  repeat first [apply Forall_nil_2 | apply Forall_cons_2;
    [let Hx := fresh in intros Hx; cbn in Hx; first [contradiction | discriminate]|]].
Ltac early := apply ensured_early; [each_call..|].

Lemma ensure_artifact_wp c artifact :
  let path := cache_path c artifact in
  wp (ensure_may path artifact) [] (ensure_artifact c artifact) (ensured path).
Proof.
  cbv zeta. set (path := cache_path c artifact). unfold ensure_artifact. fold path.
  rewrite wp_bind. apply cached_wp. intros r [] Hb.
  { destruct (Hb eq_refl) as (info & -> & Hs). early.
    intros p [= <-]. split; [done|]. left. exists info. split; [by left|done]. }
  unfold orfail. apply wp_ocall; [done|]. intros [[]|e]; [|by early].
  unfold lockFile, orfail. rewrite wp_bind. apply wp_ocall; [done|]. intros [[]|e]; [|by early].
  apply wp_ocall; [done|]. intros [[]|e]; [|by early].
  set (pre := _ ++ [oev (Flock _) (Ok tt)]). change (path_Join [path_Dir path; libthunderLockFile]) with (lock_of path).
  assert (holding (lock_of path) pre) as Hh.
  { apply holding_locked. intros Hin. apply elem_of_app in Hin as [Hin|Hin%list_elem_of_singleton];
      [|by apply (f_equal evt_call) in Hin].
    apply elem_of_app in Hin as [Hin|Hin%list_elem_of_singleton]; [|by apply (f_equal evt_call) in Hin].
    apply list_elem_of_singleton in Hin. by apply (f_equal evt_call) in Hin. }
  assert (temps_removed path [] pre) as Ht by (apply not_created; each_call).
  clearbody pre. cbn [wp mret prog_ret]. rewrite wp_bind. apply cached_wp. intros r2 b2 Hb2.
  apply (holding_snoc _ _ (Stat path) r2) in Hh; [|done].
  apply (temps_snoc path _ _ (Stat path) r2) in Ht; [|done].
  rewrite wp_bind. eapply wp_strengthen with (Q1 := step_done path []).
  { destruct b2; [|by apply download_wp]. destruct (Hb2 eq_refl) as (info & -> & Hs).
    split_and!; [done|done|]. intros p [= <-]. split; [done|]. left. exists info.
    split; [apply elem_of_last|done]. }
  intros pre' r' Hsub (Hh' & Ht' & Hr').
  assert (∀ temp, oev (CreateTemp (path_Dir path) ".libthunder-*") (Ok temp) ∈ pre' →
    ∃ r, oev (Remove temp) r ∈ pre') as Hrem.
  { intros temp Hin. by destruct (Ht' temp Hin) as [[]%not_elem_of_nil|]. }
  apply wp_ocall; [done|]. intros [].
  split_and!.
  - intros p Hp. destruct (Hr' p Hp) as [-> Hin]. split; [done|]. by apply in_place_mono.
  - intros temp [Hin|Hin%list_elem_of_singleton]%elem_of_app; [|by apply (f_equal evt_call) in Hin].
    destruct (Hrem temp Hin) as [r3 Hr3]. exists r3. apply elem_of_app. by left.
  - intros [_ Hu]. apply Hu, elem_of_last.
Qed.

(** C19: a library becomes the one of a build only when the bytes downloaded
    have the build's digest: the file is renamed into place after it was closed
    and its digest compared, under the node-wide lock, and whatever fails, the
    temporary file is removed and the lock given back; an answer is the path of
    the build, where the library was found or has just been published. *)
Theorem ensure_verified c artifact tr r :
  exec (ensure_artifact c artifact) tr r →
  let path := cache_path c artifact in
  ensured path tr r ∧
  ∀ tr1 e reply tr2, tr = tr1 ++ oev e reply :: tr2 → ensure_may path artifact tr1 e.
Proof. intros Hx. apply (wp_sound _ [] _ _ _ _ (ensure_artifact_wp c artifact)) in Hx. exact Hx. Qed.

(** A node whose server has the library. *)
Definition library_server (past : list http_request) (r : http_request) : result (http_status * string) :=
  Ok (HTTPStatus 200 "200 OK", "abc").
#[local] Instance no_such_file : FileErrors := {| os_IsNotExist := λ e, bool_decide (error_text e = "missing") |}.
#[refine] #[local] Instance no_such_file_server : FileServerErrors := {| not_exist_error := ErrLib "missing" |}.
Proof. reflexivity. Defined.
Definition library_artifact : LibthunderArtifact :=
  Artifact "https://get.example/libthunder.so" (sha256_hex "abc").
Definition library_cache : LibthunderCache :=
  {| lc_Dir := "/plugins/thunder"; lc_InstallURL := ""; lc_URL := ""; lc_SHA256 := "";
     lc_ArtifactBaseURL := "" |}.
Definition library_handler : handler os_sig fs := fs_handler library_server (λ _, None).

Lemma ensure_verified_witness :
  ∃ tr r, exec (ensure_artifact library_cache library_artifact) tr r ∧
    ensured (cache_path library_cache library_artifact) tr r ∧ is_ok r = true.
Proof.
  eexists _, _. pose proof (run_exec library_handler (ensure_artifact library_cache library_artifact)
    (FS ∅ ∅ [] "")) as Hx.
  split; [exact Hx|]. split; [exact (proj1 (ensure_verified _ _ _ _ Hx))|]. vm_compute. reflexivity.
Defined.

(** An installer's pin and where it is served from; a digest of the wrong
    length is none. *)
Example parse_artifact :
  let sha n := of_chars (replicate n "a"%char) in
  let installer n := "x libthunder_sha256=" +:+ dquote +:+ sha n +:+ dquote +:+ newline +:+
                     "default_artifact_base_url='https://get.example/'" in
  (parseLibthunderArtifact (installer 64%nat) "", parseLibthunderArtifact (installer 63%nat) "",
   parseLibthunderArtifact (installer 64%nat) " https://mirror ") =
  (Ok (Artifact "https://get.example/libthunder.so" (sha 64%nat)),
   Err (ErrText "installer does not pin libthunder_sha256"),
   Ok (Artifact "https://mirror/libthunder.so" (sha 64%nat))).
Proof. vm_compute. reflexivity. Qed.
