(* ===== verification/CDIHook.v ===== *)
(** * Daemon: the CDI hook

    internal/daemon/cdihook.go: the process the container runtime starts for
    every container of a claim, which enrolls the claim's client once and
    writes the library and the client's configuration into the container. *)

From S2P Require Import Prelude GoStrings Driver GuestStore DaemonConfig Host GoPath OS Json ClientConfig CDIStore.
From S2P Require Import Libthunder.

Definition ThunderGuestDir : string := "/etc/thunder".
Definition second : Z := 1000000000.
Definition cdiHookTimeout : Z := 90 * second.
Definition exchangeAttempts : nat := 5.
Definition exchangeInitialDelay : Z := 500000000.
Definition exchangeMaxDelay : Z := 8 * second.

Record CDIHookOptions := HookOptions {
  ho_StateDir : string;
  ho_CentralURL : string;
  ho_TelemetryURL : string;
  ho_InstallURL : string;
  ho_ArtifactBaseURL : string;
  ho_LibthunderURL : string;
  ho_LibthunderSHA256 : string;
  ho_CacheDir : string;
  ho_CABundlePath : string;
  ho_ClientName : string
}.
#[global] Instance CDIHookOptions_eq_dec : EqDecision CDIHookOptions.
Proof. solve_decision. Defined.
Definition no_options : CDIHookOptions := HookOptions "" "" "" "" "" "" "" "" "" "".

(** The assignment of one flag. *)
Definition set_option (o : CDIHookOptions) (name value : string) : option CDIHookOptions :=
  let '(HookOptions sd cu tu iu ab lu ls cd ca cn) := o in
  if bool_decide (name = "--state-dir") then Some (HookOptions value cu tu iu ab lu ls cd ca cn)
  else if bool_decide (name = "--central-url") then Some (HookOptions sd value tu iu ab lu ls cd ca cn)
  else if bool_decide (name = "--telemetry-url") then Some (HookOptions sd cu value iu ab lu ls cd ca cn)
  else if bool_decide (name = "--install-url") then Some (HookOptions sd cu tu value ab lu ls cd ca cn)
  else if bool_decide (name = "--artifact-base-url") then Some (HookOptions sd cu tu iu value lu ls cd ca cn)
  else if bool_decide (name = "--libthunder-url") then Some (HookOptions sd cu tu iu ab value ls cd ca cn)
  else if bool_decide (name = "--libthunder-sha256") then Some (HookOptions sd cu tu iu ab lu value cd ca cn)
  else if bool_decide (name = "--cache-dir") then Some (HookOptions sd cu tu iu ab lu ls value ca cn)
  else if bool_decide (name = "--ca-bundle") then Some (HookOptions sd cu tu iu ab lu ls cd value cn)
  else if bool_decide (name = "--client-name") then Some (HookOptions sd cu tu iu ab lu ls cd ca value)
  else None.

(** The loop of [ParseCDIHookArgs]: a flag holds its value after an equals
    sign, or the next argument is its value. *)
Fixpoint parse_args (o : CDIHookOptions) (args : list string) : result CDIHookOptions :=
  let set o name value args :=
    match set_option o name value with
    | Some o => parse_args o args
    | None => Err (ErrText ("unknown flag " +:+ name))
    end in
  match args with
  | [] => Ok o
  | name :: args =>
      match cut name "=" with
      | Some (name, value) => set o name value args
      | None =>
          match args with
          | value :: args => set o name value args
          | [] => Err (ErrText ("flag " +:+ name +:+ " requires a value"))
          end
      end
  end.

Definition ParseCDIHookArgs (args : list string) : result CDIHookOptions :=
  match parse_args no_options args with
  | Err e => Err e
  | Ok o => if blank (ho_StateDir o) then Err (ErrText "--state-dir is required") else Ok o
  end.

Section hook.
Context `{HookJSON, MapOrder}.

(** [stdin] is nil, or what reading it gives. *)
Definition readOCIRootfs (stdin : option (result string)) : prog os_sig (result string) :=
  match stdin with
  | None => mret (Err (ErrText "no OCI state on stdin"))
  | Some raw =>
      let! raw := raw or wrap "read OCI state" in
      let! state := json_oci_state (limited installerReadLimit raw)
        or wrap "decode OCI state" in
      let rootfs := trim_space (oci_Rootfs state) in
      if bool_decide (rootfs = "") && blank (oci_Bundle state) then
        mret (Err (ErrText "OCI state names neither a bundle nor a rootfs"))
      else
        let rootfs :=
          if bool_decide (rootfs = "") then path_Join [oci_Bundle state; "rootfs"] else rootfs in
        let? info := ocall (Stat rootfs) or wrap ("stat container rootfs " +:+ rootfs) in
        if negb (fi_IsDir info) then
          mret (Err (ErrText ("container rootfs " +:+ rootfs +:+ " is not a directory")))
        else mret (Ok rootfs)
  end.

Definition jitter (delay : Z) : prog os_sig Z :=
  r ← ocall (Rand delay); mret (int64 (delay `quot` 2 + r)).

(** The loop of [exchangeWithRetry]: [remaining] is how many attempts are left and
    [last] the error of the one before. *)
Fixpoint exchange_loop (opts : CDIHookOptions) (token clientName : string)
    (remaining : nat) (delay : Z) (last : error) : prog os_sig (result ThunderClientConfig) :=
  match remaining with
  | O => mret (Err last)
  | S remaining =>
      r ← ExchangeClientEnrollment (ho_CentralURL opts) (ho_TelemetryURL opts) token clientName;
      match r with
      | Ok config => mret (Ok config)
      | Err e =>
          if negb (isRetryable e) || bool_decide (remaining = 0%nat) then mret (Err e)
          else
            wait ← jitter delay;
            deadline ← ocall TimeLeft;
            if match deadline with
               | Some time_left => (time_left <? wait + exchangeInitialDelay)%Z
               | None => false
               end
            then mret (Err e)
            else
              stopped ← ocall (After wait);
              if stopped : bool then mret (Err e)
              else exchange_loop opts token clientName remaining
                     (if (delay <? exchangeMaxDelay)%Z then int64 (delay * 2) else delay) e
      end
  end.

Definition exchangeWithRetry (opts : CDIHookOptions) (token clientName : string)
    : prog os_sig (result ThunderClientConfig) :=
  exchange_loop opts token clientName exchangeAttempts exchangeInitialDelay (ErrText "").

Definition config_path (opts : CDIHookOptions) : string :=
  path_Join [ho_StateDir opts; thunderConfigFile].
Definition token_path (opts : CDIHookOptions) : string :=
  path_Join [ho_StateDir opts; thunderTokenFile].

Definition hook_client_name (opts : CDIHookOptions) : string :=
  let name := trim_space (ho_ClientName opts) in
  if bool_decide (name = "") then path_Base (ho_StateDir opts) else name.

(** [clientConfigForClaim] when no configuration is cached. *)
Definition enroll_claim (opts : CDIHookOptions) : prog os_sig (result ThunderClientConfig) :=
  let? token := ocall (ReadFile (token_path opts)) or wrap "read staged enrollment token" in
  let? config := exchangeWithRetry opts (trim_space token) (hook_client_name opts) or id in
  let? _ := writeFileAtomic (config_path opts) (config_file config) 384
    or wrap "cache thunder client config" in
  _ ← ocall (Remove (token_path opts));
  mret (Ok config).

(** What a cached configuration says, if it says anything. *)
Definition cached_config (raw : result string) : option ThunderClientConfig :=
  match raw with
  | Err _ => None
  | Ok raw =>
      match json_config raw with
      | Err _ => None
      | Ok config => if bool_decide (cc_ClientID config ≠ "") then Some config else None
      end
  end.

Definition clientConfigForClaim (opts : CDIHookOptions) : prog os_sig (result ThunderClientConfig) :=
  cached ← ocall (ReadFile (config_path opts));
  match cached_config cached with
  | Some config => mret (Ok config)
  | None => enroll_claim opts
  end.

Definition stageCABundle (rootfs caBundlePath : string) : prog os_sig unit :=
  let caBundlePath := if blank caBundlePath then DefaultCABundlePath else caBundlePath in
  let target := path_Join [rootfs; DefaultCABundlePath] in
  own ← ocall (Lstat target);
  match own with
  | Ok _ => mret tt
  | Err _ =>
      source ← ocall (Stat caBundlePath);
      match source with
      | Err _ => mret tt
      | Ok _ =>
          made ← ocall (MkdirAll (path_Dir target) 493);
          match made with
          | Err _ => mret tt
          | Ok _ => _ ← copyFile caBundlePath target 420; mret tt
          end
      end
  end.

Definition stageThunderClient (rootfs libraryPath : string) (config : ThunderClientConfig)
    (caBundlePath : string) : prog os_sig (result unit) :=
  let targetDir := path_Join [rootfs; ThunderGuestDir] in
  let? _ := ocall (MkdirAll targetDir 493) or wrap ("create " +:+ ThunderGuestDir +:+ " in container") in
  let? _ := copyFile libraryPath (path_Join [targetDir; "libthunder.so"]) 493
    or wrap "stage libthunder.so into container" in
  let? _ := writeFileAtomic (path_Join [targetDir; thunderConfigFile]) (config_file config) 420
    or wrap "stage config.json into container" in
  _ ← stageCABundle rootfs caBundlePath;
  mret (Ok tt).

(** [RunCDIHook] once the claim is locked. *)
Definition hook_locked (opts : CDIHookOptions) (rootfs : string) : prog os_sig (result unit) :=
  let cache :=
    {| lc_Dir := ho_CacheDir opts; lc_InstallURL := ho_InstallURL opts;
       lc_URL := ho_LibthunderURL opts; lc_SHA256 := ho_LibthunderSHA256 opts;
       lc_ArtifactBaseURL := ho_ArtifactBaseURL opts |} in
  ensured ← Ensure cache None;
  match ensured.1 with
  | Err e => mret (Err (wrap "stage libthunder.so" e))
  | Ok libraryPath =>
      let? config := clientConfigForClaim opts or id in
      stageThunderClient rootfs libraryPath config (ho_CABundlePath opts)
  end.

Definition RunCDIHook (opts : CDIHookOptions) (stdin : option (result string))
    : prog os_sig (result unit) :=
  let? rootfs := readOCIRootfs stdin or id in
  let? _ := lockStateDir (ho_StateDir opts) or id in
  r ← hook_locked opts rootfs;
  _ ← ocall (Unlock (lock_path (ho_StateDir opts)));
  mret r.
End hook.

Definition StageHookBinary (pluginDir : string) : prog os_sig (result string) :=
  if blank pluginDir then
    mret (Err (ErrText "kubelet plugin dir is required to stage the CDI hook"))
  else
    let? self := ocall Executable or wrap "locate running daemon binary" in
    let target := path_Join [pluginDir; "bin"; "thunder-cdi-hook"] in
    let? _ := ocall (MkdirAll (path_Dir target) 493) or wrap "create CDI hook dir" in
    let? _ := copyFile self target 493 or wrap "stage CDI hook binary" in
    mret (Ok target).

(* -------------------------------------------------------------------- *)
(** ** The hook's command line *)

(** What the hook is told about a claim. *)
Definition shown (value : string) : string := if blank value then "" else value.
Definition options_of (s : FileCDIDeviceStore) (deviceName : string) (al : Allocation) : CDIHookOptions :=
  {| ho_StateDir := stateDir s deviceName;
     ho_CentralURL := shown (fc_CentralURL s);
     ho_TelemetryURL := shown (fc_TelemetryURL s);
     ho_InstallURL := shown (fc_InstallURL s);
     ho_ArtifactBaseURL := shown (fc_ArtifactBaseURL s);
     ho_LibthunderURL := shown (fc_LibthunderURL s);
     ho_LibthunderSHA256 := shown (fc_LibthunderSHA256 s);
     ho_CacheDir := shown (fc_CacheDir s);
     ho_CABundlePath := shown (fc_CABundlePath s);
     ho_ClientName := thunderClientName al |}.

(** The flags in the order they are written. *)
Definition sorted_flags (s : FileCDIDeviceStore) (al : Allocation) : list (string * string) :=
  [("--artifact-base-url", fc_ArtifactBaseURL s);
   ("--ca-bundle", fc_CABundlePath s);
   ("--cache-dir", fc_CacheDir s);
   ("--central-url", fc_CentralURL s);
   ("--client-name", thunderClientName al);
   ("--install-url", fc_InstallURL s);
   ("--libthunder-sha256", fc_LibthunderSHA256 s);
   ("--libthunder-url", fc_LibthunderURL s);
   ("--telemetry-url", fc_TelemetryURL s)].
Definition given (l : list (string * string)) : list (string * string) :=
  filter (λ p, blank p.2 = false) l.

#[global] Instance pair_le_trans : Transitive pair_le.
Proof. intros x y z. unfold pair_le. apply transitivity. Qed.
#[global] Instance pair_le_total : Total pair_le.
Proof. intros x y. unfold pair_le. apply (total String.le). Qed.

Lemma arg_pairs_given l :
  arg_pairs (l ≫= λ '(flag, value), if negb (blank value) then [flag; value] else []) = given l.
Proof.
  unfold given. induction l as [|[flag value] l IH]; [done|]. rewrite bind_cons.
  destruct (blank value) eqn:Hb; cbn [negb app].
  - rewrite filter_cons_False by (cbn; congruence). exact IH.
  - rewrite filter_cons_True by done. cbn [arg_pairs]. by rewrite IH.
Qed.

Lemma sorted_filter {A} (R : relation A) (P : A → Prop) `{∀ x, Decision (P x)} l :
  StronglySorted R l → StronglySorted R (filter P l).
Proof.
  induction 1 as [|x l Hl IH Hx]; [constructor|]. rewrite filter_cons. case_decide; [|done].
  constructor; [done|]. apply Forall_forall. intros y [_ Hy]%list_elem_of_filter.
  rewrite Forall_forall in Hx. by apply Hx.
Qed.

(** Whatever the order of the map, the flags come out sorted. *)
Lemma sorted_hook_flags `{MapOrder} s al :
  merge_sort pair_le (given (map_order "hook flags" (hook_flags s al))) = given (sorted_flags s al).
Proof.
  assert (NoDup (sorted_flags s al).*1) as Hnd by (by apply (bool_decide_eq_true_1 (NoDup _))).
  apply (StronglySorted_unique_strong pair_le).
  - intros x y Hx Hy Hxy Hyx. eapply (NoDup_fmap_inj fst (sorted_flags s al)); [exact Hnd|..].
    + rewrite merge_sort_Permutation in Hx. unfold given in Hx. rewrite map_order_perm in Hx.
      apply list_elem_of_filter in Hx as [_ Hx]. revert Hx. unfold hook_flags, sorted_flags.
      rewrite !elem_of_cons. tauto.
    + by apply list_elem_of_filter in Hy as [_ Hy].
    + by apply (anti_symm String.le).
  - apply (StronglySorted_merge_sort pair_le).
  - apply sorted_filter. repeat constructor.
  - rewrite merge_sort_Permutation. unfold given. rewrite map_order_perm. apply filter_Permutation.
    unfold hook_flags, sorted_flags. solve_Permutation.
Qed.

(** Assigning flags in turn. *)
Definition assign (o : CDIHookOptions) (p : string * string) : CDIHookOptions :=
  if blank p.2 then o else default o (set_option o p.1 p.2).

Lemma parse_args_given l o :
  Forall (λ p, cut p.1 "=" = None ∧ ∀ o v, is_Some (set_option o p.1 v)) l →
  parse_args o (flat_pairs (given l)) = Ok (foldl assign o l).
Proof.
  revert o. induction l as [|[flag value] l IH]; intros o; [done|].
  intros [[Hcut Hset] Hl]%Forall_cons. unfold given. rewrite filter_cons. cbn [foldl].
  unfold assign at 2. cbn [fst snd] in *. destruct (blank value) eqn:Hb.
  - rewrite decide_False by congruence. by apply IH.
  - rewrite decide_True by done. change (flat_pairs ((flag, value) :: ?l)) with (flag :: value :: flat_pairs l).
    cbn [parse_args]. rewrite Hcut. destruct (Hset o value) as [o' ->]. by apply IH.
Qed.

Lemma sorted_flags_known s al :
  Forall (λ p, cut p.1 "=" = None ∧ ∀ o v, is_Some (set_option o p.1 v)) (sorted_flags s al).
Proof. repeat constructor; intros [] v; by eexists. Qed.

(** One assignment, by the field of the flag. *)
Lemma assign_field sd cu tu iu ab lu ls cd ca cn v :
  let keep old := if blank v then old else v in
  let o := HookOptions sd cu tu iu ab lu ls cd ca cn in
  assign o ("--central-url", v) = HookOptions sd (keep cu) tu iu ab lu ls cd ca cn ∧
  assign o ("--telemetry-url", v) = HookOptions sd cu (keep tu) iu ab lu ls cd ca cn ∧
  assign o ("--install-url", v) = HookOptions sd cu tu (keep iu) ab lu ls cd ca cn ∧
  assign o ("--artifact-base-url", v) = HookOptions sd cu tu iu (keep ab) lu ls cd ca cn ∧
  assign o ("--libthunder-url", v) = HookOptions sd cu tu iu ab (keep lu) ls cd ca cn ∧
  assign o ("--libthunder-sha256", v) = HookOptions sd cu tu iu ab lu (keep ls) cd ca cn ∧
  assign o ("--cache-dir", v) = HookOptions sd cu tu iu ab lu ls (keep cd) ca cn ∧
  assign o ("--ca-bundle", v) = HookOptions sd cu tu iu ab lu ls cd (keep ca) cn ∧
  assign o ("--client-name", v) = HookOptions sd cu tu iu ab lu ls cd ca (keep cn).
Proof. unfold assign. cbn [fst snd]. destruct (blank v); by split_and!. Qed.

Lemma assign_sorted s al dir :
  foldl assign (HookOptions dir "" "" "" "" "" "" "" "" "") (sorted_flags s al) =
  HookOptions dir (shown (fc_CentralURL s)) (shown (fc_TelemetryURL s)) (shown (fc_InstallURL s))
    (shown (fc_ArtifactBaseURL s)) (shown (fc_LibthunderURL s)) (shown (fc_LibthunderSHA256 s))
    (shown (fc_CacheDir s)) (shown (fc_CABundlePath s)) (shown (thunderClientName al)).
Proof.
  unfold sorted_flags. cbn [foldl].
  repeat match goal with
  | |- context [assign (HookOptions ?sd ?cu ?tu ?iu ?ab ?lu ?ls ?cd ?ca ?cn) (_, ?v)] =>
      let H := fresh in pose proof (assign_field sd cu tu iu ab lu ls cd ca cn v) as H; cbv zeta in H;
      destruct H as (H1 & H2 & H3 & H4 & H5 & H6 & H7 & H8 & H9);
      first [rewrite H1|rewrite H2|rewrite H3|rewrite H4|rewrite H5|rewrite H6|rewrite H7
            |rewrite H8|rewrite H9]; clear H1 H2 H3 H4 H5 H6 H7 H8 H9
  end.
  reflexivity.
Qed.

Lemma hook_args_sorted `{MapOrder} s dir al :
  hook_args s dir al =
    [trim_space (fc_HookPath s); CDIHookCommand; "--state-dir"; stateDir s dir] ++
    flat_pairs (given (sorted_flags s al)).
Proof. unfold hook_args, sortArgPairs. by rewrite arg_pairs_given, sorted_hook_flags. Qed.

Lemma shown_client_name al : shown (thunderClientName al) = thunderClientName al.
Proof.
  assert (∀ v, shown (trim_space v) = trim_space v) as Hs.
  { intros v. unfold shown. rewrite blank_trim. destruct (blank v) eqn:Hb; [|done].
    symmetry. by apply trim_space_blank. }
  unfold thunderClientName. destruct (bool_decide _); apply Hs.
Qed.

(** The arguments written into a CDI spec do not depend on the order in
    which the map of flags is walked, so a rewritten spec is byte-identical,
    and the hook that is started with them reads back the settings of the store
    that wrote them, blank ones as empty. *)
Theorem hook_args_roundtrip (order1 order2 : MapOrder) s dir al :
  blank (stateDir s dir) = false →
  hook_args (H0:=order1) s dir al = hook_args (H0:=order2) s dir al ∧
  ∃ args, hook_args (H0:=order1) s dir al = trim_space (fc_HookPath s) :: CDIHookCommand :: args ∧
    ParseCDIHookArgs args = Ok (options_of s dir al).
Proof.
  intros Hdir. rewrite !hook_args_sorted. split; [done|]. eexists. split; [done|].
  unfold ParseCDIHookArgs. cbn [app parse_args]. change (cut "--state-dir" "=") with (@None (string * string)).
  cbv iota beta. change (set_option no_options "--state-dir" (stateDir s dir))
    with (Some (HookOptions (stateDir s dir) "" "" "" "" "" "" "" "" "")).
  cbv iota beta. rewrite parse_args_given by apply sorted_flags_known. rewrite assign_sorted.
  cbn [ho_StateDir]. rewrite Hdir. unfold options_of. by rewrite shown_client_name.
Qed.

Lemma hook_args_roundtrip_witness :
  ∃ args, @hook_args listed_order sample_store "claim-uid-1" guest_sample =
      "/opt/hook" :: "cdi-hook" :: args ∧
    ParseCDIHookArgs args = Ok (options_of sample_store "claim-uid-1" guest_sample) ∧
    args = ["--state-dir"; "/var/lib/thunder/claim-uid-1"; "--cache-dir"; "/cache";
            "--central-url"; "https://api.example/"; "--client-name"; "claim-1";
            "--install-url"; "https://get.example"].
Proof.
  destruct (@hook_args_roundtrip listed_order listed_order sample_store "claim-uid-1"
    guest_sample eq_refl) as (_ & args & Hargs & Hparse).
  exists args. split; [exact Hargs|]. split; [exact Hparse|].
  vm_compute in Hargs. by injection Hargs as <-.
Defined.

(** Flags may also come as one argument, and a value is required. *)
Example parse_args_examples :
  (ParseCDIHookArgs ["--state-dir=/s=1"], ParseCDIHookArgs ["--cache-dir"; "/c"; "--state-dir"],
   ParseCDIHookArgs ["--cache-dir"; "/c"], ParseCDIHookArgs ["--verbose"; ""]) =
  (Ok (HookOptions "/s=1" "" "" "" "" "" "" "" "" ""),
   Err (ErrText "flag --state-dir requires a value"), Err (ErrText "--state-dir is required"),
   Err (ErrText "unknown flag --verbose")).
Proof. vm_compute. reflexivity. Qed.

(* -------------------------------------------------------------------- *)
(** ** Retrying the exchange *)

Definition is_request (x : event os_sig) : Prop :=
  match evt_call x with HTTPDo _ => True | _ => False end.
#[global] Instance is_request_dec x : Decision (is_request x).
Proof. unfold is_request. destruct (evt_call x); apply _. Defined.
Definition attempts (tr : list (event os_sig)) : nat := length (filter is_request tr).

(** The time spent between attempts. *)
Definition wait_of (x : event os_sig) : Z := match evt_call x with After d => d | _ => 0%Z end.
Definition waited (tr : list (event os_sig)) : Z := foldr Z.add 0%Z (wait_of <$> tr).

(** A reply another attempt could get past: no response, a rate limit, or a
    fault of the server. *)
Definition worth_retrying (r : result http_status) : Prop :=
  match r with Err _ => True | Ok st => st_Code st = 429%Z ∨ (500 ≤ st_Code st)%Z end.
Definition all_worth_retrying (tr : list (event os_sig)) : Prop :=
  ∀ rq r, oev (HTTPDo rq) r ∈ tr → worth_retrying r.

(** Random numbers are in their range, and the errors of libraries are not
    this program's retryable ones. *)
Definition fair_event (x : event os_sig) : Prop :=
  match evt_call x as e return os_resp e → Prop with
  | Rand n => λ r, (0 ≤ r < n)%Z
  | NewRequest _ => λ r, ∀ e, r = Err e → isRetryable e = false
  | ReadBody _ => λ r, ∀ e, r = Err e → isRetryable e = false
  | _ => λ _, True
  end (evt_reply x).
Definition fair (tr : list (event os_sig)) : Prop := Forall fair_event tr.
Class ForeignJSON `{HookJSON} := {
  json_enrollment_foreign s e : json_enrollment s = Err e → isRetryable e = false;
  json_claims_foreign s e : json_claims s = Err e → isRetryable e = false
}.

(** Twice the longest time [remaining] attempts can wait for. *)
Fixpoint budget (remaining : nat) (delay : Z) : Z :=
  match remaining with
  | S (S _ as rest) =>
      (3 * delay + budget rest (if delay <? exchangeMaxDelay then delay * 2 else delay))%Z
  | _ => 0%Z
  end.

(** The calls the loop may make. *)
Definition exchange_may (opts : CDIHookOptions) (token clientName : string)
    (pre : list (event os_sig)) (e : os_ev) : Prop :=
  match e with
  | NewRequest rq => rq = enrollment_request (ho_CentralURL opts) token clientName
  | HTTPDo rq =>
      rq = enrollment_request (ho_CentralURL opts) token clientName ∧
      (fair pre → (attempts pre < exchangeAttempts)%nat ∧ all_worth_retrying pre)
  | ReadBody _ | Rand _ | TimeLeft => True
  | After wait => ∃ deadline, last pre = Some (oev TimeLeft deadline) ∧
      ∀ t, deadline = Some t → (wait + exchangeInitialDelay ≤ t)%Z
  | _ => False
  end.

Lemma fair_prefix pre x : fair (pre ++ [x]) → fair pre.
Proof. by intros [? _]%Forall_app. Qed.
Lemma fair_last pre x : fair (pre ++ [x]) → fair_event x.
Proof. by intros [_ [? _]%Forall_cons]%Forall_app. Qed.

Lemma attempts_skip pre x : ¬ is_request x → attempts (pre ++ [x]) = attempts pre.
Proof. intros Hx. unfold attempts. rewrite filter_app, filter_cons_False by done. by rewrite app_nil_r. Qed.
Lemma attempts_request pre rq r : attempts (pre ++ [oev (HTTPDo rq) r]) = S (attempts pre).
Proof. unfold attempts. rewrite filter_app, filter_cons_True, length_app by done. cbn. lia. Qed.
Lemma waited_skip pre x : wait_of x = 0%Z → waited (pre ++ [x]) = waited pre.
Proof. intros Hx. unfold waited. induction pre as [|y pre IH]; cbn in *; lia. Qed.
Lemma waited_after pre d b : waited (pre ++ [oev (After d) b]) = (waited pre + d)%Z.
Proof. unfold waited. induction pre as [|y pre IH]; cbn in *; lia. Qed.

(** The counts after one more call. *)
Ltac count :=
  repeat first [rewrite attempts_request | rewrite attempts_skip by (intros []) | rewrite waited_after
               | rewrite waited_skip by done].

Definition http_reply (x : event os_sig) : option (result http_status) :=
  match evt_call x as e return os_resp e → option (result http_status) with
  | HTTPDo _ => λ r, Some r
  | _ => λ _, None
  end (evt_reply x).

Lemma worth_snoc pre x : all_worth_retrying pre → ¬ is_request x → all_worth_retrying (pre ++ [x]).
Proof.
  intros Hp Hx rq r [Hin|Hin%list_elem_of_singleton]%elem_of_app; [by eapply Hp|]. subst x. by destruct Hx.
Qed.
Lemma worth_snoc_request pre rq r : all_worth_retrying pre → worth_retrying r →
  all_worth_retrying (pre ++ [oev (HTTPDo rq) r]).
Proof.
  intros Hp Hr rq' r' [Hin|Hin%list_elem_of_singleton]%elem_of_app; [by eapply Hp|].
  apply (f_equal http_reply) in Hin. by injection Hin as ->.
Qed.

Section retry.
Context `{HookJSON, !ForeignJSON, MapOrder}.

Lemma decodeClientClaims_foreign token e : decodeClientClaims token = Err e → isRetryable e = false.
Proof using Type*.
  unfold decodeClientClaims. destruct (split token _) as [|a [|middle [|c [|]]]]; try by intros [= <-].
  destruct (RawURLDecode middle) as [payload|e'] eqn:Hd.
  - destruct (json_claims payload) as [claims|e'] eqn:Hj.
    + destruct (find _ _) as [[]|]; [by intros [= <-]|]. by destruct (_ <=? _)%Z; intros [= <-].
    + intros [= <-]. by apply json_claims_foreign in Hj.
  - intros [= <-]. cbn. revert Hd. unfold RawURLDecode.
    assert (∀ off l e, sextets off l = Err e → isRetryable e = false) as Hs.
    { intros off l. revert off. induction l as [|a' l IH]; intros off e; [done|]. cbn [sextets].
      destruct (_ || _); [apply IH|]. destruct (sextet a'); [|by intros [= <-]].
      destruct (sextets (off + 1) l) as [|e1] eqn:Hl; [done|]. intros [= <-]. by eapply IH. }
    destruct (sextets 0 (chars middle)) as [xs|e1] eqn:Hx; cbn.
    + by destruct (base64_bytes xs); intros [= <-].
    + intros [= <-]. by eapply Hs.
Qed.

Lemma enrolled_config_foreign central telemetry payload e :
  enrolled_config central telemetry payload = Err e → isRetryable e = false.
Proof using Type*.
  unfold enrolled_config. destruct (json_enrollment payload) as [enrolled|e'] eqn:Hj.
  - destruct (bool_decide _); [by intros [= <-]|]. destruct (bool_decide _); [by intros [= <-]|].
    destruct (decodeClientClaims _) as [claims|e'] eqn:Hd; [done|]. cbn. intros [= <-].
    by eapply decodeClientClaims_foreign.
  - intros [= <-]. by apply json_enrollment_foreign in Hj.
Qed.

Lemma fair_mono pre pre' : pre ⊆ pre' → fair pre' → fair pre.
Proof using Type*. unfold fair. rewrite !Forall_forall. auto. Qed.

(** One attempt: at most one request, no waiting; when its error is retryable
    so was the reply. *)
Lemma exchange_wp opts token clientName pre :
  (fair pre → (attempts pre < exchangeAttempts)%nat ∧ all_worth_retrying pre) →
  wp (exchange_may opts token clientName) pre
    (ExchangeClientEnrollment (ho_CentralURL opts) (ho_TelemetryURL opts) token clientName)
    (λ pre' r, fair pre' → (attempts pre' ≤ S (attempts pre))%nat ∧ waited pre' = waited pre ∧
       match r with Err e => isRetryable e = true → all_worth_retrying pre' | Ok _ => True end).
Proof using Type*.
  intros Hpre.
  assert (fair pre → (attempts pre ≤ S (attempts pre))%nat ∧ waited pre = waited pre) as Hstay
    by (split; [lia|done]).
  unfold ExchangeClientEnrollment. destruct (blank token). { intros Hf. by split_and!; [apply Hstay..|]. }
  destruct (blank (ho_CentralURL opts)). { intros Hf. by split_and!; [apply Hstay..|]. }
  set (rq := enrollment_request _ _ _). unfold orfail. apply wp_ocall; [done|]. intros [[]|e].
  2:{ intros Hf. count. split_and!; [lia|lia|].
      apply fair_last in Hf. cbn [isRetryable wrap]. by rewrite (Hf e eq_refl). }
  set (pre1 := pre ++ [_]).
  apply wp_ocall.
  { split; [done|]. intros Hf. apply fair_prefix in Hf as Hf1. destruct (Hpre Hf1) as [Hlt Hw].
    split; [|by apply worth_snoc; [|intros []]]. unfold pre1. by count. }
  intros [response|e].
  2:{ intros Hf. apply fair_prefix in Hf as Hf1. destruct (Hpre (fair_prefix _ _ Hf1)) as [Hlt Hw].
      unfold pre1. count. split_and!; [lia|lia|].
      intros _. apply worth_snoc_request; [|done]. by apply worth_snoc; [|intros []]. }
  apply wp_ocall; [done|]. intros [payload|e].
  2:{ intros Hf. unfold pre1. count. split_and!; [lia|lia|].
      apply fair_last in Hf. cbn [isRetryable wrap]. by rewrite (Hf e eq_refl). }
  assert (∀ r, (∀ e, r = Err e → isRetryable e = true → worth_retrying (Ok response)) →
    wp (exchange_may opts token clientName)
      ((pre1 ++ [oev (HTTPDo rq) (Ok response)]) ++ [oev (ReadBody installerReadLimit) (Ok payload)])
      (mret r : prog os_sig (result ThunderClientConfig)) (λ pre' r,
      fair pre' → (attempts pre' ≤ S (attempts pre))%nat ∧ waited pre' = waited pre ∧
       match r with Err e => isRetryable e = true → all_worth_retrying pre' | Ok _ => True end)) as Hend.
  { intros r Hr Hf. do 3 apply fair_prefix in Hf as Hf. unfold pre1.
    count. split_and!; [lia|lia|].
    destruct r as [config|e]; [done|]. intros He. apply worth_snoc; [|intros []].
    apply worth_snoc_request; [|by eapply Hr]. destruct (Hpre Hf). by apply worth_snoc; [|intros []]. }
  destruct ((_ <? 200)%Z || _).
  - destruct (_ || _) eqn:Hc; apply Hend; intros e [= <-]; [|done].
    intros _. apply orb_prop in Hc as [?%Z.eqb_eq|?%Z.leb_le]; [by left|by right].
  - apply Hend. intros e He. apply enrolled_config_foreign in He. congruence.
Qed.

(** The delay doubles up to its maximum, and never overflows. *)
Definition next_delay (delay : Z) : Z := if (delay <? exchangeMaxDelay)%Z then delay * 2 else delay.
Lemma next_delay_range delay : (0 < delay ≤ 2 * exchangeMaxDelay)%Z →
  (0 < next_delay delay ≤ 2 * exchangeMaxDelay)%Z ∧
  (if (delay <? exchangeMaxDelay)%Z then int64 (delay * 2) else delay) = next_delay delay.
Proof using Type.
  intros Hd. unfold next_delay. destruct (Z.ltb_spec delay exchangeMaxDelay); (split; [lia|]); [|done].
  apply int64_id. unfold in_int64, min_int64, max_int64, exchangeMaxDelay, second in *. lia.
Qed.
Lemma budget_step n delay : budget (S (S n)) delay = (3 * delay + budget (S n) (next_delay delay))%Z.
Proof using Type. done. Qed.
Lemma budget_nonneg n d : (0 < d → 0 ≤ budget n d)%Z.
Proof using Type.
  revert d. induction n as [|[|n] IH]; intros d Hd; [done..|]. rewrite budget_step.
  assert (0 < next_delay d)%Z as Hn by (unfold next_delay; destruct (_ <? _)%Z; lia).
  specialize (IH _ Hn). lia.
Qed.
Lemma jitter_wait delay r : (0 < delay ≤ 2 * exchangeMaxDelay)%Z → (0 ≤ r < delay)%Z →
  (int64 (delay `quot` 2 + r) = delay / 2 + r)%Z.
Proof using Type.
  intros Hd Hr. rewrite Z.quot_div_nonneg by lia. apply int64_id.
  unfold in_int64, min_int64, max_int64, exchangeMaxDelay, second in *.
  Z.to_euclidean_division_equations. lia.
Qed.

Lemma exchange_loop_wp opts token clientName remaining delay err limit pre :
  (0 < delay ≤ 2 * exchangeMaxDelay)%Z →
  (fair pre → (attempts pre + remaining ≤ exchangeAttempts)%nat ∧ all_worth_retrying pre ∧
     (2 * waited pre + budget remaining delay ≤ limit)%Z) →
  wp (exchange_may opts token clientName) pre
    (exchange_loop opts token clientName remaining delay err)
    (λ pre' r, fair pre' → (2 * waited pre' ≤ limit)%Z).
Proof using Type*.
  revert delay err pre. induction remaining as [|remaining IH]; intros delay err pre Hd Hpre.
  { intros Hf. destruct (Hpre Hf) as (_ & _ & Hb). cbn in Hb. lia. }
  cbn [exchange_loop]. rewrite wp_bind. eapply wp_strengthen.
  { apply exchange_wp. intros Hf. destruct (Hpre Hf) as (Ha & Hw & _). split; [lia|done]. }
  intros pre1 r Hsub Hr.
  assert (fair pre1 → (2 * waited pre1 + budget (S remaining) delay ≤ limit)%Z) as Hlim.
  { intros Hf. destruct (Hr Hf) as (_ & -> & _). by apply Hpre, (fair_mono _ pre1). }
  assert (fair pre1 → (2 * waited pre1 ≤ limit)%Z) as Hend.
  { intros Hf. specialize (Hlim Hf). pose proof (budget_nonneg (S remaining) delay). lia. }
  destruct r as [config|e]; [exact Hend|].
  destruct (isRetryable e) eqn:He; [|exact Hend]. cbn [negb orb].
  destruct (bool_decide_reflect (remaining = 0%nat)) as [_|Hrem]; [exact Hend|].
  unfold jitter. rewrite wp_bind. apply wp_ocall; [done|]. intros r.
  set (wait := int64 (delay `quot` 2 + r)). cbn [wp mret prog_ret].
  apply wp_ocall; [done|]. intros deadline.
  set (pre2 := (pre1 ++ [_]) ++ [_]).
  assert (fair pre2 → fair pre1) as Hback by (intros Hf; by do 2 apply fair_prefix in Hf).
  assert (fair pre2 → (2 * waited pre2 ≤ limit)%Z) as Hend2.
  { intros Hf. unfold pre2. count. auto. }
  destruct (match deadline with Some _ => _ | None => _ end) eqn:Hdl; [exact Hend2|].
  apply wp_ocall.
  { exists deadline. split; [apply last_snoc|]. intros t ->. by apply Z.ltb_ge in Hdl. }
  intros stopped. set (pre3 := pre2 ++ [_]).
  destruct (next_delay_range delay Hd) as [Hd' Hnext].
  assert (fair pre3 → (2 * waited pre3 + budget remaining (next_delay delay) ≤ limit)%Z) as Hlim3.
  { intros Hf. apply fair_prefix in Hf as Hf2. specialize (Hlim (Hback Hf2)).
    unfold pre3, pre2. count.
    assert (0 ≤ r < delay)%Z as Hr1 by (by apply fair_prefix, fair_last in Hf2).
    unfold wait. rewrite jitter_wait by done. destruct remaining as [|n]; [done|].
    rewrite budget_step in Hlim. Z.to_euclidean_division_equations. lia. }
  destruct stopped.
  - intros Hf. specialize (Hlim3 Hf). pose proof (budget_nonneg remaining _ (proj1 Hd')). lia.
  - rewrite Hnext. apply IH; [done|]. intros Hf. apply fair_prefix in Hf as Hf2.
    destruct (Hr (Hback Hf2)) as (Hc & _ & Hw). split_and!.
    + unfold pre3, pre2. count. assert (fair pre) as Hf0 by (by apply (fair_mono _ pre1); auto).
      destruct (Hpre Hf0) as [Ha _]. lia.
    + unfold pre3, pre2. repeat (apply worth_snoc; [|intros []]). by apply Hw.
    + by apply Hlim3.
Qed.

Lemma requests_limited opts token clientName tr : fair tr →
  (∀ tr1 e r tr2, tr = tr1 ++ oev e r :: tr2 → exchange_may opts token clientName tr1 e) →
  (attempts tr ≤ exchangeAttempts)%nat.
Proof using Type*.
  induction tr as [|[e r] tr IH] using rev_ind; [intros _ _; unfold exchangeAttempts; cbn; lia|].
  intros Hf Hall. apply fair_prefix in Hf as Hf'.
  assert (attempts tr ≤ exchangeAttempts)%nat as Hle.
  { apply IH; [done|]. intros tr1 e1 r1 tr2 ->. apply (Hall tr1 e1 r1 (tr2 ++ [Ev e r])).
    by rewrite <-app_assoc. }
  specialize (Hall tr e r [] eq_refl).
  destruct e; try (rewrite attempts_skip by (intros []); exact Hle).
  destruct Hall as [_ Hlt]. transitivity (S (attempts tr)); [|by apply Hlt].
  apply Nat.eq_le_incl, (attempts_request tr request r).
Qed.

(** C17: enrolling a client ends: at most five requests are made, all the
    same one; another is made only after a reply that another attempt could
    get past - none at all, a rate limit, a fault of the server - so a rejected
    token is never spent again; what is waited in between is at most 11.25
    seconds, of the hook's 90, and no wait is begun that the hook's deadline
    would not leave half a second after. *)
Theorem exchange_bounded opts token clientName tr res :
  exec (exchangeWithRetry opts token clientName) tr res → fair tr →
  (attempts tr ≤ 5)%nat ∧ (waited tr ≤ 11250000000)%Z ∧
  ∀ tr1 e r tr2, tr = tr1 ++ oev e r :: tr2 →
    exchange_may opts token clientName tr1 e.
Proof using Type*.
  intros Hx Hf.
  apply (wp_sound (exchange_may opts token clientName) [] _
    (λ pre' r, fair pre' → (2 * waited pre' ≤ 22500000000)%Z)) in Hx as [Hw Hall].
  2:{ apply exchange_loop_wp; [unfold exchangeInitialDelay, exchangeMaxDelay, second; lia|].
      intros _. split_and!; [done| |by vm_compute].
      by intros rq r ?%not_elem_of_nil. }
  specialize (Hw Hf). cbn [app] in Hw, Hall. split_and!; [by eapply requests_limited|lia|exact Hall].
Qed.
End retry.

(** A server that is unavailable: every attempt is made. *)
Definition busy (past : list http_request) (r : http_request) : result (http_status * string) :=
  Ok (HTTPStatus 503 "503 Service Unavailable", "later").
Definition busy_handler : handler os_sig fs := @fs_handler lib_missing sample_file_errors busy (λ _, None).
Definition hook_sample : CDIHookOptions := options_of sample_store "claim-uid-1" guest_sample.
#[refine] Definition sample_foreign : @ForeignJSON sample_json := {| json_enrollment_foreign := _ |}.
Proof. all: by intros s e [= <-]. Defined.

Lemma busy_fair :
  fair (trace busy_handler (@exchangeWithRetry sample_json listed_order hook_sample "token" "pod-1") empty_node).
Proof. vm_compute. repeat constructor; try done. Qed.

Lemma exchange_bounded_witness :
  let p := @exchangeWithRetry sample_json listed_order hook_sample "token" "pod-1" in
  attempts (trace busy_handler p empty_node) = 5%nat ∧
  (waited (trace busy_handler p empty_node) ≤ 11250000000)%Z.
Proof.
  cbv zeta. split; [vm_compute; reflexivity|].
  exact (proj1 (proj2 (@exchange_bounded sample_json sample_foreign listed_order hook_sample "token"
    "pod-1" _ _ (run_exec busy_handler _ empty_node) busy_fair))).
Defined.

(* -------------------------------------------------------------------- *)
(** ** Reusing the configuration *)

(** The claim's state directory has the configuration of an enrolled client. *)
Definition enrolled_as `{HookJSON} (opts : CDIHookOptions) (w : fs) (c : ThunderClientConfig) : Prop :=
  ∃ raw, fs_files w !! config_path opts = Some raw ∧ json_config raw = Ok c ∧ cc_ClientID c ≠ "".

Section reuse.
Context `{HookJSON, MapOrder, FileServerErrors}.

Lemma enrolled_config_named central telemetry payload c :
  enrolled_config central telemetry payload = Ok c → cc_ClientID c ≠ "".
Proof.
  unfold enrolled_config. destruct (json_enrollment payload) as [enrolled|]; [|done].
  destruct (bool_decide _); [done|]. destruct (bool_decide _); [done|].
  unfold decodeClientClaims. destruct (split _ _) as [|a [|middle [|b [|]]]]; try done.
  destruct (RawURLDecode middle) as [text|]; [|done]. destruct (json_claims text) as [claims|]; [|done].
  destruct (find _ _) as [[]|] eqn:Hfind; [done|]. destruct (_ <=? _)%Z; [done|].
  cbn. intros [= <-]. cbn. apply not_blank_nonempty.
  apply (find_none _ _ Hfind ("clientId", cm_ClientID claims)).
  apply list_elem_of_In. rewrite map_order_perm. right. by left.
Qed.

Lemma exchange_named opts token clientName remaining delay err pre :
  wp (λ _ _, True) pre (exchange_loop opts token clientName remaining delay err)
    (λ _ r, match r with Ok c => cc_ClientID c ≠ "" | Err _ => True end).
Proof.
  revert delay err pre. induction remaining as [|remaining IH]; intros delay err pre; [done|].
  cbn [exchange_loop]. rewrite wp_bind. eapply wp_strengthen with
    (Q1 := λ _ r, match r with Ok c => cc_ClientID c ≠ "" | Err _ => True end).
  { unfold ExchangeClientEnrollment. destruct (blank token); [done|]. destruct (blank _); [done|].
    unfold orfail. apply wp_ocall; [done|]. intros [[]|]; [|done]. apply wp_ocall; [done|].
    intros [response|]; [|done]. apply wp_ocall; [done|]. intros [payload|]; [|done].
    destruct (_ || _); [by destruct (_ || _)|]. cbn.
    destruct (enrolled_config _ _ payload) as [c|] eqn:Hc; [|done]. by eapply enrolled_config_named. }
  intros pre1 [c|e] _ Hr; [exact Hr|]. destruct (_ || _); [done|].
  unfold jitter. rewrite wp_bind. apply wp_ocall; [done|]. intros r. apply wp_ocall; [done|]. intros dl.
  destruct (match dl with Some _ => _ | None => _ end); [done|]. apply wp_ocall; [done|].
  intros []; [done|]. apply IH.
Qed.

Lemma file_names_plain : plain thunderConfigFile ∧ plain thunderTokenFile.
Proof. by split; apply (bool_decide_eq_true_1 (plain _)). Qed.

Lemma config_path_last opts : path_IsAbs (ho_StateDir opts) = true →
  last (chars (config_path opts)) ≠ Some "0"%char ∧ token_path opts ≠ config_path opts.
Proof.
  intros Ha. destruct file_names_plain as [Hc Ht]. split.
  - unfold config_path. destruct (path_Join_last _ _ Ha Hc) as [pre ->]. rewrite chars_app.
    change (chars thunderConfigFile) with (chars "config.jso" ++ ["n"%char]).
    by rewrite app_assoc, last_snoc.
  - unfold config_path, token_path. intros Heq. by apply path_Join_inj in Heq.
Qed.

Lemma enroll_claim_run net refuse opts w c w' : path_IsAbs (ho_StateDir opts) = true →
  json_config (config_file c) = Ok c →
  run (fs_handler net refuse) (enroll_claim opts) w = (Ok c, w') → enrolled_as opts w' c.
Proof using Type*.
  intros Ha Hjson. destruct (config_path_last opts Ha) as [Hlast Hne]. unfold enroll_claim, orfail.
  rewrite (run_ocall_bind net refuse (ReadFile (token_path opts))).
  destruct (fs_handler net refuse (ReadFile _) w) as [[token|e] w1]; [|done].
  rewrite run_bind.
  pose proof (run_exec (fs_handler net refuse)
    (exchangeWithRetry opts (trim_space token) (hook_client_name opts)) w1) as Hx.
  apply (wp_sound _ [] _ _ _ _ (exchange_named _ _ _ _ _ _ _)) in Hx as [Hx _].
  destruct (run _ (exchangeWithRetry _ _ _) w1) as [[c'|e] w2]; [|done]. cbn [fst] in Hx.
  rewrite run_bind. destruct (run _ (writeFileAtomic _ _ _) w2) as [[[]|e] w3] eqn:Hwrite; [|done].
  apply writeFileAtomic_run in Hwrite; [|exact (not_temporary _ Hlast)].
  rewrite (run_ocall_bind net refuse (Remove (token_path opts))).
  assert (fs_files (fs_handler net refuse (Remove (token_path opts)) w3).2 !! config_path opts =
    Some (config_file c')) as Hkept.
  { unfold fs_handler. destruct (refuse _); cbn; [done|]. by rewrite lookup_delete_ne. }
  destruct (fs_handler net refuse (Remove _) w3) as [r w4]. cbn [snd] in Hkept. cbn.
  intros [= -> <-]. by exists (config_file c).
Qed.

Lemma clientConfigForClaim_run net refuse opts w c w' : path_IsAbs (ho_StateDir opts) = true →
  json_config (config_file c) = Ok c →
  run (fs_handler net refuse) (clientConfigForClaim opts) w = (Ok c, w') → enrolled_as opts w' c.
Proof using Type*.
  intros Ha Hjson. unfold clientConfigForClaim.
  rewrite (run_ocall_bind net refuse (ReadFile (config_path opts))). unfold fs_handler at 1.
  destruct (refuse (ReadFile _)); cbn [refused refused_effect serve_file].
  { by apply enroll_claim_run. }
  unfold missing_or. destruct (fs_files w !! config_path opts) as [raw|] eqn:Hraw; cbn [cached_config];
    [|by apply enroll_claim_run].
  destruct (json_config raw) as [c'|] eqn:Hc; [|by apply enroll_claim_run].
  destruct (bool_decide_reflect (cc_ClientID c' ≠ "")); [|by apply enroll_claim_run].
  cbn. intros [= -> <-]. by exists raw.
Qed.

Lemma enrolled_again net refuse opts w c : enrolled_as opts w c →
  refuse (ReadFile (config_path opts)) = None →
  run (fs_handler net refuse) (clientConfigForClaim opts) w = (Ok c, w).
Proof using Type*.
  intros (raw & Hraw & Hc & Hid) Hr. unfold clientConfigForClaim.
  rewrite (run_ocall_bind net refuse (ReadFile (config_path opts))). unfold fs_handler at 1.
  rewrite Hr. cbn [serve_file]. unfold missing_or. rewrite Hraw. cbn [cached_config].
  by rewrite Hc, bool_decide_true.
Qed.

Lemma enrolled_staged net refuse opts w c s qualifiedName : enrolled_as opts w c →
  ho_StateDir opts = stateDir s (cdiDeviceNameFromQualifiedName qualifiedName) →
  blank qualifiedName = false → refuse (ReadFile (config_path opts)) = None →
  run (fs_handler net refuse) (StagedClientID s qualifiedName) w = (trim_space (cc_ClientID c), w).
Proof using Type*.
  intros (raw & Hraw & Hc & Hid) Hdir Hb Hr. unfold StagedClientID. rewrite Hb.
  unfold config_path in Hr, Hraw. rewrite Hdir in Hr, Hraw.
  rewrite (run_ocall_bind net refuse (ReadFile _)). unfold fs_handler at 1.
  rewrite Hr. cbn [serve_file]. unfold missing_or. rewrite Hraw. by rewrite Hc.
Qed.

(** C16: once the hook has a claim's configuration, whatever failed on the
    way, it has it for good: every later run for the claim that can read the
    file it was cached in, whatever the network does, returns the same one
    without a request and without a change, so the single-use token is not
    spent again; and the daemon's store finds the client by the device's name,
    to revoke it. *)
Theorem config_reused net refuse opts w c w' :
  path_IsAbs (ho_StateDir opts) = true → json_config (config_file c) = Ok c →
  run (fs_handler net refuse) (clientConfigForClaim opts) w = (Ok c, w') →
  ∀ net' refuse', refuse' (ReadFile (config_path opts)) = None →
    run (fs_handler net' refuse') (clientConfigForClaim opts) w' = (Ok c, w') ∧
    ∀ s qualifiedName, blank qualifiedName = false →
      ho_StateDir opts = stateDir s (cdiDeviceNameFromQualifiedName qualifiedName) →
      run (fs_handler net' refuse') (StagedClientID s qualifiedName) w' = (trim_space (cc_ClientID c), w').
Proof using Type*.
  intros Ha Hjson Hrun net' refuse' Hr.
  pose proof (clientConfigForClaim_run net refuse opts w c w' Ha Hjson Hrun) as He.
  split; [by apply enrolled_again|]. intros. by eapply enrolled_staged.
Qed.
End reuse.

(** A server that enrols the first request and rejects a spent token. *)
Definition thunder_server (past : list http_request) (r : http_request) : result (http_status * string) :=
  Ok match past with
     | [] => (HTTPStatus 200 "200 OK", "enrolled")
     | _ => (HTTPStatus 409 "409 Conflict", "enrollment token already used")
     end.
Definition sample_config : ThunderClientConfig :=
  ClientConfig "cli-1" "cli-1" "org-1" "A6000" 2 "https://api.example" "auth" "a.e30.s" false true "".
Definition enrolling_json : HookJSON :=
  {| json_config := λ s, if bool_decide (s = config_file sample_config) then Ok sample_config
                         else Err (ErrLib "json");
     json_enrollment := λ _, Ok (EnrollmentResponse "auth" "a.e30.s");
     json_claims := λ s, if bool_decide (s = "{}") then Ok (Claims "org-1" "cli-1" "A6000" 2)
                         else Err (ErrLib "json");
     json_oci_state := λ _, Err (ErrLib "json") |}.
Definition thunder_handler (refuse : os_ev → option error) : handler os_sig fs :=
  @fs_handler lib_missing sample_file_errors thunder_server refuse.
Definition staged_node : fs :=
  FS {["/var/lib/thunder/claim-uid-1/enrollment-token" := "token" +:+ newline]} ∅ [] "".
Definition sample_enrol : prog os_sig (result ThunderClientConfig) :=
  @clientConfigForClaim enrolling_json listed_order hook_sample.
Definition serve_all (e : os_ev) : option error := None.
Definition refuse_rename (e : os_ev) : option error :=
  match e with Rename _ _ => Some (ErrLib "no space left on device") | _ => None end.

Lemma sample_enrol_run :
  let '(r, w) := run (thunder_handler serve_all) sample_enrol staged_node in
  r = Ok sample_config ∧ length (fs_requests w) = 1%nat ∧
  (map_to_list (fs_files w)).*1 = ["/var/lib/thunder/claim-uid-1/config.json"].
Proof. vm_compute. by split_and!. Qed.

Lemma config_reused_witness :
  let w' := (run (thunder_handler serve_all) sample_enrol staged_node).2 in
  run (thunder_handler serve_all) sample_enrol w' = (Ok sample_config, w') ∧
  run (thunder_handler serve_all)
    (@StagedClientID enrolling_json sample_store "thundercompute.com/gpu=claim-uid-1") w' = ("cli-1", w').
Proof.
  pose proof sample_enrol_run as Hrun. cbv zeta.
  destruct (run (thunder_handler serve_all) sample_enrol staged_node) as [r w'] eqn:Heq.
  destruct Hrun as (-> & _ & _). cbn [snd].
  destruct (@config_reused enrolling_json listed_order lib_missing sample_file_errors thunder_server
    serve_all hook_sample staged_node sample_config w' eq_refl ltac:(vm_compute; reflexivity) Heq
    thunder_server serve_all eq_refl) as [Hagain Hstaged].
  split; [exact Hagain|].
  exact (Hstaged sample_store "thundercompute.com/gpu=claim-uid-1" eq_refl eq_refl).
Defined.

(** When the exchange succeeds and its configuration cannot be kept, a client
    is enrolled that nothing on the node knows of: the store reports that
    there is none to revoke, and the next run presents the spent token. *)
Example enrolled_client_lost :
  let '(r1, w1) := run (thunder_handler refuse_rename) sample_enrol staged_node in
  let '(staged, w2) := run (thunder_handler serve_all)
    (@StagedClientID enrolling_json sample_store "thundercompute.com/gpu=claim-uid-1") w1 in
  let '(r2, _) := run (thunder_handler serve_all) sample_enrol w2 in
  (r1, length (fs_requests w1), staged, r2) =
  (Err (wrap "cache thunder client config" (ErrLib "no space left on device")), 1%nat, "",
   Err (ErrText "exchange client enrollment: status 409 Conflict: enrollment token already used")).
Proof. vm_compute. reflexivity. Qed.

(* -------------------------------------------------------------------- *)
(** ** What is staged into a container *)

Definition guest_library (rootfs : string) : string :=
  path_Join [path_Join [rootfs; ThunderGuestDir]; "libthunder.so"].
Definition guest_config (rootfs : string) : string :=
  path_Join [path_Join [rootfs; ThunderGuestDir]; thunderConfigFile].
Definition guest_bundle (rootfs : string) : string := path_Join [rootfs; DefaultCABundlePath].


Section staging.
Context `{HookJSON, FileServerErrors}.

Lemma guest_paths rootfs : path_IsAbs rootfs = true →
  ¬ temporary (guest_library rootfs) ∧ ¬ temporary (guest_config rootfs) ∧ ¬ temporary (guest_bundle rootfs) ∧
  guest_library rootfs ≠ guest_config rootfs ∧ guest_library rootfs ≠ guest_bundle rootfs ∧
  guest_config rootfs ≠ guest_bundle rootfs.
Proof.
  intros Ha.
  destruct (path_Join_elems rootfs ThunderGuestDir Ha) as (Hd & Hde & _); [done| |].
  { apply (bool_decide_eq_true_1 (Forall plain _)). by vm_compute. }
  destruct (path_Join_elems rootfs DefaultCABundlePath Ha) as (_ & Hbe & Hb); [done| |].
  { apply (bool_decide_eq_true_1 (Forall plain _)). by vm_compute. }
  assert (plain "libthunder.so") as Hl by (by apply (bool_decide_eq_true_1 (plain _))).
  destruct file_names_plain as [Hc _].
  assert (∀ pre s a, s = of_chars (chars s) → last (chars s) = Some a → a ≠ "0"%char → ¬ temporary (pre +:+ s)) as Hst.
  { intros pre s a _ Hs Hn. apply not_temporary. rewrite chars_app, last_app, Hs. congruence. }
  destruct (path_Join_plain _ _ Hd Hl) as (_ & Hle & _).
  destruct (path_Join_plain _ _ Hd Hc) as (_ & Hce & _).
  fold (guest_library rootfs) in Hle. fold (guest_config rootfs) in Hce.
  fold (guest_bundle rootfs) in Hb, Hbe. split_and!.
  - destruct (path_Join_last _ _ Hd Hl) as [pre Hp]. fold (guest_library rootfs) in Hp. rewrite Hp.
    by apply (Hst _ _ "o"%char).
  - destruct (path_Join_last _ _ Hd Hc) as [pre Hp]. fold (guest_config rootfs) in Hp. rewrite Hp.
    by apply (Hst _ _ "n"%char).
  - rewrite Hb. change (components DefaultCABundlePath) with (["etc"; "ssl"; "certs"] ++ ["ca-certificates.crt"]).
    rewrite app_assoc, join_snoc by (by destruct (clean_elems rootfs)).
    rewrite !string_app_assoc. by apply (Hst _ _ "t"%char).
  - intros Heq. by apply path_Join_inj in Heq.
  - intros Heq. rewrite Heq, Hbe, Hde, <-app_assoc in Hle. by apply app_inv_head in Hle.
  - intros Heq. rewrite Heq, Hbe, Hde, <-app_assoc in Hce. by apply app_inv_head in Hce.
Qed.

Lemma stageCABundle_run net refuse rootfs bundle w : ¬ temporary (guest_bundle rootfs) →
  ¬ temporary (if blank bundle then DefaultCABundlePath else bundle) →
  let '(_, w') := run (fs_handler net refuse) (stageCABundle rootfs bundle) w in
  (∀ p, ¬ temporary p → p ≠ guest_bundle rootfs → fs_files w' !! p = fs_files w !! p) ∧
  (refuse (Lstat (guest_bundle rootfs)) = None → is_Some (fs_files w !! guest_bundle rootfs) → w' = w).
Proof.
  intros Hb Hs. unfold stageCABundle. fold (guest_bundle rootfs).
  set (source := if blank bundle then _ else _) in *.
  assert (∀ w0, let '(_, w') := run (fs_handler net refuse)
      (source_info ← ocall (Stat source);
       match source_info with
       | Err _ => mret tt
       | Ok _ =>
           made ← ocall (MkdirAll (path_Dir (guest_bundle rootfs)) 493);
           match made with
           | Err _ => mret tt
           | Ok _ => _ ← copyFile source (guest_bundle rootfs) 420; mret tt
           end
       end) w0 in
      ∀ p, ¬ temporary p → p ≠ guest_bundle rootfs → fs_files w' !! p = fs_files w0 !! p) as Hcopy.
  { intros w0. os_step; [done|]. destruct (missing_or _ source w0); [|done].
    os_step; [done|]. rewrite run_bind.
    pose proof (copyFile_frame net refuse source (guest_bundle rootfs) 420 w0 Hs Hb) as Hc.
    destruct (run _ (copyFile _ _ _) w0) as [r w1]. destruct Hc as [Hc _]. exact Hc. }
  specialize (Hcopy w). os_step.
  - match goal with |- context [run ?h ?q w] => destruct (run h q w) as [r w'] end. by split.
  - unfold missing_or at 1. destruct (fs_files w !! guest_bundle rootfs) as [own|]; cbv beta iota; [by split|].
    match goal with |- context [run ?h ?q w] => destruct (run h q w) as [r w'] end.
    split; [done|]. by intros _ [].
Qed.

End staging.

Definition container_node : fs :=
  FS {["/plugins/lib/libthunder-0a.so" := "ELF"; "/etc/ssl/certs/ca-certificates.crt" := "roots"]} ∅ [] "".
Definition sample_stage : prog os_sig (result unit) :=
  stageThunderClient "/run/c1/rootfs/" "/plugins/lib/libthunder-0a.so" sample_config "".

Lemma sample_stage_ok : (run (thunder_handler serve_all) sample_stage container_node).1 = Ok tt.
Proof. vm_compute. reflexivity. Qed.


(** An image's own trust store is replaced where looking for it fails. *)
Example own_store_replaced :
  let refuse (e : os_ev) : option error :=
    match e with Lstat _ => Some (ErrLib "input/output error") | _ => None end in
  let own := "/run/c1/rootfs/etc/ssl/certs/ca-certificates.crt" in
  let w := FS (<[own := "own roots"]> (fs_files container_node)) ∅ [] "" in
  fs_files (run (thunder_handler refuse) sample_stage w).2 !! own = Some "roots".
Proof. vm_compute. reflexivity. Qed.

(** A minimal image also gets the node's trust store. *)
Example sample_staged_files :
  (map_to_list (fs_files (run (thunder_handler serve_all) sample_stage container_node).2)).*1 ≡ₚ
  ["/plugins/lib/libthunder-0a.so"; "/etc/ssl/certs/ca-certificates.crt";
   "/run/c1/rootfs/etc/thunder/libthunder.so"; "/run/c1/rootfs/etc/thunder/config.json";
   "/run/c1/rootfs/etc/ssl/certs/ca-certificates.crt"].
Proof. vm_compute. solve_Permutation. Qed.

(* -------------------------------------------------------------------- *)
(** ** One hook at a time *)

Definition keeps_lock (lock : string) (_ : list (event os_sig)) (e : ev os_sig) : Prop :=
  e ≠ Unlock lock.
Definition under_lock (lock : string) (pre : list (event os_sig)) (e : ev os_sig) : Prop :=
  holding lock pre ∧ e ≠ Unlock lock.

Lemma holding_lift {A} lock pre (p : prog os_sig A) Q : holding lock pre →
  wp (keeps_lock lock) pre p Q → wp (under_lock lock) pre p (λ pre' a, holding lock pre' ∧ Q pre' a).
Proof.
  revert pre. induction p as [a|e k IH]; intros pre Hh; [by split|]. intros [He Hk].
  split; [by split|]. intros r. apply IH; [|apply Hk]. by apply (holding_snoc lock pre e r).
Qed.

Section exclusive.
Context `{HookJSON, MapOrder} (lock : string).
(** Programs that never give the lock back. *)
Definition keeps {A} (p : prog os_sig A) : Prop := ∀ pre, wp (keeps_lock lock) pre p (λ _ _, True).

Lemma keeps_bind {A B} (p : prog os_sig A) (f : A → prog os_sig B) :
  keeps p → (∀ a, keeps (f a)) → keeps (p ≫= f).
Proof.
  intros Hp Hf pre. rewrite wp_bind. eapply wp_strengthen; [apply Hp|]. intros pre' a _ _. apply Hf.
Qed.
Lemma keeps_call e : e ≠ Unlock lock → keeps (ocall e).
Proof. by intros He pre. Qed.
Lemma keeps_ret {A} (a : A) : keeps (mret a : prog os_sig A).
Proof. done. Qed.
Lemma keeps_orfail {A B} w (f : A → prog os_sig (result B)) (p : prog os_sig (result A)) :
  keeps p → (∀ a, keeps (f a)) → keeps (orfail w f p).
Proof. intros Hp Hf. apply keeps_bind; [done|]. intros [a|e]; [apply Hf|apply keeps_ret]. Qed.

#[local] Hint Resolve keeps_ret keeps_bind keeps_orfail : keeps.
#[local] Hint Extern 1 (keeps (ocall _)) => (by apply keeps_call) : keeps.
#[local] Hint Extern 2 (keeps (match ?x with _ => _ end)) => destruct x : keeps.

Lemma keeps_publish target mode fill : (∀ t, keeps (fill t)) → keeps (publish_temp target mode fill).
Proof. unfold publish_temp. eauto 12 with keeps. Qed.
Lemma keeps_copy source target mode : keeps (copyFile source target mode).
Proof. unfold copyFile. apply keeps_orfail; [eauto with keeps|]. intros _. apply keeps_publish. eauto with keeps. Qed.
Lemma keeps_write target data mode : keeps (writeFileAtomic target data mode).
Proof. unfold writeFileAtomic. apply keeps_publish. eauto with keeps. Qed.
#[local] Hint Resolve keeps_copy keeps_write : keeps.

Lemma keeps_exchange opts token clientName remaining delay err :
  keeps (exchange_loop opts token clientName remaining delay err).
Proof.
  revert delay err. induction remaining as [|remaining IH]; intros delay err; [apply keeps_ret|].
  cbn [exchange_loop]. apply keeps_bind.
  - unfold ExchangeClientEnrollment. destruct (blank token); [apply keeps_ret|].
    destruct (blank _); [apply keeps_ret|]. eauto 12 with keeps.
  - intros [c|e]; [apply keeps_ret|]. destruct (_ || _); [apply keeps_ret|].
    unfold jitter. eauto 12 with keeps.
Qed.
#[local] Hint Resolve keeps_exchange : keeps.

Lemma keeps_config opts : keeps (clientConfigForClaim opts).
Proof. unfold clientConfigForClaim, enroll_claim, exchangeWithRetry. eauto 12 with keeps. Qed.

Lemma keeps_stage rootfs library config bundle : keeps (stageThunderClient rootfs library config bundle).
Proof. unfold stageThunderClient, stageCABundle. eauto 12 with keeps. Qed.

Lemma keeps_ensure c : (∀ artifact, lock_of (cache_path c artifact) ≠ lock) → keeps (Ensure c None).
Proof.
  intros Hne. unfold Ensure. apply keeps_bind.
  - unfold Resolve, fetchInstaller. eauto 12 with keeps.
  - intros [[artifact|e] resolved]; [|apply keeps_ret]. apply keeps_bind; [|eauto with keeps].
    assert (keeps (ocall (Unlock (path_Join [path_Dir (cache_path c artifact); libthunderLockFile]))))
      as Hunlock by (apply keeps_call; intros [= Heq]; by destruct (Hne artifact)).
    unfold ensure_artifact, cached, lockFile, download, verify_publish. cbv zeta.
    repeat (first [apply keeps_ret|exact Hunlock|apply keeps_bind|apply keeps_orfail|by apply keeps_call
      |match goal with |- keeps (match ?x with _ => _ end) => destruct x end]; intros).
Qed.

Lemma keeps_hook opts rootfs :
  (∀ c artifact, lc_Dir c = ho_CacheDir opts → lock_of (cache_path c artifact) ≠ lock) →
  keeps (hook_locked opts rootfs).
Proof.
  intros Hne. unfold hook_locked. apply keeps_bind; [apply keeps_ensure; intros; by apply Hne|].
  intros [[path|e] resolved]; [|apply keeps_ret].
  apply keeps_orfail; [apply keeps_config|]. intros c. apply keeps_stage.
Qed.
End exclusive.

(** The calls of a hook: before it holds the claim's lock it only looks for
    the container and asks for the lock; everything else it does while it
    holds it. *)
Definition hook_may (lock : string) (pre : list (event os_sig)) (e : ev os_sig) : Prop :=
  match e with
  | Stat _ | MkdirAll _ _ | OpenLock _ | Flock _ => True
  | _ => holding lock pre
  end.

Lemma abs_rooted q : path_IsAbs ("/" +:+ q) = true.
Proof. apply has_prefix_slash. by eexists. Qed.

Lemma abs_Dir p : path_IsAbs p = true → path_IsAbs (path_Dir p) = true.
Proof.
  intros [q ->]%has_prefix_slash. unfold path_Dir. rewrite chars_app. change (chars "/") with [slash].
  rewrite reverse_app. change (reverse [slash]) with [slash].
  set (P := λ a, negb (bool_decide (a = slash))).
  assert (∀ l, ∃ l', drop_while P (l ++ [slash]) = l' ++ [slash]) as Hkeep.
  { induction l as [|a l [l' IH]]; [by exists []|]. cbn. destruct (P a); [by exists l'|].
    by exists (a :: l). }
  destruct (Hkeep (reverse (chars q))) as [l' ->]. rewrite reverse_app.
  change (reverse [slash]) with [slash]. rewrite of_chars_app. change (of_chars [slash]) with "/".
  rewrite clean_abs by apply abs_rooted. apply abs_rooted.
Qed.

Lemma abs_cache_path c artifact : path_IsAbs (lc_Dir c) = true → path_IsAbs (cache_path c artifact) = true.
Proof.
  intros [q Hq]%has_prefix_slash. unfold cache_path. cbn [path_Join]. rewrite Hq.
  rewrite bool_decide_false by done. set (name := "libthunder-" +:+ _).
  change (join ["/" +:+ q; libthunderCacheSubdir; name] "/")
    with ("/" +:+ (q +:+ "/" +:+ libthunderCacheSubdir +:+ "/" +:+ name)).
  rewrite clean_abs by apply abs_rooted. apply abs_rooted.
Qed.

(** The two locks of a hook are two files. *)
Lemma locks_differ c artifact dir : path_IsAbs (lc_Dir c) = true → path_IsAbs dir = true →
  lock_of (cache_path c artifact) ≠ lock_path dir.
Proof.
  intros Hc Hd Heq. pose proof (abs_Dir _ (abs_cache_path c artifact Hc)) as Ha.
  assert (plain libthunderLockFile) as Hp1 by (by apply (bool_decide_eq_true_1 (plain _))).
  assert (plain thunderLockFile) as Hp2 by (by apply (bool_decide_eq_true_1 (plain _))).
  destruct (path_Join_plain _ _ Ha Hp1) as (_ & H1 & _).
  destruct (path_Join_plain _ _ Hd Hp2) as (_ & H2 & _).
  unfold lock_of, lock_path in Heq. rewrite Heq, H2 in H1. by apply app_inj_tail in H1 as [_ ?].
Qed.

Section hook_safety.
Context `{HookJSON, MapOrder} (opts : CDIHookOptions).
Abbreviation lock := (lock_path (ho_StateDir opts)).

Lemma readOCIRootfs_wp stdin : wp (hook_may lock) [] (readOCIRootfs stdin)
  (λ pre r, Forall (λ x : event os_sig, match evt_call x with Stat _ => True | _ => False end) pre).
Proof.
  unfold readOCIRootfs. destruct stdin as [[raw|e]|]; [|apply Forall_nil_2..]. cbn [orfail_pure].
  destruct (json_oci_state _) as [state|e]; [|apply Forall_nil_2]. cbn [orfail_pure].
  destruct (_ && _); [apply Forall_nil_2|]. unfold orfail. apply wp_ocall; [done|].
  intros [info|e]; [destruct (negb _)|]; apply Forall_cons_2; done || apply Forall_nil_2.
Qed.

Lemma RunCDIHook_wp stdin :
  (∀ c artifact, lc_Dir c = ho_CacheDir opts → lock_of (cache_path c artifact) ≠ lock) →
  wp (hook_may lock) [] (RunCDIHook opts stdin) (λ pre _, ¬ holding lock pre).
Proof.
  intros Hne. unfold RunCDIHook, orfail. rewrite wp_bind.
  eapply wp_strengthen; [apply readOCIRootfs_wp|]. intros pre r _ Hpre.
  assert (∀ l, Forall (λ x, ¬ granted x) l → ¬ holding lock (pre ++ l)) as Hearly.
  { intros l Hl. apply not_holding, Forall_app. split; [|done]. eapply Forall_impl; [exact Hpre|].
    intros [e' r'] Hx Hg. cbn in Hx. by destruct e'. }
  destruct r as [rootfs|e]; [|specialize (Hearly []); rewrite app_nil_r in Hearly; by apply Hearly].
  rewrite wp_bind. unfold lockStateDir, lockFile, orfail. apply wp_ocall; [done|].
  intros [[]|e]; [|apply Hearly; each_call].
  apply wp_ocall; [done|]. intros [[]|e]; [|rewrite <-app_assoc; apply Hearly; each_call].
  apply wp_ocall; [done|]. intros [[]|e]; [|rewrite <-!app_assoc; apply Hearly; each_call].
  assert (holding lock (((pre ++ [oev (MkdirAll (ho_StateDir opts) 448) (Ok tt)]) ++
    [oev (OpenLock lock) (Ok tt)]) ++ [oev (Flock lock) (Ok tt)])) as Hh.
  { apply holding_locked. rewrite <-app_assoc, not_elem_of_app. split.
    - intros Hin. rewrite Forall_forall in Hpre. by apply Hpre in Hin.
    - intros [Hin|Hin%list_elem_of_singleton]%elem_of_cons; by apply (f_equal evt_call) in Hin. }
  set (pre1 := _ ++ [oev (Flock lock) (Ok tt)]) in *. cbn [wp mret prog_ret]. rewrite wp_bind.
  eapply wp_strengthen.
  { eapply wp_weaken; [|apply (holding_lift lock pre1 _ (λ _ _, True) Hh), (keeps_hook lock opts rootfs Hne)].
    intros pre' e [Hhold _]. by destruct e. }
  intros pre2 r _ [Hh2 _]. apply wp_ocall; [done|]. intros [] [_ Hu]. apply Hu, elem_of_last.
Qed.

(** C20: hooks of one claim exclude each other: everything a hook does to the
    node or asks of the network - downloading, spending the token, writing into
    the container - it does while it holds the claim's lock, and however it
    ends the lock is given back. *)
Theorem hook_exclusive stdin tr r :
  path_IsAbs (ho_CacheDir opts) = true → path_IsAbs (ho_StateDir opts) = true →
  exec (RunCDIHook opts stdin) tr r →
  ¬ holding lock tr ∧ ∀ tr1 e reply tr2, tr = tr1 ++ oev e reply :: tr2 → hook_may lock tr1 e.
Proof.
  intros Hc Hs Hx.
  assert (∀ c artifact, lc_Dir c = ho_CacheDir opts → lock_of (cache_path c artifact) ≠ lock) as Hne
    by (intros c artifact Hdir; apply locks_differ; congruence).
  apply (wp_sound _ [] _ _ _ _ (RunCDIHook_wp stdin Hne)) in Hx. exact Hx.
Qed.
End hook_safety.

(** A runtime that names a container, and a node that says yes to everything. *)
Definition container_json : HookJSON :=
  {| json_config := λ _, Ok sample_config; json_enrollment := λ _, Err (ErrLib "json");
     json_claims := λ _, Err (ErrLib "json");
     json_oci_state := λ _, Ok (OCIState "c1" "/run/c1" "") |}.
Definition yes_handler : handler os_sig unit :=
  λ e w, (match e return os_resp e with
          | ReadFile _ | CreateTemp _ _ | Executable | ReadBody _ | CopyBody _ _ => Ok "text"
          | Stat _ | Lstat _ => Ok (FileInfo true 1)
          | HTTPDo _ => Ok (HTTPStatus 200 "200 OK")
          | TimeLeft => None
          | After _ => false
          | Rand _ => 0%Z
          | Unlock _ => tt
          | _ => Ok tt
          end, w).
Definition pinned_hook : CDIHookOptions :=
  HookOptions "/state/claim-1" "" "" "" "" "https://get.example/lib.so" "0a" "/cache" "" "".

Lemma hook_exclusive_witness :
  let p := @RunCDIHook container_json listed_order pinned_hook (Some (Ok "{}")) in
  (run yes_handler p ()).1 = Ok tt ∧
  ¬ holding "/state/claim-1/stage.lock" (trace yes_handler p ()).
Proof.
  cbv zeta. split; [vm_compute; reflexivity|].
  exact (proj1 (@hook_exclusive container_json listed_order pinned_hook (Some (Ok "{}")) _ _ eq_refl
    eq_refl (run_exec yes_handler _ ()))).
Defined.
