(* ===== verification/Plugin.v ===== *)
(** * Daemon: starting the DRA plugin

    internal/daemon/runtime.go's startDRAPlugin and start.go's StartNodePlugin:
    how the daemon's configuration becomes the driver and its four stores, and
    what the kubelet plugin is started with. *)

From S2P Require Import Prelude GoStrings Float64 Labels ResourceSlice Driver DaemonConfig GoPath GoTime.
From S2P Require Import Json ClientStore GuestStore OS ClientConfig CDIStore TokenIssuer Host Libthunder CDIHook.

(** The driver with the stores behind its interfaces. *)
Record plugin := Plugin {
  pl_driver : Driver;
  pl_Tokens : ThunderTokenIssuer;
  pl_Clients : KubernetesThunderClientStore;
  pl_CDI : FileCDIDeviceStore;
  pl_Guest : bool
}.

Record PluginConfig := MkPluginConfig {
  pc_DriverName : string;
  pc_NodeName : string;
  pc_KubeletPluginDir : string;
  pc_RegistrarDir : string
}.

(** The options of [kubeletplugin.Start]. *)
Record plugin_options := PluginOptions {
  po_DriverName : string;
  po_NodeName : string;
  po_Serialize : bool;
  po_GRPCVerbosity : Z;
  po_PluginDataDirectoryPath : option string;
  po_RegistrarDirectoryPath : option string
}.

(** Building the clients, and [kubeletplugin.Start]. *)
Inductive setup_ev :=
  | InClusterConfig
  | NewKube
  | NewDynamic
  | KubeletStart (p : plugin) (options : plugin_options).
Definition setup_sig : sig := Sig setup_ev (λ _, result unit).
Abbreviation plugin_sig := (sig_sum os_sig setup_sig).
Definition pcall (e : setup_ev) : prog plugin_sig (result unit) := call (S:=plugin_sig) (inr e).

(** The SDK's command that installs and enrolls a client, of an SDK client
    with the given URLs; the token is in a variable. *)
Class ClientCommands := {
  ClientEnrollmentCommandFor (apiURL installURL enrollmentTokenEnv : string) : string
}.

(** [if x != ""] around an option. *)
Definition set_option_path (value : string) : option string :=
  if bool_decide (value ≠ "") then Some value else None.

(** [kube] is whether the client passed is set, as it always is. *)
Definition StartNodePlugin (driver : option plugin) (kube : bool) (cfg : PluginConfig)
    : prog plugin_sig (result unit) :=
  match driver with
  | None => mret (Err (ErrText "driver is required"))
  | Some p =>
      let driverName := if bool_decide (pc_DriverName cfg = "") then DefaultDriverName
                        else pc_DriverName cfg in
      let d := pl_driver p in
      let d :=
        {| d_DriverName := driverName;
           d_NodeName := if bool_decide (d_NodeName d = "") then pc_NodeName cfg else d_NodeName d;
           d_Kube := if d_Kube d then true else kube;
           d_Tokens := d_Tokens d; d_Clients := d_Clients d; d_CDI := d_CDI d; d_Guest := d_Guest d;
           d_FileCDIInstallCommand := d_FileCDIInstallCommand d |} in
      let? _ := pcall (KubeletStart (Plugin d (pl_Tokens p) (pl_Clients p) (pl_CDI p) (pl_Guest p))
          {| po_DriverName := driverName;
             po_NodeName := pc_NodeName cfg;
             po_Serialize := true;
             po_GRPCVerbosity := 3;
             po_PluginDataDirectoryPath := set_option_path (pc_KubeletPluginDir cfg);
             po_RegistrarDirectoryPath := set_option_path (pc_RegistrarDir cfg) |})
        or wrap "start DRA kubelet plugin" in
      mret (Ok tt)
  end.

Section start.
Context `{UnicodeTables, ClientCommands}.

(** The CDI store of a configuration, once the hook's binary is staged. *)
Definition cdi_store (cfg : Config) (hookPath : string) : FileCDIDeviceStore :=
  {| fc_SpecDir := c_CDISpecDir cfg;
     fc_StateDir := path_Join [c_KubeletPluginDir cfg; "cdi-state"];
     fc_Kind := DefaultCDIKind;
     fc_LibCUDAPath := c_LibCUDAPath cfg;
     fc_LibNVMLPath := c_LibNVMLPath cfg;
     fc_NVSMIPath := c_NVSMIPath cfg;
     fc_ClientInstallCommand := ClientEnrollmentCommandFor (c_ThunderAPIURL cfg)
       (c_ThunderInstallURL cfg) ThunderEnrollmentTokenEnv;
     fc_HookPath := hookPath;
     fc_CacheDir := c_KubeletPluginDir cfg;
     fc_CentralURL := c_ThunderAPIURL cfg;
     fc_TelemetryURL := c_ThunderTelemetryURL cfg;
     fc_InstallURL := c_ThunderInstallURL cfg;
     fc_ArtifactBaseURL := c_ArtifactBaseURL cfg;
     fc_LibthunderURL := c_LibthunderURL cfg;
     fc_LibthunderSHA256 := c_LibthunderSHA256 cfg;
     fc_CABundlePath := c_CABundlePath cfg |}.

Definition plugin_of (cfg : Config) (zoneID hookPath : string) : plugin :=
  let cdi := cdi_store cfg hookPath in
  {| pl_driver := MkDriver (c_DRADriverName cfg) (c_Node cfg) true true true true true
                    (Some (fc_ClientInstallCommand cdi));
     pl_Tokens := TokenIssuer true zoneID;
     pl_Clients := NewKubernetesThunderClientStore true (c_ThunderClientNS cfg);
     pl_CDI := cdi;
     pl_Guest := true |}.

Definition startDRAPlugin (cfg : Config) (zoneID : string) : prog plugin_sig (result unit) :=
  if negb (c_DRAEnabled cfg) then mret (Ok tt)
  else
    let? _ := pcall InClusterConfig or wrap "build in-cluster kubernetes config for DRA plugin" in
    let? _ := pcall NewKube or wrap "build kubernetes client for DRA plugin" in
    let? _ := pcall NewDynamic or wrap "build dynamic kubernetes client for DRA plugin" in
    let? hookPath := lift_l (StageHookBinary (c_KubeletPluginDir cfg)) or id in
    StartNodePlugin (Some (plugin_of cfg zoneID hookPath)) true
      (MkPluginConfig (c_DRADriverName cfg) (c_Node cfg) (c_KubeletPluginDir cfg) (c_KubeletRegistrarDir cfg)).
End start.

(* -------------------------------------------------------------------- *)
(** ** Lemmas *)

Definition is_start (x : event plugin_sig) : bool :=
  match evt_call x with inr (KubeletStart _ _) => true | _ => false end.
Definition starts (tr : list (event plugin_sig)) : list (plugin * plugin_options) :=
  omap (λ x : event plugin_sig, match evt_call x with inr (KubeletStart p o) => Some (p, o) | _ => None end) tr.

(** Where the hook's binary is staged. *)
Definition hook_target (cfg : Config) : string := path_Join [c_KubeletPluginDir cfg; "bin"; "thunder-cdi-hook"].

(** What the plugin is started as. *)
Definition started_options (cfg : Config) : plugin_options :=
  {| po_DriverName := c_DRADriverName cfg; po_NodeName := c_Node cfg; po_Serialize := true;
     po_GRPCVerbosity := 3; po_PluginDataDirectoryPath := Some (c_KubeletPluginDir cfg);
     po_RegistrarDirectoryPath := Some (c_KubeletRegistrarDir cfg) |}.

Lemma exec_pcall {B} e (f : result unit → prog plugin_sig B) tr b :
  exec (pcall e ≫= f) tr b ↔ ∃ (r : result unit) tr',
    tr = Ev (S:=plugin_sig) (inr e) r :: tr' ∧ exec (f r) tr' b.
Proof. done. Qed.

Lemma starts_lifted (tr : list (event os_sig)) : starts (event_l (T:=setup_sig) <$> tr) = [].
Proof. induction tr as [|[e r] tr IH]; [done|exact IH]. Qed.
Lemma plugin_starts_app tr1 tr2 : starts (tr1 ++ tr2) = starts tr1 ++ starts tr2.
Proof. apply omap_app. Qed.

(** The calls that put a copy of the running binary, executable, where the
    hook is run from: it is filled under a temporary name and renamed. *)
Definition hook_staged (cfg : Config) (tr : list (event os_sig)) : Prop :=
  ∃ self temp removed, tr =
    [oev Executable (Ok self); oev (MkdirAll (path_Dir (hook_target cfg)) 493) (Ok tt);
     oev (Open self) (Ok tt); oev (CreateTemp (path_Dir (hook_target cfg)) ".stage-*") (Ok temp);
     oev (CopyTemp self temp) (Ok tt); oev (CloseTemp temp) (Ok tt); oev (Chmod temp 493) (Ok tt);
     oev (Rename temp (hook_target cfg)) (Ok tt); oev (Remove temp) removed].

Lemma exec_ocall {B} (e : os_ev) (f : os_resp e → prog os_sig B) tr b :
  exec (ocall e ≫= f) tr b ↔ ∃ (r : os_resp e) tr', tr = oev e r :: tr' ∧ exec (f r) tr' b.
Proof. done. Qed.

(** One call of an execution that is to succeed: it succeeded. *)
Ltac succeeds Hx :=
  apply exec_ocall in Hx as ([?|?] & ? & -> & Hx); cbn [mbind prog_bind prog_bind_def] in Hx;
  [|by destruct Hx as [_ [=]]].

Lemma publish_temp_ok target mode source tr :
  exec (publish_temp target mode (λ temp, ocall (CopyTemp source temp))) tr (Ok tt) →
  ∃ temp removed, tr =
    [oev (CreateTemp (path_Dir target) ".stage-*") (Ok temp); oev (CopyTemp source temp) (Ok tt);
     oev (CloseTemp temp) (Ok tt); oev (Chmod temp mode) (Ok tt); oev (Rename temp target) (Ok tt);
     oev (Remove temp) removed].
Proof.
  unfold publish_temp, orfail. intros Hx. succeeds Hx.
  apply exec_bind in Hx as (tr1 & filled & tr2 & -> & Hfill & Hx).
  apply exec_ocall in Hx as (removed & ? & -> & [-> <-]).
  apply exec_ocall in Hfill as ([[]|] & ? & -> & Hx); cbn [mbind prog_bind prog_bind_def] in Hx.
  2:{ apply exec_ocall in Hx as (? & ? & -> & Hx). by destruct Hx as [_ [=]]. }
  do 2 (apply exec_ocall in Hx as ([[]|] & ? & -> & Hx); cbn [mbind prog_bind prog_bind_def] in Hx;
    [|by destruct Hx as [_ [=]]]).
  destruct Hx as (r & ? & -> & -> & <-). by eexists _, removed.
Qed.

Lemma StageHookBinary_exec cfg tr r : exec (StageHookBinary (c_KubeletPluginDir cfg)) tr r →
  match r with Ok t => t = hook_target cfg ∧ hook_staged cfg tr | Err _ => True end.
Proof.
  unfold StageHookBinary, orfail. destruct r as [t|]; [|done]. intros Hx.
  destruct (blank (c_KubeletPluginDir cfg)); [by destruct Hx as [_ [=]]|].
  do 2 succeeds Hx. apply exec_bind in Hx as (tr1 & [[]|] & tr2 & -> & Hcopy & Hx);
    [|by destruct Hx as [_ [=]]].
  destruct Hx as [-> [= ->]]. split; [done|]. unfold copyFile, orfail in Hcopy. succeeds Hcopy.
  apply publish_temp_ok in Hcopy as (temp & removed & ->).
  repeat match goal with u : unit |- _ => destruct u end. rewrite app_nil_r. by eexists _, temp, removed.
Qed.

(* -------------------------------------------------------------------- *)
(** ** Theorems *)

Section theorems.
Context `{UnicodeTables, ClientCommands}.

(** Fields of an accepted configuration that the plugin depends on. *)
Definition named (cfg : Config) : Prop :=
  c_DRADriverName cfg ≠ "" ∧ c_Node cfg ≠ "" ∧ c_KubeletPluginDir cfg ≠ "" ∧ c_KubeletRegistrarDir cfg ≠ "" ∧
  trim_space (c_DRADriverName cfg) = c_DRADriverName cfg ∧
  trim_space (c_ThunderClientNS cfg) = c_ThunderClientNS cfg ∧ c_ThunderClientNS cfg ≠ "".

Lemma accepted_named lookup cfg : configFromLookup lookup = Ok cfg → named cfg.
Proof.
  intros Hc. destruct (configFromLookup_fields lookup cfg Hc) as [Hf _].
  unfold named. split_and!; apply Hf; unfold never_empty; set_solver.
Qed.

Lemma StartNodePlugin_exec cfg zoneID hook tr r : named cfg →
  exec (StartNodePlugin (Some (plugin_of cfg zoneID hook)) true
    (MkPluginConfig (c_DRADriverName cfg) (c_Node cfg) (c_KubeletPluginDir cfg) (c_KubeletRegistrarDir cfg))) tr r →
  starts tr = [(plugin_of cfg zoneID hook, started_options cfg)] ∧
  ∃ answer : result unit, tr = [Ev (S:=plugin_sig)
    (inr (KubeletStart (plugin_of cfg zoneID hook) (started_options cfg))) answer] ∧ is_ok r = is_ok answer.
Proof.
  intros (Hd & Hn & Hp & Hr & _). unfold StartNodePlugin, orfail, set_option_path.
  cbn [pc_DriverName pc_NodeName pc_KubeletPluginDir pc_RegistrarDir plugin_of pl_driver d_NodeName d_Kube
    d_Tokens d_Clients d_CDI d_Guest d_FileCDIInstallCommand pl_Tokens pl_Clients pl_CDI pl_Guest].
  rewrite !(bool_decide_false (_ = "")), !bool_decide_true by done.
  intros (answer & tr' & -> & Hx)%exec_pcall.
  destruct answer as [[]|e]; destruct Hx as [-> ->]; (split; [done|]); by eexists.
Qed.

(** What comes before the kubelet plugin is started: the clients, and the
    hook's binary. *)
Definition prepared (cfg : Config) (pre : list (event plugin_sig)) : Prop :=
  ∃ staged, hook_staged cfg staged ∧ pre =
    [Ev (S:=plugin_sig) (inr InClusterConfig) (Ok tt); Ev (S:=plugin_sig) (inr NewKube) (Ok tt);
     Ev (S:=plugin_sig) (inr NewDynamic) (Ok tt)] ++ (event_l (T:=setup_sig) <$> staged).

Lemma prepared_starts cfg pre : prepared cfg pre → starts pre = [].
Proof. intros (staged & _ & ->). exact (starts_lifted staged). Qed.

Lemma startDRAPlugin_exec cfg zoneID tr r : named cfg → exec (startDRAPlugin cfg zoneID) tr r →
  (c_DRAEnabled cfg = false ∧ tr = [] ∧ r = Ok tt) ∨
  (c_DRAEnabled cfg = true ∧ starts tr = [] ∧ is_ok r = false) ∨
  ∃ pre (answer : result unit), c_DRAEnabled cfg = true ∧
    tr = pre ++ [Ev (S:=plugin_sig)
      (inr (KubeletStart (plugin_of cfg zoneID (hook_target cfg)) (started_options cfg))) answer] ∧
    prepared cfg pre ∧ is_ok r = is_ok answer.
Proof.
  intros Hcfg Hx. unfold startDRAPlugin in Hx.
  destruct (c_DRAEnabled cfg); cbn [negb] in Hx; [right|destruct Hx as [-> ->]; by left].
  unfold orfail in Hx.
  do 3 (apply exec_pcall in Hx as ([[]|?] & ? & -> & Hx); cbn [mbind prog_bind prog_bind_def] in Hx;
    [|destruct Hx as [-> ->]; by left]).
  apply exec_bind in Hx as (tr1 & hook & tr2 & -> & Hhook & Hx).
  apply exec_lift_l in Hhook as (tr1' & -> & Hhook%StageHookBinary_exec).
  destruct hook as [hook|e].
  2:{ destruct Hx as [-> ->]. left. split_and!; [done| |done]. rewrite app_nil_r. exact (starts_lifted tr1'). }
  destruct Hhook as [-> Hstaged]. right. destruct (StartNodePlugin_exec _ _ _ _ _ Hcfg Hx) as (_ & answer & -> & Hok).
  match goal with |- context [?a :: ?b :: ?c :: ?l ++ [?d]] => exists (a :: b :: c :: l), answer end.
  repeat match goal with u : unit |- _ => destruct u end.
  split_and!; [done|done|by exists tr1'|done].
Qed.

(** The driver the plugin is started with lacks nothing, and its stores agree
    on where things are. *)
Definition wired (cfg : Config) (zoneID : string) (p : plugin) : Prop :=
  validate (pl_driver p) = Ok tt ∧ driverName (pl_driver p) = c_DRADriverName cfg ∧
  d_NodeName (pl_driver p) = c_Node cfg ∧
  ti_Client (pl_Tokens p) = true ∧ ti_ZoneID (pl_Tokens p) = zoneID ∧
  ks_Client (pl_Clients p) = true ∧ store_namespace (pl_Clients p) = c_ThunderClientNS cfg ∧
  pl_Guest p = true ∧
  CDIInstallCommand (pl_driver p) = fc_ClientInstallCommand (pl_CDI p) ∧
  fc_HookPath (pl_CDI p) = hook_target cfg ∧ fc_CacheDir (pl_CDI p) = c_KubeletPluginDir cfg ∧
  fc_StateDir (pl_CDI p) = path_Join [c_KubeletPluginDir cfg; "cdi-state"].

Lemma plugin_of_wired cfg zoneID : named cfg → wired cfg zoneID (plugin_of cfg zoneID (hook_target cfg)).
Proof.
  intros (Hd & _ & _ & _ & Htd & Htns & Hns). unfold wired. split_and!; try done.
  - unfold driverName, blank. cbn [plugin_of pl_driver d_DriverName]. rewrite Htd. by rewrite bool_decide_false.
  - unfold store_namespace. cbn [plugin_of pl_Clients NewKubernetesThunderClientStore]. unfold NewKubernetesThunderClientStore.
    assert (blank (c_ThunderClientNS cfg) = false) as Hb by (apply blank_false; by rewrite Htns).
    rewrite Hb. cbn [ks_Namespace]. by rewrite Hb.
Qed.

(** C25: a daemon with the DRA plugin off calls nothing.  Otherwise the kubelet
    plugin is started at most once, and exactly once when the start succeeds:
    as the last call, after the clients were set up and the running binary was
    copied to a temporary file, closed, made executable and renamed to where
    the hook is run from, each of these calls successful; one claim at a time,
    under the configured names, with a driver none of whose interfaces is
    missing and whose stores agree on where things are: the driver hands the
    guests the install command the CDI store has, the hook is run from where it
    was staged, and the CDI state lives in the plugin's directory. *)
Theorem startDRAPlugin_wiring lookup cfg zoneID tr r :
  configFromLookup lookup = Ok cfg → exec (startDRAPlugin cfg zoneID) tr r →
  (c_DRAEnabled cfg = false → tr = [] ∧ r = Ok tt) ∧
  (starts tr = [] ∧ (c_DRAEnabled cfg = true → is_ok r = false) ∨
   ∃ p pre (answer : result unit),
     tr = pre ++ [Ev (S:=plugin_sig) (inr (KubeletStart p (started_options cfg))) answer] ∧
     prepared cfg pre ∧ is_ok r = is_ok answer ∧ wired cfg zoneID p).
Proof.
  intros Hcfg%accepted_named
    [(Hd & -> & ->)|[(Hd & Hs & Hr)|(pre & answer & Hd & -> & Hs & Hr)]]%startDRAPlugin_exec; [..|done]; rewrite Hd.
  - split; [done|]. by left.
  - split; [done|]. by left.
  - split; [done|]. right. exists (plugin_of cfg zoneID (hook_target cfg)), pre, answer.
    split_and!; [done..|]. by apply plugin_of_wired.
Qed.
End theorems.

Section witnesses.
#[local] Existing Instances ascii_tables.

Definition sample_commands : ClientCommands :=
  {| ClientEnrollmentCommandFor _ installURL env := "curl -fsSL " +:+ installURL +:+ " | sh" |}.

(** A cluster that agrees to everything, and a node with the daemon's binary. *)
Definition willing_handler : handler plugin_sig fs :=
  handler_sum (T:=setup_sig) sample_handler (λ _ w, (Ok tt, w)).
Definition daemon_node : fs := FS {["/proc/self/exe" := "daemon"]} ∅ [] "".
Definition sample_start : prog plugin_sig (result unit) :=
  @startDRAPlugin sample_commands DaemonConfig.sample_config "zone-1".

Lemma sample_start_ok :
  let '(r, w) := run willing_handler sample_start daemon_node in
  r = Ok tt ∧ fs_files w !! hook_target DaemonConfig.sample_config = Some "daemon".
Proof. vm_compute. by split. Qed.

Definition minimal_env (key : string) : option string :=
  (list_to_map [("NODE", "node-1"); ("MIN_DRIVER_VERSION", "535.104"); ("THUNDER_API_TOKEN", "t")]
    : gmap string string) !! key.
Lemma minimal_accepted : configFromLookup minimal_env = Ok DaemonConfig.sample_config.
Proof. vm_compute. reflexivity. Qed.

Lemma startDRAPlugin_wiring_witness :
  ∃ tr p pre, exec sample_start tr (Ok tt) ∧ prepared DaemonConfig.sample_config pre ∧
    tr = pre ++ [Ev (S:=plugin_sig) (inr (KubeletStart p (started_options DaemonConfig.sample_config))) (Ok tt)] ∧
    fc_HookPath (pl_CDI p) = "/var/lib/kubelet/plugins/thundercompute.com/bin/thunder-cdi-hook".
Proof.
  pose proof (run_exec willing_handler sample_start daemon_node) as Hx.
  assert ((run willing_handler sample_start daemon_node).1 = Ok tt) as Hr by (vm_compute; reflexivity).
  rewrite Hr in Hx.
  destruct (@startDRAPlugin_wiring ascii_tables sample_commands minimal_env DaemonConfig.sample_config "zone-1" _ _
    minimal_accepted Hx) as [_ [[_ Hno]|(p & pre & answer & Htr & Hpre & Hok & _ & _ & _ & _ & _ & _ & _ & _ & _ & Hp & _)]].
  - specialize (Hno eq_refl). discriminate Hno.
  - destruct answer as [[]|]; [|discriminate Hok].
    eexists _, p, pre. split; [exact Hx|]. split; [exact Hpre|]. split; [exact Htr|]. rewrite Hp. vm_compute. reflexivity.
Defined.

(** Without THUNDER_API_URL the configuration is accepted and the plugin
    starts, and then no container can be set up: the hook needs the URL. *)
Example missing_api_url :
  let p := @plugin_of sample_commands DaemonConfig.sample_config "zone-1" (hook_target DaemonConfig.sample_config) in
  let opts := options_of (pl_CDI p) "claim-uid-1" guest_sample in
  let w := FS {[token_path opts := "token" +:+ newline]} ∅ [] "" in
  (run (thunder_handler serve_all) (@clientConfigForClaim enrolling_json listed_order opts) w).1 =
  Err (ErrText "central URL is required").
Proof. vm_compute. reflexivity. Qed.
End witnesses.
