(* ===== verification/Node.v ===== *)
(** * A node: the driver over its real stores

    The driver of Driver.v with the stores that startDRAPlugin gives it
    (TokenIssuer, ClientStore, GuestStore, CDIStore), next to the CDI hook
    (CDIHook), against a world of a Thunder account, the API server's
    ThunderClients, Secrets and ResourceSlices, and the node's files.  Preparing
    a claim, setting its containers up and unpreparing it leave that world as
    it was. *)

From S2P Require Import Prelude GoStrings Float64 Labels ResourceSlice KubeAPI Driver DriverSpec Lifecycle.
From S2P Require Import Reaper GoTime Json ClientStore GuestStore TokenIssuer DaemonConfig GoPath OS.
From S2P Require Import ClientConfig CDIStore Host Libthunder CDIHook Plugin.

(** Everything the daemon and its hook call on behalf of a claim. *)
Inductive node_ev :=
  | NSlices (driver : string)
  | NIssuer (e : issuer_ev)
  | NRecord (e : crd_ev)
  | NSecret (e : secret_ev)
  | NFile (e : os_ev).
Definition node_resp (e : node_ev) : Type :=
  match e with
  | NSlices _ => result (list resource_slice)
  | NIssuer e => issuer_resp e
  | NRecord e => crd_resp e
  | NSecret e => secret_resp e
  | NFile e => os_resp e
  end.
Definition node_sig : sig := Sig node_ev node_resp.

Definition on_issuer {A} (p : prog issuer_sig A) : prog node_sig A :=
  link (S:=issuer_sig) (T:=node_sig) (λ e, call (S:=node_sig) (NIssuer e)) p.
Definition on_record {A} (p : prog crd_sig A) : prog node_sig A :=
  link (S:=crd_sig) (T:=node_sig) (λ e, call (S:=node_sig) (NRecord e)) p.
Definition on_secret {A} (p : prog secret_sig A) : prog node_sig A :=
  link (S:=secret_sig) (T:=node_sig) (λ e, call (S:=node_sig) (NSecret e)) p.
Definition on_file {A} (p : prog os_sig A) : prog node_sig A :=
  link (S:=os_sig) (T:=node_sig) (λ e, call (S:=node_sig) (NFile e)) p.

Section driver.
Context `{UnicodeTables, MapOrder, LibErrors, FileErrors, HookJSON} (p : plugin).

(** The interfaces of the driver, as the plugin has them; the driver does not
    use when a token expires. *)
Definition driver_impl (e : ev driver_sig) : prog node_sig (resp driver_sig e) :=
  match e return prog node_sig (driver_resp e) with
  | ListSlices driver => call (S:=node_sig) (NSlices driver)
  | Mint al =>
      r ← on_issuer (issuer_Mint (pl_Tokens p) al);
      mret match r with Ok (id, token, _) => Ok (id, token) | Err e => Err e end
  | Revoke tokenID => on_issuer (issuer_Revoke (pl_Tokens p) tokenID)
  | RevokeClient clientID => on_issuer (issuer_RevokeClient (pl_Tokens p) clientID)
  | GetClient uid => on_record (store_Get (pl_Clients p) uid)
  | UpsertClient client => on_record (store_Upsert (pl_Clients p) client)
  | DeleteClient uid => on_record (store_Delete (pl_Clients p) uid)
  | CreateCDI al token => on_file (cdi_Create (pl_CDI p) al token)
  | RemoveCDI name => on_file (cdi_Remove (pl_CDI p) name)
  | Driver.StagedClientID name => on_file (CDIStore.StagedClientID (pl_CDI p) name)
  | CreateGuest al token command => on_secret (guest_Create (pl_Guest p) al token command)
  | RemoveGuest artifacts => on_secret (guest_Remove (pl_Guest p) artifacts)
  | Clock => on_record (ccall TimeNow)
  end.

(** The driver's entry points, linked with the stores. *)
Definition node_prepare (claim : resource_claim) : prog node_sig (result (list plugin_device)) :=
  link driver_impl (prepareOne (pl_driver p) claim).
Definition node_unprepare (claim : namespaced_object) : prog node_sig (result unit) :=
  link driver_impl (unprepareOne (pl_driver p) claim).

(** The hook gets the claim's client configuration, once for each of [n]
    containers of the claim. *)
Fixpoint node_containers (opts : CDIHookOptions) (n : nat) : prog node_sig unit :=
  match n with
  | O => mret tt
  | S n => _ ← on_file (clientConfigForClaim opts); node_containers opts n
  end.
End driver.

(* -------------------------------------------------------------------- *)
(** ** The world *)

Record node := MkNode {
  n_slices : list resource_slice;
  n_account : account;
  n_crd : crd_server;
  n_secrets : gmap (string * string) secret;
  n_fs : fs
}.
Definition set_account (x : account) (w : node) : node :=
  MkNode (n_slices w) x (n_crd w) (n_secrets w) (n_fs w).
Definition set_crd (x : crd_server) (w : node) : node :=
  MkNode (n_slices w) (n_account w) x (n_secrets w) (n_fs w).
Definition set_secrets (x : gmap (string * string) secret) (w : node) : node :=
  MkNode (n_slices w) (n_account w) (n_crd w) x (n_fs w).
Definition set_fs (x : fs) (w : node) : node :=
  MkNode (n_slices w) (n_account w) (n_crd w) (n_secrets w) x.

Section world.
Context `{UnicodeTables, MapOrder, ServerErrors, !AccountErrors, FileServerErrors, HookJSON}.
Context (clock : nat → Z) (net : list http_request → http_request → result (http_status * string)).

(** The client a response enrolls: the one its body names. *)
Definition enrolled_id (response : http_status) (body : string) : option string :=
  if (200 <=? st_Code response)%Z && (st_Code response <=? 299)%Z then
    match enrolled_config "" "" (limited installerReadLimit body) with
    | Ok c => Some (cc_ClientID c)
    | Err _ => None
    end
  else None.
Definition enrol_client (clients : gset string) (reply : result http_status) (body : string) : gset string :=
  match reply with
  | Ok response => match enrolled_id response body with Some id => {[id]} ∪ clients | None => clients end
  | Err _ => clients
  end.

(** Files and network; the requests Thunder accepts enroll clients. *)
Definition hook_handler (refuse : os_ev → option error) : handler os_sig (fs * gset string) :=
  λ e w, let '(r, f) := fs_handler net refuse e w.1 in
    (r, (f, match e return os_resp e → gset string with
            | HTTPDo _ => λ r, enrol_client w.2 r (fs_body f)
            | _ => λ _, w.2
            end r)).

Definition file_part (w : node) : fs * gset string := (n_fs w, ac_clients (n_account w)).
Definition set_file_part (x : fs * gset string) (w : node) : node :=
  set_fs x.1 (set_account (Account (ac_minted (n_account w)) (ac_tokens (n_account w)) x.2) w).

Definition node_handler (refuse : os_ev → option error) : handler node_sig node := λ e w,
  match e return node_resp e * node with
  | NSlices _ => (Ok (n_slices w), w)
  | NIssuer e => let '(r, x) := account_handler e (n_account w) in (r, set_account x w)
  | NRecord e => let '(r, x) := crd_handler clock e (n_crd w) in (r, set_crd x w)
  | NSecret e => let '(r, x) := secret_handler e (n_secrets w) in (r, set_secrets x w)
  | NFile e => let '(r, x) := hook_handler refuse e (file_part w) in (r, set_file_part x w)
  end.
End world.

(* -------------------------------------------------------------------- *)
(** ** Lemmas: each store acts on its part of the world *)

Section parts.
Context `{UnicodeTables, MapOrder, ServerErrors, !AccountErrors, FileServerErrors, HookJSON}.
Context (clock : nat → Z) (net : list http_request → http_request → result (http_status * string)).
Abbreviation nh refuse := (node_handler clock net refuse).

Ltac on_part get put :=
  apply (run_link_part_all (T:=node_sig) _ _ _ get put); [by intros ? []|by intros ? ? []|by intros []|];
  intros ??; cbn;
  match goal with |- context [let '(_, _) := ?h in _] => by destruct h end.

Lemma run_on_issuer {A} refuse (q : prog issuer_sig A) w :
  run (nh refuse) (on_issuer q) w =
    let '(a, x) := run account_handler q (n_account w) in (a, set_account x w).
Proof. on_part n_account set_account. Qed.

Lemma run_on_record {A} refuse (q : prog crd_sig A) w :
  run (nh refuse) (on_record q) w =
    let '(a, x) := run (crd_handler clock) q (n_crd w) in (a, set_crd x w).
Proof. on_part n_crd set_crd. Qed.

Lemma run_on_secret {A} refuse (q : prog secret_sig A) w :
  run (nh refuse) (on_secret q) w =
    let '(a, x) := run secret_handler q (n_secrets w) in (a, set_secrets x w).
Proof. on_part n_secrets set_secrets. Qed.

Lemma run_on_file {A} refuse (q : prog os_sig A) w :
  run (nh refuse) (on_file q) w =
    let '(a, x) := run (hook_handler net refuse) q (file_part w) in (a, set_file_part x w).
Proof.
  apply (run_link_part_all (T:=node_sig) _ _ _ file_part set_file_part).
  - by intros [] w'.
  - by intros [] [] w'.
  - by intros [? [] ? ? ?].
  - intros e w'. cbn [run call]. unfold node_handler. by destruct (hook_handler net refuse e (file_part w')).
Qed.

(** A program that makes no request enrolls nobody. *)
Definition no_http (e : ev os_sig) : Prop := match e with HTTPDo _ => False | _ => True end.
Definition quiet {A} (q : prog os_sig A) : Prop := ∀ pre, wp (λ _, no_http) pre q (λ _ _, True).

Lemma run_quiet {A} refuse (q : prog os_sig A) f clients : quiet q →
  run (hook_handler net refuse) q (f, clients) =
    let '(a, f') := run (fs_handler net refuse) q f in (a, (f', clients)).
Proof using Type.
  intros Hq. specialize (Hq []). revert Hq. generalize (@nil (event os_sig)). revert f.
  induction q as [a|e k IH]; intros f pre; [done|]. intros [He Hk]. cbn [run].
  unfold hook_handler at 1. cbn [fst snd]. destruct (fs_handler net refuse e f) as [r f'].
  rewrite <-(IH r f' _ (Hk r)). by destruct e.
Qed.

Lemma run_on_file_quiet {A} refuse (q : prog os_sig A) w : quiet q →
  run (nh refuse) (on_file q) w =
    let '(a, x) := run (fs_handler net refuse) q (n_fs w) in (a, set_fs x w).
Proof.
  intros Hq. rewrite run_on_file. unfold file_part. rewrite run_quiet by done.
  destruct (run (fs_handler net refuse) q (n_fs w)) as [a x]. by destruct w as [? [] ? ? ?].
Qed.

Lemma quiet_ret {A} (a : A) : quiet (mret a).
Proof using Type. done. Qed.
Lemma quiet_bind {A B} (q : prog os_sig A) (f : A → prog os_sig B) :
  quiet q → (∀ a, quiet (f a)) → quiet (q ≫= f).
Proof using Type.
  intros Hq Hf pre. rewrite wp_bind. eapply wp_strengthen; [apply Hq|]. intros pre' a _ _. apply Hf.
Qed.
Lemma quiet_call e : no_http e → quiet (ocall e).
Proof using Type. by intros He pre. Qed.
Lemma quiet_orfail {A B} w (f : A → prog os_sig (result B)) (q : prog os_sig (result A)) :
  quiet q → (∀ a, quiet (f a)) → quiet (orfail w f q).
Proof using Type. intros Hq Hf. apply quiet_bind; [done|]. intros []; [apply Hf|done]. Qed.
End parts.

Ltac quiet_tac :=
  repeat first
    [ progress intros
    | apply quiet_ret
    | apply quiet_call; exact I
    | apply quiet_orfail
    | apply quiet_bind
    | match goal with |- quiet (match ?x with _ => _ end) => destruct x end ].

Section quiet.
Context `{UnicodeTables, MapOrder, FileErrors, HookJSON} (s : FileCDIDeviceStore).

Lemma quiet_Create al token : quiet (cdi_Create s al token).
Proof. unfold cdi_Create, abandon. quiet_tac. Qed.
Lemma quiet_Remove q : quiet (cdi_Remove s q).
Proof. unfold cdi_Remove, cdi_remove_files, remove_state, lockStateDir, lockFile. quiet_tac. Qed.
Lemma quiet_Staged q : quiet (CDIStore.StagedClientID s q).
Proof. unfold CDIStore.StagedClientID. quiet_tac. Qed.
Lemma quiet_write target data mode : quiet (writeFileAtomic target data mode).
Proof. unfold writeFileAtomic, publish_temp. quiet_tac. Qed.
End quiet.

(* -------------------------------------------------------------------- *)
(** ** Lemmas: what a container's hook leaves *)

Definition serve_every (e : os_ev) : option error := None.

Section enrolment.
Context `{UnicodeTables, MapOrder, FileServerErrors, HookJSON}.
Context (net : list http_request → http_request → result (http_status * string)).
Abbreviation hh := (hook_handler net serve_every).

Lemma run_hook_bind {B} e (f : os_resp e → prog os_sig B) w :
  run hh (ocall e ≫= f) w = let '(r, w') := hook_handler net serve_every e w in run hh (f r) w'.
Proof. rewrite run_bind. cbn [ocall call run]. by destruct (hook_handler net serve_every e w). Qed.

Lemma enrolled_config_id central telemetry payload :
  match enrolled_config central telemetry payload, enrolled_config "" "" payload with
  | Ok c, Ok c' => cc_ClientID c = cc_ClientID c'
  | Err _, Err _ => True
  | _, _ => False
  end.
Proof.
  unfold enrolled_config. destruct (json_enrollment payload); [|done].
  destruct (bool_decide _); [done|]. destruct (bool_decide _); [done|].
  by destruct (decodeClientClaims _).
Qed.

(** A client some response enrolls, in a configuration for these URLs. *)
Definition enrolled_by (opts : CDIHookOptions) (c : ThunderClientConfig) : Prop :=
  (∃ past request response body, net past request = Ok (response, body) ∧
     enrolled_id response body = Some (cc_ClientID c)) ∧
  ∃ payload, enrolled_config (ho_CentralURL opts) (ho_TelemetryURL opts) payload = Ok c.

(** An exchange leaves the files alone, and enrolls a client exactly when it
    returns its configuration. *)
Definition exchanged (opts : CDIHookOptions) (w : fs * gset string)
    (out : result ThunderClientConfig * (fs * gset string)) : Prop :=
  fs_files out.2.1 = fs_files w.1 ∧
  match out.1 with
  | Ok c => enrolled_by opts c ∧ out.2.2 = {[cc_ClientID c]} ∪ w.2
  | Err _ => out.2.2 = w.2
  end.

Lemma attempt_run opts token clientName w :
  exchanged opts w (run hh (ExchangeClientEnrollment (ho_CentralURL opts) (ho_TelemetryURL opts) token clientName) w).
Proof.
  unfold ExchangeClientEnrollment, orfail. destruct (blank token); [done|]. destruct (blank _); [done|].
  destruct w as [f clients].
  rewrite (run_hook_bind (NewRequest _)). unfold hook_handler at 1, fs_handler, serve_every at 1.
  cbn [serve_file fst snd].
  rewrite (run_hook_bind (HTTPDo _)). unfold hook_handler at 1, fs_handler, serve_every at 1.
  cbn [serve_file fst snd]. set (request := enrollment_request _ _ _).
  destruct (net (fs_requests f) request) as [[response body]|e] eqn:Hnet; [|done].
  rewrite (run_hook_bind (ReadBody _)). unfold hook_handler at 1, fs_handler, serve_every at 1.
  cbn [serve_file fst snd fs_body enrol_client].
  set (payload := limited installerReadLimit body).
  pose proof (enrolled_config_id (ho_CentralURL opts) (ho_TelemetryURL opts) payload) as Hid.
  assert (enrolled_id response body =
    if (200 <=? st_Code response)%Z && (st_Code response <=? 299)%Z then
      match enrolled_config "" "" payload with Ok c => Some (cc_ClientID c) | Err _ => None end
    else None) as He by done.
  destruct ((st_Code response <? 200)%Z || (299 <? st_Code response)%Z) eqn:Hcode.
  - assert ((200 <=? st_Code response)%Z && (st_Code response <=? 299)%Z = false) as Hn by lia.
    rewrite Hn in He. rewrite He. destruct ((st_Code response =? 429)%Z || _); (split; [reflexivity|reflexivity]).
  - assert ((200 <=? st_Code response)%Z && (st_Code response <=? 299)%Z = true) as Hn by lia.
    rewrite Hn in He. cbn [run mret prog_ret]. split; [done|]. cbn [fst snd].
    destruct (enrolled_config (ho_CentralURL _) _ payload) as [c|] eqn:Hc,
      (enrolled_config "" "" payload) as [c'|]; try done; rewrite He; [|done].
    rewrite Hid. split; [|done]. split; [|by exists payload].
    exists (fs_requests f), request, response, body. by rewrite He, Hid.
Qed.

Lemma exchange_run opts token clientName remaining delay err w :
  exchanged opts w (run hh (exchange_loop opts token clientName remaining delay err) w).
Proof.
  revert delay err w. induction remaining as [|remaining IH]; intros delay err w; [done|].
  cbn [exchange_loop]. rewrite run_bind.
  pose proof (attempt_run opts token clientName w) as Ha.
  destruct (run hh (ExchangeClientEnrollment _ _ _ _) w) as [[c|e] [f1 clients1]]; [exact Ha|].
  destruct Ha as [Hf Hc]. cbn [fst snd] in Hf, Hc. destruct (_ || _); [by split|].
  unfold jitter. rewrite run_bind, (run_hook_bind (Rand _)). unfold hook_handler at 1, fs_handler, serve_every at 1.
  cbn [serve_file fst snd run mret prog_ret].
  rewrite (run_hook_bind TimeLeft). unfold hook_handler at 1, fs_handler, serve_every at 1. cbn [serve_file fst snd].
  rewrite (run_hook_bind (After _)). unfold hook_handler at 1, fs_handler, serve_every at 1. cbn [serve_file fst snd].
  destruct w as [f clients]. cbn [fst snd] in *. subst clients1.
  match goal with |- exchanged _ _ (run _ (exchange_loop _ _ _ _ ?d _) _) => specialize (IH d e (f1, clients)) end.
  unfold exchanged in *. cbn [fst snd] in *. rewrite <-Hf. exact IH.
Qed.

(** The claim's state directory before and after the hook ran for some of its
    containers, and the clients then. *)
Definition claim_state (opts : CDIHookOptions) (f0 : fs) (clients0 : gset string) (w : fs * gset string)
    : Prop :=
  (∀ p, ¬ inside (ho_StateDir opts) p → fs_files w.1 !! p = fs_files f0 !! p) ∧
  (fs_files w.1 !! config_path opts = None ∧ w.2 = clients0 ∨
   ∃ c, enrolled_as opts w.1 c ∧ enrolled_by opts c ∧ w.2 = {[cc_ClientID c]} ∪ clients0).

Context (opts : CDIHookOptions).
Hypothesis Habs : path_IsAbs (ho_StateDir opts) = true.
Hypothesis Hinside : ∀ file, plain file → inside (ho_StateDir opts) (path_Join [ho_StateDir opts; file]).
(** Decoding gives back the configurations that are written. *)
Hypothesis Hjson : ∀ c, enrolled_by opts c → json_config (config_file c) = Ok c.

Lemma enroll_claim_state f0 clients0 f :
  claim_state opts f0 clients0 (f, clients0) → fs_files f !! config_path opts = None →
  claim_state opts f0 clients0 (run hh (enroll_claim opts) (f, clients0)).2.
Proof using Type*.
  intros [Hout _] Hnone. unfold enroll_claim, orfail.
  rewrite (run_hook_bind (ReadFile _)). unfold hook_handler at 1, fs_handler, serve_every at 1. cbn [serve_file fst snd].
  unfold missing_or. destruct (fs_files f !! token_path opts) as [token|]; [|by split; [|left]].
  rewrite run_bind. unfold exchangeWithRetry.
  match goal with |- context [exchange_loop opts ?t ?n ?r ?d ?e] => pose proof (exchange_run opts t n r d e (f, clients0)) as Hx end.
  destruct (run hh (exchange_loop _ _ _ _ _ _) (f, clients0)) as [[c|e] [f1 clients1]]; destruct Hx as [Hf1 Hc1];
    cbn [fst snd] in Hf1, Hc1.
  2:{ split; cbn [fst snd run mret prog_ret]; [by rewrite Hf1|]. left. cbn [fst snd run mret prog_ret]. by rewrite Hf1. }
  destruct Hc1 as [Hby ->]. destruct (config_path_last opts Habs) as [Hlast Hne].
  rewrite run_bind, run_quiet by apply quiet_write.
  pose proof (writeFileAtomic_served net (config_path opts) (config_file c) 384 f1 (not_temporary _ Hlast)) as Hw.
  change (λ _ : os_ev, @None error) with serve_every in Hw. rewrite Hw.
  rewrite (run_hook_bind (Remove _)). unfold hook_handler at 1, fs_handler, serve_every at 1.
  cbn [serve_file fst snd run mret prog_ret set_files fs_files].
  destruct file_names_plain as [Hcp Htp]. split; cbn [fst snd fs_files set_files].
  - intros p Hp. rewrite lookup_delete_ne by (intros <-; apply Hp; exact (Hinside _ Htp)).
    rewrite lookup_insert_ne by (intros <-; apply Hp; exact (Hinside _ Hcp)). rewrite Hf1. by apply Hout.
  - right. exists c. split; [|by split]. exists (config_file c). cbn [fs_files set_files]. split_and!.
    + rewrite lookup_delete_ne by done. apply lookup_insert_eq.
    + by apply Hjson.
    + destruct Hby as [_ [payload Hp]]. by eapply enrolled_config_named.
Qed.

Lemma config_state f0 clients0 w : claim_state opts f0 clients0 w →
  claim_state opts f0 clients0 (run hh (clientConfigForClaim opts) w).2.
Proof using Type*.
  destruct w as [f clients]. intros Hw. pose proof Hw as [_ Hcase].
  unfold clientConfigForClaim. rewrite (run_hook_bind (ReadFile _)).
  unfold hook_handler at 1, fs_handler, serve_every at 1. cbn [serve_file fst snd] in *. unfold missing_or.
  destruct Hcase as [[Hnone ->]|(c & (raw & Hraw & Hc & Hid) & _)].
  - rewrite Hnone. cbn [cached_config]. by apply enroll_claim_state.
  - rewrite Hraw. cbn [cached_config]. by rewrite Hc, bool_decide_true.
Qed.
End enrolment.

(* -------------------------------------------------------------------- *)
(** ** Lemmas: the driver's calls, one by one *)

Section calls.
Context `{UnicodeTables, MapOrder, ServerErrors, !AccountErrors, FileServerErrors, HookJSON}.
Context (clock : nat → Z) (net : list http_request → http_request → result (http_status * string)).
Context (p : plugin).
Hypothesis Hclock : ∀ n, utc_range (clock n).
Hypothesis Htokens : ti_Client (pl_Tokens p) = true.
Hypothesis Hclients : ks_Client (pl_Clients p) = true.
Hypothesis Hguest : pl_Guest p = true.

Abbreviation nh refuse := (node_handler clock net refuse).
Abbreviation ns := (store_namespace (pl_Clients p)).

(** The world as the driver sees it. *)
Definition seen (refuse : os_ev → option error) : handler driver_sig node :=
  λ e w, run (nh refuse) (driver_impl p e) w.

Lemma run_seen_bind {B} refuse e (f : driver_resp e → prog driver_sig B) w :
  run (seen refuse) (dcall e ≫= f) w = let '(r, w') := seen refuse e w in run (seen refuse) (f r) w'.
Proof using Type. rewrite run_bind. cbn [dcall call run]. by destruct (seen refuse e w). Qed.

Lemma set_crd_same w : set_crd (n_crd w) w = w.
Proof using Type. by destruct w. Qed.
Lemma set_fs_same w : set_fs (n_fs w) w = w.
Proof using Type. by destruct w. Qed.

Lemma seen_Get refuse uid w l : holds_ledger ns (n_crd w) l →
  seen refuse (GetClient uid) w =
    (match l_records l !! ThunderClientName uid with Some c => Ok c | None => Err ErrNotFound end, w).
Proof using Hclock Hclients.
  intros Hl. unfold seen. cbn [driver_impl].
  rewrite run_on_record, (run_Get clock (pl_Clients p) Hclients Hclock uid _ _ Hl). by rewrite set_crd_same.
Qed.

Lemma seen_Mint refuse al w : let n := ac_minted (n_account w) in
  seen refuse (Mint al) w =
    (Ok (minted_name n, token_secret n),
     set_account (Account (n + 1) ({[minted_name n]} ∪ ac_tokens (n_account w)) (ac_clients (n_account w))) w).
Proof using Htokens.
  cbv zeta. unfold seen. cbn [driver_impl]. by rewrite run_bind, run_on_issuer, issuer_Mint_run.
Qed.

Lemma seen_Revoke refuse t w : blank t = false →
  seen refuse (Revoke t) w =
    (Ok tt, set_account (Account (ac_minted (n_account w)) (ac_tokens (n_account w) ∖ {[t]})
              (ac_clients (n_account w))) w).
Proof using Htokens.
  intros Hb. unfold seen. cbn [driver_impl]. by rewrite run_on_issuer, issuer_Revoke_run.
Qed.

Lemma seen_RevokeClient refuse c w : blank c = false →
  seen refuse (RevokeClient c) w =
    (Ok tt, set_account (Account (ac_minted (n_account w)) (ac_tokens (n_account w))
              (ac_clients (n_account w) ∖ {[c]})) w).
Proof using Htokens.
  intros Hb. unfold seen. cbn [driver_impl]. by rewrite run_on_issuer, issuer_RevokeClient_run.
Qed.

Lemma seen_CreateGuest refuse al token cmd w :
  blank token = false → blank (al_ClaimNamespace al) = false → filed (n_secrets w) →
  let key := (trim_space (al_ClaimNamespace al), ThunderGuestSetupSecretName (al_ClaimName al)) in
  seen refuse (CreateGuest al token cmd) w =
    (Ok (Artifacts key.1 key.2),
     set_secrets (<[key := upserted (n_secrets w !! key) (guest_secret al token cmd)]> (n_secrets w)) w).
Proof using Hguest.
  intros Ht Hb Hf. cbv zeta. unfold seen. cbn [driver_impl].
  by rewrite run_on_secret, Hguest, guest_Create_run.
Qed.

Lemma seen_RemoveGuest refuse namespace claimName w :
  blank namespace = false → object_name claimName = true →
  let key := (trim_space namespace, ThunderGuestSetupSecretName claimName) in
  seen refuse (RemoveGuest (Artifacts key.1 key.2)) w = (Ok tt, set_secrets (delete key (n_secrets w)) w).
Proof using Hguest.
  intros Hb Ho. cbv zeta. unfold seen. cbn [driver_impl].
  by rewrite run_on_secret, Hguest, guest_Remove_run.
Qed.

Lemma seen_Clock refuse w :
  seen refuse Clock w = (clock (crd_ticks (n_crd w)),
    set_crd (CRDServer (crd_objects (n_crd w)) (crd_version (n_crd w)) (S (crd_ticks (n_crd w)))) w).
Proof using Type. unfold seen. cbn [driver_impl]. by rewrite run_on_record. Qed.

Lemma seen_Upsert refuse c w l : utc_range (cl_CreatedAt c) → holds_ledger ns (n_crd w) l →
  ∃ x created updated n, seen refuse (UpsertClient c) w = (Ok tt, set_crd x w) ∧
    holds_ledger ns x (Ledger (<[ThunderClientName (cl_ClaimUID c) := normal (stamped c created updated)]>
      (l_records l)) n).
Proof using Hclock Hclients.
  intros Hc Hl. unfold seen. cbn [driver_impl]. rewrite run_on_record.
  pose proof (run_Upsert clock (pl_Clients p) Hclients Hclock c _ _ Hc Hl) as Hu.
  destruct (run (crd_handler clock) (store_Upsert _ c) (n_crd w)) as [a x]. cbn [ledger_handler] in Hu.
  destruct (if bool_decide _ then _ else _) as [created n]. destruct Hu as [-> Hu]. by eexists _, _, _, _.
Qed.

Lemma seen_Delete refuse uid w l c : holds_ledger ns (n_crd w) l → l_records l !! ThunderClientName uid = Some c →
  ∃ x, seen refuse (DeleteClient uid) w = (Ok tt, set_crd x w) ∧
    holds_ledger ns x (Ledger (delete (ThunderClientName uid) (l_records l)) (l_ticks l)).
Proof using Hclock Hclients.
  intros Hl Hc. unfold seen. cbn [driver_impl]. rewrite run_on_record.
  pose proof (run_Delete clock (pl_Clients p) Hclients Hclock uid _ _ Hl) as Hd.
  destruct (run (crd_handler clock) (store_Delete _ uid) (n_crd w)) as [a x]. cbn [ledger_handler] in Hd.
  rewrite Hc in Hd. destruct Hd as [-> Hd]. by eexists.
Qed.

(** What is decoded of a claim, and the world it is decoded in. *)
Lemma seen_decode refuse d claim w :
  ∃ r, run (seen refuse) (decodeAllocation d claim) w = (r, w) ∧
    ∀ al, r = Ok al → al_ClaimUID al = claim_UID claim ∧ al_ClaimNamespace al = claim_Namespace claim ∧
      al_ClaimName al = claim_Name claim.
Proof using Type.
  pose proof (run_exec (seen refuse) (decodeAllocation d claim) w) as Hx.
  apply decodeAllocation_exec in Hx as (_ & _ & Hok).
  assert (∀ pre A (q : prog driver_sig A) Q w, wp only_lists pre q Q → (run (seen refuse) q w).2 = w) as Hreads.
  { intros pre A q Q. revert pre. induction q as [a|e k IH]; intros pre w'; [done|]. intros [He Hk].
    destruct e; try done. cbn [run seen driver_impl call node_handler]. by eapply IH. }
  specialize (Hreads _ _ _ _ w (decodeAllocation_reads d claim)).
  destruct (run (seen refuse) (decodeAllocation d claim) w) as [r w']. cbn [fst snd] in *. subst w'.
  exists r. split; [done|]. intros al Hal. destruct (Hok al Hal) as (_&_&_&_&_&_&?&?&?&_). by split_and!.
Qed.
End calls.

(* -------------------------------------------------------------------- *)
(** ** The life of a claim on a node *)

Section lifecycle.
Context `{UnicodeTables, MapOrder, ServerErrors, !AccountErrors, FileServerErrors, HookJSON}.
Context (clock : nat → Z) (net : list http_request → http_request → result (http_status * string)).
Context (p : plugin) (claim : resource_claim).

Abbreviation nh refuse := (node_handler clock net refuse).
Abbreviation ns := (store_namespace (pl_Clients p)).
Abbreviation uid := (claim_UID claim).
Abbreviation device_name := (cdiDeviceName (claim_UID claim)).

(** The claim's things: its CDI device, its files, its Secret, its record. *)
Definition claim_device : string := kind (pl_CDI p) +:+ "=" +:+ cdiDeviceName uid.
Definition claim_dir : string := stateDir (pl_CDI p) device_name.
Definition claim_spec : string := specPath (pl_CDI p) claim_device.
Definition claim_secret : string * string :=
  (trim_space (claim_Namespace claim), ThunderGuestSetupSecretName (claim_Name claim)).
Definition claim_record : string := ThunderClientName uid.

(** A plugin as startDRAPlugin makes it, on an absolute state directory, and a
    claim named as Kubernetes names claims. *)
Definition well_started : Prop :=
  validate (pl_driver p) = Ok tt ∧ ti_Client (pl_Tokens p) = true ∧ ks_Client (pl_Clients p) = true ∧
  pl_Guest p = true ∧ path_IsAbs (stateRoot (pl_CDI p)) = true.
Definition well_named_claim : Prop :=
  plain_uid uid ∧ uid ≠ "" ∧ blank (claim_Namespace claim) = false ∧ object_name (claim_Name claim) = true.

(** Nothing of the claim is there yet. *)
Definition unclaimed (w : node) (l : ledger) : Prop :=
  holds_ledger ns (n_crd w) l ∧ l_records l !! claim_record = None ∧
  filed (n_secrets w) ∧ n_secrets w !! claim_secret = None ∧
  (∀ path, inside claim_dir path → fs_files (n_fs w) !! path = None) ∧
  fs_files (n_fs w) !! claim_spec = None ∧
  (0 ≤ ac_minted (n_account w) ≤ max_int64)%Z ∧
  minted_name (ac_minted (n_account w)) ∉ ac_tokens (n_account w).

(** Nothing of the claim is left, and nothing else changed: the tokens and
    clients of the account, the Secrets, the records and every file, save the
    temporary name the spec is written under. *)
Definition restored (w w' : node) (l : ledger) : Prop :=
  n_slices w' = n_slices w ∧
  ac_tokens (n_account w') = ac_tokens (n_account w) ∧
  ac_clients (n_account w') = ac_clients (n_account w) ∧
  n_secrets w' = n_secrets w ∧
  (∃ l', holds_ledger ns (n_crd w') l' ∧ l_records l' = l_records l) ∧
  ∀ path, path ≠ claim_spec +:+ ".tmp" → fs_files (n_fs w') !! path = fs_files (n_fs w) !! path.

(** What a prepared claim holds. *)
Definition prepared (w w' : node) (l : ledger) : Prop :=
  let tokenID := minted_name (ac_minted (n_account w)) in
  n_slices w' = n_slices w ∧
  ac_tokens (n_account w') = {[tokenID]} ∪ ac_tokens (n_account w) ∧
  ac_clients (n_account w') = ac_clients (n_account w) ∧
  (∃ s, n_secrets w' = <[claim_secret := s]> (n_secrets w)) ∧
  (∃ l' c, holds_ledger ns (n_crd w') l' ∧ l_records l' = <[claim_record := c]> (l_records l) ∧
     cl_CDIName c = claim_device ∧ cl_EnrollmentTokenID c = tokenID ∧
     cl_GuestNamespace c = claim_secret.1 ∧ cl_GuestSecret c = claim_secret.2) ∧
  is_Some (fs_files (n_fs w') !! claim_spec) ∧
  fs_files (n_fs w') !! path_Join [claim_dir; thunderConfigFile] = None ∧
  ∀ path, ¬ inside claim_dir path → path ≠ claim_spec → path ≠ claim_spec +:+ ".tmp" →
    fs_files (n_fs w') !! path = fs_files (n_fs w) !! path.

Hypothesis Hclock : ∀ n, utc_range (clock n).
Hypothesis Hstarted : well_started.
Hypothesis Hnamed : well_named_claim.

Lemma token_secret_not_blank n : (0 ≤ n ≤ max_int64)%Z → blank (token_secret n) = false.
Proof using Type. intros Hn. apply prefixed_itoa_not_blank; [by repeat constructor|done..]. Qed.

Lemma state_files : (∀ file, plain file → inside claim_dir (path_Join [claim_dir; file])) ∧
  path_IsAbs claim_dir = true.
Proof using Hstarted Hnamed.
  destruct Hstarted as (_ & _ & _ & _ & Ha). destruct Hnamed as (Hu & Hne & _).
  pose proof (device_name_plain uid Hu Hne) as Hd. split.
  - intros file Hf. right. unfold claim_dir, stateDir. rewrite path_Join_two by done. apply below_app.
  - by destruct (path_Join_plain _ _ Ha Hd).
Qed.

(** The spec lies elsewhere. *)
Hypothesis Hspec : ¬ inside claim_dir claim_spec.

Lemma prepared_files al token w w' :
  al_ClaimUID al = uid →
  (∀ path, inside claim_dir path → fs_files (n_fs w) !! path = None) →
  fs_files (n_fs w') = created_files (pl_CDI p) al token (fs_files (n_fs w)) →
  is_Some (fs_files (n_fs w') !! claim_spec) ∧
  fs_files (n_fs w') !! path_Join [claim_dir; thunderConfigFile] = None ∧
  ∀ path, ¬ inside claim_dir path → path ≠ claim_spec → path ≠ claim_spec +:+ ".tmp" →
    fs_files (n_fs w') !! path = fs_files (n_fs w) !! path.
Proof using Hstarted Hnamed Hspec.
  intros Huid Hfresh ->. unfold created_files. rewrite Huid. fold claim_device claim_spec.
  destruct state_files as [Hin Ha]. destruct file_names_plain as [Hcp Htp].
  change (tokenPath (pl_CDI p) device_name) with (path_Join [claim_dir; thunderTokenFile]).
  split_and!.
  - rewrite lookup_insert_eq. by eexists.
  - rewrite lookup_insert_ne by (intros Heq; apply Hspec; rewrite Heq; by apply Hin).
    assert (path_Join [claim_dir; thunderTokenFile] ≠ path_Join [claim_dir; thunderConfigFile]) as Hne
      by (intros Heq; by apply path_Join_inj in Heq).
    apply lookup_delete_None. right. rewrite lookup_insert_ne by done. by apply Hfresh, Hin.
  - intros path Hp Hs Ht. rewrite lookup_insert_ne, lookup_delete_ne, lookup_insert_ne; [done| |congruence|congruence].
    intros <-. apply Hp. by apply Hin.
Qed.

(** One call of the driver in the world it sees. *)
Ltac seen_step :=
  match goal with |- context [run (seen _ _ _ ?r) (dcall ?e ≫= _)] =>
    rewrite (run_seen_bind clock net p r e) end.

Lemma node_prepare_new_run refuse al w l :
  al_ClaimUID al = uid → al_ClaimNamespace al = claim_Namespace claim → al_ClaimName al = claim_Name claim →
  unclaimed w l → refuse (RemoveAll claim_dir) = None →
  let '(a, w') := run (seen clock net p refuse) (prepare_new (pl_driver p) al) w in
  match a with
  | Ok devices => devices = devicesFor claim_device al ∧ prepared w w' l
  | Err _ => restored w w' l
  end.
Proof using Type*.
  intros Huid Hns Hname (Hl & Hrec & Hfiled & Hsec & Hdir & Hspecfile & Hn & Htok) Hremove.
  destruct Hstarted as (_ & Htokens & Hclients & Hguest & Ha). destruct Hnamed as (Hu & Hne & Hb & Ho).
  unfold prepare_new, orfail. seen_step. rewrite seen_Mint by done.
  set (n := ac_minted (n_account w)). set (t := minted_name n). set (w1 := set_account _ w).
  assert (blank t = false) as Ht by by apply minted_name_not_blank.
  assert (({[t]} ∪ ac_tokens (n_account w)) ∖ {[t]} = ac_tokens (n_account w)) as Htk by set_solver.
  seen_step. rewrite seen_CreateGuest; [|done|by apply token_secret_not_blank|by rewrite Hns|done].
  rewrite Hns, Hname. cbn [fst snd]. fold claim_secret. set (s := upserted _ _).
  set (w2 := set_secrets _ w1).
  seen_step. unfold seen at 1. cbn [driver_impl]. rewrite run_on_file_quiet by apply quiet_Create.
  pose proof (cdi_Create_run net (pl_CDI p) al (token_secret n) refuse (n_fs w2)) as Hcdi.
  unfold abandoned_files in Hcdi. rewrite Huid in Hcdi. fold claim_device claim_dir claim_spec in Hcdi.
  specialize (Hcdi Ha Hu Hne Hremove).
  destruct (run _ (cdi_Create _ al _) (n_fs w2)) as [[q|e] f].
  - destruct Hcdi as [-> Hf]. seen_step. rewrite seen_Clock. set (now := clock _).
    set (client := with_artifacts _ _ _ _). set (w3 := set_crd _ _).
    destruct (seen_Upsert clock net p Hclock Hclients refuse client w3 (Ledger (l_records l) (crd_ticks (n_crd w3))))
      as (x & created & updated & ticks & Hup & Hl').
    { apply Hclock. }
    { split; [done|]. apply Hl. }
    seen_step. rewrite Hup. cbn [run mret prog_ret]. split; [done|].
    pose proof (prepared_files al (token_secret n) w (set_crd x w3) Huid Hdir Hf) as (Hsome & Hconf & Hother).
    unfold prepared. split_and!; try done; [by exists s|].
    eexists _, _. split; [exact Hl'|]. cbn [l_records].
    split; [by change (cl_ClaimUID client) with (al_ClaimUID al); rewrite Huid|]. done.
  - seen_step.
    pose proof (seen_RemoveGuest clock net p Hguest refuse (claim_Namespace claim) (claim_Name claim)
      (set_fs f w2) Hb Ho) as Hrg. cbn [fst snd] in Hrg. rewrite Hrg. clear Hrg. fold claim_secret.
    seen_step. rewrite seen_Revoke by done. cbn [run mret prog_ret].
    unfold restored. cbn [n_slices n_account n_crd n_secrets n_fs ac_tokens ac_clients ac_minted set_account
      set_crd set_secrets set_fs w1 w2].
    split_and!; try done.
    + by rewrite delete_insert_id.
    + by exists l.
    + intros path Hp. destruct Hcdi as [->|[Hin Hout]]; [done|].
      destruct (decide (inside claim_dir path)); [rewrite Hin, Hdir by done; done|by apply Hout].
Qed.

Lemma node_prepare_run refuse w l : unclaimed w l → refuse (RemoveAll claim_dir) = None →
  let '(a, w') := run (nh refuse) (node_prepare p claim) w in
  match a with
  | Ok devices => Forall (λ x, pd_CDIDeviceIDs x = [claim_device]) devices ∧ prepared w w' l
  | Err _ => restored w w' l
  end.
Proof using Type*.
  intros Hw Hremove. pose proof Hw as (Hl & Hrec & _). pose proof Hstarted as (Hv & _ & Hclients & _ & _).
  unfold node_prepare. rewrite run_link. fold (seen clock net p refuse).
  unfold prepareOne. rewrite Hv. cbn [orfail_pure]. unfold orfail at 1. rewrite run_bind.
  destruct (seen_decode clock net p refuse (pl_driver p) claim w) as (r & -> & Hok).
  destruct r as [al|e].
  2:{ cbn. split_and!; try done. by exists l. }
  destruct (Hok al eq_refl) as (Huid & Hns & Hname).
  seen_step. rewrite (seen_Get clock net p Hclock Hclients refuse uid w l Hl). fold claim_record. rewrite Hrec.
  cbn [is_not_found].
  pose proof (node_prepare_new_run refuse al w l Huid Hns Hname Hw Hremove) as Hp.
  destruct (run _ (prepare_new _ al) w) as [[devices|e] w']; [|done].
  destruct Hp as [-> Hp]. split; [|done]. apply Forall_fmap, Forall_true. done.
Qed.

(** The hook of the claim's containers. *)
Context (opts : CDIHookOptions).
Hypothesis Hopts : ho_StateDir opts = claim_dir.
Hypothesis Hjson : ∀ c, enrolled_by net opts c → json_config (config_file c) = Ok c.

Lemma node_containers_run n w f0 clients0 :
  claim_state net opts f0 clients0 (file_part w) →
  ∃ x, run (nh serve_every) (node_containers opts n) w = (tt, set_file_part x w) ∧
    claim_state net opts f0 clients0 x.
Proof using Hstarted Hnamed Hopts Hjson.
  destruct state_files as [Hin Ha]. rewrite <-Hopts in Hin, Ha. revert w. induction n as [|n IH]; intros w Hw.
  - exists (file_part w). split; [|done]. by destruct w as [? [] ? ? ?].
  - cbn [node_containers]. rewrite run_bind, run_on_file.
    pose proof (config_state net opts Ha Hin Hjson f0 clients0 _ Hw) as Hw'.
    destruct (run _ (clientConfigForClaim opts) (file_part w)) as [r y]. cbn [snd] in Hw'.
    destruct (IH (set_file_part y w)) as (x & -> & Hx); [by destruct y|].
    exists x. split; [|done]. by destruct w as [? [] ? ? ?].
Qed.

(** Client IDs are new, and written without white space around them. *)
Definition fresh_ids (clients : gset string) : Prop :=
  ∀ past request response body id, net past request = Ok (response, body) →
    enrolled_id response body = Some id → (id ∉ clients) ∧ trim_space id = id.

(** What the store finds of the hook's client: nothing, or the client that was
    enrolled. *)
Lemma staged_run w f0 clients0 : fresh_ids clients0 →
  claim_state net opts f0 clients0 (file_part w) →
  ∃ id, seen clock net p serve_every (Driver.StagedClientID claim_device) w = (id, w) ∧
    (id = "" ∧ ac_clients (n_account w) = clients0 ∨
     blank id = false ∧ ac_clients (n_account w) ∖ {[id]} = clients0).
Proof using Type*.
  destruct Hnamed as (Hu & Hne & _). intros Hids [_ Hcase].
  pose proof (qualified_not_blank (pl_CDI p) (MkAllocation uid "" "" [] "" "" "" None no_consumer "" "" "" 0) Hu Hne) as Hb.
  cbn [al_ClaimUID] in Hb. fold claim_device in Hb.
  unfold seen. cbn [driver_impl]. rewrite run_on_file_quiet by apply quiet_Staged. cbn [file_part fst snd] in Hcase.
  destruct Hcase as [[Hnone Hc]|(c & Hc & [(past & rq & response & body & Hnet & Hid) _] & Hcl)].
  - exists "". split; [|by left]. unfold CDIStore.StagedClientID. rewrite Hb.
    unfold claim_device. rewrite qualified_name_device by done. fold claim_dir. rewrite <-Hopts. fold (config_path opts).
    rewrite (run_ocall_bind net serve_every (ReadFile _)). unfold fs_handler, serve_every at 1. cbn [serve_file].
    unfold missing_or. rewrite Hnone. cbn. by rewrite set_fs_same.
  - exists (cc_ClientID c). destruct (Hids _ _ _ _ _ Hnet Hid) as [Hni Htrim].
    rewrite (enrolled_staged net serve_every opts (n_fs w) c (pl_CDI p) claim_device Hc); [|  |done|done].
    2:{ unfold claim_device. by rewrite qualified_name_device. }
    rewrite Htrim, set_fs_same. split; [done|]. right. rewrite Hcl. split; [|set_solver].
    apply blank_false. rewrite Htrim. by destruct Hc as (_ & _ & _ & ?).
Qed.

(** The steps after the client is revoked. *)
Lemma unprepare_token_run w l1 c t : blank t = false →
  holds_ledger ns (n_crd w) l1 → l_records l1 !! claim_record = Some c →
  cl_CDIName c = claim_device → cl_EnrollmentTokenID c = t →
  cl_GuestNamespace c = claim_secret.1 → cl_GuestSecret c = claim_secret.2 →
  let '(a, w') := run (seen clock net p serve_every)
    (unprepare_token (NamespacedObject (claim_Namespace claim) (claim_Name claim) uid) c) w in
  a = Ok tt ∧ n_slices w' = n_slices w ∧ ac_tokens (n_account w') = ac_tokens (n_account w) ∖ {[t]} ∧
  ac_clients (n_account w') = ac_clients (n_account w) ∧
  n_secrets w' = delete claim_secret (n_secrets w) ∧
  (∃ l', holds_ledger ns (n_crd w') l' ∧ l_records l' = delete claim_record (l_records l1)) ∧
  fs_files (n_fs w') = filter (λ q, ¬ inside claim_dir q.1) (delete claim_spec (fs_files (n_fs w))).
Proof using Type*.
  intros Ht Hl1 Hr1 Hcdi Htid Hgns Hgs.
  pose proof Hstarted as (_ & Htokens & Hclients & Hguest & Ha). pose proof Hnamed as (Hu & Hne & Hb & Ho).
  set (al0 := MkAllocation uid "" "" [] "" "" "" None no_consumer "" "" "" 0).
  pose proof (qualified_not_blank (pl_CDI p) al0 Hu Hne) as Hbq. cbn [al0 al_ClaimUID] in Hbq. fold claim_device in Hbq.
  unfold unprepare_token. rewrite Htid, Ht. cbn [negb]. unfold orfail. seen_step. rewrite seen_Revoke by done.
  set (w1 := set_account _ w).
  unfold unprepare_cdi. rewrite Hcdi, Hbq. cbn [negb]. unfold orfail. seen_step.
  unfold seen at 1. cbn [driver_impl]. rewrite run_on_file_quiet by apply quiet_Remove.
  pose proof (cdi_Remove_run net (pl_CDI p) al0 serve_every (n_fs w1) Hu Hne eq_refl eq_refl) as Hrm.
  unfold removed_files in Hrm. cbn [al0 al_ClaimUID] in Hrm. fold claim_device claim_dir claim_spec in Hrm.
  destruct (run _ (cdi_Remove _ claim_device) (n_fs w1)) as [r f]. destruct Hrm as [-> Hf].
  set (w2 := set_fs f w1). unfold unprepare_guest, orfail. cbn [no_Namespace].
  assert (firstNonEmpty [cl_GuestNamespace c; cl_ClaimNamespace c; claim_Namespace claim] =
    trim_space (claim_Namespace claim)) as ->.
  { unfold firstNonEmpty. cbn [find]. rewrite Hgns. cbn [claim_secret fst]. rewrite blank_trim, Hb. cbn.
    apply trim_space_idem. }
  rewrite Hgs. seen_step.
  pose proof (seen_RemoveGuest clock net p Hguest serve_every (claim_Namespace claim) (claim_Name claim) w2 Hb Ho) as Hrg.
  cbn [fst snd] in Hrg. cbn [claim_secret snd]. rewrite Hrg. clear Hrg. fold claim_secret. set (w3 := set_secrets _ w2).
  unfold unprepare_record. cbn [no_UID].
  destruct (seen_Delete clock net p Hclock Hclients serve_every uid w3 l1 c Hl1 Hr1) as (x & Hdel & Hl').
  seen_step. rewrite Hdel. cbn [run mret prog_ret]. split_and!; try done. by eexists.
Qed.

Lemma node_unprepare_run w w1 l x : unclaimed w l → prepared w w1 l → fresh_ids (ac_clients (n_account w)) →
  claim_state net opts (n_fs w1) (ac_clients (n_account w1)) x →
  let '(a, w3) := run (nh serve_every) (node_unprepare p (NamespacedObject (claim_Namespace claim)
    (claim_Name claim) uid)) (set_file_part x w1) in
  a = Ok tt ∧ restored w w3 l.
Proof using Type*.
  intros Hw Hw1 Hids Hx. set (w2 := set_file_part x w1).
  destruct Hw as (Hl & Hrec & Hfiled & Hsec & Hdir & Hspecfile & Hn & Htok).
  destruct Hw1 as (Hsl & Htk & Hcl & (s & Hs) & (l1 & c & Hl1 & Hr1 & Hcdi & Htid & Hgns & Hgs) & _ & _ & Hfiles).
  pose proof Hstarted as (Hv & Htokens & Hclients & Hguest & Ha). pose proof Hnamed as (Hu & Hne & Hb & Ho).
  assert (validateStoresOnly (pl_driver p) = Ok tt) as Hv'.
  { unfold validate in Hv. destruct (d_Kube (pl_driver p)); [done|discriminate]. }
  pose proof (qualified_not_blank (pl_CDI p) (MkAllocation uid "" "" [] "" "" "" None no_consumer "" "" "" 0) Hu Hne) as Hbq.
  cbn [al_ClaimUID] in Hbq. fold claim_device in Hbq.
  set (t := minted_name (ac_minted (n_account w))) in *.
  assert (blank t = false) as Ht by by apply minted_name_not_blank.
  unfold node_unprepare. rewrite run_link. fold (seen clock net p serve_every).
  unfold unprepareOne. rewrite Hv'. cbn [orfail_pure no_UID].
  seen_step. rewrite (seen_Get clock net p Hclock Hclients serve_every uid w2 l1 Hl1). fold claim_record.
  rewrite Hr1, lookup_insert_eq. rewrite Hcdi, Hbq. cbn [negb].
  rewrite Hcl in Hx.
  destruct (staged_run w2 (n_fs w1) (ac_clients (n_account w)) Hids) as (id & Hid & Hidc); [by destruct x|].
  seen_step. rewrite Hid.
  assert (∀ w', n_slices w' = n_slices w → ac_tokens (n_account w') = {[t]} ∪ ac_tokens (n_account w) →
    ac_clients (n_account w') = ac_clients (n_account w) → n_secrets w' = n_secrets w2 → n_crd w' = n_crd w2 →
    n_fs w' = n_fs w2 →
    let '(a, w3) := run (seen clock net p serve_every)
      (unprepare_token (NamespacedObject (claim_Namespace claim) (claim_Name claim) uid) c) w' in
    a = Ok tt ∧ restored w w3 l) as Hrest.
  { intros w' Hsl' Htk' Hcl' Hs' Hcrd' Hfs'.
    pose proof (unprepare_token_run w' l1 c t Ht) as Hrun. rewrite Hcrd' in Hrun.
    specialize (Hrun Hl1). rewrite Hr1, lookup_insert_eq in Hrun. specialize (Hrun eq_refl Hcdi Htid Hgns Hgs).
    destruct (run _ (unprepare_token _ c) w') as [a w3].
    destruct Hrun as (-> & Hsl3 & Htk3 & Hcl3 & Hs3 & (l3 & Hl3 & Hr3) & Hf3). split; [done|]. unfold restored.
    rewrite Hsl3, Hsl', Htk3, Htk', Hcl3, Hcl', Hs3, Hs'. split_and!; [done|set_solver|done|..].
    - cbn [w2 set_file_part set_fs set_account n_secrets]. rewrite Hs. by apply delete_insert_id.
    - exists l3. split; [done|]. rewrite Hr3. by apply delete_insert_id.
    - intros path Hp. rewrite Hf3, Hfs'. destruct Hx as [Hxf _].
      destruct (decide (inside claim_dir path)) as [Hin|Hin].
      + rewrite Hdir by done. apply map_lookup_filter_None. right. intros data _ Hd. by apply Hd.
      + destruct (decide (path = claim_spec)) as [->|Hps].
        { rewrite Hspecfile. apply map_lookup_filter_None. left. apply lookup_delete_eq. }
        rewrite <-(Hfiles path Hin Hps Hp), <-(Hxf path) by by rewrite Hopts.
        change (n_fs w2) with x.1. destruct (fs_files x.1 !! path) as [data|] eqn:Hd.
        * apply map_lookup_filter_Some. rewrite lookup_delete_ne by done. by split.
        * apply map_lookup_filter_None. left. by rewrite lookup_delete_ne. }
  destruct Hidc as [[-> Hc2]|[Hbid Hc2]].
  - rewrite bool_decide_false by tauto. apply Hrest; done.
  - rewrite bool_decide_true by by apply not_blank_nonempty. unfold orfail. seen_step.
    rewrite seen_RevokeClient by done. apply Hrest; try done.
Qed.

(** C2: a claim on a node whose driver, stores and hook work together, with an
    API server and a Thunder account that answer.  From a world without a trace
    of the claim, as long as the claim's state directory can be removed and
    whatever other calls the file system refuses, a prepare that fails leaves
    the Thunder account, the Secrets, the records and the files as they were,
    but for the temporary file its spec is written through.  One that succeeds
    gives every device the claim's CDI device and holds one token, one Secret,
    one record and the files.  If from then on the file system refuses nothing,
    then however many containers have the hook enroll and reuse a client,
    unpreparing the claim succeeds, revokes the token and the client, and gives
    back the world as it was, but for that temporary file.  The plugin is one
    as the daemon starts it, on an absolute state directory; the claim is named
    as Kubernetes names claims; Thunder gives each client it enrolls a new ID,
    and the token it mints next is none there is; the clock shows years of four
    digits. *)
Theorem node_claim_lifecycle refuse n w l :
  unclaimed w l → fresh_ids (ac_clients (n_account w)) → refuse (RemoveAll claim_dir) = None →
  match run (nh refuse) (node_prepare p claim) w with
  | (Err _, w1) => restored w w1 l
  | (Ok devices, w1) =>
      Forall (λ x, pd_CDIDeviceIDs x = [claim_device]) devices ∧ prepared w w1 l ∧
      let w2 := (run (nh serve_every) (node_containers opts n) w1).2 in
      let '(a, w3) := run (nh serve_every) (node_unprepare p (NamespacedObject (claim_Namespace claim)
        (claim_Name claim) uid)) w2 in
      a = Ok tt ∧ restored w w3 l
  end.
Proof using Type*.
  intros Hw Hids Hremove. pose proof (node_prepare_run refuse w l Hw Hremove) as Hp.
  destruct (run _ (node_prepare p claim) w) as [[devices|e] w1]; [|done].
  destruct Hp as [Hd Hw1]. split; [done|]. split; [done|]. cbv zeta.
  assert (claim_state net opts (n_fs w1) (ac_clients (n_account w1)) (file_part w1)) as Hst.
  { split; [done|]. left. split; [|done]. unfold config_path. rewrite Hopts. by apply Hw1. }
  destruct (node_containers_run n w1 _ _ Hst) as (x & -> & Hx). cbn [snd].
  by apply node_unprepare_run.
Qed.
End lifecycle.

(* -------------------------------------------------------------------- *)
(** ** A concrete life *)

Section witnesses.
#[local] Existing Instances ascii_tables listed_order status_errors status_server_errors lib_missing
  sample_file_errors enrolling_json.

#[refine] Definition sample_account_errors : AccountErrors := {| unknown_error := ErrAPI 404 "unknown" |}.
Proof. reflexivity. Defined.
#[local] Existing Instance sample_account_errors.

Definition sample_plugin : plugin :=
  Plugin sample_driver (TokenIssuer true "zone-1") store_sample sample_store true.
Definition sample_world : node :=
  MkNode [sample_slice] (Account 7 {["tok-3"]} {["cli-0"]}) (CRDServer ∅ 1 0) ∅ empty_node.
Definition sample_nh (refuse : os_ev → option error) : handler node_sig node :=
  node_handler store_clock thunder_server refuse.

(** Every call of a claim's life is made. *)
Lemma sample_life :
  let '(r, w1) := run (sample_nh serve_every) (node_prepare sample_plugin sample_claim) sample_world in
  let w2 := (run (sample_nh serve_every) (node_containers hook_sample 2) w1).2 in
  is_ok r = true ∧ ac_tokens (n_account w1) = {["tok-3"; "tok-7"]} ∧
  ac_clients (n_account w2) = {["cli-0"; "cli-1"]} ∧ length (fs_requests (n_fs w2)) = 1%nat ∧
  (map_to_list (fs_files (n_fs w2))).*1 =
    ["/etc/passwd"; "/var/run/cdi/thundercompute-com-gpu-claim-uid-1.json";
     "/var/lib/thunder/claim-uid-1/config.json"].
Proof. vm_compute. by split_and!. Qed.

Lemma sample_unclaimed : unclaimed sample_plugin sample_claim sample_world (Ledger ∅ 0).
Proof.
  unfold unclaimed. split_and!.
  - split; [done|]. intros name. cbn [l_records crd_objects sample_world n_crd]. by rewrite lookup_empty, (lookup_empty (_, name)).
  - done.
  - intros namespace name s Hs. cbn [sample_world n_secrets] in Hs. by rewrite lookup_empty in Hs.
  - done.
  - intros path Hp. cbn [sample_world n_fs empty_node fs_files]. apply lookup_singleton_ne. intros <-.
    apply (bool_decide_eq_true_2 (inside _ _)) in Hp. vm_compute in Hp. discriminate.
  - vm_compute. reflexivity.
  - vm_compute. discriminate.
  - vm_compute. discriminate.
  - apply (bool_decide_eq_false_1 (_ ∈ _)). vm_compute. reflexivity.
Qed.

Lemma sample_clock n : utc_range (store_clock n).
Proof. unfold store_clock, utc_range. destruct (Nat.even n); lia. Qed.

Lemma sample_named : well_named_claim sample_claim.
Proof. split; [by repeat constructor|]. split; [done|]. split; reflexivity. Qed.

Lemma sample_ids : fresh_ids thunder_server (ac_clients (n_account sample_world)).
Proof.
  intros past request response body id Hnet Hid. unfold thunder_server in Hnet.
  destruct past; injection Hnet as <- <-; vm_compute in Hid; [|discriminate]. injection Hid as <-.
  split; [|reflexivity]. apply (bool_decide_eq_false_1 (_ ∈ _)). vm_compute. reflexivity.
Qed.

Lemma sample_configs c : enrolled_by thunder_server hook_sample c → json_config (config_file c) = Ok c.
Proof.
  intros [_ [payload Hc]].
  assert (Ok sample_config = Ok c) as [= <-]; [|vm_compute; reflexivity].
  rewrite <-Hc. vm_compute. reflexivity.
Qed.

Lemma node_claim_lifecycle_witness :
  let '(r, w1) := run (sample_nh serve_every) (node_prepare sample_plugin sample_claim) sample_world in
  let w2 := (run (sample_nh serve_every) (node_containers hook_sample 2) w1).2 in
  let '(a, w3) := run (sample_nh serve_every)
    (node_unprepare sample_plugin (NamespacedObject "default" "claim-1" "uid-1")) w2 in
  is_ok r = true ∧ a = Ok tt ∧ restored sample_plugin sample_claim sample_world w3 (Ledger ∅ 0).
Proof.
  pose proof (node_claim_lifecycle store_clock thunder_server sample_plugin sample_claim
    sample_clock
    ltac:(repeat split) sample_named
    ltac:(apply (bool_decide_eq_false_1 (inside _ _)); vm_compute; reflexivity)
    hook_sample ltac:(vm_compute; reflexivity) sample_configs serve_every 2 sample_world (Ledger ∅ 0)
    sample_unclaimed sample_ids eq_refl) as Hlife.
  assert (is_ok (run (sample_nh serve_every) (node_prepare sample_plugin sample_claim) sample_world).1 = true)
    as Hok by (vm_compute; reflexivity).
  unfold sample_nh in *. destruct (run _ (node_prepare _ _) sample_world) as [[devices|e] w1]; [|discriminate Hok].
  destruct Hlife as (_ & _ & Hlife). cbv zeta in Hlife |- *.
  destruct (run _ (node_unprepare _ _) _) as [a w3]. split; [reflexivity|exact Hlife].
Defined.

(** What the operator's reaper makes of a claim that was deleted while its node
    was away: the token is unenrolled and the record removed. *)
Definition reaped (w : node) : node :=
  set_account (Account (ac_minted (n_account w)) (ac_tokens (n_account w) ∖ {["tok-7"]}) (ac_clients (n_account w)))
    (set_crd (CRDServer ∅ (crd_version (n_crd w)) (crd_ticks (n_crd w))) w).

(** When the node is back the claim is unprepared, with success and without
    effect: the client its container enrolled stays enrolled, its Secret stays
    in the cluster and its CDI device and files stay on the node. *)
Definition away_node : node :=
  let w := (run (sample_nh serve_every) (node_prepare sample_plugin sample_claim) sample_world).2 in
  reaped (run (sample_nh serve_every) (node_containers hook_sample 1) w).2.
Example reaped_claim_leaks :
  let out := run (sample_nh serve_every)
    (node_unprepare sample_plugin (NamespacedObject "default" "claim-1" "uid-1")) away_node in
  (is_ok out.1, elements (ac_clients (n_account out.2)), size (n_secrets out.2), size (fs_files (n_fs out.2)),
   bool_decide (fs_files (n_fs out.2) = fs_files (n_fs away_node))) = (true, ["cli-1"; "cli-0"], 1%nat, 3%nat, true).
Proof. vm_compute. reflexivity. Qed.
End witnesses.
