(* ===== verification/Nvidia.v ===== *)
(** * Daemon: the NVIDIA checks

    internal/daemon/nvidia.go: what a node must have before it is enrolled -
    the driver libraries, a recent enough driver and at least one GPU. *)

From S2P Require Import Prelude GoStrings Driver DaemonConfig GoPath Host.

Section version.
Context `{UnicodeTables}.

(** [strconv.Atoi] with its error. *)
Definition atoi (s : string) : result Z :=
  match parse_int s with
  | Some z => Ok z
  | None =>
      let unsigned := match chars s with
                      | a :: l => if bool_decide (a = "-"%char) || bool_decide (a = "+"%char)
                                  then l else a :: l
                      | [] => []
                      end in
      Err (ErrLib ("strconv.Atoi: parsing " +:+ quote s +:+
        match parse_uint unsigned with
        | Some _ => ": value out of range"
        | None => ": invalid syntax"
        end))
  end.

(** The numbers of a version's components, in order. *)
Fixpoint parse_components (version : string) (parts : list string) : result (list Z) :=
  match parts with
  | [] => Ok []
  | part :: parts =>
      if blank part then Err (ErrText ("empty version component in " +:+ quote version))
      else
        number ← atoi part;
        numbers ← parse_components version parts;
        Ok (number :: numbers)
  end.

Definition parseVersion (version : string) : result (list Z) :=
  let version := trim_space version in
  if bool_decide (version = "") then Err (ErrText "empty version")
  else parse_components version (split version "."%char).

Definition versionPart (parts : list Z) (index : nat) : Z :=
  match parts !! index with
  | Some n => n
  | None => 0
  end.

(** The comparison loop, from index [i] on, [todo] components left. *)
Fixpoint compare_parts (tooOld : error) (v m : list Z) (i todo : nat) : result unit :=
  match todo with
  | O => Ok tt
  | S todo =>
      let versionNum := versionPart v i in
      let minVersionNum := versionPart m i in
      if (minVersionNum <? versionNum)%Z then Ok tt
      else if (versionNum <? minVersionNum)%Z then Err tooOld
      else compare_parts tooOld v m (S i) todo
  end.

Definition ensureVersionRecency (version minVersion : string) : result unit :=
  match parseVersion version with
  | Err e => Err (ErrWrap ("nvidia driver format is incorrect: " +:+ version +:+ "; ") e "")
  | Ok versionParts =>
      match parseVersion minVersion with
      | Err e => Err (ErrWrap (EnvMinNVDriverVersion +:+ " env variable format is incorrect: " +:+
                               minVersion +:+ "; ") e "")
      | Ok minVersionParts =>
          let maxLen := if decide (length versionParts < length minVersionParts)
                        then length minVersionParts else length versionParts in
          compare_parts (ErrText ("version not accepted. machine has version " +:+ version +:+
                                  ", thunder expects at least " +:+ minVersion))
            versionParts minVersionParts 0 maxLen
      end
  end.
End version.

Definition fileNotFoundError (nodePath resolvedPath : string) : error :=
  ErrText (path_Base nodePath +:+ " not found at node path " +:+ nodePath +:+
           " (resolved path " +:+ resolvedPath +:+ ")").

(** The lines of a command's output that are not blank. *)
Definition reported (output : string) : list string :=
  filter (λ l, blank l = false) (split output "010"%char).

Definition nvidiaDriverVersion (cfg : Config) : prog host_sig (result string) :=
  '(output, err) ← hcall (CombinedOutput (c_NVSMIPath cfg)
    ["--query-gpu=driver_version"; "--format=csv,noheader,nounits"]);
  match err with
  | Some e => mret (Err (ErrWrap "get nvidia driver version: " e (": " +:+ trim_space output)))
  | None =>
      match find (λ l, negb (blank l)) (split output "010"%char) with
      | Some line => mret (Ok (trim_space line))
      | None => mret (Err (ErrText "nvidia-smi did not report a driver version"))
      end
  end.

Definition nvidiaGPUCount (cfg : Config) : prog host_sig (result Z) :=
  '(output, err) ← hcall (CombinedOutput (c_NVSMIPath cfg)
    ["--query-gpu=index"; "--format=csv,noheader,nounits"]);
  match err with
  | Some e => mret (Err (ErrWrap "get nvidia gpu count: " e (": " +:+ trim_space output)))
  | None =>
      mret (Ok (foldl (λ count line, if negb (blank line) then int64 (count + 1) else count)
                  0%Z (split output "010"%char)))
  end.

Fixpoint check_files (hostRoot : string) (paths : list string) : prog host_sig (result unit) :=
  match paths with
  | [] => mret (Ok tt)
  | nodePath :: paths =>
      let resolved := resolveNodePath hostRoot nodePath in
      exists_ ← hcall (FileExists resolved);
      if negb exists_ then mret (Err (fileNotFoundError nodePath resolved))
      else check_files hostRoot paths
  end.

Definition nvidiaChecks `{UnicodeTables} (cfg : Config) : prog host_sig (result (Z * string)) :=
  let? _ := check_files (c_HostRoot cfg) [c_LibCUDAPath cfg; c_LibNVMLPath cfg; c_NVSMIPath cfg] or id in
  let? driverVersion := nvidiaDriverVersion cfg or id in
  let! _ := ensureVersionRecency driverVersion (c_MinDriverVersion cfg) or id in
  let? gpuCount := nvidiaGPUCount cfg or id in
  if bool_decide (gpuCount = 0%Z) then mret (Err (ErrText "nvidia-smi reported zero GPU devices"))
  else mret (Ok (gpuCount, driverVersion)).

(** Versions as sequences of components, missing ones zero: the order a
    minimum version stands for. *)
Definition version_at_least (v m : list Z) : Prop :=
  (∀ i, versionPart v i = versionPart m i) ∨
  ∃ i, (∀ j, j < i → versionPart v j = versionPart m j) ∧ (versionPart m i < versionPart v i)%Z.

(** What a node that passed the checks showed in the history [pre]. *)
Definition nvidia_ok `{UnicodeTables} (cfg : Config) (pre : list (event host_sig)) : Prop :=
  (∀ path, path ∈ [c_LibCUDAPath cfg; c_LibNVMLPath cfg; c_NVSMIPath cfg] →
     hev (FileExists (resolveNodePath (c_HostRoot cfg) path)) true ∈ pre) ∧
  (∃ output line, hev (CombinedOutput (c_NVSMIPath cfg)
       ["--query-gpu=driver_version"; "--format=csv,noheader,nounits"]) (output, None) ∈ pre ∧
     head (reported output) = Some line ∧
     ∃ v m, parseVersion (trim_space line) = Ok v ∧ parseVersion (c_MinDriverVersion cfg) = Ok m ∧
       version_at_least v m) ∧
  (∃ output, hev (CombinedOutput (c_NVSMIPath cfg)
       ["--query-gpu=index"; "--format=csv,noheader,nounits"]) (output, None) ∈ pre ∧
     reported output ≠ []).

(** The checks only look. *)
Definition nvidia_queries : list (list string) :=
  [["--query-gpu=driver_version"; "--format=csv,noheader,nounits"];
   ["--query-gpu=index"; "--format=csv,noheader,nounits"]].
Definition check_call (cfg : Config) (e : host_ev) : Prop :=
  match e with
  | FileExists _ => True
  | CombinedOutput name args => name = c_NVSMIPath cfg ∧ args ∈ nvidia_queries
  | _ => False
  end.

(* -------------------------------------------------------------------- *)
(** ** Lemmas *)

Lemma versionPart_beyond l i : length l ≤ i → versionPart l i = 0%Z.
Proof. intros Hi. unfold versionPart. by rewrite lookup_ge_None_2. Qed.

Lemma compare_parts_ok e v m i todo : length v ≤ i + todo → length m ≤ i + todo →
  (∀ j, j < i → versionPart v j = versionPart m j) →
  compare_parts e v m i todo = Ok tt ∧ version_at_least v m ∨
  compare_parts e v m i todo = Err e ∧ ¬ version_at_least v m.
Proof.
  revert i. induction todo as [|todo IH]; intros i Hv Hm Heq; cbn [compare_parts].
  { left. split; [done|]. left. intros j. destruct (decide (j < i)); [by apply Heq|].
    rewrite !versionPart_beyond; lia. }
  destruct (Z.ltb_spec (versionPart m i) (versionPart v i)) as [Hlt|Hle].
  { left. split; [done|]. right. by exists i. }
  destruct (Z.ltb_spec (versionPart v i) (versionPart m i)) as [Hlt|Hge].
  { right. split; [done|]. intros [Hall|(k & Hk & Hgt)]; [specialize (Hall i); lia|].
    destruct (decide (k < i)) as [Hki|?]; [specialize (Heq k Hki); lia|].
    destruct (decide (k = i)) as [->|?]; [lia|]. specialize (Hk i). lia. }
  apply IH; [lia..|]. intros j Hj. destruct (decide (j = i)) as [->|?]; [lia|]. apply Heq. lia.
Qed.

Section lemmas.
Context `{UnicodeTables}.

Lemma ensureVersionRecency_ok version minVersion :
  ensureVersionRecency version minVersion = Ok tt ↔
  ∃ v m, parseVersion version = Ok v ∧ parseVersion minVersion = Ok m ∧ version_at_least v m.
Proof.
  unfold ensureVersionRecency. destruct (parseVersion version) as [v|]; [|naive_solver].
  destruct (parseVersion minVersion) as [m|]; [|naive_solver].
  set (e := ErrText _). set (n := if decide _ then _ else _).
  destruct (compare_parts_ok e v m 0 n) as [[-> ?]|[-> ?]]; [subst n; case_decide; lia..|lia| |];
    naive_solver.
Qed.

Lemma find_reported output :
  find (λ l, negb (blank l)) (split output "010"%char) = head (reported output).
Proof.
  unfold reported. induction (split output _) as [|l ls IH]; [done|]. cbn [find].
  destruct (blank l) eqn:Hl; cbn [negb].
  - rewrite filter_cons_False by congruence. done.
  - by rewrite filter_cons_True.
Qed.

Lemma count_reported ls n : (0 ≤ n)%Z → (n + Z.of_nat (length ls) ≤ max_int64)%Z →
  foldl (λ count line, if negb (blank line) then int64 (count + 1) else count) n ls =
  (n + Z.of_nat (length (filter (λ l, blank l = false) ls)))%Z.
Proof.
  unfold max_int64. revert n. induction ls as [|l ls IH]; intros n Hn Hmax; cbn [foldl].
  { cbn. lia. }
  cbn [length] in Hmax. destruct (blank l) eqn:Hl; cbn [negb].
  - rewrite filter_cons_False by congruence. rewrite IH by lia. done.
  - rewrite filter_cons_True by done. rewrite int64_id.
    2:{ unfold in_int64, min_int64, max_int64. lia. }
    rewrite IH by lia. cbn [length]. lia.
Qed.

Lemma count_none_reported ls :
  filter (λ l, blank l = false) ls = [] →
  foldl (λ count line, if negb (blank line) then int64 (count + 1) else count) 0%Z ls = 0%Z.
Proof.
  induction ls as [|l ls IH]; [done|]. cbn [foldl]. destruct (blank l) eqn:Hl; cbn [negb].
  - by rewrite filter_cons_False by congruence.
  - by rewrite filter_cons_True.
Qed.

Lemma nvidia_ok_mono cfg pre pre' : pre ⊆ pre' → nvidia_ok cfg pre → nvidia_ok cfg pre'.
Proof.
  intros Hpre (Hf & (o & l & Ho & Hl) & (o' & Ho' & Hl')). split_and!.
  - intros p Hp. by apply Hpre, Hf.
  - exists o, l. split; [by apply Hpre|done].
  - exists o'. split; [by apply Hpre|done].
Qed.

Lemma check_files_wp (G : list (event host_sig) → host_ev → Prop) pre root paths Q :
  (∀ pre' path, pre ⊆ pre' → G pre' (FileExists path)) →
  (∀ pre' r, pre ⊆ pre' →
     (r = Ok tt → ∀ p, p ∈ paths → hev (FileExists (resolveNodePath root p)) true ∈ pre') → Q pre' r) →
  wp G pre (check_files root paths) Q.
Proof.
  revert pre Q. induction paths as [|p paths IH]; intros pre Q HG HQ; cbn [check_files].
  { apply HQ; [done|]. by intros _ p ?%not_elem_of_nil. }
  apply wp_hcall; [by apply HG|]. intros [|]; cbn [negb]; [|by apply HQ; [set_solver|]].
  apply IH; [intros; apply HG; set_solver|]. intros pre' r Hpre Hr. apply HQ; [set_solver|].
  intros Hok q [->|Hq]%elem_of_cons; [set_solver|by apply Hr].
Qed.

(** The checks only look, and pass only on a node that showed everything. *)
Lemma nvidiaChecks_wp (G : list (event host_sig) → host_ev → Prop) pre cfg Q :
  (∀ pre' e, pre ⊆ pre' → check_call cfg e → G pre' e) →
  (∀ pre' r, pre ⊆ pre' → (∀ n v, r = Ok (n, v) → nvidia_ok cfg pre') → Q pre' r) →
  wp G pre (nvidiaChecks cfg) Q.
Proof.
  intros HG HQ. unfold nvidiaChecks, orfail at 1. apply wp_bind, check_files_wp; [by intros; apply HG|].
  intros pre1 [[]|e] H1 Hfiles; [|by apply HQ]. specialize (Hfiles eq_refl).
  unfold orfail at 1, nvidiaDriverVersion. rewrite wp_bind.
  apply wp_hcall; [apply HG; [set_solver|split; [done|by left]]|].
  intros [output [e|]]; [by apply HQ; [set_solver|]|]. rewrite find_reported.
  destruct (head (reported output)) as [line|] eqn:Hline; [|by apply HQ; [set_solver|]].
  cbn -[ensureVersionRecency nvidiaGPUCount].
  destruct (ensureVersionRecency _ _) as [[]|e] eqn:Hver; [|by apply HQ; [set_solver|]].
  apply ensureVersionRecency_ok in Hver. cbn [orfail_pure].
  unfold orfail, nvidiaGPUCount. rewrite wp_bind.
  apply wp_hcall; [apply HG; [set_solver|split; [done|right; by left]]|].
  intros [output' [e|]]; [by apply HQ; [set_solver|]|]. cbn -[foldl bool_decide].
  case_bool_decide as Hn; [by apply HQ; [set_solver|]|]. apply HQ; [set_solver|].
  intros _ _ _. split_and!.
  - intros p Hp. specialize (Hfiles p Hp). set_solver.
  - exists output, line. split_and!; [set_solver|done..].
  - exists output'. split; [set_solver|]. intros Hnone. by apply Hn, count_none_reported.
Qed.
End lemmas.

(* -------------------------------------------------------------------- *)
(** ** Theorems *)

Section theorems.
Context `{UnicodeTables}.

(** A driver version is recent enough exactly when it and the minimum
    are dotted sequences of integers and the first component in which they
    differ, a missing one counting as zero, is the larger in the version - or
    none differs. *)
Theorem ensureVersionRecency_spec version minVersion :
  ensureVersionRecency version minVersion = Ok tt ↔
  ∃ v m, parseVersion version = Ok v ∧ parseVersion minVersion = Ok m ∧ version_at_least v m.
Proof. apply ensureVersionRecency_ok. Qed.

(** C38: the NVIDIA checks only look at files and run nvidia-smi, and pass
    only if all three node paths exist under the host root, the first line
    nvidia-smi reports that is not blank is a version no older than the
    minimum, and it lists at least one GPU. *)
Theorem nvidiaChecks_sound cfg tr a : exec (nvidiaChecks cfg) tr a →
  Forall (λ x : event host_sig, check_call cfg (evt_call x)) tr ∧ (is_ok a = true → nvidia_ok cfg tr).
Proof.
  intros Hx. assert (wp (S:=host_sig) (λ _ e, check_call cfg e) [] (nvidiaChecks cfg)
    (λ pre r, is_ok r = true → nvidia_ok cfg pre)) as Hwp.
  { apply nvidiaChecks_wp; [done|]. intros pre [[n v]|e] _ Hr; [|done]. intros _. by eapply Hr. }
  destruct (wp_sound _ _ _ _ _ _ Hwp Hx) as [HQ Hcalls]. split; [|done].
  apply list.Forall_forall. intros [e r] (tr1 & tr2 & ->)%list_elem_of_split. by eapply Hcalls.
Qed.
End theorems.

Section witnesses.
#[local] Existing Instance ascii_tables.

(** A node with one GPU and driver 550.54. *)
Definition good_node : handler host_sig unit := λ e w,
  (match e return host_resp e with
   | FileExists _ => true
   | CombinedOutput _ args =>
       (if bool_decide (head args = Some "--query-gpu=index") then "0" +:+ newline
        else newline +:+ "550.54" +:+ newline, None)
   | ReadNode _ => Err ErrNotFound
   | ListZones => Ok []
   | CreateZone _ | RunShell _ _ | StartPlugin _ _ => Ok tt
   | CreateServerEnrollment _ => Err ErrNotFound
   | LibthunderEnsure _ => Err ErrNotFound
   | Wait _ | Cancelled => true
   end, w).

Lemma nvidiaChecks_sound_witness :
  (run good_node (nvidiaChecks sample_config) tt).1 = Ok (1%Z, "550.54") ∧
  nvidia_ok sample_config (trace good_node (nvidiaChecks sample_config) tt).
Proof.
  assert (is_ok (run good_node (nvidiaChecks sample_config) tt).1 = true) as Hok
    by (vm_compute; reflexivity).
  split; [vm_compute; reflexivity|].
  exact (proj2 (nvidiaChecks_sound _ _ _ (run_exec good_node (nvidiaChecks sample_config) tt)) Hok).
Defined.

Example recency_examples :
  (is_ok <$> [ensureVersionRecency "535.104.05" "535.104"; ensureVersionRecency "535.9" "535.54";
              ensureVersionRecency "550" "535.54.3"; ensureVersionRecency "535-server" "535"])
  = [true; false; true; false].
Proof. vm_compute. reflexivity. Qed.
End witnesses.
