(* ===== verification/NodeAttributes.v ===== *)
(** * Daemon: a node's zone and address

    internal/daemon/runtime.go: the zone and advertised IP of a node, from the
    environment or from the node object, and the Thunder zone of that name. *)

From S2P Require Import Prelude GoStrings Driver DaemonConfig Host.

Definition with_attributes (cfg : Config) (zone ip : string) : Config :=
  {| c_Node := c_Node cfg; c_Zone := zone; c_AdvertisedIP := ip;
     c_MinDriverVersion := c_MinDriverVersion cfg; c_PortRange := c_PortRange cfg;
     c_ThunderAPIURL := c_ThunderAPIURL cfg; c_ThunderAPIToken := c_ThunderAPIToken cfg;
     c_HostRoot := c_HostRoot cfg; c_LibCUDAPath := c_LibCUDAPath cfg;
     c_LibNVMLPath := c_LibNVMLPath cfg; c_NVSMIPath := c_NVSMIPath cfg;
     c_ZoneLabel := c_ZoneLabel cfg; c_AdvertisedIPLabel := c_AdvertisedIPLabel cfg;
     c_HostTargetPID := c_HostTargetPID cfg; c_DRAEnabled := c_DRAEnabled cfg;
     c_DRADriverName := c_DRADriverName cfg; c_CDISpecDir := c_CDISpecDir cfg;
     c_ThunderClientNS := c_ThunderClientNS cfg; c_KubeletPluginDir := c_KubeletPluginDir cfg;
     c_KubeletRegistrarDir := c_KubeletRegistrarDir cfg;
     c_ThunderInstallURL := c_ThunderInstallURL cfg;
     c_ThunderTelemetryURL := c_ThunderTelemetryURL cfg;
     c_ArtifactBaseURL := c_ArtifactBaseURL cfg; c_LibthunderURL := c_LibthunderURL cfg;
     c_LibthunderSHA256 := c_LibthunderSHA256 cfg; c_CABundlePath := c_CABundlePath cfg;
     c_ThunderdLogUnit := c_ThunderdLogUnit cfg |}.

(** What an absent key of a Go map reads as. *)
Definition label (labels : gmap string string) (key : string) : string := default "" (labels !! key).

Definition resolveNodeAttributes (cfg : Config) : prog host_sig (result Config) :=
  if negb (bool_decide (c_Zone cfg = "")) && negb (bool_decide (c_AdvertisedIP cfg = ""))
  then mret (Ok cfg)
  else
    let? node := hcall (ReadNode (c_Node cfg)) or wrap ("read kubernetes node " +:+ c_Node cfg) in
    let zone := if bool_decide (c_Zone cfg = "")
                then trim_space (label (ni_Labels node) (c_ZoneLabel cfg)) else c_Zone cfg in
    if bool_decide (zone = "") then
      mret (Err (ErrText (EnvZone +:+ " must be specified or node " +:+ c_Node cfg +:+
                          " must have label " +:+ c_ZoneLabel cfg)))
    else
      let ip := if bool_decide (c_AdvertisedIP cfg = "")
                then firstNonEmpty [label (ni_Labels node) (c_AdvertisedIPLabel cfg); NodeIP node]
                else c_AdvertisedIP cfg in
      if bool_decide (ip = "") then
        mret (Err (ErrText (EnvAdvertisedIP +:+ " must be specified, or node " +:+ c_Node cfg +:+
          " must have label " +:+ c_AdvertisedIPLabel cfg +:+ " or an IP address in status.addresses")))
      else mret (Ok (with_attributes cfg zone ip)).

(** The loop of [findSmallestZoneID]. *)
Definition smallest_zone (displayName : string) (zones : list Zone) : string :=
  foldl (λ smallest zone,
      if negb (bool_decide (zone_DisplayName zone = displayName)) then smallest
      else if bool_decide (smallest = "") || str_lt (zone_ZoneID zone) smallest
      then zone_ZoneID zone else smallest)
    "" zones.

Definition findSmallestZoneID (displayName : string) : prog host_sig (result (string * bool)) :=
  let? zones := hcall ListZones or id in
  let smallest := smallest_zone displayName zones in
  mret (Ok (smallest, negb (bool_decide (smallest = "")))).

Definition ensureThunderZone `{UnicodeTables, LibErrors} (displayName : string)
    : prog host_sig (result string) :=
  let? (zoneID, found) := findSmallestZoneID displayName or wrap "list thunder zones" in
  if (found : bool) then mret (Ok zoneID)
  else
    created ← hcall (CreateZone displayName);
    let failure := match created with
                   | Err e => if negb (thunder_is_conflict e) then Some e else None
                   | Ok _ => None
                   end in
    match failure with
    | Some e => mret (Err (wrap ("create thunder zone " +:+ quote displayName) e))
    | None =>
        let? (zoneID, found) := findSmallestZoneID displayName
          or wrap "list thunder zones after create" in
        if negb found then
          mret (Err (ErrText ("thunder zone " +:+ quote displayName +:+ " was not found after create")))
        else mret (Ok zoneID)
    end.

(** The IDs of the zones of a name. *)
Definition zone_ids (displayName : string) (zones : list Zone) : list string :=
  zone_ZoneID <$> filter (λ z, zone_DisplayName z = displayName) zones.

(** The least of them, in byte order. *)
Definition least_id (ids : list string) (id : string) : Prop :=
  id ∈ ids ∧ ∀ id', id' ∈ ids → str_lt id' id = false.

(* -------------------------------------------------------------------- *)
(** ** Lemmas *)

Lemma str_lt_irrefl s : str_lt s s = false.
Proof.
  unfold str_lt, String.ltb. induction s as [|a s IH]; [done|]. cbn.
  unfold Stdlib.Strings.Ascii.compare. by rewrite N.compare_refl.
Qed.

Lemma str_lt_spec s1 s2 : str_lt s1 s2 = true ↔ String.compare s1 s2 = Lt.
Proof. unfold str_lt, String.ltb. by destruct (String.compare s1 s2). Qed.

Lemma str_lt_trans s1 s2 s3 : str_lt s1 s2 = true → str_lt s2 s3 = true → str_lt s1 s3 = true.
Proof.
  rewrite !str_lt_spec. revert s2 s3. induction s1 as [|a s1 IH]; intros [|b s2] [|c s3]; try done.
  cbn. unfold Stdlib.Strings.Ascii.compare.
  destruct (N.compare_spec (Stdlib.Strings.Ascii.N_of_ascii a) (Stdlib.Strings.Ascii.N_of_ascii b)) as [Hab|Hab|Hab]; try done;
  destruct (N.compare_spec (Stdlib.Strings.Ascii.N_of_ascii b) (Stdlib.Strings.Ascii.N_of_ascii c)) as [Hbc|Hbc|Hbc]; try done;
  intros H1 H2; [rewrite Hab, Hbc, N.compare_refl; by eapply IH|..];
  rewrite (proj2 (N.compare_lt_iff _ _)); (done || lia).
Qed.

Lemma str_lt_total s1 s2 : str_lt s1 s2 = false → str_lt s2 s1 = false → s1 = s2.
Proof.
  intros H1 H2. apply String.compare_eq_iff. pose proof (String.compare_antisym s1 s2) as Ha.
  unfold str_lt, String.ltb in *. by destruct (String.compare s1 s2), (String.compare s2 s1).
Qed.

Lemma least_id_unique ids ids' id id' : (∀ x, x ∈ ids ↔ x ∈ ids') →
  least_id ids id → least_id ids' id' → id = id'.
Proof. intros Heq [Hin Hle] [Hin' Hle']. apply str_lt_total; naive_solver. Qed.

Lemma least_id_snoc ids s id : least_id ids s →
  least_id (ids ++ [id]) (if str_lt id s then id else s).
Proof.
  unfold least_id. intros [Hin Hle]. setoid_rewrite elem_of_app. setoid_rewrite list_elem_of_singleton.
  destruct (str_lt id s) eqn:Hlt.
  - split; [by right|]. intros id' [Hid'| ->]; [|apply str_lt_irrefl].
    destruct (str_lt id' id) eqn:Hl; [|done]. specialize (Hle _ Hid').
    by rewrite (str_lt_trans _ _ _ Hl Hlt) in Hle.
  - split; [by left|]. by intros id' [?| ->]; [apply Hle|].
Qed.

Lemma smallest_zone_snoc name zones z :
  smallest_zone name (zones ++ [z]) =
  if bool_decide (zone_DisplayName z = name) then
    if bool_decide (smallest_zone name zones = "") || str_lt (zone_ZoneID z) (smallest_zone name zones)
    then zone_ZoneID z else smallest_zone name zones
  else smallest_zone name zones.
Proof. unfold smallest_zone. rewrite foldl_app. cbn [foldl]. by case_bool_decide. Qed.

Lemma zone_ids_snoc name zones z :
  zone_ids name (zones ++ [z]) =
  zone_ids name zones ++ (if bool_decide (zone_DisplayName z = name) then [zone_ZoneID z] else []).
Proof.
  unfold zone_ids. rewrite filter_app, fmap_app. f_equal. rewrite filter_cons.
  case_decide; [by rewrite bool_decide_true|by rewrite bool_decide_false].
Qed.

Lemma smallest_zone_elem name zones :
  smallest_zone name zones = "" ∨ smallest_zone name zones ∈ zone_ids name zones.
Proof.
  induction zones as [|z zones IH] using rev_ind; [by left|].
  rewrite smallest_zone_snoc, zone_ids_snoc, elem_of_app. case_bool_decide; [|naive_solver].
  destruct (_ || _); [right; right; by apply list_elem_of_singleton|naive_solver].
Qed.

Lemma smallest_zone_least name zones : Forall (λ id, id ≠ "") (zone_ids name zones) →
  (zone_ids name zones = [] ∧ smallest_zone name zones = "") ∨
  (smallest_zone name zones ≠ "" ∧ least_id (zone_ids name zones) (smallest_zone name zones)).
Proof.
  induction zones as [|z zones IH] using rev_ind; [by left|].
  rewrite smallest_zone_snoc, zone_ids_snoc. case_bool_decide as Hz.
  2:{ rewrite app_nil_r. apply IH. }
  intros [Hids [Hne _]%Forall_cons]%Forall_app. right. destruct (IH Hids) as [[Hnil Hs]|[Hs Hl]].
  - rewrite Hnil, Hs. cbn [bool_decide orb app]. rewrite bool_decide_true by done. cbn [orb].
    split; [done|]. split; [by left|]. intros id' ->%list_elem_of_singleton. apply str_lt_irrefl.
  - rewrite bool_decide_false by done. cbn [orb].
    pose proof (least_id_snoc _ _ (zone_ZoneID z) Hl). by destruct (str_lt _ _).
Qed.

(** What a run that found the zone [id] saw. *)
Definition zone_found (name : string) (tr : list (event host_sig)) (id : string) : Prop :=
  id ≠ "" ∧ ∃ zones, hev ListZones (Ok zones) ∈ tr ∧ id ∈ zone_ids name zones ∧
    (Forall (λ id, id ≠ "") (zone_ids name zones) → least_id (zone_ids name zones) id).

(** A zone is created only under the wanted name and only once a listing
    showed none of it. *)
Definition zone_may (name : string) (pre : list (event host_sig)) (e : host_ev) : Prop :=
  match e with
  | ListZones => True
  | CreateZone n => n = name ∧
      ∃ zones, pre = [hev ListZones (Ok zones)] ∧ smallest_zone name zones = ""
  | _ => False
  end.

Lemma smallest_zone_found name zones pre :
  hev ListZones (Ok zones) ∈ pre → smallest_zone name zones ≠ "" →
  zone_found name pre (smallest_zone name zones).
Proof.
  intros Hin Hne. split; [done|]. exists zones. split; [done|].
  split; [by destruct (smallest_zone_elem name zones)|].
  intros Hids. by destruct (smallest_zone_least name zones Hids) as [[_ ?]|[_ ?]].
Qed.

Section lemmas.
Context `{UnicodeTables, LibErrors}.

Lemma ensureThunderZone_wp_G (G : list (event host_sig) → host_ev → Prop) pre0 name Q :
  (∀ pre e, zone_may name pre e → G (pre0 ++ pre) e) →
  (∀ pre r, (∀ id, r = Ok id → zone_found name pre id) → Q (pre0 ++ pre) r) →
  wp G pre0 (ensureThunderZone name) Q.
Proof.
  intros HG HQ. unfold ensureThunderZone, findSmallestZoneID, orfail. rewrite !wp_bind.
  apply wp_hcall; [rewrite <-(app_nil_r pre0); by apply HG|].
  intros [zones|e]; [|by apply (HQ [_])]. cbn -[smallest_zone].
  case_bool_decide as Hz; cbn [negb].
  2:{ apply (HQ [_]). intros id [= <-]. apply smallest_zone_found; [by left|done]. }
  apply (wp_hcall G _ (CreateZone name)).
  { apply (HG [_]). split; [done|]. by exists zones. }
  intros r. rewrite <-app_assoc. cbn [app].
  assert (∀ f, (∀ pre r, (∀ id, r = Ok id → zone_found name pre id) → f (pre0 ++ pre) r) →
    wp G (pre0 ++ [hev ListZones (Ok zones); hev (CreateZone name) r])
      (let? (zoneID, found) := findSmallestZoneID name or wrap "list thunder zones after create" in
       if negb found then
         mret (Err (ErrText ("thunder zone " +:+ quote name +:+ " was not found after create")))
       else mret (Ok zoneID)) f) as Hsecond.
  { intros f Hf. unfold findSmallestZoneID, orfail. rewrite !wp_bind.
    apply (wp_hcall G _ ListZones).
    { by apply (HG [_; _]). }
    intros [zones'|e]; [|rewrite <-app_assoc; by apply (Hf [_; _; _])].
    cbn -[smallest_zone]. rewrite <-app_assoc. cbn [app].
    case_bool_decide as Hz'; cbn [negb]; apply (Hf [_; _; _]); [done|].
    intros id [= <-]. apply smallest_zone_found; [set_solver|done]. }
  destruct r as [|e]; [by apply Hsecond|]. cbn [negb].
  destruct (thunder_is_conflict e); cbn [negb]; [by apply Hsecond|by apply (HQ [_; _])].
Qed.
End lemmas.

(* -------------------------------------------------------------------- *)
(** ** Theorems *)

(** The zone a daemon picks among several of one name depends only on
    which IDs exist, not on the order they are listed in or on how often, so
    that all daemons of a zone pick the same one: the least. *)
Theorem smallest_zone_agrees name zones zones' :
  (∀ z, z ∈ zones ↔ z ∈ zones') → Forall (λ z, zone_ZoneID z ≠ "") zones →
  smallest_zone name zones = smallest_zone name zones' ∧
  (smallest_zone name zones ≠ "" ↔ ∃ z, z ∈ zones ∧ zone_DisplayName z = name) ∧
  ∀ z, z ∈ zones → zone_DisplayName z = name →
    str_lt (zone_ZoneID z) (smallest_zone name zones) = false.
Proof.
  intros Heq Hne.
  assert (∀ l x, x ∈ zone_ids name l ↔ ∃ z, z ∈ l ∧ zone_DisplayName z = name ∧ x = zone_ZoneID z) as Hin.
  { intros l x. unfold zone_ids. rewrite list_elem_of_fmap. setoid_rewrite list_elem_of_filter.
    naive_solver. }
  assert (∀ l, (∀ z, z ∈ l ↔ z ∈ zones) → Forall (λ id, id ≠ "") (zone_ids name l)) as Hids.
  { intros l Hl. apply list.Forall_forall. intros x (z & Hz & _ & ->)%Hin.
    apply (proj1 (list.Forall_forall _ _) Hne), Hl, Hz. }
  assert (∀ x, x ∈ zone_ids name zones ↔ x ∈ zone_ids name zones') as Hsame.
  { intros x. rewrite !Hin. by setoid_rewrite Heq. }
  destruct (smallest_zone_least name zones) as [[Hnil Hs]|[Hs Hl]]; [by apply Hids|..];
    (destruct (smallest_zone_least name zones') as [[Hnil' Hs']|[Hs' Hl']];
       [by apply Hids; intros z; rewrite Heq|..]).
  - rewrite Hs, Hs'. split; [done|].
    assert (∀ z, z ∈ zones → zone_DisplayName z ≠ name) as Hnone.
    { intros z Hz Hd. apply (not_elem_of_nil (zone_ZoneID z)). rewrite <-Hnil, Hin. by exists z. }
    split; [|intros z Hz Hd; by destruct (Hnone z Hz)].
    split; [done|]. intros (z & Hz & Hd). by destruct (Hnone z Hz).
  - exfalso. destruct Hl' as [Hi _]. rewrite <-Hsame, Hnil in Hi. by apply elem_of_nil in Hi.
  - exfalso. destruct Hl as [Hi _]. rewrite Hsame, Hnil' in Hi. by apply elem_of_nil in Hi.
  - split; [by eapply least_id_unique|]. destruct Hl as [Hi Hle]. split.
    + split; [|done]. intros _. apply Hin in Hi as (z & ? & ? & _). by exists z.
    + intros z Hz Hd. apply Hle, Hin. by exists z.
Qed.

Lemma smallest_zone_agrees_witness :
  smallest_zone "a" [MkZone "z9" "a"; MkZone "z3" "a"; MkZone "z1" "b"] = "z3" ∧
  str_lt "z9" (smallest_zone "a" [MkZone "z9" "a"; MkZone "z3" "a"; MkZone "z1" "b"]) = false.
Proof.
  split; [reflexivity|].
  apply (smallest_zone_agrees "a" _ [MkZone "z1" "b"; MkZone "z3" "a"; MkZone "z9" "a"]) with
    (z := MkZone "z9" "a"); [set_solver|by repeat constructor|by left|done].
Defined.

Section theorems.
Context `{UnicodeTables, LibErrors}.

(** C39: a Thunder zone is created only under the wanted name, at most once,
    and only right after a listing that held none of that name; a zone is
    returned only if the listing read last before holds it, and is then the
    least of that name - also when the creation met a conflict. *)
Theorem ensureThunderZone_sound name tr a : exec (ensureThunderZone name) tr a →
  (∀ tr1 e r tr2, tr = tr1 ++ hev e r :: tr2 → zone_may name tr1 e) ∧
  ∀ id, a = Ok id → zone_found name tr id.
Proof.
  intros Hx. assert (wp (S:=host_sig) (zone_may name) [] (ensureThunderZone name)
    (λ pre r, ∀ id, r = Ok id → zone_found name pre id)) as Hwp.
  { by apply ensureThunderZone_wp_G. }
  destruct (wp_sound _ _ _ _ _ _ Hwp Hx) as [HQ Hcalls]. split; [|done].
  intros tr1 e r tr2 ->. by eapply Hcalls.
Qed.

(** A resolved configuration has a zone and an address: those of the
    environment where it gives them, whatever the node's labels say, and
    otherwise the trimmed zone label and the address label or the node's own
    address; the node is read only if one is missing, and a node without
    them is an error. *)
Theorem resolveNodeAttributes_spec cfg tr a : exec (resolveNodeAttributes cfg) tr a →
  (tr = [] ∧ a = Ok cfg ∧ c_Zone cfg ≠ "" ∧ c_AdvertisedIP cfg ≠ "") ∨
  (∃ r, tr = [hev (ReadNode (c_Node cfg)) r] ∧
    match r with
    | Err e => is_ok a = false
    | Ok node =>
        let zone := trim_space (label (ni_Labels node) (c_ZoneLabel cfg)) in
        let ip := firstNonEmpty [label (ni_Labels node) (c_AdvertisedIPLabel cfg); NodeIP node] in
        (is_ok a = true ↔
           (c_Zone cfg ≠ "" ∨ zone ≠ "") ∧ (c_AdvertisedIP cfg ≠ "" ∨ ip ≠ "")) ∧
        ∀ cfg', a = Ok cfg' →
          c_Zone cfg' ≠ "" ∧ c_AdvertisedIP cfg' ≠ "" ∧
          c_Zone cfg' = (if bool_decide (c_Zone cfg = "") then zone else c_Zone cfg) ∧
          c_AdvertisedIP cfg' = (if bool_decide (c_AdvertisedIP cfg = "") then ip else c_AdvertisedIP cfg) ∧
          cfg = with_attributes cfg' (c_Zone cfg) (c_AdvertisedIP cfg)
    end).
Proof.
  unfold resolveNodeAttributes. destruct (_ && _) eqn:Hset.
  { intros [-> ->]. left. apply andb_true_iff in Hset as [Hz Hi].
    rewrite negb_true_iff, bool_decide_eq_false in Hz, Hi. done. }
  unfold orfail. intros (r & tr' & -> & Hx)%exec_hcall. right. exists r.
  destruct r as [node|e]; [|by destruct Hx as [-> ->]]. cbn zeta in Hx |- *.
  set (zone := trim_space _) in *. set (ip := firstNonEmpty _) in *.
  assert (∀ z i, cfg = with_attributes (with_attributes cfg z i) (c_Zone cfg) (c_AdvertisedIP cfg)) as Hwith.
  { intros z i. by destruct cfg. }
  set (zone' := if bool_decide (c_Zone cfg = "") then zone else c_Zone cfg) in *.
  set (ip' := if bool_decide (c_AdvertisedIP cfg = "") then ip else c_AdvertisedIP cfg) in *.
  assert (zone' ≠ "" ↔ c_Zone cfg ≠ "" ∨ zone ≠ "") as <-
    by (clear; unfold zone'; destruct (bool_decide_reflect (c_Zone cfg = "")) as [->|?]; tauto).
  assert (ip' ≠ "" ↔ c_AdvertisedIP cfg ≠ "" ∨ ip ≠ "") as <-
    by (clear; unfold ip'; destruct (bool_decide_reflect (c_AdvertisedIP cfg = "")) as [->|?]; tauto).
  change (exec (if bool_decide (zone' = "") then mret (Err (ErrText (EnvZone +:+
      " must be specified or node " +:+ c_Node cfg +:+ " must have label " +:+ c_ZoneLabel cfg)))
    else if bool_decide (ip' = "") then mret (Err (ErrText (EnvAdvertisedIP +:+
      " must be specified, or node " +:+ c_Node cfg +:+ " must have label " +:+
      c_AdvertisedIPLabel cfg +:+ " or an IP address in status.addresses")))
    else mret (Ok (with_attributes cfg zone' ip'))) tr' a) in Hx.
  do 2 (case_bool_decide; [destruct Hx as [-> ->]; split; [done|]; split; [by split; [|tauto]|done]|]).
  destruct Hx as [-> ->]. split; [done|]. split; [done|]. intros cfg' [= <-].
  split_and!; (done || apply Hwith).
Qed.
End theorems.

Section witnesses.
#[local] Existing Instance ascii_tables.
#[local] Existing Instance status_errors.

(** A Thunder API that keeps zones, and a node in the Kubernetes zone "a". *)
Definition zone_server : handler host_sig (list Zone) := λ e zones,
  match e return host_resp e * list Zone with
  | ListZones => (Ok zones, zones)
  | CreateZone name => (Err (ErrAPI 409 "exists"), zones ++ [MkZone "z7" name; MkZone "z2" name])
  | ReadNode _ =>
      (Ok {| ni_Labels := {[ DefaultZoneLabel := " a " ]}; ni_InternalIP := "10.0.0.1";
             ni_ExternalIP := "" |}, zones)
  | RunShell _ _ | StartPlugin _ _ => (Ok tt, zones)
  | FileExists _ | Wait _ | Cancelled => (true, zones)
  | CombinedOutput _ _ => (("", None), zones)
  | CreateServerEnrollment _ => (Err ErrNotFound, zones)
  | LibthunderEnsure _ => (Err ErrNotFound, zones)
  end.

Lemma ensureThunderZone_sound_witness :
  (run zone_server (ensureThunderZone "a") []).1 = Ok "z2" ∧
  zone_found "a" (trace zone_server (ensureThunderZone "a") []) "z2".
Proof.
  assert ((run zone_server (ensureThunderZone "a") []).1 = Ok "z2") as Hok by (vm_compute; reflexivity).
  split; [exact Hok|].
  exact (proj2 (ensureThunderZone_sound "a" _ _ (run_exec zone_server (ensureThunderZone "a") [])) _ Hok).
Defined.

Lemma resolveNodeAttributes_spec_witness :
  match (run zone_server (resolveNodeAttributes sample_config) []).1 with
  | Ok cfg => (c_Zone cfg, c_AdvertisedIP cfg) = ("a", "10.0.0.1")
  | Err _ => False
  end ∧
  ∃ r, trace zone_server (resolveNodeAttributes sample_config) [] = [hev (ReadNode "node-1") r].
Proof.
  split; [vm_compute; reflexivity|].
  destruct (resolveNodeAttributes_spec sample_config _ _
    (run_exec zone_server (resolveNodeAttributes sample_config) [])) as [(Hnil & _)|(r & Hr & _)].
  - exfalso. apply (f_equal length) in Hnil. vm_compute in Hnil. congruence.
  - exists r. exact Hr.
Defined.
End witnesses.
