(* ===== verification/Reconcile.v ===== *)
(** * Daemon: the reconcile loop

    internal/daemon/reconcile.go and status.go: one node driven towards being
    enrolled with Thunder in its zone and serving the kubelet plugin, by passes
    that may fail anywhere and are repeated with backoff.  The reconciler's
    fields are a record threaded through the pass; lines logged are not
    modelled, the status they are deduplicated by is. *)

From S2P Require Import Prelude GoStrings Driver DaemonConfig GoPath Shell Host Nvidia NodeAttributes.

Open Scope Z_scope.

Definition ThunderReconcileInterval : Z := 10 * 1000000000.
Definition ThunderReconcileMaxBackoff : Z := 5 * 60 * 1000000000.
Definition unhealthyReconcileThreshold : Z := 3.
Definition restartRepairLimit : Z := 2.
Definition transitionalReconcileThreshold : Z := 30.
Definition transitionalServiceStates : list string := ["activating"; "deactivating"; "reloading"].
Definition thunderdTransientEnv : string := "THUNDERD_TRANSIENT=1".

(* -------------------------------------------------------------------- *)
(** ** Status *)

Definition enrolled (s : thunderStatus) : bool := ts_AuthTokenConfigured s.

Definition nodeHealthy (s : thunderStatus) : bool :=
  if ts_Healthy s then true else ts_LocalAPIHealthy s && enrolled s.

Definition isTransitional (s : thunderStatus) : bool :=
  bool_decide (trim_space (ts_Active s) ∈ transitionalServiceStates).

Record statusKey := StatusKey {
  k_failure : string;
  k_healthy : bool;
  k_localAPI : bool;
  k_enrolled : bool;
  k_active : string;
  k_subState : string;
  k_warnings : Z;
  k_diagnostics : Z
}.
#[global] Instance statusKey_eq_dec : EqDecision statusKey.
Proof. solve_decision. Defined.
Definition zero_key : statusKey := StatusKey "" false false false "" "" 0 0.

Definition key (s : thunderStatus) : statusKey :=
  {| k_failure := "";
     k_healthy := nodeHealthy s;
     k_localAPI := ts_LocalAPIHealthy s;
     k_enrolled := enrolled s;
     k_active := ts_Active s;
     k_subState := ts_SubState s;
     k_warnings := Z.of_nat (length (ts_Warnings s));
     k_diagnostics := Z.of_nat (length (ts_Diagnostics s)) |}.

Definition unreadableStatusKey (e : error) : statusKey :=
  StatusKey (error_text e) false false false "" "" 0 0.

Definition orUnknown (value : string) : string :=
  let trimmed := trim_space value in
  if bool_decide (trimmed = "") then "unknown" else trimmed.

Definition summary (s : thunderStatus) : string :=
  let state := if nodeHealthy s then "healthy" else "unhealthy" in
  let localAPI :=
    if ts_LocalAPIHealthy s then "ok"
    else let message := trim_space (ts_LocalAPIError s) in
         if bool_decide (message = "") then "down" else "down(" +:+ message +:+ ")" in
  let authToken := if enrolled s then "configured" else "missing" in
  "thunderd " +:+ state +:+ ": service=" +:+ orUnknown (ts_Service s) +:+ "(" +:+
    orUnknown (ts_Active s) +:+ "/" +:+ orUnknown (ts_SubState s) +:+ ") localApi=" +:+ localAPI +:+
    " authToken=" +:+ authToken +:+
    (if bool_decide (ts_Warnings s = []) then ""
     else " warnings=" +:+ itoa (Z.of_nat (length (ts_Warnings s)))) +:+
    (if bool_decide (length (ts_Diagnostics s) = 0%nat) then ""
     else " diagnostics=" +:+ itoa (Z.of_nat (length (ts_Diagnostics s)))).

Definition status_call : host_ev := CombinedOutput "thunder" ["status"; "--json"].

(** What a run of [thunder status --json] amounts to: the output decides, the
    command's own error only explains an output that is no status. *)
Definition decode_status `{HostLibs} (reply : string * option error) : result thunderStatus :=
  let '(output, commandErr) := reply in
  match json_status output with
  | Ok status => Ok status
  | Err e =>
      match commandErr with
      | Some ce => Err (ErrWrap "run thunder status --json: " ce (": " +:+ trim_space output))
      | None => Err (wrap "decode thunder status --json" e)
      end
  end.

Definition getThunderStatus `{HostLibs} : prog host_sig (result thunderStatus) :=
  reply ← hcall status_call; mret (decode_status reply).

(* -------------------------------------------------------------------- *)
(** ** The reconciler *)

Record reconciler := {
  r_cfg : Config;
  r_resolved : Config;
  r_zoneID : string;
  r_pluginStarted : bool;
  r_everHealthy : bool;
  r_unhealthy : Z;
  r_transitional : Z;
  r_passes : Z;
  r_libthunderPath : string;
  r_loggedStatus : statusKey;
  r_restarts : Z
}.

Definition with_counters (r : reconciler) (everHealthy : bool) (unhealthy transitional restarts : Z) :=
  {| r_cfg := r_cfg r; r_resolved := r_resolved r; r_zoneID := r_zoneID r;
     r_pluginStarted := r_pluginStarted r; r_everHealthy := everHealthy; r_unhealthy := unhealthy;
     r_transitional := transitional; r_passes := r_passes r; r_libthunderPath := r_libthunderPath r;
     r_loggedStatus := r_loggedStatus r; r_restarts := restarts |}.
Definition with_resolved (r : reconciler) (cfg : Config) (zoneID : string) (passes : Z) :=
  {| r_cfg := r_cfg r; r_resolved := cfg; r_zoneID := zoneID;
     r_pluginStarted := r_pluginStarted r; r_everHealthy := r_everHealthy r;
     r_unhealthy := r_unhealthy r; r_transitional := r_transitional r; r_passes := passes;
     r_libthunderPath := r_libthunderPath r; r_loggedStatus := r_loggedStatus r;
     r_restarts := r_restarts r |}.
Definition with_observed (r : reconciler) (started : bool) (path : string) (logged : statusKey) :=
  {| r_cfg := r_cfg r; r_resolved := r_resolved r; r_zoneID := r_zoneID r;
     r_pluginStarted := started; r_everHealthy := r_everHealthy r; r_unhealthy := r_unhealthy r;
     r_transitional := r_transitional r; r_passes := r_passes r; r_libthunderPath := path;
     r_loggedStatus := logged; r_restarts := r_restarts r |}.

Definition zero_config : Config :=
  {| c_Node := ""; c_Zone := ""; c_AdvertisedIP := ""; c_MinDriverVersion := ""; c_PortRange := "";
     c_ThunderAPIURL := ""; c_ThunderAPIToken := ""; c_HostRoot := ""; c_LibCUDAPath := "";
     c_LibNVMLPath := ""; c_NVSMIPath := ""; c_ZoneLabel := ""; c_AdvertisedIPLabel := "";
     c_HostTargetPID := ""; c_DRAEnabled := false; c_DRADriverName := ""; c_CDISpecDir := "";
     c_ThunderClientNS := ""; c_KubeletPluginDir := ""; c_KubeletRegistrarDir := "";
     c_ThunderInstallURL := ""; c_ThunderTelemetryURL := ""; c_ArtifactBaseURL := "";
     c_LibthunderURL := ""; c_LibthunderSHA256 := ""; c_CABundlePath := ""; c_ThunderdLogUnit := "" |}.

(** The reconciler [run] starts with. *)
Definition initial (cfg : Config) : reconciler :=
  {| r_cfg := cfg; r_resolved := zero_config; r_zoneID := ""; r_pluginStarted := false;
     r_everHealthy := false; r_unhealthy := 0; r_transitional := 0; r_passes := 0;
     r_libthunderPath := ""; r_loggedStatus := zero_key; r_restarts := 0 |}.

Definition logStatus (r : reconciler) (status : result thunderStatus) : reconciler :=
  let k := match status with Ok s => key s | Err e => unreadableStatusKey e end in
  if bool_decide (k = r_loggedStatus r) then r
  else with_observed r (r_pluginStarted r) (r_libthunderPath r) k.

Definition restart_command (cfg : Config) : string :=
  join [thunderdTransientEnv; "thunder"; "up"; "--ip"; shellQuote (c_AdvertisedIP cfg);
        "--zone"; shellQuote (c_Zone cfg); "--node-name"; shellQuote (c_Node cfg)] " ".

Definition restart (cfg : Config) : prog host_sig (result unit) :=
  let? _ := hcall (RunShell "thunder up" (restart_command cfg)) or wrap "run thunder up" in
  mret (Ok tt).

Definition withTransientThunderd (command : string) : result string :=
  let sudo := "| sudo " in
  match cut command sudo with
  | None => Err (ErrText ("thunder node setup command is not in the expected form, so " +:+
                          thunderdTransientEnv +:+ " could not be added to it"))
  | Some (before, after) => Ok (before +:+ sudo +:+ thunderdTransientEnv +:+ " " +:+ after)
  end.

Section reconcile.
Context `{UnicodeTables, LibErrors, HostLibs}.

Definition enrollment_command (cfg : Config) (token : ServerEnrollment) : result string :=
  withTransientThunderd (ServerEnrollmentCommand
    {| cr_EnrollmentToken := en_Token token;
       cr_IP := c_AdvertisedIP cfg;
       cr_Zone := c_Zone cfg;
       cr_PortRange := c_PortRange cfg;
       cr_ServerName := c_Node cfg |}).

Definition enroll (r : reconciler) (cfg : Config) : prog host_sig (result unit) :=
  let? _ := nvidiaChecks cfg or id in
  let? token := hcall (CreateServerEnrollment (r_zoneID r)) or wrap "create thunder node enrollment" in
  let! command := enrollment_command cfg token or id in
  let? _ := hcall (RunShell "thunder installer" command) or wrap "run thunder node setup" in
  mret (Ok tt).

(** The last part of [ensureEnrolled]: a reinstall re-establishes what the
    cheap repair could not. *)
Definition reinstall (r : reconciler) (cfg : Config) : prog host_sig (reconciler * result unit) :=
  enrolled ← enroll r cfg;
  match enrolled with
  | Err e => mret (r, Err e)
  | Ok _ => mret (with_counters r (r_everHealthy r) 0 0 0, Ok tt)
  end.

(** [statusErr == nil && p(status)]. *)
Definition holds (p : thunderStatus → bool) (status : result thunderStatus) : bool :=
  match status with Ok s => p s | Err _ => false end.

(** The repair of a node that is due for one: a restart where that can do,
    the installer otherwise. *)
Definition repair (r : reconciler) (cfg : Config) (status : result thunderStatus)
    : prog host_sig (reconciler * result unit) :=
  if holds enrolled status && (r_restarts r <? restartRepairLimit) then
    let r := with_counters r (r_everHealthy r) (r_unhealthy r) (r_transitional r)
               (int64 (r_restarts r + 1)) in
    restarted ← restart cfg;
    match restarted with
    | Err _ => reinstall r cfg
    | Ok _ => mret (with_counters r (r_everHealthy r) 0 0 (r_restarts r), Ok tt)
    end
  else reinstall r cfg.

Definition ensureEnrolled (r : reconciler) (cfg : Config) : prog host_sig (reconciler * result unit) :=
  status ← getThunderStatus;
  let r := logStatus r status in
  if holds nodeHealthy status then mret (with_counters r true 0 0 0, Ok tt)
  else if holds isTransitional status && (r_transitional r <? transitionalReconcileThreshold) then
    mret (with_counters r (r_everHealthy r) (r_unhealthy r) (int64 (r_transitional r + 1))
            (r_restarts r), Ok tt)
  else
    let r := with_counters r (r_everHealthy r) (int64 (r_unhealthy r + 1)) (r_transitional r)
               (r_restarts r) in
    let threshold := if r_everHealthy r then unhealthyReconcileThreshold else 1 in
    if r_unhealthy r <? threshold then mret (r, Ok tt)
    else repair r cfg status.

Definition libthunder_cache (cfg : Config) : LibthunderCache :=
  {| lc_Dir := c_KubeletPluginDir cfg;
     lc_InstallURL := c_ThunderInstallURL cfg;
     lc_URL := c_LibthunderURL cfg;
     lc_SHA256 := c_LibthunderSHA256 cfg;
     lc_ArtifactBaseURL := c_ArtifactBaseURL cfg |}.

Definition ensureLibthunder (r : reconciler) (cfg : Config) : prog host_sig reconciler :=
  if negb (c_DRAEnabled cfg) then mret r
  else
    path ← hcall (LibthunderEnsure (libthunder_cache cfg));
    match path with
    | Err _ => mret r
    | Ok path =>
        if bool_decide (path = r_libthunderPath r) then mret r
        else mret (with_observed r (r_pluginStarted r) path (r_loggedStatus r))
    end.

Definition ensurePlugin (r : reconciler) (cfg : Config) : prog host_sig (reconciler * result unit) :=
  if r_pluginStarted r then mret (r, Ok tt)
  else
    started ← hcall (StartPlugin cfg (r_zoneID r));
    match started with
    | Err e => mret (r, Err e)
    | Ok _ => mret (with_observed r true (r_libthunderPath r) (r_loggedStatus r), Ok tt)
    end.

(** The pass once the zone is known. *)
Definition reconcile_node (r : reconciler) (cfg : Config) : prog host_sig (reconciler * result unit) :=
  '(r, enrolled) ← ensureEnrolled r cfg;
  match enrolled with
  | Err e => mret (r, Err e)
  | Ok _ =>
      r ← ensureLibthunder r cfg;
      ensurePlugin r cfg
  end.

Definition reconcile (r : reconciler) : prog host_sig (reconciler * result unit) :=
  resolved ← resolveNodeAttributes (r_cfg r);
  match resolved with
  | Err e => mret (r, Err e)
  | Ok cfg =>
      let zoneID := if bool_decide (c_Zone (r_resolved r) = c_Zone cfg) then r_zoneID r else "" in
      let r := with_resolved r cfg zoneID (int64 (r_passes r + 1)) in
      if bool_decide (r_zoneID r = "") then
        zone ← ensureThunderZone (c_Zone cfg);
        match zone with
        | Err e => mret (r, Err e)
        | Ok zoneID => reconcile_node (with_resolved r cfg zoneID (r_passes r)) cfg
        end
      else reconcile_node r cfg
  end.

(** The doubling loop of [reconcileBackoff]. *)
Fixpoint double_delay (delay max : Z) (times : nat) : Z :=
  match times with
  | O => delay
  | S times => if max <=? delay then delay else double_delay (int64 (delay * 2)) max times
  end.
Definition reconcileBackoff (base max failures : Z) : Z :=
  let delay := double_delay base max (Z.to_nat (failures - 1)) in
  if max <? delay then max else delay.

(** The loop, for at most [n] passes; [None] when it is still running after
    them.  It returns the context's error. *)
Fixpoint loop (r : reconciler) (interval maxBackoff delay failures : Z) (n : nat)
    : prog host_sig (option unit) :=
  match n with
  | O => mret None
  | S n =>
      cancelled ← hcall (Wait delay);
      if (cancelled : bool) then mret (Some tt)
      else
        '(r, res) ← reconcile r;
        match res with
        | Err _ =>
            cancelled ← hcall Cancelled;
            if (cancelled : bool) then mret (Some tt)
            else
              let failures := int64 (failures + 1) in
              loop r interval maxBackoff (reconcileBackoff interval maxBackoff failures) failures n
        | Ok _ => loop r interval maxBackoff interval 0 n
        end
  end.
End reconcile.
