(* ===== verification/ReconcileSpec.v ===== *)
(** * Daemon: what the reconcile loop promises

    Properties of Reconcile.v: the repair state machine the passes implement,
    what a pass may do to the node and when, that a broken node is repaired
    within a bounded number of passes and a healthy one left alone, that the
    plugin is started once, and that the loop is passes with waits between
    them. *)

From S2P Require Import Prelude GoStrings Driver DaemonConfig GoPath Shell Host Nvidia NodeAttributes.
From S2P Require Import Reconcile.

Open Scope Z_scope.
Implicit Types (pre tr : list (event host_sig)) (r : reconciler).

(* -------------------------------------------------------------------- *)
(** ** The repair machine *)

(** What the repair decisions are made on. *)
Record counters := Counters {
  n_everHealthy : bool;
  n_unhealthy : Z;
  n_transitional : Z;
  n_restarts : Z
}.
Definition counters_of r : counters :=
  Counters (r_everHealthy r) (r_unhealthy r) (r_transitional r) (r_restarts r).

(** What a status shows: nothing, or whether thunderd is healthy, enrolled
    and in transition. *)
Inductive observation := Unreadable | Observed (healthy enrolled transitional : bool).
Definition observe (status : result thunderStatus) : observation :=
  match status with
  | Ok s => Observed (nodeHealthy s) (enrolled s) (isTransitional s)
  | Err _ => Unreadable
  end.
Definition o_healthy (o : observation) : bool :=
  match o with Observed h _ _ => h | Unreadable => false end.
Definition o_enrolled (o : observation) : bool :=
  match o with Observed _ e _ => e | Unreadable => false end.
Definition o_transitional (o : observation) : bool :=
  match o with Observed _ _ t => t | Unreadable => false end.

(** A reinstall may follow a restart that failed in the same check. *)
Inductive action := LeaveAlone | Settle | Grace | Restart | Reinstall (restart_failed repaired : bool).

Definition settling (c : counters) (o : observation) : Prop :=
  o_transitional o = true ∧ n_transitional c < 30.
(** Enough checks failed for a repair: three in a row once the node has been
    healthy, one before. *)
Definition due (c : counters) : Prop :=
  (if n_everHealthy c then 3 else 1) ≤ n_unhealthy c + 1.
Definition restartable (c : counters) (o : observation) : Prop :=
  o_enrolled o = true ∧ n_restarts c < 2.

(** One check of a node. *)
Inductive repair_step (c : counters) (o : observation) : action → counters → Prop :=
  | step_healthy : o_healthy o = true →
      repair_step c o LeaveAlone (Counters true 0 0 0)
  | step_settle : o_healthy o = false → settling c o →
      repair_step c o Settle
        (Counters (n_everHealthy c) (n_unhealthy c) (n_transitional c + 1) (n_restarts c))
  | step_grace : o_healthy o = false → ¬ settling c o → ¬ due c →
      repair_step c o Grace
        (Counters (n_everHealthy c) (n_unhealthy c + 1) (n_transitional c) (n_restarts c))
  | step_restart : o_healthy o = false → ¬ settling c o → due c → restartable c o →
      repair_step c o Restart (Counters (n_everHealthy c) 0 0 (n_restarts c + 1))
  | step_reinstall failed (repaired : bool) : o_healthy o = false → ¬ settling c o → due c →
      (failed = true ↔ restartable c o) →
      repair_step c o (Reinstall failed repaired)
        (if repaired then Counters (n_everHealthy c) 0 0 0
         else Counters (n_everHealthy c) (n_unhealthy c + 1) (n_transitional c)
                (n_restarts c + if failed then 1 else 0)).

(** The counters a run of the daemon can have. *)
Definition counters_ok (passes : Z) (c : counters) : Prop :=
  0 ≤ n_unhealthy c ≤ passes ∧ 0 ≤ n_transitional c ≤ 30 ∧ 0 ≤ n_restarts c ≤ 2.

(** How far a node that is not healthy is from its next repair, and from its
    next reinstall. *)
Definition waiting (c : counters) : Z :=
  (30 - n_transitional c) + Z.max 0 ((if n_everHealthy c then 2 else 0) - n_unhealthy c).
Definition until_reinstall (c : counters) : Z := (2 - n_restarts c) * 33 + waiting c.

(** Every call of a trace is of a kind. *)
Definition only (P : host_ev → Prop) tr : Prop :=
  Forall (λ x : event host_sig, P (evt_call x)) tr.

(** The calls before and after the check of a pass. *)
Definition prelim_call (e : host_ev) : Prop :=
  match e with ReadNode _ | ListZones | CreateZone _ => True | _ => False end.
Definition wrapup_call (e : host_ev) : Prop :=
  match e with LibthunderEnsure _ | StartPlugin _ _ => True | _ => False end.

Definition is_status (e : host_ev) : bool :=
  match e with
  | CombinedOutput name args => bool_decide (name = "thunder") && bool_decide (args = ["status"; "--json"])
  | _ => false
  end.

(** The pass read the status; it ran [thunder up]; it started on the
    installer, whose checks are the only ones to look for files. *)
Definition checked tr : bool := existsb (λ x : event host_sig, is_status (evt_call x)) tr.
Definition restart_attempt tr : Prop := ∃ command res, hev (RunShell "thunder up" command) res ∈ tr.
Definition install_attempt tr : Prop := ∃ path found, hev (FileExists path) found ∈ tr.

(** A plugin start that worked. *)
Definition started (x : event host_sig) : bool :=
  let 'Ev e res := x in
  match e return host_resp e → bool with StartPlugin _ _ => is_ok | _ => λ _, false end res.

Section spec.
Context `{UnicodeTables, LibErrors, HostLibs}.

(** A status read in this pass that was not a healthy one. *)
Definition unhealthy_read pre (p : result thunderStatus → Prop) : Prop :=
  ∃ reply, hev status_call reply ∈ pre ∧ holds nodeHealthy (decode_status reply) = false ∧
    p (decode_status reply).

(** The zone and the address of a node: as configured, or as the node object
    says. *)
Definition node_zone (cfg : Config) (node : NodeInfo) : string :=
  if bool_decide (c_Zone cfg = "") then trim_space (label (ni_Labels node) (c_ZoneLabel cfg)) else c_Zone cfg.
Definition node_address (cfg : Config) (node : NodeInfo) : string :=
  if bool_decide (c_AdvertisedIP cfg = "")
  then firstNonEmpty [label (ni_Labels node) (c_AdvertisedIPLabel cfg); NodeIP node] else c_AdvertisedIP cfg.

(** The configuration a pass works with: the daemon's own, with the zone and
    the address of the node object this pass read, if they were not
    configured. *)
Definition resolved_of r pre (cfg : Config) : Prop :=
  c_Zone cfg ≠ "" ∧ c_AdvertisedIP cfg ≠ "" ∧
  (cfg = r_cfg r ∨ ∃ node, hev (ReadNode (c_Node (r_cfg r))) (Ok node) ∈ pre ∧
     cfg = with_attributes (r_cfg r) (node_zone (r_cfg r) node) (node_address (r_cfg r) node)).

(** The Thunder zone it may use: the one kept for the same zone name, or one
    found in this pass. *)
Definition zone_of r (cfg : Config) pre (zoneID : string) : Prop :=
  zoneID ≠ "" ∧ (zoneID = r_zoneID r ∧ c_Zone (r_resolved r) = c_Zone cfg ∨
                 zone_found (c_Zone cfg) pre zoneID).

(** What a pass that starts in [r] may call, given what it called before. *)
Definition pass_may r pre (e : host_ev) : Prop :=
  match e with
  | ReadNode name => name = c_Node (r_cfg r) ∧ pre = []
  | ListZones => True
  | CreateZone name => ∃ pre' zones, pre = pre' ++ [hev ListZones (Ok zones)] ∧
      smallest_zone name zones = ""
  | CombinedOutput name args => CombinedOutput name args = status_call ∨
      name = c_NVSMIPath (r_cfg r) ∧ args ∈ nvidia_queries ∧ unhealthy_read pre (λ _, True)
  | FileExists _ => unhealthy_read pre (λ _, True)
  | CreateServerEnrollment zoneID => unhealthy_read pre (λ _, True) ∧ ∃ cfg, resolved_of r pre cfg ∧
      nvidia_ok cfg pre ∧ zone_of r cfg pre zoneID
  | RunShell label command => ∃ cfg, resolved_of r pre cfg ∧
      (label = "thunder up" ∧ command = restart_command cfg ∧
         unhealthy_read pre (λ st, holds enrolled st = true) ∨
       label = "thunder installer" ∧ unhealthy_read pre (λ _, True) ∧ nvidia_ok cfg pre ∧
         ∃ pre' zoneID token, pre = pre' ++ [hev (CreateServerEnrollment zoneID) (Ok token)] ∧
           zone_of r cfg pre zoneID ∧ enrollment_command cfg token = Ok command)
  | LibthunderEnsure cache => ∃ cfg, resolved_of r pre cfg ∧ c_DRAEnabled cfg = true ∧
      cache = libthunder_cache cfg
  | StartPlugin cfg zoneID => resolved_of r pre cfg ∧ r_pluginStarted r = false ∧ zone_of r cfg pre zoneID
  | Wait _ | Cancelled => False
  end.

(** Consecutive passes and what each called. *)
Inductive passes : reconciler → list (list (event host_sig)) → reconciler → Prop :=
  | passes_nil r : passes r [] r
  | passes_cons r tr r1 res trs r2 :
      exec (reconcile r) tr (r1, res) → passes r1 trs r2 → passes r (tr :: trs) r2.

(** The same, with whether each pass succeeded. *)
Inductive rounds : reconciler → list (list (event host_sig) * bool) → reconciler → Prop :=
  | rounds_nil r : rounds r [] r
  | rounds_cons r tr r1 res rs r2 :
      exec (reconcile r) tr (r1, res) → rounds r1 rs r2 → rounds r ((tr, is_ok res) :: rs) r2.

(** How many passes failed since the last that did not, the last pass first. *)
Fixpoint failures_in_a_row (oks : list bool) : Z :=
  match oks with false :: oks => 1 + failures_in_a_row oks | _ => 0 end.

(** The wait before the next pass: none before the first, the interval after
    a success, and twice as long with every failure in a row. *)
Definition delay_after (interval max : Z) (oks : list bool) : Z :=
  match oks with
  | [] => 0
  | true :: _ => interval
  | false :: _ => Z.min max (interval * 2 ^ (failures_in_a_row oks - 1))
  end.

(** All the loop does around some passes: it waits before each, and after one
    that failed it looks whether the context was cancelled. *)
Fixpoint timeline (interval max : Z) (before : list bool) (rs : list (list (event host_sig) * bool))
    : list (event host_sig) :=
  match rs with
  | [] => []
  | (tr, ok) :: rs =>
      hev (Wait (delay_after interval max before)) false :: tr ++
      (if ok then [] else [hev Cancelled false]) ++ timeline interval max (ok :: before) rs
  end.

(** How a loop that was given [n] passes ends: still running, after all of
    them; or because the context was cancelled, while it waited for the next
    one or when the last one had failed. *)
Definition ended (interval max : Z) (before : list bool) (rs : list (list (event host_sig) * bool))
    (n : nat) (tr : list (event host_sig)) (a : option unit) : Prop :=
  match a with
  | None => length rs = n ∧ tr = timeline interval max before rs
  | Some _ =>
      tr = timeline interval max before rs ++
        [hev (Wait (delay_after interval max (reverse rs.*2 ++ before))) true] ∨
      ∃ rs0 last, rs = rs0 ++ [(last, false)] ∧
        tr = timeline interval max before rs0 ++
          hev (Wait (delay_after interval max (reverse rs0.*2 ++ before))) false :: last ++
          [hev Cancelled true]
  end.

(** No status any of them read was a healthy one. *)
Definition never_healthy (trs : list (list (event host_sig))) : Prop :=
  ∀ tr reply, tr ∈ trs → hev status_call reply ∈ tr →
    holds nodeHealthy (decode_status reply) = false.

(** The calls each action stands for, after the status was read. *)
Definition did (cfg : Config) (zoneID : string) (a : action) (tr : list (event host_sig)) : Prop :=
  match a with
  | LeaveAlone | Settle | Grace => tr = []
  | Restart => tr = [hev (RunShell "thunder up" (restart_command cfg)) (Ok tt)]
  | Reinstall failed repaired => ∃ tr1 tr2 res r,
      tr = tr1 ++ tr2 ∧ r_zoneID r = zoneID ∧ exec (enroll r cfg) tr2 res ∧ is_ok res = repaired ∧
      if failed then ∃ e, tr1 = [hev (RunShell "thunder up" (restart_command cfg)) (Err e)] else tr1 = []
  end.
End spec.

(* -------------------------------------------------------------------- *)
(** ** Lemmas *)

Section lemmas.
Context `{UnicodeTables, LibErrors, HostLibs}.

Lemma logStatus_counters r status :
  counters_of (logStatus r status) = counters_of r ∧ r_zoneID (logStatus r status) = r_zoneID r ∧
  r_pluginStarted (logStatus r status) = r_pluginStarted r ∧ r_cfg (logStatus r status) = r_cfg r ∧
  r_resolved (logStatus r status) = r_resolved r ∧ r_passes (logStatus r status) = r_passes r.
Proof. unfold logStatus. by case_bool_decide. Qed.

(** Only the counters differ. *)
Definition same_but_counters r r' : Prop :=
  r' = with_counters r (r_everHealthy r') (r_unhealthy r') (r_transitional r') (r_restarts r').

(** What the rest of a pass depends on is the same. *)
Definition same_view r r' : Prop :=
  r_zoneID r' = r_zoneID r ∧ r_pluginStarted r' = r_pluginStarted r ∧ r_cfg r' = r_cfg r ∧
  r_resolved r' = r_resolved r ∧ r_passes r' = r_passes r.

Lemma same_counters_view r r' : same_but_counters r r' → same_view r r'.
Proof. unfold same_but_counters. intros ->. by split_and!. Qed.
Lemma logStatus_view r status : same_view r (logStatus r status).
Proof. by destruct (logStatus_counters r status) as (_&?&?&?&?&?). Qed.
Lemma same_trans r1 r2 r3 : same_but_counters r1 r2 → same_but_counters r2 r3 → same_but_counters r1 r3.
Proof. unfold same_but_counters. intros H12 H23. etrans; [exact H23|]. by rewrite H12 at 1. Qed.
Lemma same_refl r : same_but_counters r r.
Proof. by destruct r. Qed.
Lemma same_view_trans r1 r2 r3 : same_view r1 r2 → same_view r2 r3 → same_view r1 r3.
Proof. unfold same_view. intros (->&->&->&->&->) (->&->&->&->&->). by split_and!. Qed.

Lemma reinstall_exec r cfg tr r' res : exec (reinstall r cfg) tr (r', res) →
  same_but_counters r r' ∧ ∃ res0, exec (enroll r cfg) tr res0 ∧ is_ok res0 = is_ok res ∧
    counters_of r' = if is_ok res then Counters (r_everHealthy r) 0 0 0 else counters_of r.
Proof.
  unfold reinstall. intros (tr1 & a & tr2 & -> & Hen & Hx)%exec_bind.
  destruct a as [[]|e]; destruct Hx as [-> [= -> ->]]; rewrite app_nil_r;
    (split; [by first [done|apply same_refl]|]); by eexists.
Qed.

Lemma observe_holds st :
  o_healthy (observe st) = holds nodeHealthy st ∧ o_enrolled (observe st) = holds enrolled st ∧
  o_transitional (observe st) = holds isTransitional st.
Proof. by destruct st. Qed.

Lemma int64_succ z b : 0 ≤ z ∧ z ≤ b → b < max_int64 → int64 (z + 1) = z + 1.
Proof. intros. apply int64_id. unfold in_int64, min_int64, max_int64 in *. lia. Qed.

(** A restart or the installer: [r] has this check's failure counted. *)
Lemma repair_exec r cfg st tr r' res :
  exec (repair r cfg st) tr (r', res) → 0 ≤ r_restarts r ≤ 2 →
  same_but_counters r r' ∧ let tried := holds enrolled st && (r_restarts r <? 2) in
  ∃ a, did cfg (r_zoneID r) a tr ∧ (res = Ok tt ↔ ∀ failed, a ≠ Reinstall failed false) ∧
  match a with
  | Restart => tried = true ∧
      counters_of r' = Counters (r_everHealthy r) 0 0 (r_restarts r + 1)
  | Reinstall failed repaired => failed = tried ∧ counters_of r' =
      if repaired then Counters (r_everHealthy r) 0 0 0
      else Counters (r_everHealthy r) (r_unhealthy r) (r_transitional r)
             (r_restarts r + if tried then 1 else 0)
  | _ => False
  end.
Proof.
  unfold repair. change restartRepairLimit with 2. intros Hx Hr. cbn zeta.
  assert (∀ r1 tr1 tr2, exec (reinstall r1 cfg) tr2 (r', res) → r_zoneID r1 = r_zoneID r →
    (if holds enrolled st && (r_restarts r <? 2)
     then ∃ e, tr1 = [hev (RunShell "thunder up" (restart_command cfg)) (Err e)] else tr1 = []) →
    counters_of r1 = Counters (r_everHealthy r) (r_unhealthy r) (r_transitional r)
      (r_restarts r + if holds enrolled st && (r_restarts r <? 2) then 1 else 0) →
    same_but_counters r r1 → tr = tr1 ++ tr2 →
    same_but_counters r r' ∧ ∃ a, did cfg (r_zoneID r) a tr ∧
      (res = Ok tt ↔ ∀ failed, a ≠ Reinstall failed false) ∧
      match a with
      | Restart => holds enrolled st && (r_restarts r <? 2) = true ∧
          counters_of r' = Counters (r_everHealthy r) 0 0 (r_restarts r + 1)
      | Reinstall failed repaired => failed = holds enrolled st && (r_restarts r <? 2) ∧ counters_of r' =
          if repaired then Counters (r_everHealthy r) 0 0 0
          else Counters (r_everHealthy r) (r_unhealthy r) (r_transitional r)
                 (r_restarts r + if holds enrolled st && (r_restarts r <? 2) then 1 else 0)
      | _ => False
      end) as Hinstall.
  { intros r1 tr1 tr2 (Hsame & res0 & Hen & Hok & Hcnt)%reinstall_exec Hz Htr1 Hc Hs ->.
    split; [by eapply same_trans|].
    exists (Reinstall (holds enrolled st && (r_restarts r <? 2)) (is_ok res)). split_and!.
    - exists tr1, tr2, res0, r1. by split_and!.
    - destruct res as [[]|e]; cbn; [by split; [intros _ ?|]|]. split; [done|]. intros Hne.
      by destruct (Hne (holds enrolled st && (r_restarts r <? 2))).
    - done.
    - rewrite Hcnt. destruct (is_ok res); [|done]. by injection Hc as ->. }
  destruct (holds enrolled st && (r_restarts r <? 2)) eqn:Htried.
  - rewrite (int64_succ _ 2) in Hx by done. unfold restart, orfail in Hx.
    apply exec_bind in Hx as (tr2 & a & tr3 & -> & (rr & ? & -> & Hrr)%exec_hcall & Hx).
    destruct rr as [[]|e]; destruct Hrr as [-> ->]; cbn [app] in Hx |- *.
    + destruct Hx as [-> [= -> ->]]. split; [done|]. by exists Restart.
    + eapply Hinstall; [exact Hx|done|by exists e|done..].
  - eapply (Hinstall r [] tr); [exact Hx|done|done| |apply same_refl|done].
    by rewrite Z.add_0_r.
Qed.

(** The detailed check implements the machine. *)
Lemma ensureEnrolled_step r cfg tr r' res passes :
  exec (ensureEnrolled r cfg) tr (r', res) → counters_ok passes (counters_of r) →
  passes < max_int64 →
  ∃ reply a tr1,
    tr = hev status_call reply :: tr1 ∧
    repair_step (counters_of r) (observe (decode_status reply)) a (counters_of r') ∧
    same_but_counters (logStatus r (decode_status reply)) r' ∧
    did cfg (r_zoneID r) a tr1 ∧ (res = Ok tt ↔ ∀ failed, a ≠ Reinstall failed false).
Proof.
  unfold ensureEnrolled, getThunderStatus, counters_ok. intros Hx (Hu & Ht & Hr) Hmax.
  apply exec_bind in Hx as (tr0 & status & tr1 & -> & (reply & ? & -> & [-> ->])%exec_hcall & Hx).
  cbn [app n_unhealthy n_transitional n_restarts counters_of] in *.
  enough (∃ a, repair_step (counters_of r) (observe (decode_status reply)) a (counters_of r') ∧
      same_but_counters (logStatus r (decode_status reply)) r' ∧
      did cfg (r_zoneID r) a tr1 ∧ (res = Ok tt ↔ ∀ failed, a ≠ Reinstall failed false))
    as (a & ? & ? & ? & ?) by (by exists reply, a, tr1).
  revert Hx. generalize (decode_status reply) as st. intros st Hx.
  pose proof (observe_holds st) as (Ho1 & Ho2 & Ho3).
  destruct (logStatus_counters r st) as (Hc & Hz & _).
  revert Hx. generalize dependent (logStatus r st). intros r1 Hc Hz.
  injection Hc as Hc1 Hc2 Hc3 Hc4. rewrite Hc1, Hc2, Hc3, Hc4. cbn zeta.
  destruct (holds nodeHealthy st) eqn:Hh.
  { intros [-> [= -> ->]]. exists LeaveAlone. split_and!; try done. by apply step_healthy. }
  unfold max_int64 in Hmax.
  destruct (_ && _) eqn:Hs.
  { intros [-> [= -> ->]]. apply andb_true_iff in Hs as [Hst Hlt%Z.ltb_lt].
    exists Settle. split_and!; try done.
    rewrite (int64_succ _ 30) by done. by apply step_settle; [rewrite Ho1|split; [rewrite Ho3|]]. }
  assert (¬ settling (counters_of r) (observe st)) as Hset.
  { intros [Hst Hlt]. rewrite Ho3 in Hst. rewrite Hst in Hs. by apply Z.ltb_ge, Z.le_ngt in Hs. }
  rewrite (int64_succ _ passes) by done. cbn [r_unhealthy r_everHealthy with_counters].
  destruct (Z.ltb_spec (r_unhealthy r + 1)
    (if r_everHealthy r then unhealthyReconcileThreshold else 1)) as [Hlt|Hge].
  { intros [-> [= -> ->]]. exists Grace. split_and!; try done.
    apply step_grace; [by rewrite Ho1|done|]. unfold due. cbn. by apply Z.lt_nge. }
  assert (due (counters_of r)) as Hdue by (unfold due; cbn; by destruct (r_everHealthy r)).
  intros (Hsame & a & Hdid & Hres & Ha)%repair_exec; [|done].
  exists a. cbn [r_zoneID with_counters] in Hdid.
  rewrite Hz in Hdid. split_and!; [|by eapply same_trans; [|exact Hsame]|done|done].
  cbn [r_everHealthy r_unhealthy r_transitional r_restarts with_counters] in Ha.
  assert (restartable (counters_of r) (observe st) ↔
    holds enrolled st && (r_restarts r <? 2) = true) as Hre.
  { unfold restartable. by rewrite Ho2, andb_true_iff, Z.ltb_lt. }
  destruct a as [| | | |failed repaired]; try done.
  - destruct Ha as [Htried ->]. by apply step_restart; [rewrite Ho1|..|apply Hre].
  - destruct Ha as [Hf ->]. rewrite <-Hf. apply step_reinstall; [by rewrite Ho1|done|done|].
    by rewrite Hf, Hre.
Qed.

Lemma wp_only {A} P (p : prog host_sig A) tr a :
  wp (S:=host_sig) (λ _ e, P e) [] p (λ _ _, True) → exec p tr a → only P tr.
Proof.
  intros Hwp Hx. destruct (wp_sound _ _ _ _ _ _ Hwp Hx) as [_ Hcalls].
  apply list.Forall_forall. intros [e r] (tr1 & tr2 & ->)%list_elem_of_split. by eapply Hcalls.
Qed.

Lemma resolveNodeAttributes_only cfg tr a : exec (resolveNodeAttributes cfg) tr a → only prelim_call tr.
Proof.
  apply wp_only. unfold resolveNodeAttributes. destruct (_ && _); [done|].
  unfold orfail. apply wp_hcall; [done|]. intros [node|e]; [|done].
  by repeat case_bool_decide.
Qed.

Lemma ensureThunderZone_exec name tr a : exec (ensureThunderZone name) tr a →
  only prelim_call tr ∧ ∀ id, a = Ok id → id ≠ "".
Proof.
  intros Hx. split.
  - revert Hx. apply wp_only, ensureThunderZone_wp_G; [|done]. by intros pre [].
  - assert (wp (S:=host_sig) (λ _ _, True) [] (ensureThunderZone name)
      (λ _ a, ∀ id, a = Ok id → id ≠ "")) as Hwp.
    { apply ensureThunderZone_wp_G; [done|]. intros pre r' Hf id Hid. by destruct (Hf id Hid). }
    by destruct (wp_sound _ _ _ _ _ _ Hwp Hx).
Qed.

(** The end of a pass. *)
Lemma wrapup_exec r cfg tr r' res :
  exec (r ← ensureLibthunder r cfg; ensurePlugin r cfg) tr (r', res) →
  only wrapup_call tr ∧ counters_of r' = counters_of r ∧ r_zoneID r' = r_zoneID r ∧
  r_pluginStarted r' = r_pluginStarted r || existsb started tr ∧
  (r_pluginStarted r = true → ∀ cfg z res, hev (StartPlugin cfg z) res ∉ tr) ∧
  length (filter (λ x, started x = true) tr) = (if existsb started tr then 1%nat else 0%nat) ∧
  ∀ cfg' z res, hev (StartPlugin cfg' z) res ∈ tr → cfg' = cfg ∧ z = r_zoneID r.
Proof.
  assert (∀ r1 tr1, exec (ensurePlugin r1 cfg) tr1 (r', res) →
    only wrapup_call tr1 ∧ counters_of r' = counters_of r1 ∧ r_zoneID r' = r_zoneID r1 ∧
    r_pluginStarted r' = r_pluginStarted r1 || existsb started tr1 ∧
    (r_pluginStarted r1 = true → ∀ cfg z res, hev (StartPlugin cfg z) res ∉ tr1) ∧
    length (filter (λ x, started x = true) tr1) = (if existsb started tr1 then 1%nat else 0%nat) ∧
    ∀ cfg' z res, hev (StartPlugin cfg' z) res ∈ tr1 → cfg' = cfg ∧ z = r_zoneID r1) as Hplugin.
  { intros r1 tr1. unfold ensurePlugin. destruct (r_pluginStarted r1) eqn:Hs.
    { intros [-> [= -> ->]]. rewrite Hs. split_and!; try done.
      - by constructor.
      - by intros; apply not_elem_of_nil.
      - by intros ??? ?%not_elem_of_nil. }
    intros (r2 & ? & -> & Hx)%exec_hcall.
    destruct r2 as [[]|e]; destruct Hx as [-> [= -> ->]]; cbn; (split_and!; try done).
    1, 3: by constructor.
    all: intros ??? Hin; apply list_elem_of_singleton in Hin; by inversion Hin. }
  unfold ensureLibthunder. destruct (negb _); [apply Hplugin|].
  intros (tr1 & r1 & tr2 & -> & (path & tr0 & -> & Hr1)%exec_hcall & Hx)%exec_bind.
  assert (tr0 = [] ∧ counters_of r1 = counters_of r ∧ r_zoneID r1 = r_zoneID r ∧
    r_pluginStarted r1 = r_pluginStarted r) as (-> & Hc & Hz & Hp).
  { destruct path; cbn -[bool_decide] in Hr1; [case_bool_decide|]; by destruct Hr1 as [-> ->]. }
  apply Hplugin in Hx as (Ho & -> & -> & -> & Hno & Hcount & Hin). rewrite Hc, Hz, Hp in *.
  cbn [app existsb started orb]. split_and!; try done.
  - by constructor.
  - intros Ht cfg' z res'. rewrite not_elem_of_cons. split; [done|by apply Hno].
  - intros cfg' z res' [?|?]%elem_of_cons; [done|by eapply Hin].
Qed.

(** The parts of a pass. *)
Lemma reconcile_exec r tr r' res : exec (reconcile r) tr (r', res) →
  (only prelim_call tr ∧ counters_of r' = counters_of r ∧
     r_pluginStarted r' = r_pluginStarted r ∧ is_ok res = false) ∨
  (∃ pre mid post cfg r1 r2 res2, tr = pre ++ mid ++ post ∧ only prelim_call pre ∧
     counters_of r1 = counters_of r ∧ r_pluginStarted r1 = r_pluginStarted r ∧ r_zoneID r1 ≠ "" ∧
     exec (ensureEnrolled r1 cfg) mid (r2, res2) ∧
     match res2 with
     | Err e => post = [] ∧ r' = r2 ∧ res = Err e
     | Ok _ => exec (r ← ensureLibthunder r2 cfg; ensurePlugin r cfg) post (r', res)
     end).
Proof.
  assert (∀ r0 cfg pre tr1, counters_of r0 = counters_of r → r_pluginStarted r0 = r_pluginStarted r →
    r_zoneID r0 ≠ "" → only prelim_call pre → exec (reconcile_node r0 cfg) tr1 (r', res) →
    ∃ pre' mid post cfg r1 r2 res2, pre ++ tr1 = pre' ++ mid ++ post ∧ only prelim_call pre' ∧
     counters_of r1 = counters_of r ∧ r_pluginStarted r1 = r_pluginStarted r ∧ r_zoneID r1 ≠ "" ∧
     exec (ensureEnrolled r1 cfg) mid (r2, res2) ∧
     match res2 with
     | Err e => post = [] ∧ r' = r2 ∧ res = Err e
     | Ok _ => exec (r ← ensureLibthunder r2 cfg; ensurePlugin r cfg) post (r', res)
     end) as Hnode.
  { intros r0 cfg pre tr1 Hc Hp Hz Hpre (mid & [r2 res2] & post & -> & Hen & Hx)%exec_bind.
    exists pre, mid, post, cfg, r0, r2, res2. split_and!; try done.
    destruct res2; [done|]. by destruct Hx as [-> [= -> ->]]. }
  unfold reconcile.
  intros (tr1 & a & tr2 & -> & Hpre%resolveNodeAttributes_only & Hx)%exec_bind.
  destruct a as [cfg|e].
  2:{ destruct Hx as [-> [= -> ->]]. left. by rewrite app_nil_r. }
  cbn zeta in Hx. generalize dependent (if bool_decide (c_Zone (r_resolved r) = c_Zone cfg) then r_zoneID r else "").
  intros z Hx. cbn [r_zoneID with_resolved] in Hx.
  case_bool_decide as Hz; [|right; by (eapply Hnode; [..|exact Hpre|exact Hx])].
  apply exec_bind in Hx as (tr3 & b & tr4 & -> & [Hzone Hid]%ensureThunderZone_exec & Hx).
  rewrite app_assoc. assert (only prelim_call (tr1 ++ tr3)) as Hboth by (by apply Forall_app).
  destruct b as [id|e].
  - right. eapply Hnode; [..|exact Hboth|exact Hx]; [done..|]. by apply Hid.
  - destruct Hx as [-> [= -> ->]]. left. by rewrite app_nil_r.
Qed.

Lemma prelim_unchecked tr : only prelim_call tr → checked tr = false.
Proof. induction 1 as [|[e r] tr Hx _ IH]; [done|]. by destruct e. Qed.

Lemma enroll_install r cfg tr res : exec (enroll r cfg) tr res → install_attempt tr.
Proof.
  intros (found & tr' & -> & _). eexists _, found. by left.
Qed.

(** One pass, as the machine sees it. *)
Lemma pass_step r tr r' res n : exec (reconcile r) tr (r', res) → counters_ok n (counters_of r) →
  n < max_int64 →
  (checked tr = false ∧ counters_of r' = counters_of r) ∨
  (∃ reply a, hev status_call reply ∈ tr ∧
     repair_step (counters_of r) (observe (decode_status reply)) a (counters_of r') ∧
     (a = Restart → restart_attempt tr) ∧ (∀ f b, a = Reinstall f b → install_attempt tr)).
Proof.
  intros [(Hpre & -> & _)|(pre & mid & post & cfg & r1 & r2 & res2 & -> & Hpre & Hc & _ & _ & Hen & Hpost)]%reconcile_exec
    Hok Hn.
  { left. split; [by apply prelim_unchecked|done]. }
  right. rewrite <-Hc in Hok |- *.
  apply (ensureEnrolled_step _ _ _ _ _ n) in Hen as (reply & a & tr1 & -> & Hstep & _ & Hdid & _); [|done..].
  exists reply, a. assert (counters_of r' = counters_of r2) as ->.
  { destruct res2; [|by destruct Hpost as (_ & -> & _)]. by apply wrapup_exec in Hpost as (_ & ? & _). }
  split_and!; [|done|..].
  - rewrite !elem_of_app. right. left. by left.
  - intros ->. cbn [did] in Hdid. subst tr1. exists (restart_command cfg), (Ok tt).
    rewrite !elem_of_app. right. left. right. by left.
  - intros failed b ->. destruct Hdid as (tr2 & tr3 & res3 & r3 & -> & _ & Hx%enroll_install & _).
    destruct Hx as (path & found & Hin). exists path, found. rewrite !elem_of_app, elem_of_cons, elem_of_app.
    by auto 6.
Qed.

Lemma step_counters_ok n c o a c' : repair_step c o a c' → counters_ok n c → counters_ok (n + 1) c'.
Proof.
  unfold counters_ok, settling, restartable. intros Hs (Hu & Ht & Hr).
  destruct Hs as [| | | |failed [] ? ? ? Hf]; unfold settling, restartable in *; cbn; try lia.
  destruct failed; [|lia]. destruct Hf as [Hf _]. specialize (Hf eq_refl). lia.
Qed.

Lemma passes_counters_ok r trs r' n : passes r trs r' → counters_ok n (counters_of r) →
  n + Z.of_nat (length trs) ≤ max_int64 → counters_ok (n + Z.of_nat (length trs)) (counters_of r').
Proof.
  intros Hp. revert n. induction Hp as [r|r tr r1 res trs r2 Hx _ IH]; intros n Hok; cbn [length].
  { by rewrite Z.add_0_r. }
  intros Hmax. replace (n + Z.of_nat (S (length trs))) with (n + 1 + Z.of_nat (length trs)) by lia.
  apply IH; [|lia].
  destruct (pass_step _ _ _ _ n Hx) as [[_ ->]|(reply & a & _ & Hs & _)]; [done|lia|..].
  - unfold counters_ok in *. lia.
  - by eapply step_counters_ok.
Qed.

Lemma initial_counters_ok cfg : counters_ok 0 (counters_of (initial cfg)).
Proof. unfold counters_ok. cbn. lia. Qed.

(** While the checks of unhealthy statuses do not do what [busy] says, a
    measure they lower bounds how many there are. *)
Lemma passes_measure (mu : counters → Z) (busy : action → Prop)
    (attempt : list (event host_sig) → Prop) r trs r' n :
  (∀ n c o a c', counters_ok n c → repair_step c o a c' → o_healthy o = false →
     busy a ∨ mu c' + 1 ≤ mu c) →
  (∀ tr a, (a = Restart → restart_attempt tr) → (∀ f b, a = Reinstall f b → install_attempt tr) →
     busy a → attempt tr) →
  passes r trs r' → counters_ok n (counters_of r) → n + Z.of_nat (length trs) ≤ max_int64 →
  never_healthy trs → (∀ tr, tr ∈ trs → ¬ attempt tr) →
  mu (counters_of r') + Z.of_nat (length (filter (λ tr, checked tr = true) trs)) ≤ mu (counters_of r).
Proof.
  intros Hmu Hbusy Hp. revert n. induction Hp as [r|r tr r1 res trs r2 Hx Hp IH]; intros n Hok Hmax Hh Hno.
  { cbn. lia. }
  cbn [length] in Hmax.
  assert (counters_ok (n + 1) (counters_of r1)) as Hok1.
  { apply (passes_counters_ok r [tr] r1 n); [by econstructor; [|constructor]|done|cbn; lia]. }
  assert (never_healthy trs) as Hh1 by (intros tr' reply ?; apply Hh; by right).
  specialize (IH (n + 1) Hok1 ltac:(lia) Hh1 ltac:(intros tr' ?; apply Hno; by right)).
  destruct (pass_step _ _ _ _ n Hx) as [[Hc Heq]|(reply & a & Hin & Hs & Hre & Hins)]; [done|lia|..].
  - rewrite filter_cons_False by congruence. by rewrite Heq in IH.
  - assert (mu (counters_of r1) + 1 ≤ mu (counters_of r)) as Hdec.
    { destruct (Hmu _ _ _ _ _ Hok Hs) as [Hb|?]; [|by destruct (Hno tr); [left|eapply Hbusy]|done].
      rewrite (proj1 (observe_holds _)). by apply (Hh tr); [left|]. }
    etrans; [|exact Hdec]. rewrite filter_cons. case_decide; cbn [length]; lia.
Qed.

Lemma waiting_step n c o a c' : counters_ok n c → repair_step c o a c' → o_healthy o = false →
  (a = Restart ∨ ∃ f b, a = Reinstall f b) ∨ waiting c' + 1 ≤ waiting c.
Proof.
  unfold counters_ok, waiting, settling, due. intros Hok Hs Hh.
  destruct Hs; try (by left; eauto); [congruence|right..];
    unfold settling, due, restartable in *; cbn in *; destruct (n_everHealthy c); lia.
Qed.

Lemma until_reinstall_step n c o a c' : counters_ok n c → repair_step c o a c' → o_healthy o = false →
  (∃ f b, a = Reinstall f b) ∨ until_reinstall c' + 1 ≤ until_reinstall c.
Proof.
  unfold counters_ok, until_reinstall, waiting, settling, due. intros Hok Hs Hh.
  destruct Hs; try (by left; eauto); [congruence|right..];
    unfold settling, due, restartable in *; cbn in *; destruct (n_everHealthy c); lia.
Qed.

Lemma measure_bounds n c : counters_ok n c → 0 ≤ waiting c ≤ 32 ∧ 0 ≤ until_reinstall c ≤ 98.
Proof. unfold counters_ok, until_reinstall, waiting. destruct (n_everHealthy c); lia. Qed.

(** What holds of a history holds of a longer one. *)
Lemma unhealthy_mono (p : result thunderStatus → Prop) pre pre' : pre ⊆ pre' →
  unhealthy_read pre p → unhealthy_read pre' (λ _, True).
Proof. intros Hpre (reply & Hin & Hh & _). exists reply. by split_and!; [apply Hpre|..]. Qed.

Lemma zone_of_mono r cfg pre pre' zoneID : pre ⊆ pre' →
  zone_of r cfg pre zoneID → zone_of r cfg pre' zoneID.
Proof.
  intros Hpre [Hz [?|(? & zones & Hin & ?)]]; (split; [done|]); [by left|right].
  split; [done|]. exists zones. split; [by apply Hpre|done].
Qed.

Lemma app_subseteq_l (pre x : list (event host_sig)) : pre ⊆ pre ++ x.
Proof. intros y ?. rewrite elem_of_app. by left. Qed.
Lemma subseteq_app_r (pre pre' x : list (event host_sig)) : pre ⊆ pre' → pre ⊆ pre' ++ x.
Proof. intros Hpre y ?. rewrite elem_of_app. left. by apply Hpre. Qed.
#[local] Hint Resolve app_subseteq_l subseteq_app_r : core.

Lemma resolved_mono r cfg pre pre' : pre ⊆ pre' → resolved_of r pre cfg → resolved_of r pre' cfg.
Proof.
  intros Hpre (Hz & Hi & [?|(node & Hin & ?)]); (split_and!; [done..|]); [by left|right].
  exists node. split; [by apply Hpre|done].
Qed.
Lemma resolved_attributes r cfg pre : resolved_of r pre cfg →
  ∃ zone ip, cfg = with_attributes (r_cfg r) zone ip.
Proof.
  intros (_ & _ & [->|(node & _ & ->)]); [|by eexists _, _].
  exists (c_Zone (r_cfg r)), (c_AdvertisedIP (r_cfg r)). by destruct (r_cfg r).
Qed.

Lemma check_call_may r cfg pre e : resolved_of r pre cfg → unhealthy_read pre (λ _, True) →
  check_call cfg e → pass_may r pre e.
Proof.
  intros (zone & ip & ->)%resolved_attributes Hun. destruct e; cbn; try done. intros [-> ?]. by right.
Qed.

(** The history only grew, so a step's continuation sees at least [pre]. *)
Definition grows {A} pre (Q : list (event host_sig) → A → Prop) : Prop :=
  ∀ pre' a, pre ⊆ pre' → Q pre' a.

Lemma enroll_wp r0 r cfg pre Q : resolved_of r0 pre cfg → unhealthy_read pre (λ _, True) →
  zone_of r0 cfg pre (r_zoneID r) → grows pre Q → wp (pass_may r0) pre (enroll r cfg) Q.
Proof.
  intros Hcfg Hun Hz HQ. unfold enroll, orfail at 1. apply wp_bind, nvidiaChecks_wp.
  { intros pre' e Hpre. apply check_call_may; [by eapply resolved_mono|by eapply unhealthy_mono]. }
  intros pre1 [[n v]|e] Hpre1 Hok; [|by apply HQ]. specialize (Hok n v eq_refl).
  assert (unhealthy_read pre1 (λ _, True)) as Hun1 by (by eapply unhealthy_mono).
  pose proof (zone_of_mono _ _ _ _ _ Hpre1 Hz) as Hz1. pose proof (resolved_mono _ _ _ _ Hpre1 Hcfg) as Hcfg1.
  unfold orfail at 1. apply wp_hcall; [split; [done|by exists cfg]|].
  intros [token|e]; [|apply HQ; by eauto].
  destruct (enrollment_command cfg token) as [command|e] eqn:Hcmd; [|apply HQ; by eauto].
  cbn [orfail_pure]. unfold orfail. apply wp_hcall.
  - exists cfg. split; [by eapply resolved_mono; [|exact Hcfg1]|].
    right. split_and!; [done|by eapply unhealthy_mono; [|exact Hun1]|..].
    + by eapply nvidia_ok_mono; [|exact Hok].
    + exists pre1, (r_zoneID r), token. split_and!; [done| |done].
      by eapply zone_of_mono; [|exact Hz1].
  - intros [[]|e]; apply HQ; by eauto.
Qed.

(** What the pass goes on with after the check. *)
Definition resumes r pre (Q : list (event host_sig) → reconciler * result unit → Prop) : Prop :=
  ∀ pre' r' res, pre ⊆ pre' → same_view r r' → Q pre' (r', res).

Lemma repair_wp r0 r cfg pre st Q : resolved_of r0 pre cfg →
  (∃ reply, hev status_call reply ∈ pre ∧ holds nodeHealthy (decode_status reply) = false ∧
    decode_status reply = st) →
  zone_of r0 cfg pre (r_zoneID r) → resumes r pre Q → wp (pass_may r0) pre (repair r cfg st) Q.
Proof.
  intros Hcfg (reply & Hin & Hh & Hst) Hz HQ.
  assert (∀ r' pre', pre ⊆ pre' → same_view r r' →
    wp (pass_may r0) pre' (reinstall r' cfg) Q) as Hre.
  { intros r' pre' Hpre Hsame. unfold reinstall. apply wp_bind, enroll_wp; [by eapply resolved_mono|..].
    - exists reply. by split_and!; [apply Hpre|..].
    - destruct Hsame as [-> _]. by eapply zone_of_mono.
    - intros pre'' [[]|e] Hpre'; (apply HQ; [etrans; [exact Hpre|exact Hpre']|exact Hsame]). }
  unfold repair. destruct (holds enrolled st) eqn:Hen; [|by apply Hre].
  destruct (_ <? _); [|by apply Hre]. cbn [andb]. unfold restart, orfail. rewrite wp_bind.
  apply wp_hcall.
  - exists cfg. split; [done|]. left. split_and!; [done..|]. exists reply.
    split_and!; [done..|]. by rewrite Hst.
  - intros [[]|e]; [by apply HQ; eauto|]. apply Hre; [by eauto|done].
Qed.

Lemma ensureEnrolled_wp r0 r cfg pre Q : resolved_of r0 pre cfg → zone_of r0 cfg pre (r_zoneID r) →
  resumes r pre Q → wp (pass_may r0) pre (ensureEnrolled r cfg) Q.
Proof.
  intros Hcfg Hz HQ. unfold ensureEnrolled, getThunderStatus. rewrite wp_bind.
  apply wp_hcall; [by left|]. intros reply. cbn -[holds logStatus repair with_counters].
  pose proof (logStatus_view r (decode_status reply)) as Hs1.
  revert Hs1. generalize (logStatus r (decode_status reply)). intros r1 Hs1.
  destruct (holds nodeHealthy _) eqn:Hh; [by apply HQ; eauto|].
  destruct (_ && _); [by apply HQ; eauto|].
  destruct (_ <? _); [by apply HQ; eauto|]. apply repair_wp; [by eapply resolved_mono; [|exact Hcfg]; eauto|..].
  - exists reply. split_and!; [|done..]. apply elem_of_last.
  - cbn. destruct Hs1 as [-> _]. by eapply zone_of_mono; [|exact Hz]; eauto.
  - intros pre' r' res Hpre Hs2. apply HQ; [|by eapply same_view_trans]. etrans; [|exact Hpre]. by eauto.
Qed.

(** The same, but for what else the node's services are seen to do. *)
Definition same_node r r' : Prop :=
  r_zoneID r' = r_zoneID r ∧ r_cfg r' = r_cfg r ∧ r_resolved r' = r_resolved r.
Definition keeps r pre (Q : list (event host_sig) → reconciler * result unit → Prop) : Prop :=
  ∀ pre' r' res, pre ⊆ pre' → same_node r r' → Q pre' (r', res).

Lemma reconcile_node_wp r0 r cfg pre Q : resolved_of r0 pre cfg → zone_of r0 cfg pre (r_zoneID r) →
  r_pluginStarted r = r_pluginStarted r0 → keeps r pre Q →
  wp (pass_may r0) pre (reconcile_node r cfg) Q.
Proof.
  intros Hcfg Hz Hp HQ. unfold reconcile_node. apply wp_bind, ensureEnrolled_wp; [done..|].
  intros pre1 r1 res1 Hpre1 (Hz1 & Hp1 & Hc1 & Hr1 & _).
  destruct res1 as [[]|e]; [|by apply HQ].
  assert (zone_of r0 cfg pre1 (r_zoneID r1)) as Hz' by (rewrite Hz1; by eapply zone_of_mono).
  rewrite <-Hp1 in Hp.
  assert (∀ r2 pre2, pre1 ⊆ pre2 → same_node r1 r2 → r_pluginStarted r2 = r_pluginStarted r1 →
    wp (pass_may r0) pre2 (ensurePlugin r2 cfg) Q) as Hplugin.
  { intros r2 pre2 Hpre2 (Hz2 & Hc2 & Hr2) Hp2.
    assert (∀ pre3 r3 res, pre2 ⊆ pre3 → same_node r2 r3 → Q pre3 (r3, res)) as HQ'.
    { intros pre3 r3 res Hpre3 (Hz3 & Hc3 & Hr3). apply HQ; [|split_and!; congruence].
      intros x Hx. by apply Hpre3, Hpre2, Hpre1. }
    unfold ensurePlugin. destruct (r_pluginStarted r2) eqn:Hs; [by apply HQ'|].
    apply wp_hcall.
    - split_and!; [|congruence|rewrite Hz2; by eapply zone_of_mono].
      eapply resolved_mono; [|exact Hcfg]. by etrans.
    - intros [|]; (apply HQ'; [by eauto|done]). }
  unfold ensureLibthunder. destruct (c_DRAEnabled cfg) eqn:Hdra; cbn [negb]; [|by apply Hplugin].
  rewrite wp_bind. apply wp_hcall; [exists cfg; split_and!; [by eapply resolved_mono|done..]|].
  intros [path|e]; [|by apply Hplugin; eauto].
  destruct (bool_decide (path = r_libthunderPath r1)); apply Hplugin; by eauto.
Qed.

(** A pass keeps its configuration, and the zone it ends with is one it may
    use for the configuration it resolved. *)
Definition pass_ends r (Q : list (event host_sig) → reconciler * result unit → Prop) : Prop :=
  ∀ pre r' res, r_cfg r' = r_cfg r →
    (r_zoneID r' = "" ∨ zone_of r (r_resolved r') pre (r_zoneID r')) → Q pre (r', res).

Lemma resolve_wp r : wp (pass_may r) [] (resolveNodeAttributes (r_cfg r))
  (λ pre a, ∀ cfg, a = Ok cfg → resolved_of r pre cfg).
Proof.
  unfold resolveNodeAttributes. destruct (_ && _) eqn:Hset.
  - intros cfg [= <-]. apply andb_true_iff in Hset as [Hz Hi].
    rewrite negb_true_iff, bool_decide_eq_false in Hz, Hi. split_and!; [done..|by left].
  - unfold orfail. apply wp_hcall; [by split|]. intros [node|e]; [|done].
    cbv zeta. fold (node_zone (r_cfg r) node). fold (node_address (r_cfg r) node).
    destruct (bool_decide_reflect (node_zone (r_cfg r) node = "")) as [?|?]; [done|].
    destruct (bool_decide_reflect (node_address (r_cfg r) node = "")) as [?|?]; [done|].
    intros cfg [= <-]. split_and!; [done..|]. right. exists node. split; [|done].
    apply elem_of_list_singleton || by left.
Qed.

Lemma reconcile_wp r Q : pass_ends r Q → wp (pass_may r) [] (reconcile r) Q.
Proof.
  intros HQ. unfold reconcile. rewrite wp_bind.
  eapply wp_strengthen; [exact (resolve_wp r)|]. intros pre [cfg|e] _ Hcfg.
  2:{ apply HQ; [done|]. destruct (decide (r_zoneID r = "")); [by left|right]. by split; [|left]. }
  specialize (Hcfg cfg eq_refl). cbn zeta.
  assert (∀ z pre0, z = "" ∨ zone_of r cfg pre0 z →
    keeps (with_resolved r cfg z (int64 (r_passes r + 1))) pre0 Q) as Hends.
  { intros z pre0 Hz pre' r' res Hpre (Hz' & Hc' & Hr'). apply HQ; [done|]. rewrite Hz', Hr'.
    destruct Hz as [->|Hz]; [by left|right]. by eapply zone_of_mono. }
  assert (∀ z, (z = "" ∨ z = r_zoneID r ∧ c_Zone (r_resolved r) = c_Zone cfg) →
    wp (pass_may r) pre
      (if bool_decide (z = "") then
         zone ← ensureThunderZone (c_Zone cfg);
         match zone with
         | Err e => mret (with_resolved r cfg z (int64 (r_passes r + 1)), Err e)
         | Ok zoneID => reconcile_node (with_resolved (with_resolved r cfg z (int64 (r_passes r + 1)))
             cfg zoneID (int64 (r_passes r + 1))) cfg
         end
       else reconcile_node (with_resolved r cfg z (int64 (r_passes r + 1))) cfg) Q) as Hz.
  { intros z Hz. case_bool_decide as He.
    - apply wp_bind, ensureThunderZone_wp_G.
      + intros pre1 []; cbn; try done. intros (-> & zones & -> & Hs). by eexists _, zones.
      + intros pre1 [id|e] Hf; [|apply HQ; [done|by left]].
        assert (zone_of r cfg (pre ++ pre1) id) as Hid.
        { destruct (Hf id eq_refl) as (Hid & zones & Hin & Hrest).
          split; [done|]. right. split; [done|]. exists zones. split; [|done].
          rewrite elem_of_app. by right. }
        apply reconcile_node_wp; [by eapply resolved_mono; [|exact Hcfg]|done|done|].
        apply Hends. by right.
    - assert (zone_of r cfg pre z) as Hzo by (destruct Hz as [?|?]; [done|]; by split; [|left]).
      apply reconcile_node_wp; [done|done|done|]. apply Hends. by right. }
  apply Hz. case_bool_decide; [by right|by left].
Qed.

(** No check starts the plugin. *)
Definition no_plugin (e : host_ev) : Prop := match e with StartPlugin _ _ => False | _ => True end.

Lemma enroll_no_plugin r cfg pre Q : (∀ pre a, Q pre a) →
  wp (S:=host_sig) (λ _ e, no_plugin e) pre (enroll r cfg) Q.
Proof.
  intros HQ. unfold enroll, orfail. apply wp_bind, nvidiaChecks_wp; [by intros pre' [] _|].
  intros pre1 [[n v]|e] _ _; [|apply HQ]. apply wp_hcall; [done|]. intros [token|e]; [|apply HQ].
  destruct (enrollment_command cfg token); [|apply HQ]. cbn [orfail_pure].
  apply wp_hcall; [done|]. intros [|]; apply HQ.
Qed.

Lemma ensureEnrolled_no_plugin r cfg tr a : exec (ensureEnrolled r cfg) tr a → only no_plugin tr.
Proof.
  apply wp_only. unfold ensureEnrolled, getThunderStatus.
  rewrite wp_bind. apply wp_hcall; [done|]. intros reply. cbn -[holds logStatus with_counters repair].
  destruct (holds nodeHealthy _); [done|]. destruct (_ && _); [done|]. destruct (_ <? _); [done|].
  assert (∀ r pre, wp (S:=host_sig) (λ _ e, no_plugin e) pre (reinstall r cfg) (λ _ _, True)) as Hre.
  { intros r' pre. unfold reinstall. apply wp_bind, enroll_no_plugin. by intros ? []. }
  unfold repair, restart, orfail. destruct (_ && _); [|apply Hre].
  rewrite wp_bind. apply wp_hcall; [done|]. intros [|]; [done|apply Hre].
Qed.

Lemma no_plugin_started tr : only no_plugin tr → filter (λ x, started x = true) tr = [].
Proof. induction 1 as [|[e res] tr Hx _ IH]; [done|]. rewrite filter_cons_False; [done|]. by destruct e. Qed.

Lemma prelim_no_plugin tr : only prelim_call tr → only no_plugin tr.
Proof. intros Ho. eapply Forall_impl; [exact Ho|]. by intros [[] ?]. Qed.

Definition starts tr : nat := length (filter (λ x, started x = true) tr).
Lemma starts_app tr1 tr2 : starts (tr1 ++ tr2) = (starts tr1 + starts tr2)%nat.
Proof. unfold starts. by rewrite filter_app, length_app. Qed.
Lemma starts_no_plugin tr : only no_plugin tr → starts tr = 0%nat.
Proof. intros Ho. unfold starts. by rewrite no_plugin_started. Qed.

Definition flag (b : bool) : nat := if b then 1%nat else 0%nat.

(** A pass starts the plugin at most once, and never twice. *)
Lemma pass_starts r tr r' res passes : exec (reconcile r) tr (r', res) →
  counters_ok passes (counters_of r) → passes < max_int64 →
  (starts tr + flag (r_pluginStarted r) = flag (r_pluginStarted r'))%nat.
Proof.
  intros [(Hpre & _ & -> & _)|(pre & mid & post & cfg & r1 & r2 & res2 & -> & Hpre & Hc & Hp & _ & Hen & Hpost)]%reconcile_exec
    Hok Hmax.
  { by rewrite starts_no_plugin by by apply prelim_no_plugin. }
  rewrite !starts_app, (starts_no_plugin pre) by by apply prelim_no_plugin.
  rewrite (starts_no_plugin mid) by by eapply ensureEnrolled_no_plugin.
  rewrite <-Hc in Hok.
  apply (ensureEnrolled_step _ _ _ _ _ passes) in Hen as (reply & _ & _ & _ & _ & Hsame & _); [|done..].
  destruct (same_view_trans _ _ _ (logStatus_view r1 _) (same_counters_view _ _ Hsame)) as (_ & Hp2 & _).
  rewrite <-Hp, <-Hp2. destruct res2; [|by destruct Hpost as (-> & -> & _)].
  apply wrapup_exec in Hpost as (_ & _ & _ & -> & Hno & Hcount & _).
  unfold starts. rewrite Hcount. destruct (r_pluginStarted r2); [|by destruct (existsb started post)].
  cbn [orb]. destruct (existsb started post) eqn:Hex; [|done]. exfalso.
  apply existsb_exists in Hex as ([[] sres] & Hin & Hs); try done.
  apply list_elem_of_In in Hin. by eapply Hno.
Qed.

Lemma passes_starts r trs r' n : passes r trs r' → counters_ok n (counters_of r) →
  n + Z.of_nat (length trs) ≤ max_int64 →
  (starts (concat trs) + flag (r_pluginStarted r) = flag (r_pluginStarted r'))%nat.
Proof.
  intros Hp. revert n. induction Hp as [r|r tr r1 res trs r2 Hx Hp IH]; intros n Hok Hmax; [done|].
  cbn [length concat] in *. rewrite starts_app.
  pose proof (pass_starts _ _ _ _ _ Hx Hok ltac:(lia)).
  assert (counters_ok (n + 1) (counters_of r1)) as Hok1.
  { apply (passes_counters_ok r [tr] r1 n); [by econstructor; [|constructor]|done|cbn; lia]. }
  specialize (IH (n + 1) Hok1 ltac:(lia)). lia.
Qed.

(** Delays. *)
Lemma double_delay_min delay max n : 0 < delay → 0 < max ≤ 2 ^ 62 →
  Z.min max (double_delay delay max n) = Z.min max (delay * 2 ^ Z.of_nat n).
Proof.
  intros Hd Hmax. revert delay Hd. induction n as [|n IH]; intros delay Hd; cbn [double_delay].
  { f_equal. lia. }
  destruct (Z.leb_spec max delay) as [Hle|Hlt].
  - pose proof (Z.pow_pos_nonneg 2 (Z.of_nat (S n))). nia.
  - rewrite int64_id. 2:{ unfold in_int64, min_int64, max_int64. lia. }
    rewrite IH by lia. f_equal. rewrite Nat2Z.inj_succ, Z.pow_succ_r by lia. lia.
Qed.

Lemma backoff_min base max failures : 0 < base → 0 < max ≤ 2 ^ 62 → 1 ≤ failures →
  reconcileBackoff base max failures = Z.min max (base * 2 ^ (failures - 1)).
Proof.
  intros Hb Hm Hf. unfold reconcileBackoff.
  set (n := Z.to_nat (failures - 1)). replace (failures - 1) with (Z.of_nat n) by lia.
  rewrite <-double_delay_min by done. destruct (Z.ltb_spec max (double_delay base max n)); lia.
Qed.

Lemma backoff_range base max failures : 0 < base ≤ max → max ≤ 2 ^ 62 →
  base ≤ reconcileBackoff base max failures ≤ max.
Proof.
  intros Hb Hm. destruct (Z.le_gt_cases 1 failures) as [Hf|Hf].
  - rewrite backoff_min by lia. pose proof (Z.pow_pos_nonneg 2 (failures - 1)). nia.
  - unfold reconcileBackoff. replace (Z.to_nat (failures - 1)) with 0%nat by lia.
    cbn [double_delay]. destruct (Z.ltb_spec max base); lia.
Qed.

Definition not_wait (e : host_ev) : Prop := match e with Wait _ | Cancelled => False | _ => True end.
Lemma reconcile_not_wait r tr a : exec (reconcile r) tr a → only not_wait tr.
Proof.
  intros Hx. assert (wp (pass_may r) [] (reconcile r) (λ _ _, True)) as Hwp by by apply reconcile_wp.
  revert Hx. apply wp_only.
  eapply (wp_weaken (pass_may r)); [|exact Hwp]. by intros pre [].
Qed.

Lemma failures_nonneg oks : 0 ≤ failures_in_a_row oks.
Proof. induction oks as [|[] oks IH]; cbn; lia. Qed.

Lemma ended_cons interval max before p ok rs n tr a : ended interval max (ok :: before) rs n tr a →
  ended interval max before ((p, ok) :: rs) (S n)
    (hev (Wait (delay_after interval max before)) false :: p ++
     (if ok then [] else [hev Cancelled false]) ++ tr) a.
Proof.
  unfold ended. destruct a.
  - intros [->|(rs0 & last & -> & ->)].
    + left. cbn [timeline fmap list_fmap snd]. rewrite reverse_cons, <-!app_assoc. cbn [app].
      by rewrite <-!app_assoc.
    + right. exists ((p, ok) :: rs0), last. split; [done|].
      cbn [timeline fmap list_fmap snd]. rewrite reverse_cons, <-!app_assoc. cbn [app].
      by rewrite <-!app_assoc.
  - intros [<- ->]. by split.
Qed.

Lemma delay_after_next interval max (before : list bool) : 0 < interval ≤ max → max ≤ 2 ^ 62 →
  reconcileBackoff interval max (failures_in_a_row (false :: before)) =
  delay_after interval max (false :: before).
Proof.
  intros Hi Hm. cbn [delay_after]. apply backoff_min; [lia|lia|]. cbn [failures_in_a_row].
  pose proof (failures_nonneg before). lia.
Qed.

Lemma loop_exec r interval max before n tr a : 0 < interval ≤ max → max ≤ 2 ^ 62 →
  failures_in_a_row before + Z.of_nat n ≤ max_int64 →
  exec (loop r interval max (delay_after interval max before) (failures_in_a_row before) n) tr a →
  ∃ rs r', rounds r rs r' ∧ (length rs ≤ n)%nat ∧ ended interval max before rs n tr a.
Proof.
  intros Hi Hm. revert r before tr. induction n as [|n IH]; intros r before tr Hn; cbn [loop].
  { intros [-> ->]. exists [], r. split_and!; [constructor|done|by split]. }
  intros (c & tr' & -> & Hx)%exec_hcall. destruct c; cbn [mbind prog_bind prog_bind_def] in Hx.
  { destruct Hx as [-> ->]. exists [], r. split_and!; [constructor|cbn; lia|by left]. }
  apply exec_bind in Hx as (tr1 & [r1 res] & tr2 & -> & Hr & Hx).
  pose proof (failures_nonneg before) as Hf0.
  assert (∀ tr3, exec (loop r1 interval max (delay_after interval max (is_ok res :: before))
      (failures_in_a_row (is_ok res :: before)) n) tr3 a →
    tr2 = (if is_ok res then [] else [hev Cancelled false]) ++ tr3 →
    ∃ rs r', rounds r rs r' ∧ (length rs ≤ S n)%nat ∧ ended interval max before rs (S n)
      (hev (Wait (delay_after interval max before)) false :: tr1 ++ tr2) a) as Hnext.
  { intros tr3 Hl ->. apply IH in Hl as (rs & r' & Hrs & Hlen & Hend).
    2:{ destruct res; cbn [is_ok failures_in_a_row]; lia. }
    exists ((tr1, is_ok res) :: rs), r'. split_and!; [by econstructor|cbn; lia|by apply ended_cons]. }
  destruct res as [[]|e]; [by eapply Hnext|].
  apply exec_hcall in Hx as (c & tr3 & -> & Hx). destruct c; cbn [mbind prog_bind prog_bind_def] in Hx.
  - destruct Hx as [-> ->]. exists [(tr1, false)], r1. split_and!; [|cbn; lia|].
    + apply (rounds_cons _ _ r1 (Err e) [] r1); [exact Hr|constructor].
    + right. by exists [], tr1.
  - eapply Hnext; [|done]. cbn [is_ok]. rewrite <-delay_after_next by done.
    cbn [failures_in_a_row]. rewrite (int64_succ _ (failures_in_a_row before)), Z.add_comm in Hx by lia. exact Hx.
Qed.

(** The kinds of attempts can be told apart. *)
Definition is_restart (e : host_ev) : bool :=
  match e with RunShell label _ => bool_decide (label = "thunder up") | _ => false end.
Definition is_file_check (e : host_ev) : bool :=
  match e with FileExists _ => true | _ => false end.

Lemma exists_call (p : host_ev → bool) tr :
  Exists (λ x : event host_sig, p (evt_call x) = true) tr ↔
  ∃ e (res : host_resp e), hev e res ∈ tr ∧ p e = true.
Proof.
  rewrite Exists_exists. split; [intros ([e res] & ? & ?); by exists e, res|].
  intros (e & res & ? & ?). by exists (hev e res).
Qed.

#[global] Instance restart_attempt_dec tr : Decision (restart_attempt tr).
Proof.
  refine (cast_if (decide (Exists (λ x : event host_sig, is_restart (evt_call x) = true) tr))).
  - abstract (apply exists_call in e as ([] & res & Hin & Hr); try done;
      apply bool_decide_eq_true in Hr; subst; by eexists _, res).
  - abstract (intros (command & res & Hin); apply n, exists_call; by eexists _, res).
Defined.
#[global] Instance install_attempt_dec tr : Decision (install_attempt tr).
Proof.
  refine (cast_if (decide (Exists (λ x : event host_sig, is_file_check (evt_call x) = true) tr))).
  - abstract (apply exists_call in e as ([] & res & Hin & Hr); try done; by eexists _, res).
  - abstract (intros (path & res & Hin); apply n, exists_call; by eexists _, res).
Defined.

Lemma attempt_found (attempt : list (event host_sig) → Prop) `{∀ tr, Decision (attempt tr)}
    (trs : list (list (event host_sig))) :
  ¬ (∀ tr, tr ∈ trs → ¬ attempt tr) → ∃ tr, tr ∈ trs ∧ attempt tr.
Proof.
  intros Hn. destruct (decide (Exists attempt trs)) as [He|He]; [by apply Exists_exists|].
  destruct Hn. intros tr Hin Ha. apply He, Exists_exists. by exists tr.
Qed.
End lemmas.

(* -------------------------------------------------------------------- *)
(** ** Theorems *)

Section theorems.
Context `{UnicodeTables, LibErrors, HostLibs}.

(** C14: one check of a node is one step of the repair machine on the status
    it read: it begins with that read and does exactly what the step's action
    stands for - nothing, one [thunder up], or an enrollment.  An enrollment
    comes after one failed [thunder up] if a restart could still be tried and
    after none if not.  The check leaves the counters as the step does, the
    last logged status as [logStatus] does and everything else of the
    reconciler as it was, and fails exactly when the enrollment did.  (With
    the counters that fewer than 2^63 passes can have left.) *)
Theorem ensureEnrolled_refines r cfg tr r' res passes :
  exec (ensureEnrolled r cfg) tr (r', res) → counters_ok passes (counters_of r) →
  passes < max_int64 →
  ∃ reply a tr1,
    tr = hev status_call reply :: tr1 ∧
    repair_step (counters_of r) (observe (decode_status reply)) a (counters_of r') ∧
    same_but_counters (logStatus r (decode_status reply)) r' ∧
    did cfg (r_zoneID r) a tr1 ∧ (res = Ok tt ↔ ∀ failed, a ≠ Reinstall failed false).
Proof. apply ensureEnrolled_step. Qed.


(** C6: what a pass may do, and when: apart from reading thunderd's status, it
    looks for the NVIDIA files, asks nvidia-smi, mints an enrollment token or
    runs anything on the node only after this pass read a status that was not
    healthy; [thunder up] runs only on an enrolled node, and the installer only
    right after a token was minted for it, on a node that passed the NVIDIA
    checks, with that token, zone and address; a zone is created only right
    after a listing without it; the plugin is started only if it was not; the
    zone name and the address are those configured or, where they are not,
    those of the node object that the pass's first call read; and a zone is
    used that was found under that name in this pass or kept from one that
    resolved the same name. *)
Theorem reconcile_safety r tr r' res : exec (reconcile r) tr (r', res) →
  ∀ tr1 e reply tr2, tr = tr1 ++ hev e reply :: tr2 → pass_may r tr1 e.
Proof.
  intros Hx tr1 e reply tr2 ->.
  assert (wp (pass_may r) [] (reconcile r) (λ _ _, True)) as Hwp by by apply reconcile_wp.
  destruct (wp_sound _ _ _ _ _ _ Hwp Hx) as [_ Hcalls]. by eapply Hcalls.
Qed.

(** After any run of fewer than 2^63 passes the counters are in range:
    at most 2 restarts and 30 settling checks are counted, and no more
    unhealthy ones than there were passes, so none of them ever wraps. *)
Theorem counters_bounded cfg trs r : passes (initial cfg) trs r →
  Z.of_nat (length trs) ≤ max_int64 → counters_ok (Z.of_nat (length trs)) (counters_of r).
Proof. intros Hp Hmax. by apply (passes_counters_ok _ _ _ 0 Hp (initial_counters_ok cfg)). Qed.

(** The plugin is started successfully at most once in the life of the
    daemon, and it counts as started exactly when it was. *)
Theorem plugin_started_once cfg trs r : passes (initial cfg) trs r →
  Z.of_nat (length trs) ≤ max_int64 →
  (starts (concat trs) ≤ 1)%nat ∧ (r_pluginStarted r = true ↔ starts (concat trs) = 1%nat).
Proof.
  intros Hp Hmax. pose proof (passes_starts _ _ _ 0 Hp (initial_counters_ok cfg) Hmax) as Hs.
  cbn [r_pluginStarted initial flag] in Hs. destruct (r_pluginStarted r); cbn [flag] in Hs; lia.
Qed.

(** C36: the wait after the n-th failure in a row is the interval doubled
    n - 1 times, capped at the maximum, with no overflow however many
    failures there were; it is never below the interval. *)
Theorem reconcileBackoff_spec base max failures :
  0 < base ≤ max → max ≤ 2 ^ 62 → 1 ≤ failures →
  reconcileBackoff base max failures = Z.min max (base * 2 ^ (failures - 1)) ∧
  base ≤ reconcileBackoff base max failures ≤ max.
Proof. intros Hb Hm Hf. split; [apply backoff_min; lia|by apply backoff_range]. Qed.

(** C35: all the loop ever does are passes, one after the other on the state
    the last one left, with waits between them: none before the first; the
    interval after a pass that succeeded; and after the k-th failure in a row
    the interval doubled k - 1 times, at most the maximum.  It makes every pass
    it is given time for, whatever failed, unless the context was cancelled,
    which it looks for while it waits and after a failed pass.  (For a
    positive interval up to a maximum of at most 2^62 and fewer than 2^63
    passes.) *)
Theorem loop_only_cancelled r interval max n tr a : 0 < interval ≤ max → max ≤ 2 ^ 62 →
  Z.of_nat n ≤ max_int64 → exec (loop r interval max 0 0 n) tr a →
  ∃ rs r', rounds r rs r' ∧ (length rs ≤ n)%nat ∧ ended interval max [] rs n tr a.
Proof. intros ???. by apply (loop_exec r interval max []). Qed.

(** The restart the daemon runs through a shell is exactly the command
    it means, each argument one word, whatever the labels and the node name
    it takes them from hold. *)
Theorem restart_command_words cfg :
  sh_words (restart_command cfg) =
  Some ["THUNDERD_TRANSIENT=1"; "thunder"; "up"; "--ip"; c_AdvertisedIP cfg;
        "--zone"; c_Zone cfg; "--node-name"; c_Node cfg].
Proof.
  apply (sh_words_join [BareArg thunderdTransientEnv; BareArg "thunder"; BareArg "up"; BareArg "--ip";
    QuotedArg (c_AdvertisedIP cfg); BareArg "--zone"; QuotedArg (c_Zone cfg); BareArg "--node-name";
    QuotedArg (c_Node cfg)]).
  by vm_compute.
Qed.
End theorems.

(* -------------------------------------------------------------------- *)
(** ** Concrete runs *)

Section witnesses.
#[local] Existing Instance ascii_tables.
#[local] Existing Instance status_errors.

(** An SDK and a decoder that read the three outputs the node below gives. *)
Definition sample_status (active : string) (healthy authToken : bool) : thunderStatus :=
  {| ts_Service := "thunderd"; ts_Active := active; ts_SubState := ""; ts_LocalAPIHealthy := healthy;
     ts_LocalAPIError := ""; ts_AuthTokenConfigured := authToken; ts_ConfigError := "";
     ts_Healthy := false; ts_Warnings := []; ts_Diagnostics := [] |}.
Definition sample_libs : HostLibs :=
  {| ServerEnrollmentCommand req := "curl | sudo sh -s " +:+ cr_EnrollmentToken req;
     json_status output :=
       if bool_decide (output = "up") then Ok (sample_status "active" true true)
       else if bool_decide (output = "down") then Ok (sample_status "failed" false true)
       else Err (ErrLib "unexpected end of JSON input");
     json_node _ := Err ErrNotFound |}.
#[local] Existing Instance sample_libs.

(** A node in zone "a" with a GPU whose thunderd reports [status]. *)
Definition sample_node (status : string) : handler host_sig unit := λ e w,
  (match e return host_resp e with
   | FileExists _ => true
   | CombinedOutput "thunder" _ => (status, None)
   | CombinedOutput _ args =>
       (if bool_decide (head args = Some "--query-gpu=index") then "0" else "550.54", None)
   | ReadNode _ => Ok {| ni_Labels := {[ DefaultZoneLabel := "a" ]}; ni_InternalIP := "10.0.0.1";
                         ni_ExternalIP := "" |}
   | ListZones => Ok [MkZone "z1" "a"]
   | CreateZone _ | RunShell _ _ | StartPlugin _ _ => Ok tt
   | CreateServerEnrollment _ => Ok (Enrollment "tok" "id")
   | LibthunderEnsure _ => Err ErrNotFound
   | Wait _ | Cancelled => false
   end, w).

Fixpoint run_passes (h : handler host_sig unit) (n : nat) (r : reconciler)
    : list (list (event host_sig)) * reconciler :=
  match n with
  | O => ([], r)
  | S n =>
      let '(trs, r') := run_passes h n (run h (reconcile r) tt).1.1 in
      (trace h (reconcile r) tt :: trs, r')
  end.

Lemma run_passes_passes h n r : passes r (run_passes h n r).1 (run_passes h n r).2.
Proof.
  revert r. induction n as [|n IH]; intros r; cbn [run_passes]; [constructor|].
  specialize (IH (run h (reconcile r) tt).1.1).
  destruct (run_passes h n (run h (reconcile r) tt).1.1) as [trs r'] eqn:Heq. cbn [fst snd] in *.
  apply (passes_cons _ _ (run h (reconcile r) tt).1.1 (run h (reconcile r) tt).1.2 trs r'); [|exact IH].
  rewrite <-surjective_pairing. apply run_exec.
Qed.

Lemma trace_replies {A} (h : handler host_sig unit) (p : prog host_sig A) (x : event host_sig) :
  x ∈ trace h p tt → evt_reply x = (h (evt_call x) tt).1.
Proof.
  induction p as [a|e k IH]; cbn [trace]; [by intros ?%not_elem_of_nil|].
  destruct (h e tt) as [res []] eqn:Hh. intros [->|Hin]%elem_of_cons; [|by eapply IH].
  cbn [evt_reply evt_call]. by rewrite Hh.
Qed.

Lemma run_passes_replies h n r tr (x : event host_sig) : tr ∈ (run_passes h n r).1 → x ∈ tr →
  evt_reply x = (h (evt_call x) tt).1.
Proof.
  revert r. induction n as [|n IH]; intros r; cbn [run_passes]; [by intros ?%not_elem_of_nil|].
  specialize (IH (run h (reconcile r) tt).1.1).
  destruct (run_passes h n (run h (reconcile r) tt).1.1) as [trs r']. cbn [fst] in *.
  intros [->|Htr]%elem_of_cons; [|by apply IH]. apply trace_replies.
Qed.

Lemma down_never_healthy n r : never_healthy (run_passes (sample_node "down") n r).1.
Proof. intros tr reply Htr Hin%(run_passes_replies _ _ _ _ _ Htr). cbn in Hin. by rewrite Hin. Qed.

Abbreviation first := (initial sample_config).
Abbreviation down n := (run_passes (sample_node "down") n first).


Lemma counters_bounded_witness : length (down 3).1 = 3%nat ∧ counters_ok 3 (counters_of (down 3).2).
Proof.
  split; [vm_compute; reflexivity|].
  apply (counters_bounded sample_config (down 3).1 _ (run_passes_passes _ 3 first)). by vm_compute.
Defined.

Lemma plugin_started_once_witness :
  r_pluginStarted (down 3).2 = true ∧ starts (concat (down 3).1) = 1%nat.
Proof.
  assert (r_pluginStarted (down 3).2 = true) as Hs by (vm_compute; reflexivity).
  split; [exact Hs|].
  apply (plugin_started_once sample_config (down 3).1 _ (run_passes_passes _ 3 first));
    [by vm_compute|exact Hs].
Defined.

(** The second pass over a node that is down and enrolled: the counters say
    one restart was tried, and the step is another. *)
Lemma ensureEnrolled_refines_witness :
  let r := (down 1).2 in
  let out := run (sample_node "down") (ensureEnrolled r (r_resolved r)) tt in
  counters_of r = Counters false 0 0 1 ∧ counters_of out.1.1 = Counters false 0 0 2 ∧
  ∃ reply a tr1,
    trace (sample_node "down") (ensureEnrolled r (r_resolved r)) tt = hev status_call reply :: tr1 ∧
    repair_step (counters_of r) (observe (decode_status reply)) a (counters_of out.1.1) ∧
    same_but_counters (logStatus r (decode_status reply)) out.1.1 ∧
    did (r_resolved r) (r_zoneID r) a tr1 ∧
    (out.1.2 = Ok tt ↔ ∀ failed, a ≠ Reinstall failed false).
Proof.
  cbv zeta. split; [vm_compute; reflexivity|]. split; [vm_compute; reflexivity|].
  apply (ensureEnrolled_refines _ _ _ _ _ 1).
  - rewrite <-surjective_pairing. apply run_exec.
  - unfold counters_ok. vm_compute. repeat split; discriminate.
  - by vm_compute.
Defined.

Lemma reconcile_safety_witness :
  ∃ tr1 command tr2, trace (sample_node "") (reconcile first) tt =
    tr1 ++ hev (RunShell "thunder installer" command) (Ok tt) :: tr2 ∧
  pass_may first tr1 (RunShell "thunder installer" command).
Proof.
  pose (tr := trace (sample_node "") (reconcile first) tt).
  exists (take 9 tr), "curl | sudo THUNDERD_TRANSIENT=1 sh -s tok", (drop 10 tr).
  assert (tr = take 9 tr ++ hev (RunShell "thunder installer"
    "curl | sudo THUNDERD_TRANSIENT=1 sh -s tok") (Ok tt) :: drop 10 tr) as Heq
    by (vm_compute; reflexivity).
  split; [exact Heq|].
  refine (reconcile_safety first tr (run (sample_node "") (reconcile first) tt).1.1
    (run (sample_node "") (reconcile first) tt).1.2 _ _ _ _ _ Heq).
  rewrite <-surjective_pairing. apply run_exec.
Defined.

Lemma reconcileBackoff_spec_witness :
  reconcileBackoff ThunderReconcileInterval ThunderReconcileMaxBackoff 4 = 80000000000 ∧
  reconcileBackoff ThunderReconcileInterval ThunderReconcileMaxBackoff 40 =
    ThunderReconcileMaxBackoff.
Proof.
  split; [vm_compute; reflexivity|].
  rewrite (proj1 (reconcileBackoff_spec ThunderReconcileInterval ThunderReconcileMaxBackoff 40
    ltac:(by vm_compute) ltac:(by vm_compute) ltac:(by vm_compute))).
  by vm_compute.
Defined.

Definition steady_loop : prog host_sig (option unit) :=
  loop first ThunderReconcileInterval ThunderReconcileMaxBackoff 0 0 3.

Lemma steady_loop_run : (run (sample_node "up") steady_loop tt).1 = None.
Proof. vm_compute. reflexivity. Qed.

Lemma loop_only_cancelled_witness :
  omap (λ x : event host_sig, match evt_call x with Wait d => Some d | _ => None end)
    (trace (sample_node "up") steady_loop tt) = [0; 10000000000; 10000000000] ∧
  ∃ rs r', rounds first rs r' ∧ length rs = 3%nat ∧
    trace (sample_node "up") steady_loop tt =
      timeline ThunderReconcileInterval ThunderReconcileMaxBackoff [] rs.
Proof.
  split; [vm_compute; reflexivity|].
  pose proof (run_exec (sample_node "up") steady_loop tt) as Hx. rewrite steady_loop_run in Hx.
  destruct (loop_only_cancelled first ThunderReconcileInterval ThunderReconcileMaxBackoff 3 _ None
    ltac:(by vm_compute) ltac:(by vm_compute) ltac:(by vm_compute) Hx) as (rs & r' & Hrs & _ & Hlen & Htr).
  by exists rs, r'.
Defined.

(** A node relabelled to another zone while thunderd is healthy and the
    plugin runs: the pass resolves the new zone, and that is all - the plugin
    keeps the zone it was started with. *)
Definition relabelled : reconciler :=
  with_observed (with_resolved first (with_attributes sample_config "old" "10.0.0.1") "z0" 1) true ""
    zero_key.
Example relabelled_zone_not_propagated :
  let out := run (sample_node "up") (reconcile relabelled) tt in
  out.1.2 = Ok tt ∧ r_zoneID out.1.1 = "z1" ∧
  existsb (λ x : event host_sig, match evt_call x with
    | StartPlugin _ _ | RunShell _ _ | CreateServerEnrollment _ => true | _ => false end)
    (trace (sample_node "up") (reconcile relabelled) tt) = false.
Proof. vm_compute. by repeat split. Qed.
End witnesses.
