(* ===== verification/Logs.v ===== *)
(** * Daemon: following thunderd's logs

    internal/daemon/logs.go: thunderd's journal is followed and republished, and
    followed again whenever the stream ends, until the context is done. *)

From S2P Require Import Prelude GoStrings Float64 Labels ResourceSlice Driver DaemonConfig GoPath Shell.
From S2P Require Import Host Nvidia NodeAttributes Reconcile ReconcileSpec.
#[local] Open Scope Z_scope.

Definition thunderdLogRetryInterval : Z := 10000000000.
Definition thunderdLogMaxRetryInterval : Z := 300000000000.
Definition thunderdLogStableStream : Z := 60000000000.
Definition thunderdLogsDisabled : list string := ["off"; "none"; "false"; "0"].

(** Waiting for the timer or the context, true when the context is done; running
    a command with its lines republished; how long it ran; the context's error. *)
Inductive log_ev :=
  | LogWait (delay : Z)
  | LogStream (name : string) (args : list string)
  | LogElapsed
  | LogCancelled.
Definition log_resp (e : log_ev) : Type :=
  match e with
  | LogStream _ _ => option error
  | LogElapsed => Z
  | _ => bool
  end.
Definition log_sig : sig := Sig log_ev log_resp.
Definition lcall (e : log_ev) : prog log_sig (log_resp e) := call (S:=log_sig) e.

(** [logThunderdLine]'s log entry. *)
Definition logThunderdLine (line : string) : string := "thunderd: " +:+ line.

(** The loop, for at most [n] streams; nothing when it is still running. *)
Fixpoint follow_loop (unit : string) (delay failures : Z) (n : nat) : prog log_sig (option ()) :=
  match n with
  | O => mret None
  | S n =>
      stopped ← lcall (LogWait delay);
      if stopped : bool then mret (Some tt)
      else
        _ ← lcall (LogStream "journalctl"
              ["--unit"; unit; "--follow"; "--lines"; "0"; "--output"; "cat"; "--no-pager"]);
        cancelled ← lcall LogCancelled;
        if cancelled : bool then mret (Some tt)
        else
          elapsed ← lcall LogElapsed;
          let failures := if thunderdLogStableStream <=? elapsed then 0 else failures in
          let failures := int64 (failures + 1) in
          follow_loop unit
            (reconcileBackoff thunderdLogRetryInterval thunderdLogMaxRetryInterval failures) failures n
  end.

Definition followThunderdLogs `{UnicodeTables} (unit : string) (n : nat) : prog log_sig (option ()) :=
  let unit := trim_space unit in
  if bool_decide (unit = "") || bool_decide (to_lower unit ∈ thunderdLogsDisabled) then mret (Some tt)
  else follow_loop unit 0 0 n.

(** One stream of a run: the wait before it and how long it lasted. *)
Definition waits (tr : list (event log_sig)) : list Z :=
  omap (λ x : event log_sig, match evt_call x with LogWait d => Some d | _ => None end) tr.
Definition lasted (tr : list (event log_sig)) : list Z :=
  omap (λ x : event log_sig, match x with Ev LogElapsed d => Some d | _ => None end) tr.
Definition streams (tr : list (event log_sig)) : list (string * list string) :=
  omap (λ x : event log_sig, match evt_call x with LogStream name args => Some (name, args) | _ => None end) tr.
Definition stopped_by (x : event log_sig) : Prop :=
  (∃ d, x = Ev (S:=log_sig) (LogWait d) true) ∨ x = Ev (S:=log_sig) LogCancelled true.

(** The waits that follow streams that lasted as long as given, after [failures]
    short ones in a row. *)
Fixpoint backoffs (failures : Z) (durations : list Z) : list Z :=
  match durations with
  | [] => []
  | d :: durations =>
      let failures := if thunderdLogStableStream <=? d then 1 else failures + 1 in
      Z.min thunderdLogMaxRetryInterval (thunderdLogRetryInterval * 2 ^ (failures - 1)) ::
        backoffs failures durations
  end.

(* -------------------------------------------------------------------- *)
(** ** Lemmas *)

Lemma exec_lcall {B} e (f : log_resp e → prog log_sig B) tr b :
  exec (lcall e ≫= f) tr b ↔ ∃ r tr', tr = Ev (S:=log_sig) e r :: tr' ∧ exec (f r) tr' b.
Proof. done. Qed.

Lemma follow_loop_exec unit delay failures n tr a :
  0 ≤ failures → failures + Z.of_nat n < 2 ^ 62 → exec (follow_loop unit delay failures n) tr a →
  waits tr = take (length (waits tr)) (delay :: backoffs failures (lasted tr)) ∧
  Forall (λ s, s = ("journalctl", ["--unit"; unit; "--follow"; "--lines"; "0"; "--output"; "cat"; "--no-pager"]))
    (streams tr) ∧
  match a with
  | Some _ => ∃ tr1 x, tr = tr1 ++ [x] ∧ stopped_by x
  | None => length (waits tr) = n
  end.
Proof.
  revert delay failures tr. induction n as [|n IH]; intros delay failures tr Hf Hn; cbn [follow_loop].
  { by intros [-> ->]. }
  intros (stopped & tr1 & -> & Hx)%exec_lcall. destruct stopped; cbn [mbind prog_bind prog_bind_def] in Hx.
  { destruct Hx as [-> ->]. split_and!; [done|constructor|]. eexists [], _. split; [done|]. left. by exists delay. }
  apply exec_lcall in Hx as (err & tr2 & -> & Hx). cbn [mbind prog_bind prog_bind_def] in Hx.
  apply exec_lcall in Hx as (cancelled & tr3 & -> & Hx). destruct cancelled; cbn [mbind prog_bind prog_bind_def] in Hx.
  { destruct Hx as [-> ->]. split_and!; [done|by constructor|]. eexists [_; _], _. split; [done|]. by right. }
  apply exec_lcall in Hx as (elapsed & tr4 & -> & Hx). cbn [mbind prog_bind prog_bind_def] in Hx.
  set (failures' := if thunderdLogStableStream <=? elapsed then 0 else failures) in Hx.
  assert (0 ≤ failures' ≤ failures) by (unfold failures'; destruct (_ <=? _); lia).
  rewrite int64_id in Hx by (unfold in_int64, min_int64, max_int64; lia).
  apply IH in Hx as (Hw & Hs & Ha); [|lia|lia].
  rewrite backoff_min in Hw by (unfold thunderdLogRetryInterval, thunderdLogMaxRetryInterval; lia).
  unfold waits, lasted, streams in *. cbn [omap list_omap evt_call length take backoffs].
  split_and!.
  - f_equal. rewrite Hw at 1. f_equal. f_equal; [f_equal|].
    + unfold failures'. by destruct (_ <=? _).
    + unfold failures'. by destruct (_ <=? _).
  - by constructor.
  - destruct a; [|by f_equal]. destruct Ha as (tr5 & x & -> & Hx). by eexists (_ :: _ :: _ :: _ :: tr5), x.
Qed.

(* -------------------------------------------------------------------- *)
(** ** Theorems *)


Section witnesses.
#[local] Existing Instance ascii_tables.

(** Streams that last a second, but every third a minute. *)
Definition flaky_journal : handler log_sig nat := λ e k,
  match e return log_resp e * nat with
  | LogWait _ => (false, k)
  | LogStream _ _ => (None, S k)
  | LogElapsed => (if (k mod 3 =? 0)%nat then 60000000000 else 1000000000, k)
  | LogCancelled => ((k =? 9)%nat, k)
  end.

End witnesses.
