(* ===== verification/Daemon.v ===== *)
(** * The daemon

    internal/daemon/runtime.go's [run]: the reconcile loop over the services it
    really has - the commands it runs in the node's namespaces (Version), the
    request for the node object (NodeReader), the libthunder cache (Libthunder),
    the start of the kubelet plugin (Plugin) - next to the goroutine that
    follows thunderd's logs (Logs).  Then what holds of its life: the commands
    it runs, and the start of the plugin. *)

From S2P Require Import Prelude GoStrings Float64 Labels ResourceSlice Driver DaemonConfig GoPath Shell.
From S2P Require Import Host Nvidia NodeAttributes Reconcile ReconcileSpec Logs Version NodeReader.
From S2P Require Import GoTime Json ClientStore OS ClientConfig CDIStore TokenIssuer Libthunder CDIHook Plugin.

(** What is left to the pod: a command and its combined output; a command and
    all it wrote to its two output streams; a log entry; the Thunder API; the
    clock and the context. *)
Inductive machine_ev :=
  | RunCombined (command : string * list string)
  | RunStreaming (command : string * list string)
  | LogPrint (line : string)
  | ZoneList
  | ZoneCreate (displayName : string)
  | ServerEnroll (zoneID : string)
  | Timer (delay : Z)
  | ContextDone
  | SinceStarted.
Definition machine_resp (e : machine_ev) : Type :=
  match e with
  | RunCombined _ | RunStreaming _ => string * option error
  | LogPrint _ => unit
  | ZoneList => result (list Zone)
  | ZoneCreate _ => result unit
  | ServerEnroll _ => result ServerEnrollment
  | Timer _ | ContextDone => bool
  | SinceStarted => Z
  end.
Definition machine_sig : sig := Sig machine_ev machine_resp.
Abbreviation daemon_sig := (sig_sum plugin_sig (sig_sum reader_sig machine_sig)).
Definition mcall (e : machine_ev) : prog daemon_sig (machine_resp e) :=
  call (S:=daemon_sig) (inr (inr e)).
Abbreviation mev e r := (Ev (S:=daemon_sig) (inr (inr e)) r).

Section daemon.
Context `{UnicodeTables, LibErrors, HostLibs, Certificates, ClientCommands}.
Context (lookup : string → option string) (cfg : Config).

Fixpoint print_lines (lines : list string) : prog daemon_sig unit :=
  match lines with
  | [] => mret tt
  | line :: lines => _ ← mcall (LogPrint line); print_lines lines
  end.

(** [osCommandRunner.stream]: every line a command writes is handed to
    [onLine], which logs it. *)
Definition stream (onLine : string → string) (c : string * list string) : prog daemon_sig (option error) :=
  '(output, err) ← mcall (RunStreaming c);
  _ ← print_lines (onLine <$> stream_lines output);
  mret err.

(** [fileExists]. *)
Definition fileExists (path : string) : prog daemon_sig bool :=
  r ← lift_l (lift_l (ocall (Stat path))); mret (is_ok r).

(** The services of the reconcile loop. *)
Definition host_impl (e : ev host_sig) : prog daemon_sig (resp host_sig e) :=
  match e return prog daemon_sig (host_resp e) with
  | ReadNode name => lift_r (lift_l (fetch_node lookup name))
  | ListZones => mcall ZoneList
  | CreateZone name => mcall (ZoneCreate name)
  | FileExists path => fileExists path
  | CombinedOutput name args => mcall (RunCombined (command (c_HostTargetPID cfg) name args))
  | RunShell label shell =>
      err ← stream (λ line, label +:+ ": " +:+ line) (shell_command (c_HostTargetPID cfg) shell);
      mret match err with Some e => Err e | None => Ok tt end
  | CreateServerEnrollment zoneID => mcall (ServerEnroll zoneID)
  | LibthunderEnsure cache =>
      '(r, _) ← lift_l (lift_l (Ensure cache None)); mret r
  | StartPlugin cfg zoneID => lift_l (startDRAPlugin cfg zoneID)
  | Wait delay => mcall (Timer delay)
  | Cancelled => mcall ContextDone
  end.

(** The services of the log follower. *)
Definition log_impl (e : ev log_sig) : prog daemon_sig (resp log_sig e) :=
  match e return prog daemon_sig (log_resp e) with
  | LogWait delay => mcall (Timer delay)
  | LogStream name args => stream logThunderdLine (command (c_HostTargetPID cfg) name args)
  | LogElapsed => mcall SinceStarted
  | LogCancelled => mcall ContextDone
  end.

(** The two goroutines of [run], for at most [n] passes and [m] streams. *)
Definition run_loop_part (n : nat) : prog daemon_sig (option unit) :=
  link host_impl (loop (initial cfg) ThunderReconcileInterval ThunderReconcileMaxBackoff 0 0 n).
Definition run_logs_part (m : nat) : prog daemon_sig (option unit) :=
  link log_impl (followThunderdLogs (c_ThunderdLogUnit cfg) m).

(** [run]: the reconcile loop, and beside it as much of the log follower as
    there was time for. *)
Definition run_daemon (n m : nat) (tr : list (event daemon_sig)) (a : option unit) : Prop :=
  ∃ tr1 tr2 rest b, exec (run_loop_part n) tr1 a ∧ exec (run_logs_part m) (tr2 ++ rest) b ∧
    interleaved tr1 tr2 tr.
End daemon.

(* -------------------------------------------------------------------- *)
(** ** The life of the loop *)

Section life.
Context `{UnicodeTables, LibErrors, HostLibs}.

(** A zone the API listed under a name. *)
Definition zone_known (name : string) (tr : list (event host_sig)) (zoneID : string) : Prop :=
  zoneID ≠ "" ∧ ∃ zones, hev ListZones (Ok zones) ∈ tr ∧ zoneID ∈ zone_ids name zones.

(** The configurations a daemon works with: its own, in some zone and under
    some address. *)
Definition attributed (cfg cfg' : Config) : Prop :=
  c_Zone cfg' ≠ "" ∧ c_AdvertisedIP cfg' ≠ "" ∧ ∃ zone ip, cfg' = with_attributes cfg zone ip.

(** What the node was last read as. *)
Definition node_answers (tr : list (event host_sig)) : list (result NodeInfo) :=
  omap (λ x : event host_sig, let 'Ev e reply := x in
    match e return host_resp e → option (result NodeInfo) with
    | ReadNode _ => λ reply, Some reply
    | _ => λ _, None
    end reply) tr.

(** The configuration a daemon works with now: its own, with the zone and the
    address it was not given taken from the node as it was last read. *)
Definition current (cfg : Config) (tr : list (event host_sig)) (cfg' : Config) : Prop :=
  c_Zone cfg' ≠ "" ∧ c_AdvertisedIP cfg' ≠ "" ∧
  (cfg' = cfg ∨ ∃ node, last (node_answers tr) = Some (Ok node) ∧
     cfg' = with_attributes cfg (node_zone cfg node) (node_address cfg node)).

(** What starts the plugin, given all that happened before. *)
Definition start_may (cfg : Config) (tr : list (event host_sig)) (e : host_ev) : Prop :=
  match e with
  | StartPlugin cfg' zoneID => current cfg tr cfg' ∧ zone_known (c_Zone cfg') tr zoneID
  | _ => True
  end.

(** What the loop may do in a life, given all that happened in it. *)
Definition life_may (cfg : Config) (tr : list (event host_sig)) (e : host_ev) : Prop :=
  match e with
  | ReadNode name => name = c_Node cfg
  | CombinedOutput name args => CombinedOutput name args = status_call ∨
      name = c_NVSMIPath cfg ∧ args ∈ nvidia_queries
  | RunShell label command => ∃ cfg', attributed cfg cfg' ∧
      (command = restart_command cfg' ∨
       ∃ zoneID token, hev (CreateServerEnrollment zoneID) (Ok token) ∈ tr ∧
         zone_known (c_Zone cfg') tr zoneID ∧ enrollment_command cfg' token = Ok command)
  | LibthunderEnsure cache => cache = libthunder_cache cfg
  | _ => True
  end.

Lemma zone_known_mono name tr tr' zoneID : tr ⊆ tr' → zone_known name tr zoneID → zone_known name tr' zoneID.
Proof. intros Htr (? & zones & ? & ?). split; [done|]. exists zones. split; [by apply Htr|done]. Qed.

Lemma life_may_mono cfg tr tr' e : tr ⊆ tr' → life_may cfg tr e → life_may cfg tr' e.
Proof.
  intros Htr. destruct e; cbn; try done.
  - intros (cfg' & Ha & [->|(z & token & Hin & Hz & Hcmd)]); exists cfg'; (split; [done|]); [by left|].
    right. exists z, token. split_and!; [by apply Htr|by eapply zone_known_mono|done].
Qed.

Lemma resolved_attributed r pre cfg' : resolved_of r pre cfg' → attributed (r_cfg r) cfg'.
Proof. intros Hres. split_and!; [apply Hres..|]. by eapply resolved_attributes. Qed.

(** A pass reads the node first if at all. *)
Lemma node_answers_app tr1 tr2 : node_answers (tr1 ++ tr2) = node_answers tr1 ++ node_answers tr2.
Proof. apply omap_app. Qed.
Lemma answers_later r (pre tr : list (event host_sig)) : pre ≠ [] →
  (∀ tr1 e (reply : host_resp e) tr2, tr = tr1 ++ hev e reply :: tr2 → pass_may r (pre ++ tr1) e) →
  node_answers tr = [].
Proof.
  revert pre. induction tr as [|[e reply] tr IH]; intros pre Hpre Hcalls; [done|].
  assert (node_answers tr = []) as Htr.
  { apply (IH (pre ++ [hev e reply])); [by destruct pre|]. intros tr1 e2 reply2 tr2 ->.
    rewrite <-app_assoc. by apply (Hcalls (hev e reply :: tr1) e2 reply2 tr2). }
  specialize (Hcalls [] e reply tr eq_refl). rewrite app_nil_r in Hcalls.
  unfold node_answers in *. destruct e; try exact Htr. by destruct Hcalls as [_ ->].
Qed.
Lemma answers_first r tr name node :
  (∀ tr1 e (reply : host_resp e) tr2, tr = tr1 ++ hev e reply :: tr2 → pass_may r tr1 e) →
  hev (ReadNode name) (Ok node) ∈ tr → node_answers tr = [Ok node].
Proof.
  intros Hcalls (tr1 & tr2 & ->)%list_elem_of_split.
  destruct (Hcalls tr1 (ReadNode name) (Ok node) tr2 eq_refl) as [_ ->]. cbn [app] in *.
  change (Ok node :: node_answers tr2 = [Ok node]).
  rewrite (answers_later r [hev (ReadNode name) (Ok node)] tr2); [done|done|].
  intros tr1 e2 reply2 tr3 ->. by apply (Hcalls (hev (ReadNode name) (Ok node) :: tr1) e2 reply2 tr3).
Qed.

(** The zone a reconciler keeps was listed under the name it resolved. *)
Definition zone_kept (r : reconciler) (tr : list (event host_sig)) : Prop :=
  r_zoneID r = "" ∨ zone_known (c_Zone (r_resolved r)) tr (r_zoneID r).

Lemma zone_of_known r cfg' hist pre zoneID : zone_kept r hist → zone_of r cfg' pre zoneID →
  zone_known (c_Zone cfg') (hist ++ pre) zoneID.
Proof.
  intros Hk [Hne [[-> Hz]|(_ & zones & Hin & Hid & _)]].
  - destruct Hk as [Hk|Hk]; [done|]. rewrite <-Hz. eapply zone_known_mono; [|exact Hk]. set_solver.
  - split; [done|]. exists zones. split; [|done]. set_solver.
Qed.

Lemma pass_may_life r hist pre e : zone_kept r hist → pass_may r pre e →
  life_may (r_cfg r) (hist ++ pre) e.
Proof.
  intros Hk. destruct e; cbn; try done.
  - by intros [-> _].
  - intros [?|(? & ? & _)]; [by left|by right].
  - intros (cfg' & Ha%resolved_attributed & [(_ & -> & _)|(_ & _ & _ & pre' & z & token & -> & Hz & Hcmd)]);
      exists cfg'; (split; [done|]); [by left|].
    right. exists z, token. split_and!; [set_solver|by eapply zone_of_known|done].
  - by intros (cfg' & (zone & ip & ->)%resolved_attributes & _ & ->).
Qed.

Lemma pass_may_start r hist pre e : zone_kept r hist →
  (∀ tr1 e (reply : host_resp e) tr2, pre = tr1 ++ hev e reply :: tr2 → pass_may r tr1 e) →
  pass_may r pre e → start_may (r_cfg r) (hist ++ pre) e.
Proof.
  intros Hk Hcalls. destruct e; cbn; try done. intros ((Hz & Hi & Hres) & _ & Hzone).
  split; [|by eapply zone_of_known]. split_and!; [done..|].
  destruct Hres as [->|(node & Hin & ->)]; [by left|right]. exists node. split; [|done].
  rewrite node_answers_app, (answers_first _ _ _ _ Hcalls Hin). apply last_snoc.
Qed.

Lemma reconcile_life r tr r' res hist : zone_kept r hist → exec (reconcile r) tr (r', res) →
  r_cfg r' = r_cfg r ∧ zone_kept r' (hist ++ tr) ∧
  (∀ x, x ∈ tr → life_may (r_cfg r) (hist ++ tr) (evt_call x)) ∧
  ∀ tr1 x tr2, tr = tr1 ++ x :: tr2 → start_may (r_cfg r) (hist ++ tr1) (evt_call x).
Proof.
  intros Hk Hx.
  assert (wp (pass_may r) [] (reconcile r) (λ pre a, r_cfg a.1 = r_cfg r ∧
    (r_zoneID a.1 = "" ∨ zone_of r (r_resolved a.1) pre (r_zoneID a.1)))) as Hwp
    by (apply reconcile_wp; by intros pre r1 res1 Hc Hz).
  destruct (wp_sound _ _ _ _ _ _ Hwp Hx) as [[Hc Hz] Hcalls]. cbn [app fst] in *. split_and!; [done|..].
  - destruct Hz as [?|Hz]; [by left|right]. by eapply zone_of_known.
  - intros [e reply] (tr1 & tr2 & ->)%list_elem_of_split. specialize (Hcalls _ _ _ _ eq_refl).
    eapply life_may_mono; [|by eapply pass_may_life]. cbn [app]. set_solver.
  - intros tr1 [e reply] tr2 ->. apply pass_may_start; [done| |by eapply Hcalls].
    intros tr3 e3 reply3 tr4 ->. eapply Hcalls. by rewrite <-app_assoc.
Qed.

(** The loop is its passes, with waits between them. *)
Definition in_pass (x : event host_sig) : bool :=
  match evt_call x with Wait _ | Cancelled => false | _ => true end.

Lemma reconcile_in_pass r tr a : exec (reconcile r) tr a → filter (λ x, in_pass x = true) tr = tr.
Proof.
  intros Hx%reconcile_not_wait. induction Hx as [|[e reply] tr He _ IH]; [done|].
  rewrite filter_cons_True by by destruct e. by rewrite IH.
Qed.

Lemma loop_passes r interval max delay failures n tr a :
  exec (loop r interval max delay failures n) tr a →
  ∃ trs r', passes r trs r' ∧ (length trs ≤ n)%nat ∧ filter (λ x, in_pass x = true) tr = concat trs.
Proof.
  revert r delay failures tr. induction n as [|n IH]; intros r delay failures tr; cbn [loop].
  { intros [-> ->]. exists [], r. split_and!; [constructor|done|done]. }
  intros (c & tr' & -> & Hx)%exec_hcall. rewrite filter_cons_False by done.
  destruct c; cbn [mbind prog_bind prog_bind_def] in Hx.
  { destruct Hx as [-> ->]. exists [], r. split_and!; [constructor|cbn; lia|done]. }
  apply exec_bind in Hx as (tr1 & [r1 res] & tr2 & -> & Hr & Hx).
  rewrite filter_app, (reconcile_in_pass _ _ _ Hr).
  assert (∀ tr3 delay failures, exec (loop r1 interval max delay failures n) tr3 a →
    filter (λ x, in_pass x = true) tr2 = filter (λ x, in_pass x = true) tr3 →
    ∃ trs r', passes r trs r' ∧ (length trs ≤ S n)%nat ∧
      tr1 ++ filter (λ x, in_pass x = true) tr2 = concat trs) as Hgo.
  { intros tr3 delay' failures' (trs & r' & Hp & Hl & Hf)%IH ->. exists (tr1 :: trs), r'.
    split_and!; [by econstructor|cbn; lia|by rewrite Hf]. }
  destruct res as [[]|e]; [by eapply Hgo|].
  apply exec_hcall in Hx as (c & tr3 & -> & Hx). destruct c; cbn [mbind prog_bind prog_bind_def] in Hx.
  - destruct Hx as [-> ->]. exists [tr1], r1. split_and!; [by econstructor; [|constructor]|cbn; lia|done].
  - eapply Hgo; [exact Hx|]. by rewrite filter_cons_False.
Qed.

Lemma passes_life r trs r' hist : passes r trs r' → zone_kept r hist →
  (∀ x, x ∈ concat trs → life_may (r_cfg r) (hist ++ concat trs) (evt_call x)) ∧
  ∀ tr1 x tr2, concat trs = tr1 ++ x :: tr2 → start_may (r_cfg r) (hist ++ tr1) (evt_call x).
Proof.
  intros Hp. revert hist. induction Hp as [r|r tr r1 res trs r2 Hx Hp IH]; intros hist Hk; cbn [concat].
  { split; [by intros x ?%not_elem_of_nil|]. by intros []. }
  destruct (reconcile_life _ _ _ _ _ Hk Hx) as (Hc & Hk1 & Hlife & Hstart).
  destruct (IH _ Hk1) as [IH1 IH2]. rewrite Hc in IH1, IH2. split.
  - intros x [Hin|Hin]%elem_of_app.
    + eapply life_may_mono; [|by apply Hlife]. set_solver.
    + rewrite app_assoc. by apply IH1.
  - intros tr1 x tr2 Heq. apply app_eq_inv in Heq as [(k & -> & Hk')|(k & -> & Hk')].
    + destruct k as [|y k]; cbn [app] in Hk'.
      * rewrite app_nil_r in *. specialize (IH2 [] x tr2 (eq_sym Hk')). by rewrite app_nil_r in IH2.
      * injection Hk' as -> ->. by eapply Hstart.
    + rewrite app_assoc. by eapply IH2.
Qed.

Lemma start_may_filter cfg tr e :
  start_may cfg (filter (λ x, in_pass x = true) tr) e → start_may cfg tr e.
Proof.
  assert (node_answers (filter (λ x, in_pass x = true) tr) = node_answers tr) as Ha.
  { induction tr as [|[e' reply] tr IH]; [done|]. rewrite filter_cons. unfold node_answers in *.
    case_decide as Hi; [by cbn [omap list_omap]; rewrite IH|]. by destruct e'. }
  destruct e; try done. unfold start_may, current. rewrite Ha. intros [? Hz]. split; [done|].
  eapply zone_known_mono; [|exact Hz]. by intros x [_ ?]%list_elem_of_filter.
Qed.

(** A whole run of the loop: what it may do, what it starts the plugin with,
    and that it starts it at most once. *)
Lemma loop_life cfg interval max delay failures n tr a :
  exec (loop (initial cfg) interval max delay failures n) tr a →
  (∀ x, x ∈ tr → life_may cfg tr (evt_call x)) ∧
  (∀ tr1 x tr2, tr = tr1 ++ x :: tr2 → start_may cfg tr1 (evt_call x)) ∧
  ((Z.of_nat n ≤ max_int64)%Z → (ReconcileSpec.starts tr ≤ 1)%nat).
Proof.
  intros (trs & r' & Hp & Hl & Hf)%loop_passes.
  destruct (passes_life _ _ _ [] Hp (or_introl eq_refl)) as [Hlife Hstart]. split_and!.
  - intros x Hx. destruct (in_pass x) eqn:Hi.
    + eapply (life_may_mono _ (concat trs)).
      { rewrite <-Hf. intros y [_ Hy]%list_elem_of_filter. done. }
      apply Hlife. rewrite <-Hf. by apply list_elem_of_filter.
    + destruct x as [[] ?]; done.
  - intros tr1 x tr2 ->. destruct (in_pass x) eqn:Hi; [|destruct x as [[] ?]; done].
    apply start_may_filter, (Hstart _ x (filter (λ x, in_pass x = true) tr2)).
    by rewrite <-Hf, filter_app, filter_cons_True.
  - intros Hn. pose proof (passes_starts _ _ _ 0 Hp (initial_counters_ok cfg) ltac:(lia)) as Hs.
    assert (ReconcileSpec.starts tr = ReconcileSpec.starts (concat trs)) as ->.
    { rewrite <-Hf. unfold ReconcileSpec.starts. rewrite list_filter_filter_l; [done|]. by intros [[] ?]. }
    destruct (r_pluginStarted r'); cbn [r_pluginStarted initial flag] in Hs; lia.
Qed.
End life.

(* -------------------------------------------------------------------- *)
(** ** What a run of the daemon shows *)

(** The commands it ran. *)
Definition command_of (x : event daemon_sig) : option (string * list string) :=
  match evt_call x with
  | inr (inr (RunCombined c)) | inr (inr (RunStreaming c)) => Some c
  | _ => None
  end.

(** The starts of the kubelet plugin, and whether they succeeded. *)
Definition kubelet_of (x : event daemon_sig) : option (plugin * plugin_options * bool) :=
  let 'Ev e r := x in
  match e return resp daemon_sig e → option (plugin * plugin_options * bool) with
  | inl (inr (KubeletStart p o)) => λ r : result unit, Some (p, o, is_ok r)
  | _ => λ _, None
  end r.
Definition kubelet_starts (tr : list (event daemon_sig)) : list (plugin * plugin_options * bool) :=
  omap kubelet_of tr.
Definition kubelet_ok (tr : list (event daemon_sig)) : nat :=
  length (filter (λ k, k.2 = true) (kubelet_starts tr)).

(** What it asked for the node object, and what it was answered. *)
Definition node_read_of (x : event daemon_sig) : option (event reader_sig) :=
  let 'Ev e r := x in
  match e return resp daemon_sig e → option (event reader_sig) with
  | inr (inl e) => λ r : reader_resp e, Some (Ev (S:=reader_sig) e r)
  | _ => λ _, None
  end r.
Definition node_reads (tr : list (event daemon_sig)) : list (event reader_sig) := omap node_read_of tr.

Definition zone_listed (name : string) (tr : list (event daemon_sig)) (zoneID : string) : Prop :=
  zoneID ≠ "" ∧ ∃ zones, mev ZoneList (Ok zones) ∈ tr ∧ zoneID ∈ zone_ids name zones.

(** The shell line of an installation, for a token Thunder minted in the run
    for a zone it listed under the node's zone. *)
Definition installs `{UnicodeTables, HostLibs} (cfg' : Config) (tr : list (event daemon_sig)) (line : string) : Prop :=
  ∃ zoneID token, mev (ServerEnroll zoneID) (Ok token) ∈ tr ∧ zone_listed (c_Zone cfg') tr zoneID ∧
    enrollment_command cfg' token = Ok line.

(** Everything the daemon ever runs on the node. *)
Definition node_command `{UnicodeTables, HostLibs} (cfg : Config) (tr : list (event daemon_sig))
    (name : string) (args : list string) : Prop :=
  (name = "thunder" ∧ args = ["status"; "--json"]) ∨
  (name = c_NVSMIPath cfg ∧ args ∈ nvidia_queries) ∨
  (name = "journalctl" ∧ args = ["--unit"; trim_space (c_ThunderdLogUnit cfg); "--follow"; "--lines"; "0";
                                 "--output"; "cat"; "--no-pager"]) ∨
  (name = "/bin/sh" ∧ ∃ line cfg', args = ["-c"; line] ∧ attributed cfg cfg' ∧
    (sh_words line = Some ["THUNDERD_TRANSIENT=1"; "thunder"; "up"; "--ip"; c_AdvertisedIP cfg';
                           "--zone"; c_Zone cfg'; "--node-name"; c_Node cfg] ∨ installs cfg' tr line)).

Lemma lift_l_calls {S T A} (p : prog S A) tr a x :
  exec (lift_l (T:=T) p) tr a → x ∈ tr → ∃ e, evt_call x = inl e.
Proof. intros (tr' & -> & _)%exec_lift_l ([e r] & -> & _)%list_elem_of_fmap. by exists e. Qed.
Lemma lift_r_calls {S T A} (p : prog T A) tr a x :
  exec (lift_r (S:=S) p) tr a → x ∈ tr → ∃ e, evt_call x = inr e.
Proof.
  intros (hs & _ & Hl)%exec_link Hx. destruct (linked_for _ _ _ _ Hl Hx) as ([e r] & tr1 & _ & Hc & Hin).
  destruct Hc as (r' & ? & -> & -> & _). apply list_elem_of_singleton in Hin as ->. by exists e.
Qed.

Lemma exec_mcall {B} e (f : machine_resp e → prog daemon_sig B) tr b :
  exec (mcall e ≫= f) tr b ↔ ∃ r tr', tr = mev e r :: tr' ∧ exec (f r) tr' b.
Proof. done. Qed.
Lemma exec_mcall_only e tr r : exec (mcall e) tr r ↔ tr = [mev e r].
Proof. split; [by intros (r' & ? & -> & -> & ->)|]. intros ->. by exists r, []. Qed.

(** Printing calls nothing else. *)
Lemma print_lines_calls lines tr u x : exec (print_lines lines) tr u → x ∈ tr →
  ∃ line, evt_call x = inr (inr (LogPrint line)).
Proof.
  revert tr. induction lines as [|line lines IH]; intros tr.
  { intros [-> _] ?%not_elem_of_nil. done. }
  intros (r & tr' & -> & Hx)%exec_mcall [->|Hin]%elem_of_cons; [by exists line|by eapply IH].
Qed.
Lemma stream_calls onLine c tr r x : exec (stream onLine c) tr r → x ∈ tr →
  evt_call x = inr (inr (RunStreaming c)) ∨ ∃ line, evt_call x = inr (inr (LogPrint line)).
Proof.
  intros ((output & err) & tr' & -> & Hx) [->|Hin]%elem_of_cons; [by left|right].
  cbn [mbind prog_bind prog_bind_def] in Hx. apply exec_bind in Hx as (tr1 & [] & tr2 & -> & Hp & [-> _]). rewrite app_nil_r in Hin.
  by eapply print_lines_calls.
Qed.

Section runs.
Context `{UnicodeTables, LibErrors, HostLibs, Certificates, ClientCommands}.
Context (lookup : string → option string) (cfg : Config).

(** What serves a call of the loop runs that call's command, if it has one. *)
Lemma host_impl_command e tr r x c : exec (host_impl lookup cfg e) tr r → x ∈ tr → command_of x = Some c →
  (∃ name args, e = CombinedOutput name args ∧ c = command (c_HostTargetPID cfg) name args) ∨
  (∃ label shell, e = RunShell label shell ∧ c = shell_command (c_HostTargetPID cfg) shell).
Proof.
  intros Hx Hin Hc. destruct e; cbn [host_impl] in Hx.
  1: destruct (lift_r_calls _ _ _ _ Hx Hin) as [[e|e] He]; unfold command_of in Hc; rewrite He in Hc; [done|].
  (* the reader makes no call of the machine's *)
  - exfalso. apply exec_link in Hx as (hs & Hx & Hl).
    destruct (linked_for _ _ _ _ Hl Hin) as ([e' r'] & tr1 & Hy & (? & ? & -> & -> & _) & Hin').
    apply list_elem_of_singleton in Hin'. subst x. cbn in He. injection He as ->.
    by destruct (lift_l_calls _ _ _ _ Hx Hy) as [? ?].
  - apply exec_mcall_only in Hx as ->. apply list_elem_of_singleton in Hin as ->. done.
  - apply exec_mcall_only in Hx as ->. apply list_elem_of_singleton in Hin as ->. done.
  - exfalso. apply exec_bind in Hx as (tr1 & a & tr2 & -> & Hx & [-> _]). rewrite app_nil_r in Hin.
    destruct (lift_l_calls _ _ _ _ Hx Hin) as [e He]. unfold command_of in Hc. by rewrite He in Hc.
  - apply exec_mcall_only in Hx as ->. apply list_elem_of_singleton in Hin as ->.
    injection Hc as <-. left. by eexists _, _.
  - apply exec_bind in Hx as (tr1 & a & tr2 & -> & Hx & [-> _]). rewrite app_nil_r in Hin.
    destruct (stream_calls _ _ _ _ _ Hx Hin) as [He|[line He]]; unfold command_of in Hc; rewrite He in Hc; [|done].
    injection Hc as <-. right. by eexists _, _.
  - apply exec_mcall_only in Hx as ->. apply list_elem_of_singleton in Hin as ->. done.
  - exfalso. apply exec_bind in Hx as (tr1 & [a b] & tr2 & -> & Hx & [-> _]). rewrite app_nil_r in Hin.
    destruct (lift_l_calls _ _ _ _ Hx Hin) as [e He]. unfold command_of in Hc. by rewrite He in Hc.
  - exfalso. destruct (lift_l_calls _ _ _ _ Hx Hin) as [e He]. unfold command_of in Hc. by rewrite He in Hc.
  - apply exec_mcall_only in Hx as ->. apply list_elem_of_singleton in Hin as ->. done.
  - apply exec_mcall_only in Hx as ->. apply list_elem_of_singleton in Hin as ->. done.
Qed.
(** Serving one call starts the kubelet plugin only for the call that is to
    start it, and succeeds with it. *)
Lemma not_kubelet_l tr : (∀ x : event daemon_sig, x ∈ tr → kubelet_of x = None) → kubelet_starts tr = [].
Proof.
  induction tr as [|x tr IH]; intros Hno; [done|]. unfold kubelet_starts in *. cbn [omap list_omap].
  rewrite (Hno x) by by left. apply IH. intros y Hy. apply Hno. by right.
Qed.
Lemma machine_not_kubelet e r : kubelet_of (mev e r) = None.
Proof. done. Qed.
Lemma right_not_kubelet (x : event daemon_sig) e : evt_call x = inr e → kubelet_of x = None.
Proof. destruct x as [? r]. cbn. by intros ->. Qed.
Lemma files_not_kubelet (x : event daemon_sig) e : evt_call x = inl (inl e) → kubelet_of x = None.
Proof. destruct x as [? r]. cbn. by intros ->. Qed.

Lemma lift_files_not_kubelet {A} (p : prog os_sig A) tr a :
  exec (lift_l (T:=sig_sum reader_sig machine_sig) (lift_l (T:=setup_sig) p)) tr a → kubelet_starts tr = [].
Proof.
  intros (tr' & -> & (tr2 & -> & _)%exec_lift_l)%exec_lift_l. apply not_kubelet_l.
  intros x (y & -> & ([e r] & -> & _)%list_elem_of_fmap)%list_elem_of_fmap. done.
Qed.

Lemma kubelet_lifted (tr : list (event plugin_sig)) :
  kubelet_starts (event_l (T:=sig_sum reader_sig machine_sig) <$> tr) = [] ↔ starts tr = [].
Proof.
  induction tr as [|[e r] tr IH]; [done|]. unfold kubelet_starts, starts in *. cbn [fmap list_fmap omap list_omap event_l].
  destruct e as [e|[]]; cbn; done.
Qed.

Lemma host_impl_kubelet e tr r : exec (host_impl lookup cfg e) tr r →
  (∀ cfg' z, e = StartPlugin cfg' z → named cfg') →
  kubelet_starts tr = [] ∨ ∃ cfg' z, c_DRAEnabled cfg' = true ∧ evt_call (hev e r) = StartPlugin cfg' z ∧
    kubelet_starts tr = [(plugin_of cfg' z (hook_target cfg'), started_options cfg', started (hev e r))].
Proof.
  intros Hx Hn. destruct e; cbn [host_impl] in Hx.
  - left. apply not_kubelet_l. intros x Hin. destruct (lift_r_calls _ _ _ _ Hx Hin) as [e He].
    by eapply right_not_kubelet.
  - apply exec_mcall_only in Hx as ->. by left.
  - apply exec_mcall_only in Hx as ->. by left.
  - left. apply exec_bind in Hx as (tr1 & a & tr2 & -> & Hx & [-> _]). rewrite app_nil_r.
    by eapply lift_files_not_kubelet.
  - apply exec_mcall_only in Hx as ->. by left.
  - left. apply exec_bind in Hx as (tr1 & a & tr2 & -> & Hx & [-> _]). rewrite app_nil_r.
    apply not_kubelet_l. intros x Hin. destruct (stream_calls _ _ _ _ _ Hx Hin) as [He|[line He]];
      by eapply right_not_kubelet.
  - apply exec_mcall_only in Hx as ->. by left.
  - left. apply exec_bind in Hx as (tr1 & [a b] & tr2 & -> & Hx & [-> _]). rewrite app_nil_r.
    by eapply lift_files_not_kubelet.
  - apply exec_lift_l in Hx as (tr' & -> & Hx).
    apply startDRAPlugin_exec in Hx as [(_ & -> & _)|[(_ & Hs & _)|(pre & answer & Hd & -> & Hs & Hr)]];
      [by left|left; by apply kubelet_lifted| |by eapply Hn].
    right. eexists _, _. split_and!; [done|done|].
    unfold kubelet_starts. rewrite fmap_app, omap_app. apply prepared_starts, kubelet_lifted in Hs. unfold kubelet_starts in Hs.
    rewrite Hs. cbn. by rewrite <-Hr.
  - apply exec_mcall_only in Hx as ->. by left.
  - apply exec_mcall_only in Hx as ->. by left.
Qed.

Lemma kubelet_starts_app tr1 tr2 : kubelet_starts (tr1 ++ tr2) = kubelet_starts tr1 ++ kubelet_starts tr2.
Proof. apply omap_app. Qed.

Lemma linked_kubelet_ok hs tr : linked (host_impl lookup cfg) hs tr →
  (∀ x cfg' z, x ∈ hs → evt_call x = StartPlugin cfg' z → named cfg') →
  (kubelet_ok tr ≤ ReconcileSpec.starts hs)%nat.
Proof.
  unfold kubelet_ok. revert tr. induction hs as [|y hs IH]; intros tr; cbn [linked].
  { intros -> _. cbn. lia. }
  intros (tr1 & tr2 & -> & Hf & Hl) Hn.
  specialize (IH _ Hl ltac:(intros x cfg' z Hx; eapply Hn; by right)).
  rewrite kubelet_starts_app, filter_app, length_app.
  assert (ReconcileSpec.starts (y :: hs) = (if started y then 1 else 0) + ReconcileSpec.starts hs)%nat as ->.
  { unfold ReconcileSpec.starts. rewrite filter_cons. by destruct (started y). }
  apply host_impl_kubelet in Hf as [Hf|(cfg' & z & Hd & He & Hf)]; [..|intros cfg' z He; by eapply Hn; [left|]].
  - rewrite Hf. cbn. lia.
  - rewrite Hf. assert (hev (evt_call y) (evt_reply y) = y) as -> by by destruct y.
    rewrite filter_cons, filter_nil. destruct (started y); cbn [snd]; case_decide; cbn [length app]; try done; lia.
Qed.

(** A start of the kubelet plugin is the service of the loop's call for it. *)
Lemma kubelet_call e tr1 x tr2 r k : exec (host_impl lookup cfg e) (tr1 ++ x :: tr2) r →
  (∀ cfg' z, e = StartPlugin cfg' z → named cfg') → kubelet_of x = Some k →
  ∃ cfg' z, e = StartPlugin cfg' z ∧ c_DRAEnabled cfg' = true ∧
    k.1 = (plugin_of cfg' z (hook_target cfg'), started_options cfg').
Proof.
  intros Hx Hn Hk. apply host_impl_kubelet in Hx as [Hs|(cfg' & z & Hd & He & Hs)]; [..|done];
    rewrite kubelet_starts_app in Hs; unfold kubelet_starts at 2 in Hs; cbn [omap list_omap] in Hs;
    rewrite Hk in Hs.
  - by apply app_eq_nil in Hs as [_ [=]].
  - exists cfg', z. split_and!; [done..|].
    destruct (kubelet_starts tr1) as [|k1 ks]; injection Hs; [by intros _ ->|].
    by intros [_ [=]]%app_eq_nil.
Qed.

(** Only the call for the node object reads it. *)
Lemma node_reads_app tr1 tr2 : node_reads (tr1 ++ tr2) = node_reads tr1 ++ node_reads tr2.
Proof. apply omap_app. Qed.
Definition not_reader (x : event daemon_sig) : Prop :=
  match evt_call x with inr (inl _) => False | _ => True end.
Lemma not_reader_none x : not_reader x → node_read_of x = None.
Proof. by destruct x as [[e|[e|e]] r]. Qed.
Lemma no_reads tr : (∀ x : event daemon_sig, x ∈ tr → not_reader x) → node_reads tr = [].
Proof.
  induction tr as [|x tr IH]; intros Hno; [done|]. unfold node_reads in *. cbn [omap list_omap].
  rewrite (not_reader_none x) by (apply Hno; by left). apply IH. intros y Hy. apply Hno. by right.
Qed.
Lemma lifted_no_reads {A} (p : prog plugin_sig A) tr a :
  exec (lift_l (T:=sig_sum reader_sig machine_sig) p) tr a → node_reads tr = [].
Proof.
  intros Hx. apply no_reads. intros x Hin. destruct (lift_l_calls _ _ _ _ Hx Hin) as [e He].
  unfold not_reader. by rewrite He.
Qed.
Lemma stream_no_reads onLine c tr r x : exec (stream onLine c) tr r → x ∈ tr → not_reader x.
Proof.
  intros Hx Hin. unfold not_reader. by destruct (stream_calls _ _ _ _ _ Hx Hin) as [->|[line ->]].
Qed.

Lemma host_impl_reads e tr r : exec (host_impl lookup cfg e) tr r →
  match e return host_resp e → Prop with
  | ReadNode name => λ r : result NodeInfo, exec (fetch_node lookup name) (node_reads tr) r
  | _ => λ _, node_reads tr = []
  end r.
Proof.
  intros Hx. destruct e; cbn [host_impl] in Hx; try (by apply exec_mcall_only in Hx as ->).
  - apply exec_lift_r in Hx as (tr1 & -> & (tr2 & -> & Hx)%exec_lift_l).
    assert (node_reads (event_r (S:=plugin_sig) <$> (event_l (T:=machine_sig) <$> tr2)) = tr2) as ->; [|done].
    clear. induction tr2 as [|[e r] tr2 IH]; [done|]. unfold node_reads in *. cbn. by rewrite IH.
  - apply exec_bind in Hx as (tr1 & a & tr2 & -> & Hx & [-> _]). rewrite app_nil_r. by eapply lifted_no_reads.
  - apply exec_bind in Hx as (tr1 & a & tr2 & -> & Hx & [-> _]). rewrite app_nil_r.
    apply no_reads. intros x. by eapply stream_no_reads.
  - apply exec_bind in Hx as (tr1 & [a b] & tr2 & -> & Hx & [-> _]). rewrite app_nil_r. by eapply lifted_no_reads.
  - by eapply lifted_no_reads.
Qed.

(** The node as the loop last read it is the node as the daemon last read it. *)
Lemma linked_reads hs tr node : linked (host_impl lookup cfg) hs tr →
  (∀ x name, x ∈ hs → evt_call x = ReadNode name → name = c_Node cfg) →
  last (node_answers hs) = Some (Ok node) →
  ∃ earlier reads, node_reads tr = earlier ++ reads ∧ exec (fetch_node lookup (c_Node cfg)) reads (Ok node).
Proof.
  revert tr. induction hs as [|[e reply] hs IH] using rev_ind; intros tr; [done|].
  intros (tr1 & ? & -> & Hl & tr2 & ? & -> & Hf & ->)%linked_app Hname Hlast. rewrite app_nil_r.
  unfold node_answers in Hlast. rewrite omap_app in Hlast.
  cbn [evt_call evt_reply] in Hf. apply host_impl_reads in Hf. rewrite node_reads_app.
  destruct e; [|cbn [omap list_omap] in Hlast; rewrite app_nil_r in Hlast; rewrite Hf, app_nil_r;
    apply IH; [done|intros x name' Hx; apply Hname; set_solver|exact Hlast]..].
  cbn [omap list_omap] in Hlast. rewrite last_snoc in Hlast. injection Hlast as ->.
  exists (node_reads tr1), (node_reads tr2). split; [done|].
  rewrite <-(Hname (hev (ReadNode name) (Ok node)) name); [done|set_solver|done].
Qed.


(** The log follower runs the one command. *)
Lemma follow_wp unit delay failures n pre :
  wp (S:=log_sig) (λ _ (e : log_ev), match e with LogStream name args => name = "journalctl" ∧
      args = ["--unit"; unit; "--follow"; "--lines"; "0"; "--output"; "cat"; "--no-pager"] | _ => True end)
    pre (follow_loop unit delay failures n) (λ _ _, True).
Proof using Type.
  revert delay failures pre. induction n as [|n IH]; intros delay failures pre; [done|]. cbn [follow_loop].
  unfold lcall. apply wp_call_bind; [done|]. intros stopped. destruct (stopped : bool); [done|].
  apply wp_call_bind; [done|]. intros err. apply wp_call_bind; [done|]. intros cancelled.
  destruct (cancelled : bool); [done|]. apply wp_call_bind; [done|]. intros elapsed. apply IH.
Qed.

Lemma logs_part m tr b x : exec (run_logs_part cfg m) tr b → x ∈ tr →
  (kubelet_of x = None ∧ not_reader x) ∧ ∀ c, command_of x = Some c →
    c = command (c_HostTargetPID cfg) "journalctl" ["--unit"; trim_space (c_ThunderdLogUnit cfg); "--follow";
      "--lines"; "0"; "--output"; "cat"; "--no-pager"].
Proof using Type.
  unfold run_logs_part, followThunderdLogs. intros (hs & Hx & Hl)%exec_link Hin.
  destruct (_ || _); [destruct Hx as [-> _]; cbn in Hl; subst; by apply not_elem_of_nil in Hin|].
  destruct (linked_for _ _ _ _ Hl Hin) as ([e r] & tr1 & Hy & He & Hin1). cbn [evt_call evt_reply] in He.
  destruct (wp_sound _ [] _ _ _ _ (follow_wp _ _ _ _ []) Hx) as [_ Hcalls].
  apply list_elem_of_split in Hy as (hs1 & hs2 & ->). specialize (Hcalls _ _ _ _ eq_refl).
  destruct e; cbn [log_impl] in He.
  2:{ destruct Hcalls as [-> ->]. unfold command_of.
    destruct (stream_calls _ _ _ _ _ He Hin1) as [Hc|[line Hc]]; rewrite Hc;
      (split; [split; [by eapply right_not_kubelet|unfold not_reader; by rewrite Hc]|]).
    - by intros c [= <-].
    - done. }
  all: apply exec_mcall_only in He as ->; apply list_elem_of_singleton in Hin1 as ->; done.
Qed.

(** What the loop saw, the run saw. *)
Lemma served_listed hs tr name zoneID : linked (host_impl lookup cfg) hs tr →
  zone_known name hs zoneID → zone_listed name tr zoneID.
Proof using Type.
  intros Hl (Hne & zones & Hin & Hid). split; [done|]. exists zones. split; [|done].
  destruct (linked_served _ _ _ _ Hl Hin) as (tr1 & Hx & Hsub).
  apply Hsub. apply (exec_mcall_only ZoneList) in Hx as ->. by left.
Qed.
Lemma served_minted hs tr zoneID (r : result ServerEnrollment) : linked (host_impl lookup cfg) hs tr →
  hev (CreateServerEnrollment zoneID) r ∈ hs → mev (ServerEnroll zoneID) r ∈ tr.
Proof using Type.
  intros Hl Hin. destruct (linked_served _ _ _ _ Hl Hin) as (tr1 & Hx & Hsub).
  apply Hsub. apply (exec_mcall_only (ServerEnroll zoneID)) in Hx as ->. by left.
Qed.

(** The commands of the loop's part of a run. *)
Lemma loop_part_command hs tr x c : (∀ x, x ∈ hs → life_may cfg hs (evt_call x)) →
  linked (host_impl lookup cfg) hs tr → x ∈ tr → command_of x = Some c →
  ∃ name args, c = command (c_HostTargetPID cfg) name args ∧ node_command cfg tr name args.
Proof using Type.
  intros Hlife Hl Hin Hc. destruct (linked_for _ _ _ _ Hl Hin) as (y & tr1 & Hy & Hf & Hin1).
  specialize (Hlife y Hy).
  destruct (host_impl_command _ _ _ _ _ Hf Hin1 Hc) as [(name & args & He & ->)|(label & shell & He & ->)];
    rewrite He in Hlife.
  - exists name, args. split; [done|]. destruct Hlife as [[= -> ->]|[-> ?]]; [by left|by right; left].
  - exists "/bin/sh", ["-c"; shell]. split; [done|]. do 3 right. split; [done|].
    destruct Hlife as (cfg' & Ha & Hline). exists shell, cfg'. split_and!; [done..|].
    destruct Hline as [->|(zoneID & token & Hmint & Hz & Hcmd)].
    + left. rewrite restart_command_words. by destruct Ha as (_ & _ & zone & ip & ->).
    + right. exists zoneID, token. split_and!; [by eapply served_minted|by eapply served_listed|done].
Qed.

(** The zone name of the node: the one configured, or else the one on the node
    object as the last request for it returned it. *)
Definition zone_now (before : list (event daemon_sig)) (zone : string) : Prop :=
  zone ≠ "" ∧
  if bool_decide (c_Zone cfg = "") then
    ∃ earlier reads node, node_reads before = earlier ++ reads ∧
      exec (fetch_node lookup (c_Node cfg)) reads (Ok node) ∧
      zone = trim_space (label (ni_Labels node) (c_ZoneLabel cfg))
  else zone = c_Zone cfg.

Lemma current_attributes hs cfg' : current cfg hs cfg' → ∃ zone ip, cfg' = with_attributes cfg zone ip.
Proof using Type.
  intros (_ & _ & [->|(node & _ & ->)]); [|by eexists _, _].
  exists (c_Zone cfg), (c_AdvertisedIP cfg). by destruct cfg.
Qed.

Lemma current_zone hs tr before cfg' : current cfg hs cfg' → linked (host_impl lookup cfg) hs tr →
  (∀ x name, x ∈ hs → evt_call x = ReadNode name → name = c_Node cfg) →
  node_reads tr = node_reads before → zone_now before (c_Zone cfg').
Proof using Type.
  intros (Hz & _ & Hcur) Hl Hname Hreads. split; [done|].
  destruct Hcur as [->|(node & Hlast & ->)]; [by rewrite bool_decide_false|].
  cbn [with_attributes c_Zone]. unfold node_zone. case_bool_decide; [|done].
  destruct (linked_reads _ _ _ Hl Hname Hlast) as (earlier & reads & Heq & Hx).
  exists earlier, reads, node. by rewrite <-Hreads.
Qed.
End runs.

Section theorems.
Context `{UnicodeTables, LibErrors, HostLibs, Certificates, ClientCommands}.


(** C8: whatever happens in the life of a daemon with an accepted
    configuration, of fewer than 2^63 passes, the kubelet plugin is started
    successfully at most once, never with the DRA plugin off, and always as
    the configuration says: with a driver that lacks nothing, whose stores
    agree on where things are, and which mints its tokens in a zone that
    Thunder had listed under the zone name of the node - the one configured
    or, where none is, the one on the node object as the daemon had last read
    it, so not under a name the node had before. *)
Theorem daemon_plugin_once lookup cfg n m tr a :
  configFromLookup lookup = Ok cfg → (Z.of_nat n ≤ max_int64)%Z → run_daemon lookup cfg n m tr a →
  (kubelet_ok tr ≤ 1)%nat ∧
  ∀ before x after p options ok, tr = before ++ x :: after → kubelet_of x = Some (p, options, ok) →
    c_DRAEnabled cfg = true ∧ options = started_options cfg ∧
    ∃ zone zoneID, zone_now lookup cfg before zone ∧ zone_listed zone before zoneID ∧ wired cfg zoneID p.
Proof.
  intros Hcfg%accepted_named Hn (tr1 & tr2 & rest & b & (hs & Hx & Hl)%exec_link & Hlogs & Hi).
  apply loop_life in Hx as (Hlife & Hstart & Hs). specialize (Hs Hn).
  assert (∀ x, x ∈ tr2 → kubelet_of x = None ∧ not_reader x) as Hlogs2.
  { intros x Hin. eapply (logs_part _ _ _ _ x Hlogs). apply elem_of_app. by left. }
  assert (∀ x cfg' z, x ∈ hs → evt_call x = StartPlugin cfg' z → named cfg') as Hnamed.
  { intros x cfg' z (h1 & h2 & ->)%list_elem_of_split He. specialize (Hstart _ _ _ eq_refl).
    rewrite He in Hstart. by destruct Hstart as [(zone & ip & ->)%current_attributes _]. }
  split.
  { unfold kubelet_ok, kubelet_starts. rewrite (interleaved_omap _ _ _ _ Hi) by (intros; by apply Hlogs2).
    pose proof (linked_kubelet_ok _ _ _ _ Hl Hnamed) as Hok. unfold kubelet_ok, kubelet_starts in Hok. lia. }
  intros before x after p options ok -> Hk.
  apply interleaved_split in Hi as [Hin|(before1 & after1 & before2 & -> & Hsub & Hi)].
  { destruct (Hlogs2 x Hin) as [Hno _]. by rewrite Hno in Hk. }
  apply linked_split in Hl as (hs1 & y & hs2 & t0 & t1 & t2 & -> & -> & Hl & Hf).
  apply (kubelet_call _ _ _ _ _ _ _ _ Hf) in Hk as (cfg' & z & He & Hd & [= -> ->]).
  2:{ intros cfg' z He. eapply Hnamed; [|exact He]. set_solver. }
  specialize (Hstart hs1 y hs2 eq_refl). destruct y as [e reply]. cbn [evt_call evt_reply] in *. subst e.
  destruct Hstart as [Hcur Hzone].
  assert (node_reads before = node_reads t0) as Hreads.
  { unfold node_reads. rewrite (interleaved_omap _ _ _ _ Hi).
    2:{ intros x' ?. by apply not_reader_none, Hlogs2, Hsub. }
    rewrite omap_app. apply host_impl_reads in Hf. unfold node_reads in Hf. rewrite omap_app in Hf.
    apply app_eq_nil in Hf as [-> _]. apply app_nil_r. }
  destruct (current_attributes _ _ _ Hcur) as (zone & ip & ->). split_and!; [done..|].
  exists (c_Zone (with_attributes cfg zone ip)), z. split_and!.
  - eapply current_zone; [exact Hcur|exact Hl| |by symmetry].
    intros x' name Hin He'. specialize (Hlife x' ltac:(set_solver)). by rewrite He' in Hlife.
  - eapply served_listed in Hzone as (? & zones & ? & ?); [|exact Hl]. split; [done|]. exists zones.
    split; [|done]. apply interleaved_perm in Hi. rewrite Hi, !elem_of_app. by left; left.
  - exact (plugin_of_wired (with_attributes cfg zone ip) z Hcfg).
Qed.
End theorems.

Section witnesses.
#[local] Existing Instances ascii_tables status_errors any_certificate sample_commands.

(** A node in zone "a" that is enrolled and whose thunderd is down. *)
Definition daemon_libs : HostLibs :=
  {| ServerEnrollmentCommand req := "curl | sudo sh -s " +:+ cr_EnrollmentToken req;
     json_status output :=
       if bool_decide (output = "down") then Ok (sample_status "failed" false true) else Err (ErrLib "json");
     json_node _ := Ok (NodeObject {[ DefaultZoneLabel := "a" ]} [Address "InternalIP" "10.0.0.1"]) |}.
#[local] Existing Instance daemon_libs.

Definition machine_handler : handler machine_sig fs := λ e w,
  (match e return machine_resp e with
   | RunCombined _ => ("down", None)
   | RunStreaming _ => ("one" +:+ newline +:+ "two" +:+ newline, None)
   | LogPrint _ => tt
   | ZoneList => Ok [MkZone "z1" "a"]
   | ZoneCreate _ => Ok tt
   | ServerEnroll _ => Ok (Enrollment "tok" "id")
   | Timer _ | ContextDone => false
   | SinceStarted => 0%Z
   end, w).
Definition account_reader : handler reader_sig fs := λ e w, ((api_handler e tt).1, w).
Definition daemon_handler : handler daemon_sig fs :=
  handler_sum willing_handler (handler_sum account_reader machine_handler).
Definition daemon_env (key : string) : option string :=
  match cluster_env key with Some v => Some v | None => minimal_env key end.
Definition sample_daemon : prog daemon_sig (option unit) :=
  run_loop_part daemon_env DaemonConfig.sample_config 2.
Definition sample_logs : prog daemon_sig (option unit) := run_logs_part DaemonConfig.sample_config 1.
Definition sample_daemon_trace : list (event daemon_sig) :=
  trace daemon_handler sample_daemon daemon_node ++ trace daemon_handler sample_logs daemon_node.

Lemma sample_daemon_run :
  run_daemon daemon_env DaemonConfig.sample_config 2 1 sample_daemon_trace
    (run daemon_handler sample_daemon daemon_node).1.
Proof.
  exists (trace daemon_handler sample_daemon daemon_node), (trace daemon_handler sample_logs daemon_node), [],
    (run daemon_handler sample_logs daemon_node).1.
  split; [exact (run_exec daemon_handler sample_daemon daemon_node)|]. split; [|apply interleaved_app].
  rewrite app_nil_r. exact (run_exec daemon_handler sample_logs daemon_node).
Qed.


Lemma daemon_plugin_once_witness :
  kubelet_ok sample_daemon_trace = 1%nat ∧
  ∃ before p zone zoneID, before ⊆ sample_daemon_trace ∧
    zone_now daemon_env DaemonConfig.sample_config before zone ∧ zone_listed zone before zoneID ∧
    wired DaemonConfig.sample_config zoneID p.
Proof.
  assert (configFromLookup daemon_env = Ok DaemonConfig.sample_config) as Hcfg by (vm_compute; reflexivity).
  assert (kubelet_ok sample_daemon_trace = 1%nat) as Hok by (vm_compute; reflexivity). split; [exact Hok|].
  assert (length (kubelet_starts sample_daemon_trace) = 1%nat) as Hlen by (vm_compute; reflexivity).
  destruct (daemon_plugin_once daemon_env DaemonConfig.sample_config 2 1 sample_daemon_trace _ Hcfg
    ltac:(by vm_compute) sample_daemon_run) as [_ Hall].
  destruct (kubelet_starts sample_daemon_trace) as [|[[p options] ok] ks] eqn:Hks; [discriminate Hlen|].
  assert ((p, options, ok) ∈ kubelet_starts sample_daemon_trace) as Hin by (rewrite Hks; by left).
  apply list_elem_of_omap in Hin as (x & Hin & Hx). apply list_elem_of_split in Hin as (before & after & Htr).
  destruct (Hall before x after p options ok Htr Hx) as (_ & _ & zone & zoneID & Hnow & Hz & Hw).
  exists before, p, zone, zoneID. split; [|exact (conj Hnow (conj Hz Hw))].
  rewrite Htr. intros y Hy. apply elem_of_app. by left.
Defined.
End witnesses.
