(* ===== verification/DaemonMain.v ===== *)
(** * The daemon's entry point

    cmd/daemon/main.go: the same binary is the daemon and the CDI hook that the
    container runtime runs, told apart by its first argument. *)

From S2P Require Import Prelude GoStrings Float64 Labels ResourceSlice Driver DaemonConfig GoPath Shell.
From S2P Require Import Host Nvidia NodeAttributes Reconcile ReconcileSpec Logs Version NodeReader.
From S2P Require Import GoTime Json ClientStore GuestStore OS ClientConfig CDIStore TokenIssuer Libthunder CDIHook Plugin Daemon.

(** What [main] is to do; [log.Fatal] logs an error and exits. *)
Inductive daemon_command :=
  | Fatal (e : error)
  | RunHook (opts : CDIHookOptions)
  | RunDaemon (cfg : Config).

Section main.
Context `{UnicodeTables, LibErrors, HostLibs, Certificates, ClientCommands, HookJSON, MapOrder}.

Definition daemon_main (lookup : string → option string) (argv : list string) : daemon_command :=
  let daemon :=
    match configFromLookup lookup with
    | Err e => Fatal e
    | Ok cfg => RunDaemon cfg
    end in
  match argv with
  | _ :: name :: args =>
      if bool_decide (name = CDIHookCommand) then
        match ParseCDIHookArgs args with
        | Err e => Fatal (wrap CDIHookCommand e)
        | Ok opts => RunHook opts
        end
      else daemon
  | _ => daemon
  end.

(** The calls of the process and its exit status, none while it runs: the
    daemon's [Run] only returns the error of its cancelled context. *)
Definition daemon_process (lookup : string → option string) (argv : list string) (stdin : result string)
    (n m : nat) (tr : list (event daemon_sig)) (exit : option Z) : Prop :=
  match daemon_main lookup argv with
  | Fatal _ => tr = [] ∧ exit = Some 1%Z
  | RunHook opts => ∃ tr' r, exec (RunCDIHook opts (Some stdin)) tr' r ∧
      tr = event_l (T:=sig_sum reader_sig machine_sig) ∘ event_l (T:=setup_sig) <$> tr' ∧
      exit = Some (if is_ok r then 0 else 1)%Z
  | RunDaemon cfg => ∃ a, run_daemon lookup cfg n m tr a ∧
      exit = match a with Some _ => Some 1%Z | None => None end
  end.
End main.

Lemma files_only (tr : list (event os_sig)) :
  let tr' := event_l (T:=sig_sum reader_sig machine_sig) ∘ event_l (T:=setup_sig) <$> tr in
  omap command_of tr' = [] ∧ kubelet_starts tr' = [].
Proof. induction tr as [|[e r] tr [IH1 IH2]]; [done|]. split; [exact IH1|exact IH2]. Qed.

(** C21: what the container runtime runs for a claim's CDI device, with the
    arguments that are in its spec and whatever is in its environment, is the
    hook with the settings of the store that wrote them: it exits with zero
    exactly when the hook succeeds, runs no command and starts no plugin.  The
    arguments do not depend on the order in which the map of flags is walked,
    so a rewritten spec is byte-identical. *)
Theorem hook_process `{UnicodeTables, LibErrors, HostLibs, Certificates, ClientCommands, HookJSON}
    (order1 order2 : MapOrder) lookup s dir al stdin n m tr exit :
  blank (stateDir s dir) = false →
  hook_args (H0:=order1) s dir al = hook_args (H0:=order2) s dir al ∧
  (daemon_process (H5:=order1) lookup (hook_args (H0:=order2) s dir al) stdin n m tr exit ↔
   ∃ tr' r, exec (RunCDIHook (H0:=order1) (options_of s dir al) (Some stdin)) tr' r ∧
     tr = event_l (T:=sig_sum reader_sig machine_sig) ∘ event_l (T:=setup_sig) <$> tr' ∧
     exit = Some (if is_ok r then 0 else 1)%Z) ∧
  (daemon_process (H5:=order1) lookup (hook_args (H0:=order2) s dir al) stdin n m tr exit →
   omap command_of tr = [] ∧ kubelet_starts tr = []).
Proof.
  intros Hdir. destruct (hook_args_roundtrip order1 order2 s dir al Hdir) as (Ho & args & Hargs & Hparse).
  split; [done|]. rewrite <-Ho, Hargs.
  assert (daemon_main lookup (trim_space (fc_HookPath s) :: CDIHookCommand :: args) = RunHook (options_of s dir al)) as Hm
    by (unfold daemon_main; by rewrite bool_decide_true, Hparse).
  unfold daemon_process. rewrite Hm. split; [done|].
  intros (tr' & r & _ & -> & _). exact (files_only tr').
Qed.

Section witnesses.
#[local] Existing Instances ascii_tables status_errors daemon_libs any_certificate sample_commands enrolling_json.

Definition sample_hook : prog os_sig (result unit) :=
  @RunCDIHook enrolling_json listed_order (options_of sample_store "claim-uid-1" guest_sample) (Some (Ok "{}")).

Lemma hook_process_witness :
  ∃ tr exit, daemon_process (H5:=listed_order) daemon_env
      (hook_args (H0:=listed_order) sample_store "claim-uid-1" guest_sample) (Ok "{}") 1 1 tr exit ∧
    omap command_of tr = [].
Proof.
  pose proof (run_exec (thunder_handler serve_all) sample_hook empty_node) as Hx.
  destruct (hook_process listed_order listed_order daemon_env sample_store "claim-uid-1" guest_sample (Ok "{}") 1 1
    (event_l ∘ event_l <$> trace (thunder_handler serve_all) sample_hook empty_node)
    (Some (if is_ok (run (thunder_handler serve_all) sample_hook empty_node).1 then 0 else 1)%Z)
    ltac:(vm_compute; reflexivity)) as (_ & [_ Hrun] & Hquiet).
  eexists _, _. split; [apply Hrun|apply Hquiet, Hrun];
    (eexists _, _; split; [exact Hx|split; reflexivity]).
Defined.

(** A daemon that is told to stop, and nothing else, exits with one; the
    operator exits with zero. *)
Example stopped_daemon_fails :
  daemon_process (H5:=listed_order) daemon_env ["daemon"] (Ok "") 1 0 [mev (Timer 0) true] (Some 1%Z).
Proof.
  unfold daemon_process.
  assert (daemon_main daemon_env ["daemon"] = RunDaemon DaemonConfig.sample_config) as -> by (vm_compute; reflexivity).
  exists (Some tt). split; [|reflexivity]. exists [mev (Timer 0) true], [], [], None.
  split; [|split; [vm_compute; by split|by do 2 constructor]].
  exists true, []. split; [reflexivity|]. by split.
Qed.
End witnesses.
