(* ===== verification/OperatorMain.v ===== *)
(** * The operator's entry point

    cmd/operator/main.go: the configuration, the cluster it talks to, the
    Thunder client, and then [Run] until it is stopped. *)

From S2P Require Import Prelude GoStrings Float64 GoDuration Labels ResourceSlice Inventory KubeAPI.
From S2P Require Import DeviceClass Reaper Operator OperatorSpec OperatorRun GoPath Version.

(** A client configuration: of a kubeconfig file, or of the pod's cluster. *)
Inductive kube_config := FromFile (path : string) | InCluster.
Record thunder_client := ThunderClientOf { tc_URL : string; tc_Token : string; tc_UserAgent : string }.

Inductive main_ev :=
  | UserHomeDir
  | StatFile (path : string)
  | BuildConfigFromFlags (path : string)
  | InClusterConfig
  | NewKube (config : kube_config)
  | NewDynamic (config : kube_config).
Definition main_resp (e : main_ev) : Type :=
  match e with UserHomeDir => result string | _ => result unit end.
Definition main_sig : sig := Sig main_ev main_resp.
Abbreviation operator_sig := (sig_sum run_sig main_sig).
Definition setup (e : main_ev) : prog operator_sig (main_resp e) := call (S:=operator_sig) (inr e).

(** How a process that was followed for some ticks stands. *)
Inductive process := Exited (code : Z) | Crashed | Serving (o : operator_state).

Section main.
Context `{UnicodeTables, MapOrder, FloatConversion, LibErrors}.
Context (LinkVersion : string) (build : option build_info).
Context (lookup : string → option string) (kubeconfig : string).

Definition thunderClientFromEnv : result thunder_client :=
  let apiToken := trim_space (Getenv lookup "THUNDER_API_TOKEN") in
  if bool_decide (apiToken = "") then Err (ErrText "THUNDER_API_TOKEN is required")
  else Ok (ThunderClientOf (Getenv lookup "THUNDER_API_URL") apiToken (UserAgent LinkVersion build "operator")).

Definition from_file (path : string) : prog operator_sig (result kube_config) :=
  let? _ := setup (BuildConfigFromFlags path) or id in mret (Ok (FromFile path)).
Definition in_cluster : prog operator_sig (result kube_config) :=
  let? _ := setup InClusterConfig or id in mret (Ok InCluster).

Definition kubernetesConfig : prog operator_sig (result kube_config) :=
  if bool_decide (kubeconfig ≠ "") then from_file kubeconfig
  else
    let envKubeconfig := Getenv lookup "KUBECONFIG" in
    if bool_decide (envKubeconfig ≠ "") then from_file envKubeconfig
    else
      home ← setup UserHomeDir;
      match (home : result string) with
      | Ok home =>
          let candidate := path_Join [home; ".kube"; "config"] in
          found ← setup (StatFile candidate);
          if is_ok (found : result unit) then from_file candidate else in_cluster
      | Err _ => in_cluster
      end.

(** [os.Exit(1)] after an error is logged; a context that was cancelled is no
    error. *)
Definition operator_main (n : nat) : prog operator_sig process :=
  match ConfigFromEnv lookup with
  | Err _ => mret (Exited 1)
  | Ok cfg =>
      config ← kubernetesConfig;
      match config with
      | Err _ => mret (Exited 1)
      | Ok config =>
          kube ← setup (NewKube config);
          if negb (is_ok (kube : result unit)) then mret (Exited 1)
          else
            clients ← setup (NewDynamic config);
            if negb (is_ok (clients : result unit)) then mret (Exited 1)
            else
              match thunderClientFromEnv with
              | Err _ => mret (Exited 1)
              | Ok _ =>
                  outcome ← lift_l (Run cfg true New n);
                  mret match outcome with
                       | Returned => Exited 0
                       | Panicked => Crashed
                       | Running o => Serving o
                       end
              end
      end
  end.
End main.

(* -------------------------------------------------------------------- *)
(** ** What the process does *)

(** Its calls as the operator, and its set-up. *)
Definition operating (tr : list (event operator_sig)) : list (event run_sig) :=
  omap (λ x : event operator_sig,
    match x with Ev (inl e) r => Some (Ev (S:=run_sig) e r) | _ => None end) tr.
(** The configurations clients were built for. *)
Definition connected (tr : list (event operator_sig)) : list kube_config :=
  omap (λ x : event operator_sig,
    match evt_call x with inr (NewKube c) | inr (NewDynamic c) => Some c | _ => None end) tr.

Lemma operating_app tr1 tr2 : operating (tr1 ++ tr2) = operating tr1 ++ operating tr2.
Proof. apply omap_app. Qed.
Lemma connected_app tr1 tr2 : connected (tr1 ++ tr2) = connected tr1 ++ connected tr2.
Proof. apply omap_app. Qed.
Lemma operating_lifted (tr : list (event run_sig)) :
  operating (event_l (T:=main_sig) <$> tr) = tr ∧ connected (event_l (T:=main_sig) <$> tr) = [].
Proof.
  induction tr as [|[e r] tr [IH1 IH2]]; [done|]. split; [|exact IH2]. cbn. f_equal. exact IH1.
Qed.
Lemma exec_setup {B} e (f : main_resp e → prog operator_sig B) tr b :
  exec (setup e ≫= f) tr b ↔ ∃ r tr', tr = Ev (S:=operator_sig) (inr e) r :: tr' ∧ exec (f r) tr' b.
Proof. done. Qed.

Section lemmas.
Context (lookup : string → option string) (kubeconfig : string).

(** The configuration that counts: the flag, then the variable, then the
    user's own file where there is one, then the pod's. *)
Definition chosen (home : option string) : kube_config :=
  if bool_decide (kubeconfig ≠ "") then FromFile kubeconfig
  else if bool_decide (Getenv lookup "KUBECONFIG" ≠ "") then FromFile (Getenv lookup "KUBECONFIG")
  else match home with Some h => FromFile (path_Join [h; ".kube"; "config"]) | None => InCluster end.

Lemma from_file_exec path tr r : exec (from_file path) tr r →
  operating tr = [] ∧ connected tr = [] ∧ ∀ c, r = Ok c → c = FromFile path.
Proof.
  unfold from_file, orfail. intros ([[]|e] & tr' & -> & Hx)%exec_setup; destruct Hx as [-> ->];
    (split_and!; [done|done|]); by intros c [= <-].
Qed.
Lemma in_cluster_exec tr r : exec in_cluster tr r →
  operating tr = [] ∧ connected tr = [] ∧ ∀ c, r = Ok c → c = InCluster.
Proof.
  unfold in_cluster, orfail. intros ([[]|e] & tr' & -> & Hx)%exec_setup; destruct Hx as [-> ->];
    (split_and!; [done|done|]); by intros c [= <-].
Qed.

Lemma kubernetesConfig_exec tr r : exec (kubernetesConfig lookup kubeconfig) tr r →
  operating tr = [] ∧ connected tr = [] ∧ ∀ c, r = Ok c → ∃ home, c = chosen home.
Proof.
  unfold kubernetesConfig, chosen. case_bool_decide as Hk.
  { intros (? & ? & Hc)%from_file_exec. split_and!; [done..|]. intros c ->%Hc. by exists None. }
  case_bool_decide as He.
  { intros (? & ? & Hc)%from_file_exec. split_and!; [done..|]. intros c ->%Hc. by exists None. }
  intros ([home|e] & tr' & -> & Hx)%exec_setup; cbn [mbind prog_bind prog_bind_def] in Hx.
  - apply exec_setup in Hx as (found & tr2 & -> & Hx). cbn [mbind prog_bind prog_bind_def] in Hx.
    destruct (is_ok _).
    + apply from_file_exec in Hx as (? & ? & Hc). split_and!; [done..|]. intros c ->%Hc. by exists (Some home).
    + apply in_cluster_exec in Hx as (? & ? & Hc). split_and!; [done..|]. intros c ->%Hc. by exists None.
  - apply in_cluster_exec in Hx as (? & ? & Hc). split_and!; [done..|]. intros c ->%Hc. by exists None.
Qed.
End lemmas.

Section theorems.
Context `{UnicodeTables, FloatConversion, LibErrors, MapOrder}.

(** C34: the operator's process exits with one, before it made any call to the
    Kubernetes API or to Thunder, or runs: with a configuration its
    environment gives, a Thunder token, and both clients for the one cluster
    that was chosen.  From then on, whatever fails, it synchronises once at
    the start and once at every tick, each time with the state the
    synchronisation before left, and it exits with zero only because it was
    told to stop - unless the interval is not positive, where it crashes
    after the first synchronisation. *)
Theorem operator_process LinkVersion build lookup kubeconfig n tr x :
  exec (operator_main LinkVersion build lookup kubeconfig n) tr x →
  (operating tr = [] ∧ x = Exited 1) ∨
  ∃ cfg home trs o',
    ConfigFromEnv lookup = Ok cfg ∧ trim_space (Getenv lookup "THUNDER_API_TOKEN") ≠ "" ∧
    connected tr = [chosen lookup kubeconfig home; chosen lookup kubeconfig home] ∧
    syncs cfg true New trs o' ∧ op_events (operating tr) = concat trs ∧
    match x with
    | Crashed => (ReconcileInterval cfg ≤ 0)%Z ∧ length trs = 1%nat ∧ ticks (operating tr) = []
    | Exited code => code = 0%Z ∧ (0 < ReconcileInterval cfg)%Z ∧
        ticks (operating tr) = replicate (length trs - 1) false ++ [true] ∧ (1 ≤ length trs ≤ n)%nat
    | Serving o => (0 < ReconcileInterval cfg)%Z ∧
        ticks (operating tr) = replicate n false ∧ length trs = S n ∧ o = o'
    end.
Proof.
  unfold operator_main, thunderClientFromEnv. destruct (ConfigFromEnv lookup) as [cfg|e]; [|intros [-> ->]; by left].
  intros (tr1 & config & tr2 & -> & (Ho & Hc & Hconfig)%kubernetesConfig_exec & Hx)%exec_bind.
  rewrite operating_app, connected_app, Ho, Hc.
  destruct config as [config|e]; [|destruct Hx as [-> ->]; by left].
  destruct (Hconfig config eq_refl) as [home ->]. clear Hconfig.
  apply exec_setup in Hx as (kube & tr3 & -> & Hx). cbn [mbind prog_bind prog_bind_def] in Hx.
  destruct (is_ok _); [|destruct Hx as [-> ->]; by left]. cbn [negb] in Hx.
  apply exec_setup in Hx as (clients & tr4 & -> & Hx). cbn [mbind prog_bind prog_bind_def] in Hx.
  destruct (is_ok _); [|destruct Hx as [-> ->]; by left]. cbn [negb] in Hx.
  case_bool_decide as Htoken; [destruct Hx as [-> ->]; by left|].
  apply exec_bind in Hx as (tr5 & outcome & tr6 & -> & (tr' & -> & Hrun)%exec_lift_l & [-> ->]).
  right. apply Run_ends in Hrun as (trs & o' & Hs & Hev & Hm). exists cfg, home, trs, o'.
  rewrite app_nil_r. destruct (operating_lifted tr') as [Hol Hcl].
  change (operating (?x :: ?y :: ?l)) with (operating l). cbn [app].
  change (connected (Ev (S:=operator_sig) (inr (NewKube ?c)) kube :: Ev (S:=operator_sig) (inr (NewDynamic ?c)) clients :: ?l))
    with (c :: c :: connected l).
  rewrite Hol, Hcl. split_and!; [done..|]. by destruct outcome.
Qed.
End theorems.

Section witnesses.
#[local] Existing Instances ascii_tables listed_order amd64_conversion status_errors status_server_errors.

Definition operator_env (key : string) : option string :=
  if bool_decide (key = "THUNDER_API_TOKEN") then Some " token " else None.
(** A pod without a home: the cluster's own configuration is used. *)
Definition pod_setup : handler main_sig server := λ e w,
  (match e return main_resp e with
   | UserHomeDir => Ok "/root"
   | StatFile _ | BuildConfigFromFlags _ => Err ErrNotFound
   | InClusterConfig | NewKube _ | NewDynamic _ => Ok tt
   end, w).
Definition operator_handler : handler operator_sig server := handler_sum run_handler pod_setup.
Definition sample_operator : prog operator_sig process := operator_main "v1" None operator_env "" 2.

Lemma operator_process_witness :
  let tr := trace operator_handler sample_operator sample_server in
  connected tr = [InCluster; InCluster] ∧
  ∃ o cfg trs o', exec sample_operator tr (Serving o) ∧ syncs cfg true New trs o' ∧
    op_events (operating tr) = concat trs ∧ length trs = 3%nat.
Proof.
  cbv zeta. set (tr := trace operator_handler sample_operator sample_server).
  assert (connected tr = [InCluster; InCluster]) as Hc by (vm_compute; reflexivity). split; [exact Hc|].
  pose proof (run_exec operator_handler sample_operator sample_server) as Hx. fold tr in Hx.
  assert (match (run operator_handler sample_operator sample_server).1 with Serving _ => true | _ => false end = true)
    as Hs by (vm_compute; reflexivity).
  destruct (run operator_handler sample_operator sample_server).1 as [|code|o]; [discriminate..|].
  destruct (operator_process "v1" None operator_env "" 2 tr (Serving o) Hx)
    as [[_ ?]|(cfg & home & trs & o' & _ & _ & _ & Hsyncs & Hev & _ & _ & Hl & _)]; [discriminate|].
  exists o, cfg, trs, o'. exact (conj Hx (conj Hsyncs (conj Hev Hl))).
Defined.
End witnesses.
